(** * xv6 file system (6.S081 "fs" lab): block map, file I/O, paths, links

    A shallow embedding of the file-system core of the kernel
    (fs.c: balloc, bfree, ialloc, iupdate, iget, ilock, iput, bmap, itrunc,
    readi, writei, dirlookup, dirlink, skipelem, namex; sysfile.c: sys_link,
    create) and the properties stated about it.

    Conventions of the embedding:
    - C integers are [Z]; where the C arithmetic can wrap (uint offsets,
      short link counts, ushort directory inode numbers) the wrap-around is
      written out;
    - the buffer cache is one store of bytes addressed by (device, block
      number, byte offset); [bread]/[brelse]/[log_write] do not change what a
      single thread of control observes in it, so they leave no trace;
    - the in-memory inode cache is a table of slots; a [struct inode *] is the
      index of its slot, so that aliasing between pointers is kept;
    - code runs in a state-and-error monad whose results are a value, a
      [panic], or C undefined behaviour (an array indexed out of bounds);
    - locks are not modelled: there is one thread of control. *)

From Stdlib Require Import ZArith List Lia Bool String Ascii.
Import ListNotations.
Open Scope Z_scope.

(** ** Constants *)

(** Modelled from the spec: fs.h is not among the sources. The block size is
    1024 bytes, an indirect block holds BSIZE / sizeof(uint) block numbers,
    the bitmap holds one bit per block, a directory name has DIRSIZ = 14
    bytes and a directory entry is a ushort followed by the name. *)
Definition BSIZE : Z := 1024.
Definition NINDIRECT : Z := BSIZE / 4.
Definition BPB : Z := BSIZE * 8.
Definition DIRSIZ : Z := 14.
Definition DIRENT_SIZE : Z := 2 + DIRSIZ.

Arguments BSIZE : simpl never.
Arguments NINDIRECT : simpl never.
Arguments BPB : simpl never.
Arguments DIRSIZ : simpl never.
Arguments DIRENT_SIZE : simpl never.

(** ** Results of running kernel code *)

Inductive outcome (A : Type) : Type :=
| Ret (a : A)            (* the call returns *)
| Panic (msg : string)   (* panic(msg): the kernel stops *)
| Undefined              (* an array is indexed outside its bounds *)
| Hang                   (* acquiresleep on a lock that is never released *)
| OutOfFuel.             (* the bound given to a loop was too small *)
Arguments Ret {A} a.
Arguments Panic {A} msg.
Arguments Undefined {A}.
Arguments Hang {A}.
Arguments OutOfFuel {A}.

(** ** Machine integers *)

Definition wrap32 (x : Z) : Z := x mod 2 ^ 32.
Definition wrap64 (x : Z) : Z := x mod 2 ^ 64.
(** conversion of a uint to int (the return type of readi and writei) *)
Definition to_int (x : Z) : Z :=
  let y := x mod 2 ^ 32 in if y <? 2 ^ 31 then y else y - 2 ^ 32.
(** conversion to short (nlink, type, major, minor) *)
Definition to_short (x : Z) : Z :=
  let y := x mod 2 ^ 16 in if y <? 2 ^ 15 then y else y - 2 ^ 16.
(** conversion to ushort (the inum of a directory entry) *)
Definition to_ushort (x : Z) : Z := x mod 2 ^ 16.

(** ** State *)

(** struct superblock: the fields the code reads. *)
Record superblock : Type := mkSb {
  sb_size : Z;        (* number of blocks of the device *)
  sb_ninodes : Z;     (* number of inodes *)
  sb_bmapstart : Z    (* first bitmap block *)
}.

(** struct dinode. Modelled from the spec: the byte layout of the record
    inside an inode block (fs.h) is not among the sources, so the inode
    region is kept as the table of its decoded records. *)
Record dinode : Type := mkDinode {
  d_type : Z;
  d_major : Z;
  d_minor : Z;
  d_nlink : Z;
  d_size : Z;
  d_addrs : Z -> Z
}.

(** struct inode: an entry of the inode cache. *)
Record inode : Type := mkInode {
  i_dev : Z;
  i_inum : Z;
  i_ref : Z;
  i_locked : bool;    (* ip->lock is held *)
  i_valid : Z;
  i_type : Z;
  i_major : Z;
  i_minor : Z;
  i_nlink : Z;
  i_size : Z;
  i_addrs : Z -> Z
}.

Record fs : Type := mkFs {
  sb : superblock;                 (* the global sb *)
  disk : Z -> Z -> Z -> Z;         (* device, block, offset -> byte *)
  dinodes : Z -> Z -> dinode;      (* device, inum -> on-disk inode *)
  icache : nat -> inode;           (* icache.inode[] *)
  cwd : nat;                       (* myproc()->cwd *)
  umem : Z -> option Z;            (* user memory of the process; None: not mapped *)
  kmem : Z -> Z                    (* kernel memory used as copy source or target *)
}.

Definition M (A : Type) : Type := fs -> outcome (A * fs).

Definition ret {A} (a : A) : M A := fun s => Ret (a, s).
Definition bind {A B} (m : M A) (k : A -> M B) : M B :=
  fun s => match m s with
           | Ret (a, s') => k a s'
           | Panic msg => Panic msg
           | Undefined => Undefined
           | Hang => Hang
           | OutOfFuel => OutOfFuel
           end.
Definition panic {A} (msg : string) : M A := fun _ => Panic msg.
Definition undefined {A} : M A := fun _ => Undefined.
Definition get : M fs := fun s => Ret (s, s).
Definition modify (f : fs -> fs) : M unit := fun s => Ret (tt, f s).

Notation "x <- c1 ;; c2" := (bind c1 (fun x => c2))
  (at level 61, c1 at next level, right associativity).
Notation "c1 ;;; c2" := (bind c1 (fun _ => c2))
  (at level 61, right associativity).

(** *** Updates of the components *)

Definition upd {A} (f : Z -> A) (k : Z) (v : A) : Z -> A :=
  fun x => if x =? k then v else f x.
Definition updn {A} (f : nat -> A) (k : nat) (v : A) : nat -> A :=
  fun x => if Nat.eqb x k then v else f x.

Definition set_disk (d : Z -> Z -> Z -> Z) (s : fs) : fs :=
  mkFs (sb s) d (dinodes s) (icache s) (cwd s) (umem s) (kmem s).
Definition set_dinodes (d : Z -> Z -> dinode) (s : fs) : fs :=
  mkFs (sb s) (disk s) d (icache s) (cwd s) (umem s) (kmem s).
Definition set_icache (c : nat -> inode) (s : fs) : fs :=
  mkFs (sb s) (disk s) (dinodes s) c (cwd s) (umem s) (kmem s).
Definition set_umem (m : Z -> option Z) (s : fs) : fs :=
  mkFs (sb s) (disk s) (dinodes s) (icache s) (cwd s) m (kmem s).
Definition set_kmem (m : Z -> Z) (s : fs) : fs :=
  mkFs (sb s) (disk s) (dinodes s) (icache s) (cwd s) (umem s) m.

(** bp->data[off] = v, for the buffer of block [b] of device [dev] *)
Definition put_byte (dev b off v : Z) (s : fs) : fs :=
  set_disk (upd (disk s) dev (upd (disk s dev) b (upd (disk s dev b) off v))) s.

(** memset(bp->data, 0, BSIZE) *)
Definition zero_block (dev b : Z) (s : fs) : fs :=
  set_disk (upd (disk s) dev (upd (disk s dev) b (fun _ => 0))) s.

(** ((uint* )bp->data)[i], little endian *)
Definition u32_at (s : fs) (dev b i : Z) : Z :=
  disk s dev b (4 * i) mod 256
  + (disk s dev b (4 * i + 1) mod 256) * 2 ^ 8
  + (disk s dev b (4 * i + 2) mod 256) * 2 ^ 16
  + (disk s dev b (4 * i + 3) mod 256) * 2 ^ 24.

(** ((uint* )bp->data)[i] = v *)
Definition put_u32 (dev b i v : Z) (s : fs) : fs :=
  put_byte dev b (4 * i + 3) (v / 2 ^ 24 mod 256)
    (put_byte dev b (4 * i + 2) (v / 2 ^ 16 mod 256)
       (put_byte dev b (4 * i + 1) (v / 2 ^ 8 mod 256)
          (put_byte dev b (4 * i) (v mod 256) s))).

(** Reading entry [i] of a block seen as uint[NINDIRECT]: an index outside
    the BSIZE bytes of the buffer is undefined behaviour. *)
Definition read_entry (dev b i : Z) : M Z :=
  fun s => if (0 <=? i) && (i <? NINDIRECT) then Ret (u32_at s dev b i, s)
           else Undefined.
Definition write_entry (dev b i v : Z) : M unit :=
  fun s => if (0 <=? i) && (i <? NINDIRECT) then Ret (tt, put_u32 dev b i v s)
           else Undefined.

(** ** Blocks *)

(** Modelled from the spec: the macro BBLOCK of fs.h, the bitmap block that
    holds the bit of block [b]. *)
Definition BBLOCK (b : Z) (s : superblock) : Z := b / BPB + sb_bmapstart s.

(** bzero *)
Definition bzero (dev bno : Z) : M unit := modify (zero_block dev bno).

(** The inner loop of balloc over the bits of one bitmap block; [None]: the
    loop ended without a free bit. *)
Fixpoint balloc_bits (fuel : nat) (dev b bi : Z) : M (option Z) :=
  fun s =>
    if (bi <? BPB) && (b + bi <? sb_size (sb s)) then
      match fuel with
      | O => OutOfFuel
      | S fuel' =>
          let m := Z.shiftl 1 (bi mod 8) in
          let blk := BBLOCK b (sb s) in
          if Z.land (disk s dev blk (bi / 8)) m =? 0 then
            (* the block is free: mark it in use, zero it *)
            (modify (put_byte dev blk (bi / 8) (Z.lor (disk s dev blk (bi / 8)) m)) ;;;
             bzero dev (b + bi) ;;;
             ret (Some (b + bi))) s
          else balloc_bits fuel' dev b (bi + 1) s
      end
    else Ret (None, s).

(** The outer loop of balloc over the bitmap blocks. *)
Fixpoint balloc_blocks (fuel : nat) (dev b : Z) : M Z :=
  fun s =>
    if b <? sb_size (sb s) then
      match fuel with
      | O => OutOfFuel
      | S fuel' =>
          (r <- balloc_bits (Z.to_nat BPB) dev b 0 ;;
           match r with
           | Some a => ret a
           | None => balloc_blocks fuel' dev (b + BPB)
           end) s
      end
    else Panic "balloc: out of blocks".

(** balloc: allocate a zeroed disk block. *)
Definition balloc (dev : Z) : M Z :=
  fun s => balloc_blocks (Z.to_nat (sb_size (sb s))) dev 0 s.

(** bfree *)
Definition bfree (dev b : Z) : M unit :=
  fun s =>
    let blk := BBLOCK b (sb s) in
    let bi := b mod BPB in
    let m := Z.shiftl 1 (bi mod 8) in
    if Z.land (disk s dev blk (bi / 8)) m =? 0 then Panic "freeing free block"
    else Ret (tt, put_byte dev blk (bi / 8)
                    (Z.land (disk s dev blk (bi / 8)) (Z.lnot m)) s).

(** ** Strings *)

(** A C string is kept as the list of its bytes; the byte read at the end of
    the list is the terminating NUL. *)
Definition deref (p : list Z) : Z := match p with [] => 0 | c :: _ => c end.
Definition slash : Z := 47.

(** while( *path == '/') path++; *)
Fixpoint skip_slashes (path : list Z) : list Z :=
  match path with
  | [] => []
  | c :: rest => if c =? slash then skip_slashes rest else path
  end.

(** while( *path != '/' && *path != 0) path++; *)
Fixpoint skip_name (path : list Z) : list Z :=
  match path with
  | [] => []
  | c :: rest => if negb (c =? slash) && negb (c =? 0) then skip_name rest else path
  end.

(** memmove(dst, src, n) between byte arrays kept as lists *)
Definition memmove_list (dst src : list Z) (n : nat) : list Z :=
  firstn n src ++ skipn n dst.

(** buf[k] = v *)
Definition store_at (buf : list Z) (k : nat) (v : Z) : list Z :=
  firstn k buf ++ v :: skipn (S k) buf.

(** skipelem: copy the next path element from path into name and return the
    path after it; [None] is the null pointer returned when there is no
    element. *)
Definition skipelem (path name : list Z) : option (list Z * list Z) :=
  let path := skip_slashes path in
  if deref path =? 0 then None
  else
    let s := path in
    let path := skip_name path in
    let len := (List.length s - List.length path)%nat in
    let name :=
      if Z.of_nat len >=? DIRSIZ then memmove_list name s (Z.to_nat DIRSIZ)
      else store_at (memmove_list name s len) len 0 in
    Some (skip_slashes path, name).

(** Modelled from the spec: strncmp of string.c is not among the sources;
    names are compared over at most [n] bytes, stopping at a NUL. *)
Fixpoint strncmp (p q : list Z) (n : nat) : Z :=
  match n with
  | O => 0
  | S n' =>
      if negb (deref p =? 0) && (deref p =? deref q)
      then strncmp (tl p) (tl q) n'
      else deref p mod 256 - deref q mod 256
  end.

(** Modelled from the spec: strncpy of string.c, the [n] bytes it stores:
    the bytes of [src] up to its NUL, then zeros. *)
Fixpoint strncpy (src : list Z) (n : nat) : list Z :=
  match n with
  | O => []
  | S n' =>
      if deref src =? 0 then 0 :: strncpy [] n'
      else deref src :: strncpy (tl src) n'
  end.

(** namecmp *)
Definition namecmp (s t : list Z) : Z := strncmp s t (Z.to_nat DIRSIZ).

(** ** Memory copies *)

Fixpoint all_mapped (m : Z -> option Z) (a : Z) (len : nat) : bool :=
  match len with
  | O => true
  | S len' => match m a with Some _ => all_mapped m (a + 1) len' | None => false end
  end.

Definition in_range (lo len x : Z) : bool := (lo <=? x) && (x <? lo + len).

(** Modelled from the spec: either_copyout (proc.c, vm.c) is an external
    collaborator. With user_dst it copies [len] bytes to the user address
    [dst] and returns -1 when part of the target is not mapped; otherwise it
    is memmove to the kernel address [dst]. [src i] is byte [i] of the
    source. A failing copy is taken to leave the target as it was. *)
Definition either_copyout (user_dst : bool) (dst : Z) (src : Z -> Z) (len : Z) : M Z :=
  fun s =>
    if user_dst then
      if all_mapped (umem s) dst (Z.to_nat len) then
        Ret (0, set_umem (fun a => if in_range dst len a then Some (src (a - dst))
                                   else umem s a) s)
      else Ret (-1, s)
    else
      Ret (0, set_kmem (fun a => if in_range dst len a then src (a - dst)
                                 else kmem s a) s).

(** Modelled from the spec: either_copyin, the converse copy, into the bytes
    [boff .. boff + len) of the buffer of block [b]. *)
Definition either_copyin (dev b boff : Z) (user_src : bool) (src : Z) (len : Z) : M Z :=
  fun s =>
    if user_src then
      if all_mapped (umem s) src (Z.to_nat len) then
        Ret (0, set_disk (upd (disk s) dev (upd (disk s dev) b
                   (fun o => if in_range boff len o
                             then match umem s (src + (o - boff)) with
                                  | Some v => v
                                  | None => 0
                                  end
                             else disk s dev b o))) s)
      else Ret (-1, s)
    else
      Ret (0, set_disk (upd (disk s) dev (upd (disk s dev) b
                 (fun o => if in_range boff len o then kmem s (src + (o - boff))
                           else disk s dev b o))) s).

(** ** Inodes *)

Definition with_addrs (a : Z -> Z) (i : inode) : inode :=
  mkInode (i_dev i) (i_inum i) (i_ref i) (i_locked i) (i_valid i) (i_type i) (i_major i)
          (i_minor i) (i_nlink i) (i_size i) a.
Definition with_size (v : Z) (i : inode) : inode :=
  mkInode (i_dev i) (i_inum i) (i_ref i) (i_locked i) (i_valid i) (i_type i) (i_major i)
          (i_minor i) (i_nlink i) v (i_addrs i).
Definition with_nlink (v : Z) (i : inode) : inode :=
  mkInode (i_dev i) (i_inum i) (i_ref i) (i_locked i) (i_valid i) (i_type i) (i_major i)
          (i_minor i) v (i_size i) (i_addrs i).
Definition with_type (v : Z) (i : inode) : inode :=
  mkInode (i_dev i) (i_inum i) (i_ref i) (i_locked i) (i_valid i) v (i_major i)
          (i_minor i) (i_nlink i) (i_size i) (i_addrs i).
Definition with_major (v : Z) (i : inode) : inode :=
  mkInode (i_dev i) (i_inum i) (i_ref i) (i_locked i) (i_valid i) (i_type i) v
          (i_minor i) (i_nlink i) (i_size i) (i_addrs i).
Definition with_minor (v : Z) (i : inode) : inode :=
  mkInode (i_dev i) (i_inum i) (i_ref i) (i_locked i) (i_valid i) (i_type i) (i_major i)
          v (i_nlink i) (i_size i) (i_addrs i).
Definition with_valid (v : Z) (i : inode) : inode :=
  mkInode (i_dev i) (i_inum i) (i_ref i) (i_locked i) v (i_type i) (i_major i)
          (i_minor i) (i_nlink i) (i_size i) (i_addrs i).
Definition with_ref (v : Z) (i : inode) : inode :=
  mkInode (i_dev i) (i_inum i) v (i_locked i) (i_valid i) (i_type i) (i_major i)
          (i_minor i) (i_nlink i) (i_size i) (i_addrs i).

Definition with_locked (v : bool) (i : inode) : inode :=
  mkInode (i_dev i) (i_inum i) (i_ref i) v (i_valid i) (i_type i) (i_major i)
          (i_minor i) (i_nlink i) (i_size i) (i_addrs i).

(** ip->field = ..., through the pointer [ip] into the cache *)
Definition set_inode (ip : nat) (f : inode -> inode) : M unit :=
  modify (fun s => set_icache (updn (icache s) ip (f (icache s ip))) s).

(** ip->addrs[k] = v *)
Definition store_addr (ip : nat) (k v : Z) (s : fs) : fs :=
  set_icache (updn (icache s) ip
    (with_addrs (upd (i_addrs (icache s ip)) k v) (icache s ip))) s.
Definition set_addr (ip : nat) (k v : Z) : M unit := modify (store_addr ip k v).

(** iupdate: copy a modified in-memory inode to disk. *)
Definition iupdate (ip : nat) : M unit :=
  modify (fun s =>
    let i := icache s ip in
    set_dinodes (upd (dinodes s) (i_dev i) (upd (dinodes s (i_dev i)) (i_inum i)
      (mkDinode (i_type i) (i_major i) (i_minor i) (i_nlink i) (i_size i) (i_addrs i)))) s).

Section FS.

(** Number of direct block numbers of an inode (fs.h, not among the sources);
    ip->addrs has NDIRECT + 2 entries. *)
Variable NDIRECT : Z.

Definition MAXFILE : Z := NDIRECT + NINDIRECT + NINDIRECT * NINDIRECT.

(** ** Block map *)

(** The block number kept in ip->addrs[k], allocated when it is 0. *)
Definition bmap_slot (ip : nat) (dev k : Z) : M Z :=
  s <- get ;;
  let addr := i_addrs (icache s ip) k in
  if addr =? 0 then
    addr <- balloc dev ;;
    set_addr ip k addr ;;;
    ret addr
  else ret addr.

(** The block number kept in entry [i] of block [b], allocated (and the
    block logged) when it is 0. *)
Definition bmap_entry (dev b i : Z) : M Z :=
  addr <- read_entry dev b i ;;
  if addr =? 0 then
    addr <- balloc dev ;;
    write_entry dev b i addr ;;;
    ret addr
  else ret addr.

(** bmap: the disk block address of the nth block of inode ip, allocated if
    there is none. The source ends in panic("bmap: out of range") after an
    if/else both of whose branches return. *)
Definition bmap (ip : nat) (bn : Z) : M Z :=
  s <- get ;;
  let dev := i_dev (icache s ip) in
  if bn <? NDIRECT then
    bmap_slot ip dev bn
  else
    let bn := bn - NDIRECT in
    if bn <? NINDIRECT then
      (* Load indirect block, allocating if necessary. *)
      addr <- bmap_slot ip dev NDIRECT ;;
      bmap_entry dev addr bn
    else
      let bn := bn - NINDIRECT in
      dublyIndirect <- bmap_slot ip dev (NDIRECT + 1) ;;
      let singlyIndirect := bn / NINDIRECT in
      _ <- bmap_entry dev dublyIndirect singlyIndirect ;;
      (* bread(ip->dev, a[singlyIndirect]): a still points at the buffer of
         the doubly-indirect block *)
      sing <- read_entry dev dublyIndirect singlyIndirect ;;
      let i := bn mod NINDIRECT in
      bmap_entry dev sing i.

(** ** File contents *)

(** The loop of readi; its result is the final value of [tot]. *)
Fixpoint readi_loop (fuel : nat) (ip : nat) (user_dst : bool) (n tot off dst : Z)
  : M Z :=
  if tot <? n then
    match fuel with
    | O => fun _ => OutOfFuel
    | S fuel' =>
        addr <- bmap ip (off / BSIZE) ;;
        s <- get ;;
        let dev := i_dev (icache s ip) in
        let m := Z.min (n - tot) (BSIZE - off mod BSIZE) in
        r <- either_copyout user_dst dst
               (fun i => disk s dev addr (off mod BSIZE + i)) m ;;
        if r =? -1 then ret tot   (* break *)
        else readi_loop fuel' ip user_dst n
               (wrap32 (tot + m)) (wrap32 (off + m)) (wrap64 (dst + m))
    end
  else ret tot.

(** readi: read data from inode. *)
Definition readi (ip : nat) (user_dst : bool) (dst off n : Z) : M Z :=
  s <- get ;;
  let size := i_size (icache s ip) in
  if (off >? size) || (wrap32 (off + n) <? off) then ret (-1)
  else
    let n := if wrap32 (off + n) >? size then wrap32 (size - off) else n in
    _ <- readi_loop (Z.to_nat n) ip user_dst n 0 off dst ;;
    ret (to_int n).

(** The loop of writei; its result is the final values of [tot] and [off]. *)
Fixpoint writei_loop (fuel : nat) (ip : nat) (user_src : bool) (n tot off src : Z)
  : M (Z * Z) :=
  if tot <? n then
    match fuel with
    | O => fun _ => OutOfFuel
    | S fuel' =>
        addr <- bmap ip (off / BSIZE) ;;
        s <- get ;;
        let dev := i_dev (icache s ip) in
        let m := Z.min (n - tot) (BSIZE - off mod BSIZE) in
        r <- either_copyin dev addr (off mod BSIZE) user_src src m ;;
        if r =? -1 then ret (tot, off)   (* break *)
        else writei_loop fuel' ip user_src n
               (wrap32 (tot + m)) (wrap32 (off + m)) (wrap64 (src + m))
    end
  else ret (tot, off).

(** writei: write data to inode. *)
Definition writei (ip : nat) (user_src : bool) (src off n : Z) : M Z :=
  s <- get ;;
  let size := i_size (icache s ip) in
  if (off >? size) || (wrap32 (off + n) <? off) then ret (-1)
  else if wrap32 (off + n) >? MAXFILE * BSIZE then ret (-1)
  else
    r <- writei_loop (Z.to_nat n) ip user_src n 0 off src ;;
    let off := snd r in
    (if n >? 0 then
       s <- get ;;
       (if off >? i_size (icache s ip) then set_inode ip (with_size off)
        else ret tt) ;;;
       (* write the i-node back to disk even if the size didn't change *)
       iupdate ip
     else ret tt) ;;;
    ret (to_int n).

(** ** The inode cache *)

(** Constants of param.h and stat.h, which are not among the sources. *)
Variable NINODE : nat.
Variable ROOTDEV : Z.
Variables T_DIR T_FILE T_DEVICE : Z.
(** Modelled from the spec: the root directory has inode number 1. *)
Definition ROOTINO : Z := 1.

(** acquiresleep(&ip->lock): with one thread of control a held lock is never
    released by someone else. *)
Definition acquiresleep (ip : nat) : M unit :=
  s <- get ;;
  if i_locked (icache s ip) then (fun _ => Hang)
  else set_inode ip (with_locked true).

Definition releasesleep (ip : nat) : M unit := set_inode ip (with_locked false).

(** The loop of iget over the slots idx, idx + 1, ... (k of them remain),
    followed by the recycling of the remembered empty slot. *)
Fixpoint iget_loop (k idx : nat) (dev inum : Z) (empty : option nat) : M nat :=
  match k with
  | O =>
      match empty with
      | None => panic "iget: no inodes"
      | Some ip =>
          set_inode ip (fun i =>
            mkInode dev inum 1 (i_locked i) 0 (i_type i) (i_major i) (i_minor i)
                    (i_nlink i) (i_size i) (i_addrs i)) ;;;
          ret ip
      end
  | S k' =>
      s <- get ;;
      let i := icache s idx in
      if (i_ref i >? 0) && (i_dev i =? dev) && (i_inum i =? inum) then
        set_inode idx (with_ref (i_ref i + 1)) ;;;
        ret idx
      else
        iget_loop k' (S idx) dev inum
          (match empty with
           | None => if i_ref i =? 0 then Some idx else None
           | Some e => Some e
           end)
  end.

(** iget *)
Definition iget (dev inum : Z) : M nat := iget_loop NINODE 0%nat dev inum None.

(** idup *)
Definition idup (ip : nat) : M nat :=
  set_inode ip (fun i => with_ref (i_ref i + 1) i) ;;; ret ip.

(** ilock: lock the inode, reading it from disk if necessary. *)
Definition ilock (ip : nat) : M unit :=
  s <- get ;;
  if i_ref (icache s ip) <? 1 then panic "ilock"
  else
    acquiresleep ip ;;;
    s <- get ;;
    if i_valid (icache s ip) =? 0 then
      set_inode ip (fun i =>
        let dip := dinodes s (i_dev i) (i_inum i) in
        mkInode (i_dev i) (i_inum i) (i_ref i) (i_locked i) 1 (d_type dip)
                (d_major dip) (d_minor dip) (d_nlink dip) (d_size dip) (d_addrs dip)) ;;;
      s <- get ;;
      if i_type (icache s ip) =? 0 then panic "ilock: no type" else ret tt
    else ret tt.

(** iunlock *)
Definition iunlock (ip : nat) : M unit :=
  s <- get ;;
  if negb (i_locked (icache s ip)) || (i_ref (icache s ip) <? 1) then panic "iunlock"
  else releasesleep ip.

(** The first loop of itrunc: for(i = 0; i < NDIRECT; i++), k iterations
    remain. *)
Fixpoint itrunc_direct (k : nat) (ip : nat) (i : Z) : M unit :=
  match k with
  | O => ret tt
  | S k' =>
      s <- get ;;
      let a := i_addrs (icache s ip) i in
      (if negb (a =? 0) then bfree (i_dev (icache s ip)) a ;;; set_addr ip i 0
       else ret tt) ;;;
      itrunc_direct k' ip (i + 1)
  end.

(** for(j = 0; j < NINDIRECT; j++) if(a[j]) bfree(dev, a[j]); with a the
    buffer of block [blk] *)
Fixpoint free_entries (k : nat) (dev blk j : Z) : M unit :=
  match k with
  | O => ret tt
  | S k' =>
      a <- read_entry dev blk j ;;
      (if negb (a =? 0) then bfree dev a else ret tt) ;;;
      free_entries k' dev blk (j + 1)
  end.

(** The loop of itrunc over the doubly-indirect block. *)
Fixpoint free_double (k : nat) (dev blk j : Z) : M unit :=
  match k with
  | O => ret tt
  | S k' =>
      a <- read_entry dev blk j ;;
      (if negb (a =? 0) then
         free_entries (Z.to_nat NINDIRECT) dev a 0 ;;;
         a' <- read_entry dev blk j ;;
         bfree dev a'
       else ret tt) ;;;
      free_double k' dev blk (j + 1)
  end.

(** itrunc: truncate inode (discard contents). *)
Definition itrunc (ip : nat) : M unit :=
  itrunc_direct (Z.to_nat NDIRECT) ip 0 ;;;
  s <- get ;;
  let dev := i_dev (icache s ip) in
  (let a := i_addrs (icache s ip) NDIRECT in
   if negb (a =? 0) then
     free_entries (Z.to_nat NINDIRECT) dev a 0 ;;;
     bfree dev a ;;;
     set_addr ip NDIRECT 0
   else ret tt) ;;;
  (let a := i_addrs (icache s ip) (NDIRECT + 1) in
   if negb (a =? 0) then
     free_double (Z.to_nat NINDIRECT) dev a 0 ;;;
     bfree dev a ;;;
     set_addr ip (NDIRECT + 1) 0
   else ret tt) ;;;
  set_inode ip (with_size 0) ;;;
  iupdate ip.

(** iput: drop a reference to an in-memory inode. *)
Definition iput (ip : nat) : M unit :=
  s <- get ;;
  let i := icache s ip in
  (if (i_ref i =? 1) && negb (i_valid i =? 0) && (i_nlink i =? 0) then
     (* inode has no links and no other references: truncate and free. *)
     acquiresleep ip ;;;
     itrunc ip ;;;
     set_inode ip (with_type 0) ;;;
     iupdate ip ;;;
     set_inode ip (with_valid 0) ;;;
     releasesleep ip
   else ret tt) ;;;
  set_inode ip (fun i => with_ref (i_ref i - 1) i).

(** iunlockput *)
Definition iunlockput (ip : nat) : M unit := iunlock ip ;;; iput ip.

(** The loop of ialloc. *)
Fixpoint ialloc_loop (fuel : nat) (dev type inum : Z) : M nat :=
  s <- get ;;
  if inum <? sb_ninodes (sb s) then
    match fuel with
    | O => fun _ => OutOfFuel
    | S fuel' =>
        if d_type (dinodes s dev inum) =? 0 then
          (* a free inode: memset(dip, 0, sizeof( *dip)); dip->type = type *)
          modify (set_dinodes (upd (dinodes s) dev (upd (dinodes s dev) inum
                    (mkDinode type 0 0 0 0 (fun _ => 0))))) ;;;
          iget dev inum
        else ialloc_loop fuel' dev type (inum + 1)
    end
  else panic "ialloc: no inodes".

(** ialloc: allocate an inode on device dev, of the given type. *)
Definition ialloc (dev type : Z) : M nat :=
  s <- get ;;
  ialloc_loop (Z.to_nat (sb_ninodes (sb s))) dev type 1.

(** ** Directories *)

(** Addresses of the local variables [de] of dirlookup and dirlink in kernel
    memory. *)
Variables de_dirlookup de_dirlink : Z.

(** de.inum (a ushort) and de.name of the struct dirent at address [a] *)
Definition de_inum (s : fs) (a : Z) : Z :=
  kmem s a mod 256 + (kmem s (a + 1) mod 256) * 256.
Definition de_name (s : fs) (a : Z) : list Z :=
  map (fun k => kmem s (a + 2 + Z.of_nat k)) (seq 0 (Z.to_nat DIRSIZ)).

(** Storing the bytes [l] at the kernel address [a]. *)
Definition kstore (a : Z) (l : list Z) : M unit :=
  modify (fun s => set_kmem (fun x =>
    if in_range a (Z.of_nat (List.length l)) x then nth (Z.to_nat (x - a)) l 0
    else kmem s x) s).

(** The loop of dirlookup; the result is the inode found and the offset of
    its entry. *)
Fixpoint dirlookup_loop (fuel : nat) (dp : nat) (name : list Z) (off : Z)
  : M (option (nat * Z)) :=
  s <- get ;;
  if off <? i_size (icache s dp) then
    match fuel with
    | O => fun _ => OutOfFuel
    | S fuel' =>
        r <- readi dp false de_dirlookup off DIRENT_SIZE ;;
        if negb (r =? DIRENT_SIZE) then panic "dirlookup read"
        else
          s <- get ;;
          if de_inum s de_dirlookup =? 0 then
            dirlookup_loop fuel' dp name (wrap32 (off + DIRENT_SIZE))
          else if namecmp name (de_name s de_dirlookup) =? 0 then
            (* entry matches path element *)
            ip <- iget (i_dev (icache s dp)) (de_inum s de_dirlookup) ;;
            ret (Some (ip, off))
          else dirlookup_loop fuel' dp name (wrap32 (off + DIRENT_SIZE))
    end
  else ret None.

(** dirlookup: look for a directory entry in a directory. *)
Definition dirlookup (dp : nat) (name : list Z) : M (option (nat * Z)) :=
  s <- get ;;
  if negb (i_type (icache s dp) =? T_DIR) then panic "dirlookup not DIR"
  else dirlookup_loop (Z.to_nat (i_size (icache s dp))) dp name 0.

(** The loop of dirlink looking for an empty dirent; the result is [off]. *)
Fixpoint dirlink_loop (fuel : nat) (dp : nat) (off : Z) : M Z :=
  s <- get ;;
  if off <? i_size (icache s dp) then
    match fuel with
    | O => fun _ => OutOfFuel
    | S fuel' =>
        r <- readi dp false de_dirlink off DIRENT_SIZE ;;
        if negb (r =? DIRENT_SIZE) then panic "dirlink read"
        else
          s <- get ;;
          if de_inum s de_dirlink =? 0 then ret off   (* break *)
          else dirlink_loop fuel' dp (wrap32 (off + DIRENT_SIZE))
    end
  else ret off.

(** dirlink: write a new directory entry (name, inum) into the directory dp. *)
Definition dirlink (dp : nat) (name : list Z) (inum : Z) : M Z :=
  (* Check that name is not present. *)
  r <- dirlookup dp name ;;
  match r with
  | Some (ip, _) => iput ip ;;; ret (-1)
  | None =>
      s <- get ;;
      off <- dirlink_loop (Z.to_nat (i_size (icache s dp))) dp 0 ;;
      kstore (de_dirlink + 2) (strncpy name (Z.to_nat DIRSIZ)) ;;;
      kstore de_dirlink [to_ushort inum mod 256; to_ushort inum / 256] ;;;
      r <- writei dp false de_dirlink off DIRENT_SIZE ;;
      if negb (r =? DIRENT_SIZE) then panic "dirlink" else ret 0
  end.

(** ** Paths *)

(** The loop of namex, from the inode [ip]; the result is the inode and the
    contents of the buffer [name]. *)
Fixpoint namex_loop (fuel : nat) (ip : nat) (path : list Z) (nameiparent : bool)
  (name : list Z) : M (option nat * list Z) :=
  match skipelem path name with
  | None =>
      if nameiparent then iput ip ;;; ret (None, name)
      else ret (Some ip, name)
  | Some (path, name) =>
      match fuel with
      | O => fun _ => OutOfFuel
      | S fuel' =>
          ilock ip ;;;
          s <- get ;;
          if negb (i_type (icache s ip) =? T_DIR) then
            iunlockput ip ;;; ret (None, name)
          else if nameiparent && (deref path =? 0) then
            (* Stop one level early. *)
            iunlock ip ;;; ret (Some ip, name)
          else
            next <- dirlookup ip name ;;
            match next with
            | None => iunlockput ip ;;; ret (None, name)
            | Some (next, _) =>
                iunlockput ip ;;;
                namex_loop fuel' next path nameiparent name
            end
      end
  end.

(** namex *)
Definition namex (path : list Z) (nameiparent : bool) (name : list Z)
  : M (option nat * list Z) :=
  ip <- (if deref path =? slash then iget ROOTDEV ROOTINO
         else s <- get ;; idup (cwd s)) ;;
  namex_loop (List.length path) ip path nameiparent name.

(** namei; its buffer char name[DIRSIZ] is not initialised in the source and
    is written by skipelem before it is read. *)
Definition namei (path : list Z) : M (option nat) :=
  r <- namex path false (repeat 0 (Z.to_nat DIRSIZ)) ;;
  ret (fst r).

(** nameiparent *)
Definition nameiparent (path name : list Z) : M (option nat * list Z) :=
  namex path true name.

(** ** System calls (sysfile.c) *)

(** The label bad of sys_link. *)
Definition sys_link_bad (ip : nat) : M Z :=
  ilock ip ;;;
  set_inode ip (fun i => with_nlink (to_short (i_nlink i - 1)) i) ;;;
  iupdate ip ;;;
  iunlockput ip ;;;
  (* end_op *)
  ret (-1).

(** sys_link: create the path new as a link to the same inode as old. The
    arguments are the strings fetched by argstr, [None] when it fails. *)
Definition sys_link (old new : option (list Z)) : M Z :=
  match old, new with
  | Some old, Some new =>
      (* begin_op *)
      r <- namei old ;;
      match r with
      | None => ret (-1)
      | Some ip =>
          ilock ip ;;;
          s <- get ;;
          if i_type (icache s ip) =? T_DIR then
            iunlockput ip ;;; ret (-1)
          else
            set_inode ip (fun i => with_nlink (to_short (i_nlink i + 1)) i) ;;;
            iupdate ip ;;;
            iunlock ip ;;;
            r <- nameiparent new (repeat 0 (Z.to_nat DIRSIZ)) ;;
            match r with
            | (None, _) => sys_link_bad ip
            | (Some dp, name) =>
                ilock dp ;;;
                s <- get ;;
                if negb (i_dev (icache s dp) =? i_dev (icache s ip)) then
                  iunlockput dp ;;; sys_link_bad ip
                else
                  r <- dirlink dp name (i_inum (icache s ip)) ;;
                  if r <? 0 then iunlockput dp ;;; sys_link_bad ip
                  else
                    iunlockput dp ;;;
                    iput ip ;;;
                    (* end_op *)
                    ret 0
            end
      end
  | _, _ => ret (-1)
  end.

(** create; the result is the locked inode, [None] for the null pointer. *)
Definition create (path : list Z) (type major minor : Z) : M (option nat) :=
  r <- nameiparent path (repeat 0 (Z.to_nat DIRSIZ)) ;;
  match r with
  | (None, _) => ret None
  | (Some dp, name) =>
      ilock dp ;;;
      r <- dirlookup dp name ;;
      match r with
      | Some (ip, _) =>
          iunlockput dp ;;;
          ilock ip ;;;
          s <- get ;;
          if (type =? T_FILE)
             && ((i_type (icache s ip) =? T_FILE) || (i_type (icache s ip) =? T_DEVICE))
          then ret (Some ip)
          else iunlockput ip ;;; ret None
      | None =>
          s <- get ;;
          ip <- ialloc (i_dev (icache s dp)) type ;;
          ilock ip ;;;
          set_inode ip (with_major major) ;;;
          set_inode ip (with_minor minor) ;;;
          set_inode ip (with_nlink 1) ;;;
          iupdate ip ;;;
          (if type =? T_DIR then   (* Create . and .. entries. *)
             set_inode dp (fun i => with_nlink (to_short (i_nlink i + 1)) i) ;;;  (* for ".." *)
             iupdate dp ;;;
             (* No ip->nlink++ for ".": avoid cyclic ref count. *)
             s <- get ;;
             r1 <- dirlink ip [46] (i_inum (icache s ip)) ;;
             if r1 <? 0 then panic "create dots"
             else
               s <- get ;;
               r2 <- dirlink ip [46; 46] (i_inum (icache s dp)) ;;
               if r2 <? 0 then panic "create dots" else ret tt
           else ret tt) ;;;
          s <- get ;;
          r <- dirlink dp name (i_inum (icache s ip)) ;;
          if r <? 0 then panic "create: dirlink"
          else iunlockput dp ;;; ret (Some ip)
      end
  end.

(** Addresses of the local variables [de] of isdirempty and of sys_unlink in
    kernel memory. *)
Variables de_isdirempty de_unlink : Z.

(** The loop of isdirempty. Its counter [off] is an int: it is compared with
    dp->size and passed to readi as a uint, and off += sizeof(de) is
    converted back to int. *)
Fixpoint isdirempty_loop (fuel : nat) (dp : nat) (off : Z) : M Z :=
  s <- get ;;
  if wrap32 off <? i_size (icache s dp) then
    match fuel with
    | O => fun _ => OutOfFuel
    | S fuel' =>
        r <- readi dp false de_isdirempty (wrap32 off) DIRENT_SIZE ;;
        if negb (r =? DIRENT_SIZE) then panic "isdirempty: readi"
        else
          s <- get ;;
          if negb (de_inum s de_isdirempty =? 0) then ret 0
          else isdirempty_loop fuel' dp (to_int (off + DIRENT_SIZE))
    end
  else ret 1.

(** isdirempty: is the directory dp empty except for "." and ".." ? *)
Definition isdirempty (dp : nat) : M Z :=
  s <- get ;;
  isdirempty_loop (Z.to_nat (i_size (icache s dp))) dp (2 * DIRENT_SIZE).

(** The label bad of sys_unlink. *)
Definition sys_unlink_bad (dp : nat) : M Z :=
  iunlockput dp ;;;
  (* end_op *)
  ret (-1).

(** sys_unlink from memset(&de, 0, sizeof(de)) on: the entry at [off] of dp
    is overwritten with zeroes and the link counts are decremented. *)
Definition sys_unlink_entry (dp ip : nat) (off : Z) : M Z :=
  kstore de_unlink (repeat 0 (Z.to_nat DIRENT_SIZE)) ;;;
  r <- writei dp false de_unlink off DIRENT_SIZE ;;
  if negb (r =? DIRENT_SIZE) then panic "unlink: writei"
  else
    s <- get ;;
    (if i_type (icache s ip) =? T_DIR then
       set_inode dp (fun i => with_nlink (to_short (i_nlink i - 1)) i) ;;;
       iupdate dp
     else ret tt) ;;;
    iunlockput dp ;;;
    set_inode ip (fun i => with_nlink (to_short (i_nlink i - 1)) i) ;;;
    iupdate ip ;;;
    iunlockput ip ;;;
    (* end_op *)
    ret 0.

(** sys_unlink; the argument is the string fetched by argstr, [None] when it
    fails. The buffer char name[DIRSIZ] is not initialised in the source and
    is written by skipelem before it is read. *)
Definition sys_unlink (path : option (list Z)) : M Z :=
  match path with
  | None => ret (-1)
  | Some path =>
      (* begin_op *)
      r <- nameiparent path (repeat 0 (Z.to_nat DIRSIZ)) ;;
      match r with
      | (None, _) => ret (-1)
      | (Some dp, name) =>
          ilock dp ;;;
          (* Cannot unlink "." or "..". *)
          if (namecmp name [46] =? 0) || (namecmp name [46; 46] =? 0) then
            sys_unlink_bad dp
          else
            r <- dirlookup dp name ;;
            match r with
            | None => sys_unlink_bad dp
            | Some (ip, off) =>
                ilock ip ;;;
                s <- get ;;
                if i_nlink (icache s ip) <? 1 then panic "unlink: nlink < 1"
                else if i_type (icache s ip) =? T_DIR then
                  e <- isdirempty ip ;;
                  if e =? 0 then iunlockput ip ;;; sys_unlink_bad dp
                  else sys_unlink_entry dp ip off
                else sys_unlink_entry dp ip off
            end
      end
  end.

(** sys_mkdir *)
Definition sys_mkdir (path : option (list Z)) : M Z :=
  match path with
  | None => ret (-1)
  | Some path =>
      r <- create path T_DIR 0 0 ;;
      match r with
      | None => ret (-1)
      | Some ip => iunlockput ip ;;; ret 0
      end
  end.



(** ** File descriptors (sysfile.c) *)

(** Number of open files per process (param.h, not among the sources). *)
Variable NOFILE : Z.

(** The table p->ofile of the current process: NOFILE pointers to struct
    file, 0 in a free entry. The loop of fdalloc, k iterations remain; the
    result is the descriptor and the table. *)
Fixpoint fdalloc_loop (k : nat) (fd : Z) (ofile : Z -> Z) (f : Z) : Z * (Z -> Z) :=
  match k with
  | O => (-1, ofile)
  | S k' =>
      if ofile fd =? 0 then (fd, upd ofile fd f)
      else fdalloc_loop k' (fd + 1) ofile f
  end.

(** fdalloc: allocate a file descriptor for the given file. *)
Definition fdalloc (ofile : Z -> Z) (f : Z) : Z * (Z -> Z) :=
  fdalloc_loop (Z.to_nat NOFILE) 0 ofile f.

(** argfd: the descriptor and the struct file of a system call argument;
    [fd] is the int that argint fetched, [None] when argint fails. The
    result [None] is the return value -1, and [Some (fd, f)] is 0 with
    *pfd = fd and *pf = f. *)
Definition argfd (ofile : Z -> Z) (fd : option Z) : option (Z * Z) :=
  match fd with
  | None => None
  | Some fd =>
      if (fd <? 0) || (fd >=? NOFILE) || (ofile fd =? 0) then None
      else Some (fd, ofile fd)
  end.

(** ** Notions used in the statements *)

(** The bit of block [x] in the bitmap is set. *)
Definition block_used (s : fs) (dev x : Z) : bool :=
  negb (Z.land (disk s dev (BBLOCK x (sb s)) (x mod BPB / 8)) (Z.shiftl 1 (x mod 8)) =? 0).

(** Setting the bit of block [x] in the bitmap. *)
Definition mark_used (dev x : Z) (s : fs) : fs :=
  put_byte dev (BBLOCK x (sb s)) (x mod BPB / 8)
    (Z.lor (disk s dev (BBLOCK x (sb s)) (x mod BPB / 8)) (Z.shiftl 1 (x mod 8))) s.

(** The places where an inode keeps a block number: ip->addrs[k] for a
    direct block, the indirect block and its entries, the doubly-indirect
    block, its entries (the singly-indirect blocks under it) and theirs. *)
Inductive pos : Type :=
| PDirect (k : Z)
| PInd
| PIndE (j : Z)
| PDbl
| PDblE (j : Z)
| PLeaf (j k : Z).

Definition valid_pos (p : pos) : Prop :=
  match p with
  | PDirect k => 0 <= k < NDIRECT
  | PInd => True
  | PIndE j => 0 <= j < NINDIRECT
  | PDbl => True
  | PDblE j => 0 <= j < NINDIRECT
  | PLeaf j k => 0 <= j < NINDIRECT /\ 0 <= k < NINDIRECT
  end.

(** The block number found at a place; 0 when the block that would hold it
    is itself missing. *)
Definition ref_at (s : fs) (ip : nat) (p : pos) : Z :=
  let i := icache s ip in
  let dev := i_dev i in
  match p with
  | PDirect k => i_addrs i k
  | PInd => i_addrs i NDIRECT
  | PIndE j =>
      if i_addrs i NDIRECT =? 0 then 0 else u32_at s dev (i_addrs i NDIRECT) j
  | PDbl => i_addrs i (NDIRECT + 1)
  | PDblE j =>
      if i_addrs i (NDIRECT + 1) =? 0 then 0
      else u32_at s dev (i_addrs i (NDIRECT + 1)) j
  | PLeaf j k =>
      if i_addrs i (NDIRECT + 1) =? 0 then 0
      else if u32_at s dev (i_addrs i (NDIRECT + 1)) j =? 0 then 0
      else u32_at s dev (u32_at s dev (i_addrs i (NDIRECT + 1)) j) k
  end.

(** The place of the block number of the bn-th block of a file. *)
Definition data_pos (bn : Z) : pos :=
  if bn <? NDIRECT then PDirect bn
  else if bn - NDIRECT <? NINDIRECT then PIndE (bn - NDIRECT)
  else PLeaf ((bn - NDIRECT - NINDIRECT) / NINDIRECT)
             ((bn - NDIRECT - NINDIRECT) mod NINDIRECT).

(** The byte at offset [o] of the file, read without allocating. *)
Definition file_byte (s : fs) (ip : nat) (o : Z) : Z :=
  disk s (i_dev (icache s ip)) (ref_at s ip (data_pos (o / BSIZE))) (o mod BSIZE).

(** The byte at address [a] of user memory or of kernel memory. *)
Definition mem_byte (s : fs) (user : bool) (a : Z) : option Z :=
  if user then umem s a else Some (kmem s a).

(** The blocks that hold the bytes [off, off + n) of the file are there. *)
Definition mapped (s : fs) (ip : nat) (off n : Z) : Prop :=
  forall o, off <= o < off + n -> ref_at s ip (data_pos (o / BSIZE)) <> 0.

(** balloc never hands out block [b]: it is outside the device or its bit is
    set in the bitmap. *)
Definition reserved (s : fs) (dev b : Z) : Prop :=
  b < 0 \/ sb_size (sb s) <= b \/ block_used s dev b = true.

Definition pos_eqb (p q : pos) : bool :=
  match p, q with
  | PDirect k, PDirect k' => k =? k'
  | PInd, PInd => true
  | PIndE j, PIndE j' => j =? j'
  | PDbl, PDbl => true
  | PDblE j, PDblE j' => j =? j'
  | PLeaf j k, PLeaf j' k' => (j =? j') && (k =? k')
  | _, _ => false
  end.

(** The places that hold the number of a block of file data. *)
Definition is_data (p : pos) : bool :=
  match p with
  | PDirect _ | PIndE _ | PLeaf _ _ => true
  | _ => false
  end.

(** The entry of ip->addrs behind a place, or the block and entry behind it. *)
Definition slot_of (p : pos) : option Z :=
  match p with
  | PDirect k => Some k
  | PInd => Some NDIRECT
  | PDbl => Some (NDIRECT + 1)
  | _ => None
  end.
Definition parent_of (p : pos) : option (pos * Z) :=
  match p with
  | PIndE j => Some (PInd, j)
  | PDblE j => Some (PDbl, j)
  | PLeaf j k => Some (PDblE j, k)
  | _ => None
  end.

(** The invariant of the block allocator as seen from one inode (spec
    section 3): the blocks of the inode are referenced once, each has its bit
    set in the bitmap, and the bitmap blocks and block 0 are never handed out
    nor used by the inode. *)
Record inode_wf (s : fs) (ip : nat) : Prop := mkWf {
  wf_size : 0 <= sb_size (sb s) < 2 ^ 32;
  wf_inj : forall p q, valid_pos p -> valid_pos q ->
             ref_at s ip p <> 0 -> ref_at s ip p = ref_at s ip q -> p = q;
  wf_used : forall p, valid_pos p -> ref_at s ip p <> 0 ->
              reserved s (i_dev (icache s ip)) (ref_at s ip p);
  wf_bitmap : forall x, 0 <= x < sb_size (sb s) ->
                reserved s (i_dev (icache s ip)) (BBLOCK x (sb s)) /\
                forall p, valid_pos p -> ref_at s ip p <> 0 ->
                          ref_at s ip p <> BBLOCK x (sb s);
  wf_zero : reserved s (i_dev (icache s ip)) 0
}.

(** What one step of bmap (looking at one place, allocating when the number
    there is 0) guarantees. *)
Definition step_post (s : fs) (ip : nat) (p0 : pos) (a : Z) (s' : fs) : Prop :=
  a <> 0 /\ ref_at s' ip p0 = a /\ inode_wf s' ip /\
  (forall p, valid_pos p -> ref_at s ip p <> 0 -> ref_at s' ip p = ref_at s ip p) /\
  (forall p o, valid_pos p -> is_data p = true -> ref_at s ip p <> 0 ->
     disk s' (i_dev (icache s ip)) (ref_at s ip p) o =
     disk s (i_dev (icache s ip)) (ref_at s ip p) o) /\
  (sb s' = sb s /\ dinodes s' = dinodes s /\ cwd s' = cwd s /\
   umem s' = umem s /\ kmem s' = kmem s /\
   (forall j, j <> ip -> icache s' j = icache s j) /\
   i_dev (icache s' ip) = i_dev (icache s ip) /\
   i_size (icache s' ip) = i_size (icache s ip)) /\
  (ref_at s ip p0 <> 0 -> s' = s) /\
  (forall b, 0 <= b < sb_size (sb s) ->
     block_used s (i_dev (icache s ip)) b = true ->
     block_used s' (i_dev (icache s ip)) b = true) /\
  (forall p, valid_pos p -> ref_at s ip p = 0 -> ref_at s' ip p <> 0 ->
     0 <= ref_at s' ip p < sb_size (sb s) /\
     block_used s (i_dev (icache s ip)) (ref_at s' ip p) = false /\
     block_used s' (i_dev (icache s ip)) (ref_at s' ip p) = true).

(** The bits of the bitmap other than that of block [a] are the same in [s]
    and [s']. *)
Definition bits_kept (s s' : fs) (dev a : Z) : Prop :=
  forall x, 0 <= x < sb_size (sb s) -> x <> a ->
    block_used s' dev x = block_used s dev x.

(** There are [n] blocks that balloc can hand out. *)
Definition has_free (s : fs) (dev : Z) (n : nat) : Prop :=
  exists l, NoDup l /\ List.length l = n /\
    forall x, In x l -> 0 <= x < sb_size (sb s) /\ block_used s dev x = false.

(** What writing the bytes [data o], for [lo <= o < hi], into the file
    guarantees: the invariant, the bytes in the range, and the bytes that
    were in the file outside the range. *)
Definition write_post (s : fs) (ip : nat) (lo hi : Z) (data : Z -> Z) (s' : fs)
  : Prop :=
  inode_wf s' ip /\
  (sb s' = sb s /\ dinodes s' = dinodes s /\ cwd s' = cwd s /\
   umem s' = umem s /\ kmem s' = kmem s /\
   (forall j, j <> ip -> icache s' j = icache s j) /\
   i_dev (icache s' ip) = i_dev (icache s ip) /\
   i_size (icache s' ip) = i_size (icache s ip)) /\
  (forall o, lo <= o < hi ->
     ref_at s' ip (data_pos (o / BSIZE)) <> 0 /\ file_byte s' ip o = data o) /\
  (forall o, 0 <= o < MAXFILE * BSIZE -> o < lo \/ hi <= o ->
     ref_at s ip (data_pos (o / BSIZE)) <> 0 ->
     ref_at s' ip (data_pos (o / BSIZE)) <> 0 /\ file_byte s' ip o = file_byte s ip o).

(** The number of blocks that hold the bytes [off, off + r) of a file. *)
Definition spans (off r : Z) : Z :=
  if r <=? 0 then 0 else (off + r - 1) / BSIZE - off / BSIZE + 1.

(** *** The inode cache *)

(** The fields of a cache entry that are not about the blocks of the file. *)
Definition adm (i : inode)
  : Z * Z * Z * bool * Z * Z * Z * Z * Z :=
  (i_dev i, i_inum i, i_ref i, i_locked i, i_valid i, i_type i, i_major i,
   i_minor i, i_nlink i).

(** [s'] differs from [s] in blocks, block numbers, sizes and memory only. *)
Definition quiet (s s' : fs) : Prop :=
  sb s' = sb s /\ dinodes s' = dinodes s /\ cwd s' = cwd s /\
  forall q, adm (icache s' q) = adm (icache s q).

(** A monadic computation relates the state it starts from to the state it
    returns in. *)
Definition preserves {A} (R : fs -> fs -> Prop) (m : M A) : Prop :=
  forall s a s', m s = Ret (a, s') -> R s s'.

(** The invariant of the inode cache: the slots in use are slots of the
    table, no two of them hold the same inode, and a slot in use whose
    contents are valid agrees with the disk on the link count and the type,
    which is not 0 (the cache is write-through). *)
Record cache_ok (s : fs) : Prop := mkCacheOk {
  ck_range : forall q, (NINODE <= q)%nat -> i_ref (icache s q) <= 0;
  ck_unique : forall q r,
      0 < i_ref (icache s q) -> 0 < i_ref (icache s r) ->
      i_dev (icache s q) = i_dev (icache s r) ->
      i_inum (icache s q) = i_inum (icache s r) -> q = r;
  ck_coherent : forall q,
      0 < i_ref (icache s q) -> i_valid (icache s q) <> 0 ->
      i_nlink (icache s q)
        = d_nlink (dinodes s (i_dev (icache s q)) (i_inum (icache s q))) /\
      i_type (icache s q)
        = d_type (dinodes s (i_dev (icache s q)) (i_inum (icache s q))) /\
      i_type (icache s q) <> 0
}.

(** A slot with at least [k] references keeps its inode and its reference
    count moves by [d]. *)
Definition held (k d : Z) (q : nat) (s s' : fs) : Prop :=
  k <= i_ref (icache s q) ->
  i_dev (icache s' q) = i_dev (icache s q) /\
  i_inum (icache s' q) = i_inum (icache s q) /\
  i_ref (icache s' q) = i_ref (icache s q) + d.

(** 1 when the slots are the same, 0 otherwise. *)
Definition same_slot (q r : nat) : Z := if Nat.eqb q r then 1 else 0.

(** What an operation of the cache guarantees: the invariant and the link
    counts on disk are kept, and a slot [q] with at least [need q] references
    keeps its inode while its reference count moves by [delta q]. *)
Definition cache_post (need delta : nat -> Z) (s s' : fs) : Prop :=
  sb s' = sb s /\ cwd s' = cwd s /\
  (cache_ok s ->
   cache_ok s' /\
   forall dev inum, d_nlink (dinodes s' dev inum) = d_nlink (dinodes s dev inum)) /\
  (forall q, held (need q) (delta q) q s s').

(** [s'] differs from [s] as an operation on the inode in slot [x] can make
    it differ: the other slots keep their administration, slot [x] keeps its
    inode, its link count and its references, and on disk only the inode of
    slot [x] is written, with that link count. *)
Definition touch (x : nat) (s s' : fs) : Prop :=
  sb s' = sb s /\ cwd s' = cwd s /\
  (forall q, q <> x -> adm (icache s' q) = adm (icache s q)) /\
  i_dev (icache s' x) = i_dev (icache s x) /\
  i_inum (icache s' x) = i_inum (icache s x) /\
  i_nlink (icache s' x) = i_nlink (icache s x) /\
  i_ref (icache s' x) = i_ref (icache s x) /\
  (forall dev inum,
     dinodes s' dev inum = dinodes s dev inum \/
     (dev = i_dev (icache s x) /\ inum = i_inum (icache s x) /\
      d_nlink (dinodes s' dev inum) = i_nlink (icache s x))).

(** *** Two files and directories *)

(** Block [b] is never handed out by balloc, and is neither a bitmap block
    nor a block of the inode in slot [ip]: reading and writing that inode
    leaves it alone. *)
Definition foreign (s : fs) (ip : nat) (b : Z) : Prop :=
  reserved s (i_dev (icache s ip)) b /\
  (forall x, 0 <= x < sb_size (sb s) -> b <> BBLOCK x (sb s)) /\
  (forall p, valid_pos p -> ref_at s ip p <> b).

(** [s'] differs from [s] in kernel memory only. *)
Definition kmem_only (s s' : fs) : Prop :=
  sb s' = sb s /\ disk s' = disk s /\ dinodes s' = dinodes s /\
  icache s' = icache s /\ cwd s' = cwd s /\ forall a, umem s' a = umem s a.

(** The inode number and the name of the directory entry at offset [off] of
    the directory in slot [ip]. *)
Definition entry_inum (s : fs) (ip : nat) (off : Z) : Z :=
  file_byte s ip off mod 256 + (file_byte s ip (off + 1) mod 256) * 256.
Definition entry_name (s : fs) (ip : nat) (off : Z) : list Z :=
  map (fun k => file_byte s ip (off + 2 + Z.of_nat k)) (seq 0 (Z.to_nat DIRSIZ)).

(** The bytes of the directory entry that dirlink writes for (name, inum). *)
Definition dirent_bytes (name : list Z) (inum : Z) : list Z :=
  [to_ushort inum mod 256; to_ushort inum / 256] ++ strncpy name (Z.to_nat DIRSIZ).

(** *** Running a computation *)

(** The value and the state that a computation returns from [s]; the state
    [s] itself when it does not return. *)
Definition result {A} (m : M A) (s : fs) : option A :=
  match m s with
  | Ret (a, _) => Some a
  | _ => None
  end.
Definition after {A} (m : M A) (s : fs) : fs :=
  match m s with
  | Ret (_, s') => s'
  | _ => s
  end.

(** ** A small file system used in the examples

    Device 1 has 64 blocks; its bitmap is block 3 and marks blocks 0 to 7
    (boot block, superblock, log, inodes, bitmap) as used. Slot 0 of the inode
    cache holds the empty regular file with inode number 2, slot 1 the empty
    root directory. User memory is mapped from address 4096 to 8191 and
    starts with the bytes of "hello". *)
Definition demo_sb : superblock := mkSb 64 16 3.
Definition demo_disk : Z -> Z -> Z -> Z :=
  fun dev b off => if (dev =? 1) && (b =? 3) && (off =? 0) then 255 else 0.
Definition free_inode : inode := mkInode 0 0 0 false 0 0 0 0 0 0 (fun _ => 0).
Definition free_dinode : dinode := mkDinode 0 0 0 0 0 (fun _ => 0).
Definition demo_file : inode := mkInode 1 2 1 false 1 2 0 0 1 0 (fun _ => 0).
Definition demo_root : inode := mkInode 1 1 1 false 1 1 0 0 1 0 (fun _ => 0).
Definition demo_icache : nat -> inode :=
  fun k => match k with O => demo_file | S O => demo_root | _ => free_inode end.
Definition demo_dinodes : Z -> Z -> dinode :=
  fun dev inum =>
    if (dev =? 1) && (inum =? 1) then mkDinode 1 0 0 1 0 (fun _ => 0)
    else if (dev =? 1) && (inum =? 2) then mkDinode 2 0 0 1 0 (fun _ => 0)
    else free_dinode.
Definition demo_umem : Z -> option Z :=
  fun a => if (4096 <=? a) && (a <? 8192)
           then Some (nth (Z.to_nat (a - 4096)) [104; 101; 108; 108; 111] 0)
           else None.
Definition demo_fs : fs :=
  mkFs demo_sb demo_disk demo_dinodes demo_icache 1%nat demo_umem (fun _ => 0).

(** The same file system after 2048 bytes have been written to the file:
    its blocks 0 and 1 are the disk blocks 8 and 9, filled with the bytes 65
    and 66, and its doubly-indirect block is block 10, still empty. *)
Definition demo_disk2 : Z -> Z -> Z -> Z :=
  fun dev b off =>
    if negb (dev =? 1) then 0
    else if b =? 3 then (if off =? 0 then 255 else if off =? 1 then 7 else 0)
    else if b =? 8 then 65
    else if b =? 9 then 66
    else 0.
Definition demo_addrs2 : Z -> Z :=
  fun k => if k =? 0 then 8 else if k =? 1 then 9 else if k =? 12 then 10 else 0.
Definition demo_file2 : inode := mkInode 1 2 1 false 1 2 0 0 1 2048 demo_addrs2.
Definition demo_icache2 : nat -> inode :=
  fun k => match k with O => demo_file2 | S O => demo_root | _ => free_inode end.
Definition demo_dinodes2 : Z -> Z -> dinode :=
  fun dev inum =>
    if (dev =? 1) && (inum =? 1) then mkDinode 1 0 0 1 0 (fun _ => 0)
    else if (dev =? 1) && (inum =? 2) then mkDinode 2 0 0 1 2048 demo_addrs2
    else free_dinode.
Definition demo_fs2 : fs :=
  mkFs demo_sb demo_disk2 demo_dinodes2 demo_icache2 1%nat demo_umem (fun _ => 0).

(** The first file system with the name "a" for the file in the root
    directory: the directory has one entry, inode number 2 and the name "a",
    in its block 0, which is disk block 8. *)
Definition demo_disk3 : Z -> Z -> Z -> Z :=
  fun dev b off =>
    if negb (dev =? 1) then 0
    else if b =? 3 then (if off =? 0 then 255 else if off =? 1 then 1 else 0)
    else if b =? 8 then (if off =? 0 then 2 else if off =? 2 then 97 else 0)
    else 0.
Definition demo_addrs3 : Z -> Z := fun k => if k =? 0 then 8 else 0.
Definition demo_root3 : inode := mkInode 1 1 1 false 1 1 0 0 1 16 demo_addrs3.
Definition demo_icache3 : nat -> inode :=
  fun k => match k with O => demo_file | S O => demo_root3 | _ => free_inode end.
Definition demo_dinodes3 : Z -> Z -> dinode :=
  fun dev inum =>
    if (dev =? 1) && (inum =? 1) then mkDinode 1 0 0 1 16 demo_addrs3
    else if (dev =? 1) && (inum =? 2) then mkDinode 2 0 0 1 0 (fun _ => 0)
    else free_dinode.
Definition demo_fs3 : fs :=
  mkFs demo_sb demo_disk3 demo_dinodes3 demo_icache3 1%nat demo_umem (fun _ => 0).

(** The first file system with every bit of the bitmap set: no block is
    free. *)
Definition demo_fs_full : fs := set_disk (fun _ _ _ => 255) demo_fs.

(** The first file system with its three cache slots in use (the third one
    holds inode 3) and with every on-disk inode in use. *)
Definition demo_fs_busy : fs :=
  set_dinodes (fun _ _ => mkDinode 2 0 0 1 0 (fun _ => 0))
    (set_icache (fun k => match k with
                          | O => demo_file
                          | S O => demo_root
                          | _ => mkInode 1 3 1 false 0 0 0 0 0 0 (fun _ => 0)
                          end) demo_fs).

(** A root directory with the entries ".", ".." and "a": the third example
    with a directory of three entries, the file "a" being inode 2. *)
Definition demo_disk4 : Z -> Z -> Z -> Z :=
  fun dev b off =>
    if negb (dev =? 1) then 0
    else if b =? 3 then (if off =? 0 then 255 else if off =? 1 then 1 else 0)
    else if b =? 8 then
      (if off =? 0 then 1 else if off =? 2 then 46
       else if off =? 16 then 1 else if off =? 18 then 46 else if off =? 19 then 46
       else if off =? 32 then 2 else if off =? 34 then 97 else 0)
    else 0.
Definition demo_root4 : inode := mkInode 1 1 1 false 1 1 0 0 1 48 demo_addrs3.
Definition demo_icache4 : nat -> inode :=
  fun k => match k with O => demo_file | S O => demo_root4 | _ => free_inode end.
Definition demo_dinodes4 : Z -> Z -> dinode :=
  fun dev inum =>
    if (dev =? 1) && (inum =? 1) then mkDinode 1 0 0 1 48 demo_addrs3
    else if (dev =? 1) && (inum =? 2) then mkDinode 2 0 0 1 0 (fun _ => 0)
    else free_dinode.
Definition demo_fs4 : fs :=
  mkFs demo_sb demo_disk4 demo_dinodes4 demo_icache4 1%nat demo_umem (fun _ => 0).

(** A table of open files with the descriptors 0 and 1 in use. *)
Definition demo_ofile : Z -> Z := fun fd => if fd <? 2 then 7 else 0.

(** *** Freeing blocks *)

(** Block [b] is not a block of the bitmap. *)
Definition not_bitmap (s : fs) (b : Z) : Prop :=
  forall x, 0 <= x < sb_size (sb s) -> b <> BBLOCK x (sb s).

(** [s'] differs from [s] by bits of the bitmap of [dev] that have been
    cleared: the bits of the blocks [F] are clear, the bits of the other
    blocks are as they were, no bit has been set, and only blocks of the
    bitmap have been written. *)
Definition frees (dev : Z) (F : Z -> Prop) (s s' : fs) : Prop :=
  sb s' = sb s /\ dinodes s' = dinodes s /\ cwd s' = cwd s /\
  umem s' = umem s /\ kmem s' = kmem s /\
  (forall dev' b o, dev' <> dev \/ not_bitmap s b ->
     disk s' dev' b o = disk s dev' b o) /\
  (forall b, F b -> block_used s' dev b = false) /\
  (forall b, 0 <= b -> ~ F b -> block_used s' dev b = block_used s dev b) /\
  (forall b, block_used s' dev b = true -> block_used s dev b = true).

(** The blocks that the inode in slot [ip] names at the places [C]. *)
Definition blocks_at (s : fs) (ip : nat) (C : pos -> Prop) (b : Z) : Prop :=
  b <> 0 /\ exists p, valid_pos p /\ C p /\ ref_at s ip p = b.

(** The second example with the last link to the file removed: the link
    count of the file is 0, in the cache and on disk. *)
Definition demo_file5 : inode := mkInode 1 2 1 false 1 2 0 0 0 2048 demo_addrs2.
Definition demo_icache5 : nat -> inode :=
  fun k => match k with O => demo_file5 | S O => demo_root | _ => free_inode end.
Definition demo_dinodes5 : Z -> Z -> dinode :=
  fun dev inum =>
    if (dev =? 1) && (inum =? 1) then mkDinode 1 0 0 1 0 (fun _ => 0)
    else if (dev =? 1) && (inum =? 2) then mkDinode 2 0 0 0 2048 demo_addrs2
    else free_dinode.
Definition demo_fs5 : fs :=
  mkFs demo_sb demo_disk2 demo_dinodes5 demo_icache5 1%nat demo_umem (fun _ => 0).

(** *** A file that is left alone *)

(** Between [s] and [s'] nothing that the content of the file in slot [x]
    depends on has changed: the superblock, the disk, and the device, the
    block numbers and the size in the slot. *)
Definition same_store (x : nat) (s s' : fs) : Prop :=
  sb s' = sb s /\ disk s' = disk s /\
  i_dev (icache s' x) = i_dev (icache s x) /\
  i_addrs (icache s' x) = i_addrs (icache s x) /\
  i_size (icache s' x) = i_size (icache s x).

(** A root directory with the entries ".", ".." and "d", where "d" is
    inode 3, a directory in block 9 with the entries ".", ".." and "a". *)
Definition demo_disk6 : Z -> Z -> Z -> Z :=
  fun dev b off =>
    if negb (dev =? 1) then 0
    else if b =? 3 then (if off =? 0 then 255 else if off =? 1 then 3 else 0)
    else if b =? 8 then
      (if off =? 0 then 1 else if off =? 2 then 46
       else if off =? 16 then 1 else if off =? 18 then 46 else if off =? 19 then 46
       else if off =? 32 then 3 else if off =? 34 then 100 else 0)
    else if b =? 9 then
      (if off =? 0 then 3 else if off =? 2 then 46
       else if off =? 16 then 1 else if off =? 18 then 46 else if off =? 19 then 46
       else if off =? 32 then 2 else if off =? 34 then 97 else 0)
    else 0.
Definition demo_addrs6 : Z -> Z := fun k => if k =? 0 then 9 else 0.
Definition demo_root6 : inode := mkInode 1 1 1 false 1 1 0 0 2 48 demo_addrs3.
Definition demo_icache6 : nat -> inode :=
  fun k => match k with O => demo_file | S O => demo_root6 | _ => free_inode end.
Definition demo_dinodes6 : Z -> Z -> dinode :=
  fun dev inum =>
    if (dev =? 1) && (inum =? 1) then mkDinode 1 0 0 2 48 demo_addrs3
    else if (dev =? 1) && (inum =? 2) then mkDinode 2 0 0 1 0 (fun _ => 0)
    else if (dev =? 1) && (inum =? 3) then mkDinode 1 0 0 1 48 demo_addrs6
    else free_dinode.
Definition demo_fs6 : fs :=
  mkFs demo_sb demo_disk6 demo_dinodes6 demo_icache6 1%nat demo_umem (fun _ => 0).

(** * Properties *)

(** ** The monad *)

Lemma bind_ret {A B} (m : M A) (k : A -> M B) s a s' :
  m s = Ret (a, s') -> bind m k s = k a s'.
Proof. intros H; unfold bind; rewrite H; reflexivity. Qed.

Lemma bind_inv {A B} (m : M A) (k : A -> M B) s r :
  bind m k s = Ret r -> exists a s', m s = Ret (a, s') /\ k a s' = Ret r.
Proof.
  unfold bind; destruct (m s) as [[a s']| | | |]; try discriminate.
  intros H; exists a, s'; split; [reflexivity | exact H].
Qed.

(** ** Machine arithmetic *)

Lemma wrap32_small x : 0 <= x < 2 ^ 32 -> wrap32 x = x.
Proof. intros H; unfold wrap32; apply Z.mod_small; exact H. Qed.

Lemma wrap32_add_overflow off n :
  0 <= off < 2 ^ 32 -> 0 <= n < 2 ^ 32 ->
  (wrap32 (off + n) < off <-> 2 ^ 32 <= off + n).
Proof.
  intros Ho Hn; unfold wrap32; split; intros H.
  - destruct (Z_lt_le_dec (off + n) (2 ^ 32)) as [Hlt | Hge]; [| exact Hge].
    rewrite Z.mod_small in H by lia; lia.
  - replace (off + n) with (off + n - 2 ^ 32 + 1 * 2 ^ 32) by lia.
    rewrite Z.mod_add by lia; rewrite Z.mod_small by lia; lia.
Qed.

(** ** writei: argument checks *)

(** writei returns -1 and changes nothing when off is strictly greater than
    ip->size, when off + n wraps around, or when off + n exceeds
    MAXFILE * BSIZE. *)
Lemma writei_rejects (s : fs) (ip : nat) (user_src : bool) (src off n : Z) :
  0 <= off < 2 ^ 32 -> 0 <= n < 2 ^ 32 ->
  off > i_size (icache s ip) \/ wrap32 (off + n) < off \/ off + n > MAXFILE * BSIZE ->
  writei ip user_src src off n s = Ret (-1, s).
Proof.
  intros Ho Hn H; unfold writei, bind, get, ret.
  destruct (off >? i_size (icache s ip)) eqn:E1; [reflexivity |].
  destruct (wrap32 (off + n) <? off) eqn:E2; [reflexivity |]; simpl.
  rewrite Z.gtb_ltb in E1; rewrite Z.ltb_ge in E1, E2.
  destruct H as [H | [H | H]]; try lia.
  assert (Hw : wrap32 (off + n) = off + n).
  { apply wrap32_small.
    destruct (Z_lt_le_dec (off + n) (2 ^ 32)) as [Hlt | Hge]; [lia |].
    apply (wrap32_add_overflow off n Ho Hn) in Hge; lia. }
  rewrite Hw.
  destruct (off + n >? MAXFILE * BSIZE) eqn:E3; [reflexivity |].
  rewrite Z.gtb_ltb in E3; rewrite Z.ltb_ge in E3; lia.
Qed.

(** ** bmap beyond the last block *)

Lemma read_entry_out dev b i s : NINDIRECT <= i -> read_entry dev b i s = Undefined.
Proof.
  intros H; unfold read_entry.
  destruct (i <? NINDIRECT) eqn:E; [rewrite Z.ltb_lt in E; lia |].
  rewrite andb_false_r; reflexivity.
Qed.

Lemma balloc_bits_not_range fuel dev b bi s :
  balloc_bits fuel dev b bi s <> Panic "bmap: out of range".
Proof.
  revert bi s; induction fuel as [| fuel IH]; intros bi s; cbn [balloc_bits].
  - destruct ((bi <? BPB) && (b + bi <? sb_size (sb s))); discriminate.
  - destruct ((bi <? BPB) && (b + bi <? sb_size (sb s))); [| discriminate].
    destruct (Z.land _ _ =? 0); [discriminate | apply IH].
Qed.

Lemma balloc_not_range dev s : balloc dev s <> Panic "bmap: out of range".
Proof.
  unfold balloc; generalize (Z.to_nat (sb_size (sb s))) as fuel, 0 as b.
  intros fuel; revert s; induction fuel as [| fuel IH]; intros s b;
    cbn [balloc_blocks].
  - destruct (b <? sb_size (sb s)); discriminate.
  - destruct (b <? sb_size (sb s)); [| discriminate].
    unfold bind.
    pose proof (balloc_bits_not_range (Z.to_nat BPB) dev b 0 s) as Hb.
    destruct (balloc_bits (Z.to_nat BPB) dev b 0 s) as [[[a |] s'] | msg | | |];
      try discriminate.
    + apply IH.
    + intros H; apply Hb; injection H as ->; reflexivity.
Qed.

Lemma bmap_slot_not_range ip dev k s :
  bmap_slot ip dev k s <> Panic "bmap: out of range".
Proof.
  unfold bmap_slot, bind, get, ret.
  destruct (i_addrs (icache s ip) k =? 0); [| discriminate].
  pose proof (balloc_not_range dev s) as Hb.
  destruct (balloc dev s) as [[a s'] | msg | | |]; try discriminate.
  intros H; apply Hb; exact H.
Qed.

Lemma bmap_slot_set ip dev k s :
  i_addrs (icache s ip) k <> 0 ->
  bmap_slot ip dev k s = Ret (i_addrs (icache s ip) k, s).
Proof.
  intros H; unfold bmap_slot, bind, get, ret.
  destruct (i_addrs (icache s ip) k =? 0) eqn:E; [| reflexivity].
  rewrite Z.eqb_eq in E; contradiction.
Qed.

(** C6. For a block index at or beyond MAXFILE, bmap takes the branch of the
    doubly-indirect block and indexes that block at an entry at or beyond
    NINDIRECT, outside its buffer; it does not reach the panic "bmap: out of
    range" that follows the if/else. *)
Theorem bmap_beyond_maxfile (s : fs) (ip : nat) (bn : Z) :
  0 <= NDIRECT -> MAXFILE <= bn ->
  bmap ip bn s <> Panic "bmap: out of range" /\
  (i_addrs (icache s ip) (NDIRECT + 1) <> 0 -> bmap ip bn s = Undefined).
Proof.
  intros Hnd Hbn.
  assert (HN : NINDIRECT = 256) by reflexivity.
  assert (Hq : NINDIRECT <= (bn - NDIRECT - NINDIRECT) / NINDIRECT).
  { unfold MAXFILE in Hbn; rewrite HN in *.
    apply Z.div_le_lower_bound; lia. }
  assert (E1 : (bn <? NDIRECT) = false) by (apply Z.ltb_ge; unfold MAXFILE in Hbn; lia).
  assert (E2 : (bn - NDIRECT <? NINDIRECT) = false)
    by (apply Z.ltb_ge; unfold MAXFILE in Hbn; lia).
  split.
  - unfold bmap; unfold bind at 1; unfold get; rewrite E1, E2.
    unfold bind at 1.
    pose proof (bmap_slot_not_range ip (i_dev (icache s ip)) (NDIRECT + 1) s) as Hs.
    destruct (bmap_slot ip (i_dev (icache s ip)) (NDIRECT + 1) s)
      as [[d s1] | msg | | |]; try discriminate.
    + unfold bmap_entry; unfold bind at 1; unfold bind at 1.
      rewrite read_entry_out by exact Hq; discriminate.
    + intros H; apply Hs; exact H.
  - intros Hd; unfold bmap; unfold bind at 1; unfold get; rewrite E1, E2.
    unfold bind at 1; rewrite bmap_slot_set by exact Hd.
    unfold bmap_entry; unfold bind at 1; unfold bind at 1.
    rewrite read_entry_out by exact Hq; reflexivity.
Qed.

(** ** The block allocator *)

Lemma BPB_val : BPB = 8192.
Proof. reflexivity. Qed.

Lemma bit_of_block b bi :
  0 <= b -> b mod BPB = 0 -> 0 <= bi < BPB ->
  (b + bi) / BPB = b / BPB /\ (b + bi) mod BPB = bi /\ (b + bi) mod 8 = bi mod 8.
Proof.
  rewrite BPB_val; intros Hb Hm Hbi.
  Z.div_mod_to_equations; lia.
Qed.

Lemma balloc_bits_spec fuel dev b bi s r s' :
  0 <= b -> b mod BPB = 0 -> 0 <= bi ->
  balloc_bits fuel dev b bi s = Ret (r, s') ->
  match r with
  | Some a =>
      b + bi <= a < b + BPB /\ a < sb_size (sb s) /\ block_used s dev a = false /\
      (forall x, b + bi <= x < a -> block_used s dev x = true) /\
      s' = zero_block dev a (mark_used dev a s)
  | None =>
      s' = s /\
      (forall x, b + bi <= x < b + BPB -> x < sb_size (sb s) -> block_used s dev x = true)
  end.
Proof.
  intros Hb Hm; revert bi s; induction fuel as [| fuel IH]; intros bi s Hbi;
    cbn [balloc_bits].
  - destruct ((bi <? BPB) && (b + bi <? sb_size (sb s))) eqn:E; [discriminate |].
    intros H; injection H as <- <-; split; [reflexivity |].
    intros x Hx Hx'; apply andb_false_iff in E; rewrite !Z.ltb_ge in E; lia.
  - destruct ((bi <? BPB) && (b + bi <? sb_size (sb s))) eqn:E.
    + apply andb_true_iff in E; rewrite !Z.ltb_lt in E; destruct E as [E1 E2].
      destruct (bit_of_block b bi Hb Hm (conj Hbi E1)) as (Hq & Hr & H8).
      destruct (Z.land _ _ =? 0) eqn:Ebit.
      * unfold bind, modify, bzero, ret; intros H; injection H as <- <-.
        split; [lia |]; split; [exact E2 |]; split.
        { unfold block_used, BBLOCK; rewrite Hq, Hr, H8.
          unfold BBLOCK in Ebit; rewrite Ebit; reflexivity. }
        split; [intros x Hx; lia |].
        unfold mark_used, BBLOCK; rewrite Hq, Hr, H8; reflexivity.
      * intros H; specialize (IH (bi + 1) s ltac:(lia) H).
        assert (Hu : block_used s dev (b + bi) = true).
        { unfold block_used, BBLOCK; rewrite Hq, Hr, H8.
          unfold BBLOCK in Ebit; rewrite Ebit; reflexivity. }
        destruct r as [a |].
        -- destruct IH as (H1 & H2 & H3 & H4 & H5).
           split; [lia |]; split; [exact H2 |]; split; [exact H3 |].
           split; [| exact H5].
           intros x Hx; destruct (Z.eq_dec x (b + bi)) as [-> | Hne];
             [exact Hu | apply H4; lia].
        -- destruct IH as (H1 & H2); split; [exact H1 |].
           intros x Hx Hx'; destruct (Z.eq_dec x (b + bi)) as [-> | Hne];
             [exact Hu | apply H2; lia].
    + intros H; injection H as <- <-; split; [reflexivity |].
      intros x Hx Hx'; apply andb_false_iff in E; rewrite !Z.ltb_ge in E; lia.
Qed.

Lemma balloc_blocks_spec fuel dev b s a s' :
  0 <= b -> b mod BPB = 0 ->
  (forall x, 0 <= x < b -> x < sb_size (sb s) -> block_used s dev x = true) ->
  balloc_blocks fuel dev b s = Ret (a, s') ->
  0 <= a < sb_size (sb s) /\ block_used s dev a = false /\
  (forall x, 0 <= x < a -> block_used s dev x = true) /\
  s' = zero_block dev a (mark_used dev a s).
Proof.
  revert b s; induction fuel as [| fuel IH]; intros b s Hb Hm Hbelow;
    cbn [balloc_blocks].
  - destruct (b <? sb_size (sb s)); discriminate.
  - destruct (b <? sb_size (sb s)) eqn:E; [| discriminate].
    intros H; apply bind_inv in H; destruct H as (r & s1 & Hbits & H).
    apply balloc_bits_spec in Hbits; [| lia | exact Hm | lia].
    destruct r as [a' |].
    + unfold ret in H; injection H as <- <-.
      destruct Hbits as (H1 & H2 & H3 & H4 & H5).
      split; [lia |]; split; [exact H3 |]; split; [| exact H5].
      intros x Hx; destruct (Z_lt_le_dec x b) as [Hlt | Hge];
        [apply Hbelow; lia | apply H4; lia].
    + destruct Hbits as (-> & Hall).
      pose proof BPB_val as HB.
      apply IH in H; [exact H | lia | |].
      * rewrite HB in *; Z.div_mod_to_equations; lia.
      * intros x Hx Hx'; destruct (Z_lt_le_dec x b) as [Hlt | Hge];
          [apply Hbelow; lia | apply Hall; lia].
Qed.

(** balloc returns the first block whose bit is clear, with its bit set and
    its contents zeroed. *)
Lemma balloc_spec dev s a s' :
  balloc dev s = Ret (a, s') ->
  0 <= a < sb_size (sb s) /\ block_used s dev a = false /\
  (forall x, 0 <= x < a -> block_used s dev x = true) /\
  s' = zero_block dev a (mark_used dev a s).
Proof.
  unfold balloc; intros H; apply balloc_blocks_spec in H;
    [exact H | lia | reflexivity | intros x Hx; lia].
Qed.

(** ** skipelem *)

Lemma skip_slashes_repeat k l :
  skip_slashes (repeat slash k ++ l) = skip_slashes l.
Proof.
  induction k as [| k IH]; [reflexivity |].
  cbn [repeat app skip_slashes]; rewrite Z.eqb_refl; exact IH.
Qed.

Lemma skip_slashes_stop l : deref l <> slash -> skip_slashes l = l.
Proof.
  destruct l as [| c l]; [reflexivity |]; cbn [deref skip_slashes]; intros H.
  destruct (c =? slash) eqn:E; [rewrite Z.eqb_eq in E; contradiction | reflexivity].
Qed.

Lemma skip_name_app comp l :
  Forall (fun c => c <> slash /\ c <> 0) comp ->
  deref l = slash \/ deref l = 0 ->
  skip_name (comp ++ l) = l.
Proof.
  intros Hc Hl; induction Hc as [| c comp [H1 H2] _ IH]; cbn [app skip_name].
  - destruct l as [| c l]; [reflexivity |]; cbn [deref] in Hl; cbn [skip_name].
    destruct Hl as [-> | ->]; reflexivity.
  - apply Z.eqb_neq in H1, H2; rewrite H1, H2; exact IH.
Qed.

Lemma firstn_exact {A} (l r : list A) : firstn (List.length l) (l ++ r) = l.
Proof.
  rewrite firstn_app, firstn_all, Nat.sub_diag; cbn [firstn]; apply app_nil_r.
Qed.

(** C7. Let the path be k slashes, a component [comp] (not empty, without
    slash or NUL), j slashes, and a rest that does not start with a slash
    (and, when j = 0, starts with the NUL that ends the string). skipelem
    returns the rest; name holds the first DIRSIZ bytes of the component,
    without a NUL, when the component has DIRSIZ bytes or more, and the
    component followed by a NUL (the bytes behind it unchanged) otherwise.
    A path of slashes only yields the null pointer. *)
Theorem skipelem_spec (k j : nat) (comp rest name : list Z) :
  Forall (fun c => c <> slash /\ c <> 0) comp ->
  deref rest <> slash ->
  (j = 0%nat -> deref rest = 0) ->
  List.length name = Z.to_nat DIRSIZ ->
  (comp <> [] ->
   skipelem (repeat slash k ++ comp ++ repeat slash j ++ rest) name =
   Some (rest,
         if Z.of_nat (List.length comp) >=? DIRSIZ
         then firstn (Z.to_nat DIRSIZ) comp
         else comp ++ 0 :: skipn (S (List.length comp)) name)) /\
  (deref rest = 0 -> skipelem (repeat slash k ++ rest) name = None).
Proof.
  intros Hc Hr Hj Hn; split.
  - intros Hne; unfold skipelem; rewrite skip_slashes_repeat.
    assert (Hd : deref (comp ++ repeat slash j ++ rest) <> slash /\
                 deref (comp ++ repeat slash j ++ rest) <> 0).
    { destruct comp as [| c comp]; [contradiction |].
      inversion Hc; subst; cbn [app deref]; assumption. }
    destruct Hd as [Hd1 Hd0].
    rewrite (skip_slashes_stop _ Hd1).
    apply Z.eqb_neq in Hd0; rewrite Hd0.
    assert (Ht : deref (repeat slash j ++ rest) = slash \/
                 deref (repeat slash j ++ rest) = 0).
    { destruct j as [| j]; [right; apply Hj; reflexivity | left; reflexivity]. }
    rewrite (skip_name_app _ _ Hc Ht), skip_slashes_repeat, (skip_slashes_stop _ Hr).
    replace (List.length (comp ++ repeat slash j ++ rest)
             - List.length (repeat slash j ++ rest))%nat
      with (List.length comp) by (rewrite (length_app comp); lia).
    f_equal; f_equal.
    destruct (Z.of_nat (List.length comp) >=? DIRSIZ) eqn:E.
    + unfold memmove_list.
      assert (Hlen : (Z.to_nat DIRSIZ <= List.length comp)%nat)
        by (rewrite Z.geb_le in E; lia).
      rewrite firstn_app.
      replace (Z.to_nat DIRSIZ - List.length comp)%nat with 0%nat by lia.
      rewrite skipn_all2 by lia; cbn [firstn]; rewrite !app_nil_r; reflexivity.
    + assert (Hlen : (List.length comp < Z.to_nat DIRSIZ)%nat).
      { destruct (Z.geb_spec (Z.of_nat (List.length comp)) DIRSIZ); [discriminate | lia]. }
      unfold store_at, memmove_list.
      rewrite !firstn_exact; f_equal; f_equal.
      replace (S (List.length comp)) with (1 + List.length comp)%nat by lia.
      rewrite <- !skipn_skipn; f_equal.
      rewrite skipn_app, skipn_all, Nat.sub_diag; reflexivity.
  - intros H0; unfold skipelem; rewrite skip_slashes_repeat.
    rewrite (skip_slashes_stop _ Hr), H0; reflexivity.
Qed.

(** ** iget and ialloc *)

Lemma updn_same {A} (f : nat -> A) k v : updn f k v k = v.
Proof. unfold updn; rewrite Nat.eqb_refl; reflexivity. Qed.

Lemma updn_other {A} (f : nat -> A) k v j : j <> k -> updn f k v j = f j.
Proof.
  intros H; unfold updn; destruct (Nat.eqb j k) eqn:E; [| reflexivity].
  apply Nat.eqb_eq in E; contradiction.
Qed.

Lemma upd_same {A} (f : Z -> A) k v : upd f k v k = v.
Proof. unfold upd; rewrite Z.eqb_refl; reflexivity. Qed.

Lemma upd_other {A} (f : Z -> A) k v j : j <> k -> upd f k v j = f j.
Proof.
  intros H; unfold upd; destruct (j =? k) eqn:E; [| reflexivity].
  apply Z.eqb_eq in E; contradiction.
Qed.

(** iget leaves the disk alone and returns a slot that carries (dev, inum). *)
Lemma iget_loop_result k idx dev inum empty s ip s' :
  (forall e, empty = Some e -> i_ref (icache s e) = 0) ->
  iget_loop k idx dev inum empty s = Ret (ip, s') ->
  dinodes s' = dinodes s /\ disk s' = disk s /\ sb s' = sb s /\
  i_dev (icache s' ip) = dev /\ i_inum (icache s' ip) = inum /\
  0 < i_ref (icache s' ip) /\
  (forall j, j <> ip -> icache s' j = icache s j).
Proof.
  revert idx empty s; induction k as [| k IH]; intros idx empty s He;
    cbn [iget_loop].
  - destruct empty as [e |]; [| discriminate].
    unfold bind, set_inode, modify, ret; intros H; injection H as <- <-.
    cbn; rewrite updn_same; cbn.
    repeat split; try reflexivity; try lia.
    intros j Hj; apply updn_other; exact Hj.
  - unfold bind at 1; unfold get.
    destruct ((i_ref (icache s idx) >? 0) && (i_dev (icache s idx) =? dev)
              && (i_inum (icache s idx) =? inum)) eqn:E.
    + unfold bind, set_inode, modify, ret; intros H; injection H as <- <-.
      apply andb_true_iff in E; destruct E as [E E3].
      apply andb_true_iff in E; destruct E as [E1 E2].
      rewrite Z.gtb_ltb, Z.ltb_lt in E1; rewrite Z.eqb_eq in E2, E3.
      cbn; rewrite updn_same; cbn.
      repeat split; try reflexivity; try assumption; try lia.
      intros j Hj; apply updn_other; exact Hj.
    + apply IH.
      intros e Heq; destruct empty as [e' |].
      * apply He; exact Heq.
      * destruct (i_ref (icache s idx) =? 0) eqn:E0; [| discriminate].
        injection Heq as <-; apply Z.eqb_eq; exact E0.
Qed.

Lemma iget_result dev inum s ip s' :
  iget dev inum s = Ret (ip, s') ->
  dinodes s' = dinodes s /\ disk s' = disk s /\ sb s' = sb s /\
  i_dev (icache s' ip) = dev /\ i_inum (icache s' ip) = inum /\
  0 < i_ref (icache s' ip) /\
  (forall j, j <> ip -> icache s' j = icache s j).
Proof. apply iget_loop_result; intros e H; discriminate. Qed.

(** iget returns when some slot among those left has no reference. *)
Lemma iget_loop_returns k idx dev inum empty s :
  (empty <> None \/
   exists j, (idx <= j < idx + k)%nat /\ i_ref (icache s j) = 0) ->
  exists ip s', iget_loop k idx dev inum empty s = Ret (ip, s').
Proof.
  revert idx empty; induction k as [| k IH]; intros idx empty He;
    cbn [iget_loop].
  - destruct empty as [e |].
    + eexists _, _; unfold bind, set_inode, modify, ret; reflexivity.
    + destruct He as [He | (j & Hj & _)]; [contradiction | lia].
  - unfold bind at 1; unfold get.
    destruct ((i_ref (icache s idx) >? 0) && (i_dev (icache s idx) =? dev)
              && (i_inum (icache s idx) =? inum)) eqn:E.
    + eexists _, _; unfold bind, set_inode, modify, ret; reflexivity.
    + apply IH.
      destruct empty as [e |]; [left; discriminate |].
      destruct He as [He | (j & Hj & Hr)]; [contradiction |].
      destruct (Nat.eq_dec j idx) as [-> | Hne].
      * left; rewrite Hr; cbn; discriminate.
      * right; exists j; split; [lia | exact Hr].
Qed.

Lemma ialloc_loop_result fuel dev type inum s ip s' :
  ialloc_loop fuel dev type inum s = Ret (ip, s') ->
  exists n, inum <= n < sb_ninodes (sb s) /\ d_type (dinodes s dev n) = 0 /\
    i_dev (icache s' ip) = dev /\ i_inum (icache s' ip) = n /\
    dinodes s' = upd (dinodes s) dev (upd (dinodes s dev) n
                   (mkDinode type 0 0 0 0 (fun _ => 0))).
Proof.
  revert inum; induction fuel as [| fuel IH]; intros inum;
    cbn [ialloc_loop]; unfold bind at 1; unfold get.
  - destruct (inum <? sb_ninodes (sb s)); discriminate.
  - destruct (inum <? sb_ninodes (sb s)) eqn:E; [| discriminate].
    rewrite Z.ltb_lt in E.
    destruct (d_type (dinodes s dev inum) =? 0) eqn:Et.
    + rewrite Z.eqb_eq in Et.
      unfold bind at 1; unfold modify.
      intros H; apply iget_result in H.
      destruct H as (Hd & _ & _ & H1 & H2 & _).
      exists inum; repeat split; try assumption; try lia.
    + intros H; apply IH in H; destruct H as (n & Hn & H).
      exists n; split; [lia | exact H].
Qed.

Lemma ialloc_loop_returns fuel dev type inum s n :
  (exists j, (j < NINODE)%nat /\ i_ref (icache s j) = 0) ->
  inum <= n < sb_ninodes (sb s) -> d_type (dinodes s dev n) = 0 ->
  (Z.to_nat (n - inum) < fuel)%nat ->
  exists ip s', ialloc_loop fuel dev type inum s = Ret (ip, s').
Proof.
  intros Hslot; revert inum; induction fuel as [| fuel IH]; intros inum Hn Ht Hf;
    [lia |].
  cbn [ialloc_loop]; unfold bind at 1; unfold get.
  destruct (inum <? sb_ninodes (sb s)) eqn:E; [| rewrite Z.ltb_ge in E; lia].
  destruct (d_type (dinodes s dev inum) =? 0) eqn:Et.
  - unfold bind at 1; unfold modify.
    apply iget_loop_returns; right.
    destruct Hslot as (j & Hj & Hr); exists j; split; [lia | exact Hr].
  - assert (inum <> n) by (intros ->; rewrite Ht in Et; discriminate).
    apply IH; [lia | exact Ht | lia].
Qed.

(** C10. When ialloc returns, the inode it returns is one whose on-disk
    type was 0, and its on-disk record now has the requested type and zero
    in every other field: nlink, size, major, minor and every entry of
    addrs. ialloc does return when some on-disk inode is free and some slot
    of the inode cache has no reference. *)
Theorem ialloc_zeroes_dinode (s : fs) (dev type : Z) :
  (forall ip s', ialloc dev type s = Ret (ip, s') ->
     let inum := i_inum (icache s' ip) in
     let dip := dinodes s' dev inum in
     i_dev (icache s' ip) = dev /\
     1 <= inum < sb_ninodes (sb s) /\
     d_type (dinodes s dev inum) = 0 /\
     d_type dip = type /\ d_nlink dip = 0 /\ d_size dip = 0 /\
     d_major dip = 0 /\ d_minor dip = 0 /\ forall k, d_addrs dip k = 0) /\
  ((exists n, 1 <= n < sb_ninodes (sb s) /\ d_type (dinodes s dev n) = 0) ->
   (exists j, (j < NINODE)%nat /\ i_ref (icache s j) = 0) ->
   exists ip s', ialloc dev type s = Ret (ip, s')).
Proof.
  split.
  - intros ip s' H; unfold ialloc in H; unfold bind at 1 in H; unfold get in H.
    apply ialloc_loop_result in H.
    destruct H as (n & Hn & Ht & Hdev & Hinum & Hd).
    cbn zeta; rewrite Hinum, Hd, !upd_same; cbn.
    repeat split; try assumption; try reflexivity; lia.
  - intros (n & Hn & Ht) Hslot.
    unfold ialloc; unfold bind at 1; unfold get.
    apply (ialloc_loop_returns _ dev type 1 s n Hslot Hn Ht); lia.
Qed.

(** ** bmap on a block that is there *)

Lemma BSIZE_val : BSIZE = 1024.
Proof. reflexivity. Qed.

Lemma NINDIRECT_val : NINDIRECT = 256.
Proof. reflexivity. Qed.

Lemma read_entry_in dev b i s :
  0 <= i < NINDIRECT -> read_entry dev b i s = Ret (u32_at s dev b i, s).
Proof.
  intros [H1 H2]; unfold read_entry.
  apply Z.leb_le in H1; apply Z.ltb_lt in H2; rewrite H1, H2; reflexivity.
Qed.

Lemma bmap_entry_set dev b i s :
  0 <= i < NINDIRECT -> u32_at s dev b i <> 0 ->
  bmap_entry dev b i s = Ret (u32_at s dev b i, s).
Proof.
  intros Hi Hne; unfold bmap_entry; unfold bind at 1.
  rewrite read_entry_in by exact Hi.
  destruct (u32_at s dev b i =? 0) eqn:E; [| reflexivity].
  rewrite Z.eqb_eq in E; contradiction.
Qed.

Lemma if_zero_ne (a v : Z) : (if a =? 0 then 0 else v) <> 0 -> a <> 0 /\ v <> 0.
Proof.
  destruct (a =? 0) eqn:E; [intros H; contradiction |].
  rewrite Z.eqb_neq in E; intros H; split; assumption.
Qed.

Lemma if_zero_val (a v : Z) : a <> 0 -> (if a =? 0 then 0 else v) = v.
Proof. intros H; apply Z.eqb_neq in H; rewrite H; reflexivity. Qed.

(** When the block is there, bmap returns its number and changes nothing. *)
Lemma bmap_mapped s ip bn :
  0 <= NDIRECT -> 0 <= bn < MAXFILE ->
  ref_at s ip (data_pos bn) <> 0 ->
  bmap ip bn s = Ret (ref_at s ip (data_pos bn), s).
Proof.
  intros Hnd Hbn; unfold MAXFILE in Hbn; pose proof NINDIRECT_val as HN.
  unfold bmap, data_pos; unfold bind at 1; unfold get.
  destruct (bn <? NDIRECT) eqn:E1.
  - cbn [ref_at]; intros H; apply bmap_slot_set; exact H.
  - rewrite Z.ltb_ge in E1.
    destruct (bn - NDIRECT <? NINDIRECT) eqn:E2.
    + rewrite Z.ltb_lt in E2; cbn [ref_at]; intros H.
      apply if_zero_ne in H; destruct H as [Ha Hv].
      unfold bind at 1; rewrite bmap_slot_set by exact Ha.
      rewrite (if_zero_val _ _ Ha).
      apply bmap_entry_set; [lia | exact Hv].
    + rewrite Z.ltb_ge in E2; cbn [ref_at]; intros H.
      set (k := bn - NDIRECT - NINDIRECT) in *.
      assert (Hq : 0 <= k / NINDIRECT < NINDIRECT).
      { rewrite HN in *; subst k; split;
          [apply Z.div_pos; lia | apply Z.div_lt_upper_bound; lia]. }
      assert (Hr : 0 <= k mod NINDIRECT < NINDIRECT)
        by (apply Z.mod_pos_bound; lia).
      apply if_zero_ne in H; destruct H as [Hd H].
      apply if_zero_ne in H; destruct H as [Hg Hv].
      unfold bind at 1; rewrite bmap_slot_set by exact Hd.
      unfold bind at 1; rewrite bmap_entry_set by assumption.
      unfold bind at 1; rewrite read_entry_in by exact Hq.
      rewrite (if_zero_val _ _ Hd), (if_zero_val _ _ Hg).
      apply bmap_entry_set; assumption.
Qed.

(** ** readi *)

Lemma all_mapped_true m a len :
  (forall i, 0 <= i < Z.of_nat len -> m (a + i) <> None) ->
  all_mapped m a len = true.
Proof.
  revert a; induction len as [| len IH]; intros a H; [reflexivity |].
  cbn [all_mapped].
  destruct (m a) as [v |] eqn:E.
  - apply IH; intros i Hi.
    replace (a + 1 + i) with (a + (1 + i)) by lia; apply H; lia.
  - exfalso; apply (H 0); [lia |]; rewrite Z.add_0_r; exact E.
Qed.

Lemma in_range_true lo len x : lo <= x < lo + len -> in_range lo len x = true.
Proof.
  intros [H1 H2]; unfold in_range.
  apply Z.leb_le in H1; apply Z.ltb_lt in H2; rewrite H1, H2; reflexivity.
Qed.

Lemma in_range_false lo len x : x < lo \/ lo + len <= x -> in_range lo len x = false.
Proof.
  intros H; unfold in_range; apply andb_false_iff.
  destruct H as [H | H]; [left; apply Z.leb_gt | right; apply Z.ltb_ge]; exact H.
Qed.

Lemma ref_at_ext s1 s ip p :
  disk s1 = disk s -> icache s1 = icache s -> ref_at s1 ip p = ref_at s ip p.
Proof.
  intros Hd Hc; unfold ref_at, u32_at; rewrite Hd, Hc; reflexivity.
Qed.

Lemma file_byte_ext s1 s ip o :
  disk s1 = disk s -> icache s1 = icache s -> file_byte s1 ip o = file_byte s ip o.
Proof.
  intros Hd Hc; unfold file_byte.
  rewrite (ref_at_ext s1 s ip _ Hd Hc), Hd, Hc; reflexivity.
Qed.

(** A successful either_copyout. *)
Lemma either_copyout_ok user dst src len s :
  (forall i, 0 <= i < len -> mem_byte s user (dst + i) <> None) ->
  exists s1, either_copyout user dst src len s = Ret (0, s1) /\
    sb s1 = sb s /\ disk s1 = disk s /\ dinodes s1 = dinodes s /\
    icache s1 = icache s /\ cwd s1 = cwd s /\
    (forall a, mem_byte s1 user a =
               if in_range dst len a then Some (src (a - dst)) else mem_byte s user a) /\
    (forall a, mem_byte s1 (negb user) a = mem_byte s (negb user) a).
Proof.
  intros H; unfold either_copyout; destruct user.
  - rewrite all_mapped_true.
    + eexists; split; [reflexivity |]; cbn.
      repeat split; try reflexivity.
    + intros i Hi; apply H; lia.
  - eexists; split; [reflexivity |]; cbn.
    repeat split; try reflexivity.
    intros a; destruct (in_range dst len a); reflexivity.
Qed.

Lemma span_arith off i :
  0 <= off -> 0 <= i < BSIZE - off mod BSIZE ->
  (off + i) / BSIZE = off / BSIZE /\ (off + i) mod BSIZE = off mod BSIZE + i.
Proof.
  rewrite BSIZE_val; intros Ho Hi; Z.div_mod_to_equations; lia.
Qed.

Lemma span_len n tot off :
  0 <= off -> tot < n ->
  1 <= Z.min (n - tot) (BSIZE - off mod BSIZE) <= n - tot /\
  Z.min (n - tot) (BSIZE - off mod BSIZE) <= BSIZE - off mod BSIZE.
Proof.
  rewrite BSIZE_val; intros Ho Hn.
  assert (0 <= off mod 1024 < 1024) by (apply Z.mod_pos_bound; lia); lia.
Qed.

Lemma block_in_file off len :
  0 <= NDIRECT -> 0 <= off -> 0 < len -> off + len <= MAXFILE * BSIZE ->
  0 <= off / BSIZE < MAXFILE.
Proof.
  intros Hnd Ho Hl Hm; rewrite BSIZE_val in *; split.
  - apply Z.div_pos; lia.
  - apply Z.div_lt_upper_bound; lia.
Qed.

(** The loop of readi over blocks that are there, into a target that can
    be written: it runs to the end, changes memory only, and leaves in the
    target the bytes of the file. *)
Lemma readi_loop_mapped fuel : forall ip user n tot off dst s,
  0 <= NDIRECT -> MAXFILE * BSIZE < 2 ^ 32 ->
  0 <= tot <= n -> n < 2 ^ 32 -> (Z.to_nat (n - tot) <= fuel)%nat ->
  0 <= off -> off + (n - tot) <= MAXFILE * BSIZE ->
  0 <= dst -> dst + (n - tot) <= 2 ^ 64 ->
  mapped s ip off (n - tot) ->
  (forall i, 0 <= i < n - tot -> mem_byte s user (dst + i) <> None) ->
  exists s', readi_loop fuel ip user n tot off dst s = Ret (n, s') /\
    sb s' = sb s /\ disk s' = disk s /\ dinodes s' = dinodes s /\
    icache s' = icache s /\ cwd s' = cwd s /\
    (forall a, mem_byte s' user a =
               if in_range dst (n - tot) a
               then Some (file_byte s ip (off + (a - dst)))
               else mem_byte s user a) /\
    (forall a, mem_byte s' (negb user) a = mem_byte s (negb user) a).
Proof.
  induction fuel as [| fuel IH];
    intros ip user n tot off dst s Hnd Hmax Htot Hn Hfuel Hoff Hend Hdst Hdend Hmap Hmem.
  - assert (tot = n) by lia; subst tot.
    cbn [readi_loop]; rewrite Z.ltb_irrefl.
    exists s; split; [reflexivity |]; repeat split; try reflexivity.
    intros a; rewrite in_range_false by lia; reflexivity.
  - cbn [readi_loop]; destruct (tot <? n) eqn:E.
    2:{ rewrite Z.ltb_ge in E; assert (tot = n) by lia; subst tot.
        exists s; split; [reflexivity |]; repeat split; try reflexivity.
        intros a; rewrite in_range_false by lia; reflexivity. }
    rewrite Z.ltb_lt in E.
    destruct (span_len n tot off Hoff E) as [Hm1 Hm2].
    set (m := Z.min (n - tot) (BSIZE - off mod BSIZE)) in *.
    assert (Hblk : 0 <= off / BSIZE < MAXFILE)
      by (apply (block_in_file off (n - tot)); lia).
    assert (Hne : ref_at s ip (data_pos (off / BSIZE)) <> 0)
      by (apply Hmap; lia).
    unfold bind at 1; rewrite (bmap_mapped s ip _ Hnd Hblk Hne).
    unfold bind at 1; unfold get.
    destruct (either_copyout_ok user dst
                (fun i => disk s (i_dev (icache s ip))
                            (ref_at s ip (data_pos (off / BSIZE))) (off mod BSIZE + i))
                m s) as (s1 & Hc & Hsb & Hdisk & Hdin & Hic & Hcwd & Hm & Hm').
    { intros i Hi; apply Hmem; lia. }
    unfold bind at 1; rewrite Hc; cbn [Z.eqb].
    replace (0 =? -1) with false by reflexivity.
    assert (Hw1 : wrap32 (tot + m) = tot + m) by (apply wrap32_small; lia).
    assert (Hw2 : wrap32 (off + m) = off + m) by (apply wrap32_small; lia).
    rewrite Hw1, Hw2.
    assert (Hw3 : 0 <= wrap64 (dst + m) /\
                  (tot + m < n -> wrap64 (dst + m) = dst + m)).
    { unfold wrap64; split; [apply Z.mod_pos_bound; lia |].
      intros Hlt; apply Z.mod_small; lia. }
    destruct Hw3 as [Hw3 Hw4].
    destruct (IH ip user n (tot + m) (off + m) (wrap64 (dst + m)) s1) as
      (s' & Hr & Hsb' & Hdisk' & Hdin' & Hic' & Hcwd' & Hmr & Hmr');
      try lia; try assumption.
    + destruct (Z_lt_le_dec (tot + m) n) as [Hlt | Hge];
        [rewrite (Hw4 Hlt); lia |].
      assert (n - (tot + m) = 0) by lia.
      pose proof (Z.mod_pos_bound (dst + m) (2 ^ 64) ltac:(lia)) as Hb.
      unfold wrap64; lia.
    + intros o Ho; rewrite (ref_at_ext s1 s ip _ Hdisk Hic); apply Hmap; lia.
    + intros i Hi; rewrite Hw4 by lia.
      rewrite Hm, in_range_false by lia.
      replace (dst + m + i) with (dst + (m + i)) by lia; apply Hmem; lia.
    + exists s'; split; [exact Hr |].
      split; [congruence |]; split; [congruence |]; split; [congruence |].
      split; [congruence |]; split; [congruence |]; split.
      * intros a; rewrite Hmr.
        destruct (Z_lt_le_dec a dst) as [Ha | Ha].
        { rewrite (in_range_false dst) by lia.
          destruct (Z_lt_le_dec (tot + m) n) as [Hlt | Hge].
          - rewrite (Hw4 Hlt), in_range_false, Hm, in_range_false by lia; reflexivity.
          - rewrite in_range_false, Hm, in_range_false by lia; reflexivity. }
        destruct (Z_lt_le_dec a (dst + m)) as [Ha2 | Ha2].
        { rewrite (in_range_true dst (n - tot)) by lia.
          assert (Hout : in_range (wrap64 (dst + m)) (n - (tot + m)) a = false).
          { destruct (Z_lt_le_dec (tot + m) n) as [Hlt | Hge];
              [rewrite (Hw4 Hlt) |]; apply in_range_false; lia. }
          rewrite Hout, Hm, in_range_true by lia.
          f_equal; unfold file_byte.
          destruct (span_arith off (a - dst) Hoff ltac:(lia)) as [Hq Hrr].
          rewrite Hq, Hrr; reflexivity. }
        destruct (Z_lt_le_dec a (dst + (n - tot))) as [Ha3 | Ha3].
        { rewrite (in_range_true dst (n - tot)) by lia.
          rewrite (Hw4 ltac:(lia)), in_range_true by lia.
          rewrite (file_byte_ext s1 s ip _ Hdisk Hic).
          f_equal; f_equal; lia. }
        rewrite (in_range_false dst (n - tot)) by lia.
        destruct (Z_lt_le_dec (tot + m) n) as [Hlt | Hge].
        { rewrite (Hw4 Hlt), in_range_false, Hm, in_range_false by lia; reflexivity. }
        rewrite in_range_false, Hm, in_range_false by lia; reflexivity.
      * intros a; rewrite Hmr', Hm'; reflexivity.
Qed.

Lemma to_int_small x : 0 <= x < 2 ^ 31 -> to_int x = x.
Proof.
  intros H; unfold to_int; rewrite Z.mod_small by lia.
  destruct (x <? 2 ^ 31) eqn:E; [reflexivity | rewrite Z.ltb_ge in E; lia].
Qed.

Lemma readi_rejects (s : fs) (ip : nat) (user_dst : bool) (dst off n : Z) :
  off > i_size (icache s ip) \/ wrap32 (off + n) < off ->
  readi ip user_dst dst off n s = Ret (-1, s).
Proof.
  intros H; unfold readi; unfold bind at 1; unfold get.
  destruct (off >? i_size (icache s ip)) eqn:E1; [reflexivity |].
  destruct (wrap32 (off + n) <? off) eqn:E2; [reflexivity |].
  rewrite Z.gtb_ltb, Z.ltb_ge in E1; rewrite Z.ltb_ge in E2; lia.
Qed.

Lemma readi_reads (s : fs) (ip : nat) (user_dst : bool) (dst off n : Z) :
  0 <= NDIRECT -> MAXFILE * BSIZE < 2 ^ 31 ->
  0 <= off < 2 ^ 32 -> 0 <= n < 2 ^ 32 ->
  off <= i_size (icache s ip) -> off + n < 2 ^ 32 ->
  i_size (icache s ip) <= MAXFILE * BSIZE ->
  let cnt := Z.min n (i_size (icache s ip) - off) in
  0 <= dst -> dst + cnt <= 2 ^ 64 ->
  mapped s ip off cnt ->
  (forall i, 0 <= i < cnt -> mem_byte s user_dst (dst + i) <> None) ->
  exists s', readi ip user_dst dst off n s = Ret (cnt, s') /\
    sb s' = sb s /\ disk s' = disk s /\ dinodes s' = dinodes s /\
    icache s' = icache s /\ cwd s' = cwd s /\
    (forall a, mem_byte s' user_dst a =
               if in_range dst cnt a then Some (file_byte s ip (off + (a - dst)))
               else mem_byte s user_dst a) /\
    (forall a, mem_byte s' (negb user_dst) a = mem_byte s (negb user_dst) a).
Proof.
  intros Hnd Hmax Hoff Hn Hsz Hno Hsize cnt Hdst Hdend Hmap Hmem.
  unfold readi; unfold bind at 1; unfold get.
  assert (Hw : wrap32 (off + n) = off + n) by (apply wrap32_small; lia).
  rewrite Hw.
  destruct (off >? i_size (icache s ip)) eqn:E1;
    [rewrite Z.gtb_ltb, Z.ltb_lt in E1; lia |].
  destruct (off + n <? off) eqn:E2; [rewrite Z.ltb_lt in E2; lia |].
  cbn [orb].
  assert (Hcnt : (if off + n >? i_size (icache s ip)
                  then wrap32 (i_size (icache s ip) - off) else n) = cnt).
  { subst cnt; destruct (off + n >? i_size (icache s ip)) eqn:E3.
    - rewrite Z.gtb_ltb, Z.ltb_lt in E3; rewrite wrap32_small by lia; lia.
    - rewrite Z.gtb_ltb, Z.ltb_ge in E3; lia. }
  rewrite Hcnt.
  assert (Hc0 : 0 <= cnt) by (subst cnt; lia).
  assert (Hc1 : off + cnt <= MAXFILE * BSIZE) by (subst cnt; lia).
  pose proof (readi_loop_mapped (Z.to_nat cnt) ip user_dst cnt 0 off dst s) as HL.
  rewrite Z.sub_0_r in HL.
  destruct HL as (s' & Hr & Hrest); try lia; try assumption.
  exists s'; split; [| exact Hrest].
  unfold bind at 1; rewrite Hr; unfold ret.
  rewrite to_int_small by lia; reflexivity.
Qed.

(** C3. readi returns -1, and changes nothing, when off is beyond the size
    of the file or off + n wraps around. Otherwise, for a file within the
    maximal size whose blocks in the range are there and a target that can
    be written, it returns min(n, size - off), having copied to the target
    exactly that many bytes of the file from offset off on; nothing but the
    target memory changes. *)
Theorem readi_spec (s : fs) (ip : nat) (user_dst : bool) (dst off n : Z) :
  0 <= NDIRECT -> MAXFILE * BSIZE < 2 ^ 31 ->
  0 <= off < 2 ^ 32 -> 0 <= n < 2 ^ 32 ->
  (off > i_size (icache s ip) \/ wrap32 (off + n) < off ->
   readi ip user_dst dst off n s = Ret (-1, s)) /\
  (off <= i_size (icache s ip) -> off + n < 2 ^ 32 ->
   i_size (icache s ip) <= MAXFILE * BSIZE ->
   let cnt := Z.min n (i_size (icache s ip) - off) in
   0 <= dst -> dst + cnt <= 2 ^ 64 ->
   mapped s ip off cnt ->
   (forall i, 0 <= i < cnt -> mem_byte s user_dst (dst + i) <> None) ->
   exists s', readi ip user_dst dst off n s = Ret (cnt, s') /\
     sb s' = sb s /\ disk s' = disk s /\ dinodes s' = dinodes s /\
     icache s' = icache s /\ cwd s' = cwd s /\
     (forall a, mem_byte s' user_dst a =
                if in_range dst cnt a then Some (file_byte s ip (off + (a - dst)))
                else mem_byte s user_dst a) /\
     (forall a, mem_byte s' (negb user_dst) a = mem_byte s (negb user_dst) a)).
Proof.
  intros Hnd Hmax Hoff Hn; split.
  - apply readi_rejects.
  - intros Hsz Hno Hsize; apply readi_reads; assumption.
Qed.

(** ** The store of blocks *)

Lemma disk_put_byte dev b off v s dev' b' o :
  disk (put_byte dev b off v s) dev' b' o =
  if (dev' =? dev) && (b' =? b) && (o =? off) then v else disk s dev' b' o.
Proof.
  unfold put_byte, set_disk, upd; cbn [disk].
  destruct (dev' =? dev) eqn:E1; [| reflexivity].
  apply Z.eqb_eq in E1; subst dev'.
  destruct (b' =? b) eqn:E2; [| reflexivity].
  apply Z.eqb_eq in E2; subst b'; reflexivity.
Qed.

Lemma disk_zero_block dev b s dev' b' o :
  disk (zero_block dev b s) dev' b' o =
  if (dev' =? dev) && (b' =? b) then 0 else disk s dev' b' o.
Proof.
  unfold zero_block, set_disk, upd; cbn [disk].
  destruct (dev' =? dev) eqn:E1; [| reflexivity].
  apply Z.eqb_eq in E1; subst dev'.
  destruct (b' =? b) eqn:E2; reflexivity.
Qed.

Lemma disk_put_u32_other dev b i v s dev' b' o :
  dev' <> dev \/ b' <> b \/ o < 4 * i \/ 4 * i + 4 <= o ->
  disk (put_u32 dev b i v s) dev' b' o = disk s dev' b' o.
Proof.
  intros H; unfold put_u32; rewrite !disk_put_byte.
  destruct (dev' =? dev) eqn:E1; [| reflexivity].
  destruct (b' =? b) eqn:E2; [| reflexivity].
  apply Z.eqb_eq in E1, E2; cbn [andb].
  assert (Ho : o < 4 * i \/ 4 * i + 4 <= o) by (destruct H as [H | [H | H]]; tauto).
  repeat match goal with
         | |- context [?x =? ?y] =>
             let E := fresh "E" in
             destruct (x =? y) eqn:E; [apply Z.eqb_eq in E; lia |]
         end.
  reflexivity.
Qed.

Lemma u32_put_other dev b i v s dev' b' j :
  dev' <> dev \/ b' <> b \/ j <> i ->
  u32_at (put_u32 dev b i v s) dev' b' j = u32_at s dev' b' j.
Proof.
  intros H; unfold u32_at.
  rewrite !disk_put_u32_other; [reflexivity | | | |];
    (destruct H as [H | [H | H]]; [left; exact H | right; left; exact H | right; right; lia]).
Qed.

Lemma u32_put_same dev b i v s :
  0 <= v < 2 ^ 32 -> u32_at (put_u32 dev b i v s) dev b i = v.
Proof.
  intros Hv; unfold u32_at, put_u32; rewrite !disk_put_byte, !Z.eqb_refl; cbn [andb].
  repeat match goal with
         | |- context [?x =? ?y] =>
             lazymatch x with
             | y => rewrite (Z.eqb_refl x)
             | _ => let E := fresh "E" in
                    destruct (x =? y) eqn:E; [apply Z.eqb_eq in E; lia |]
             end
         end.
  rewrite !Z.mod_mod by lia.
  change (2 ^ 8) with 256; change (2 ^ 16) with 65536;
    change (2 ^ 24) with 16777216; change (2 ^ 32) with 4294967296 in Hv.
  Z.div_mod_to_equations; lia.
Qed.

Lemma u32_at_range s dev b i : 0 <= u32_at s dev b i < 2 ^ 32.
Proof.
  unfold u32_at.
  change (2 ^ 8) with 256; change (2 ^ 16) with 65536;
    change (2 ^ 24) with 16777216; change (2 ^ 32) with 4294967296.
  Z.div_mod_to_equations; lia.
Qed.

Lemma u32_zero s dev b i :
  (forall o, disk s dev b o = 0) -> u32_at s dev b i = 0.
Proof. intros H; unfold u32_at; rewrite !H; reflexivity. Qed.

Lemma u32_ext s1 s dev b i :
  (forall o, disk s1 dev b o = disk s dev b o) -> u32_at s1 dev b i = u32_at s dev b i.
Proof. intros H; unfold u32_at; rewrite !H; reflexivity. Qed.

(** ** The bitmap after an allocation *)

Lemma shiftl_1_pos k : 0 <= k -> Z.shiftl 1 k <> 0.
Proof.
  intros Hk; rewrite Z.shiftl_1_l.
  pose proof (Z.pow_pos_nonneg 2 k ltac:(lia) Hk); lia.
Qed.

Lemma land_lor_keep v m m' : Z.land v m' <> 0 -> Z.land (Z.lor v m) m' <> 0.
Proof.
  intros H; rewrite Z.land_lor_distr_l; intros H0.
  apply Z.lor_eq_0_iff in H0; destruct H0 as [H0 _]; contradiction.
Qed.

Lemma land_lor_set v m : m <> 0 -> Z.land (Z.lor v m) m <> 0.
Proof.
  intros H; rewrite Z.land_lor_distr_l, Z.land_diag; intros H0.
  apply Z.lor_eq_0_iff in H0; destruct H0 as [_ H0]; contradiction.
Qed.

Lemma sb_alloc dev a s : sb (zero_block dev a (mark_used dev a s)) = sb s.
Proof. reflexivity. Qed.

Lemma disk_alloc_other dev a s dev' b o :
  b <> a -> b <> BBLOCK a (sb s) ->
  disk (zero_block dev a (mark_used dev a s)) dev' b o = disk s dev' b o.
Proof.
  intros H1 H2; rewrite disk_zero_block; unfold mark_used; rewrite disk_put_byte.
  destruct (b =? a) eqn:E1; [apply Z.eqb_eq in E1; contradiction |].
  destruct (b =? BBLOCK a (sb s)) eqn:E2; [apply Z.eqb_eq in E2; contradiction |].
  rewrite !andb_false_r; reflexivity.
Qed.

Lemma disk_alloc_zero dev a s o :
  disk (zero_block dev a (mark_used dev a s)) dev a o = 0.
Proof. rewrite disk_zero_block, !Z.eqb_refl; reflexivity. Qed.

(** A bit that was set stays set, and the bit of the new block is set, as
    long as the new block is not the bitmap block that holds the bit. *)
Lemma used_alloc dev a s x :
  BBLOCK x (sb s) <> a ->
  block_used s dev x = true \/ x = a ->
  block_used (zero_block dev a (mark_used dev a s)) dev x = true.
Proof.
  intros Hne H; unfold block_used; rewrite sb_alloc.
  rewrite disk_zero_block.
  destruct (BBLOCK x (sb s) =? a) eqn:E; [apply Z.eqb_eq in E; contradiction |].
  rewrite andb_false_r; unfold mark_used; rewrite disk_put_byte, Z.eqb_refl.
  cbn [andb].
  assert (Hm : forall y, Z.shiftl 1 (y mod 8) <> 0).
  { intros y; apply shiftl_1_pos; apply Z.mod_pos_bound; lia. }
  apply negb_true_iff, Z.eqb_neq.
  destruct H as [H | ->].
  - unfold block_used in H; apply negb_true_iff, Z.eqb_neq in H.
    destruct ((BBLOCK x (sb s) =? BBLOCK a (sb s)) && (x mod BPB / 8 =? a mod BPB / 8)) eqn:E2;
      [| exact H].
    apply andb_true_iff in E2; destruct E2 as [E2 E3].
    apply Z.eqb_eq in E2, E3; rewrite <- E2, <- E3.
    apply land_lor_keep; exact H.
  - rewrite !Z.eqb_refl; cbn [andb]; apply land_lor_set; apply Hm.
Qed.

(** ** The invariant across an allocation *)

Lemma pos_eqb_eq p q : pos_eqb p q = true <-> p = q.
Proof.
  destruct p, q; cbn [pos_eqb]; split; intros H;
    try discriminate; try reflexivity;
    try (apply Z.eqb_eq in H; subst; reflexivity);
    try (injection H as ->; apply Z.eqb_refl).
  - apply andb_true_iff in H; destruct H as [H1 H2].
    apply Z.eqb_eq in H1, H2; subst; reflexivity.
  - injection H as -> ->; rewrite !Z.eqb_refl; reflexivity.
Qed.

Lemma pos_eqb_refl p : pos_eqb p p = true.
Proof. apply pos_eqb_eq; reflexivity. Qed.

Lemma pos_eqb_neq p q : p <> q -> pos_eqb p q = false.
Proof.
  intros H; destruct (pos_eqb p q) eqn:E; [| reflexivity].
  apply pos_eqb_eq in E; contradiction.
Qed.

(** A block that balloc can hand out is not 0, is not used by the inode and
    is not a bitmap block. *)
Lemma fresh_block s ip a :
  inode_wf s ip ->
  0 <= a < sb_size (sb s) -> block_used s (i_dev (icache s ip)) a = false ->
  a <> 0 /\
  (forall p, valid_pos p -> ref_at s ip p <> 0 ->
     ref_at s ip p <> a /\ ref_at s ip p <> BBLOCK a (sb s)) /\
  (forall x, 0 <= x < sb_size (sb s) -> BBLOCK x (sb s) <> a).
Proof.
  intros W Ha Hfree.
  assert (Hres : forall b, reserved s (i_dev (icache s ip)) b -> b <> a).
  { intros b [H | [H | H]] ->; [lia | lia | rewrite H in Hfree; discriminate]. }
  split; [intros ->; apply (Hres 0); [apply (wf_zero _ _ W) | reflexivity] |].
  split.
  - intros p Hp Hne; split.
    + apply Hres; apply (wf_used _ _ W); assumption.
    + apply (wf_bitmap _ _ W a Ha); assumption.
  - intros x Hx; apply Hres; apply (wf_bitmap _ _ W x Hx).
Qed.

Lemma ref_at_alloc s ip a p :
  inode_wf s ip ->
  0 <= a < sb_size (sb s) -> block_used s (i_dev (icache s ip)) a = false ->
  valid_pos p ->
  ref_at (zero_block (i_dev (icache s ip)) a (mark_used (i_dev (icache s ip)) a s)) ip p
  = ref_at s ip p.
Proof.
  intros W Ha Hfree Hp.
  destruct (fresh_block s ip a W Ha Hfree) as (_ & Hf & _).
  set (s1 := zero_block _ a _).
  assert (Hu : forall b j, b <> 0 -> (exists q, valid_pos q /\ ref_at s ip q = b) ->
             u32_at s1 (i_dev (icache s ip)) b j = u32_at s (i_dev (icache s ip)) b j).
  { intros b j Hb (q & Hq & Hqb); apply u32_ext; intros o.
    destruct (Hf q Hq ltac:(rewrite Hqb; exact Hb)) as [H1 H2].
    rewrite Hqb in H1, H2; apply disk_alloc_other; assumption. }
  destruct p as [k | | j | | j | j k]; unfold ref_at; cbn [icache s1 zero_block mark_used
    put_byte set_disk]; try reflexivity.
  - destruct (i_addrs (icache s ip) NDIRECT =? 0) eqn:E; [reflexivity |].
    apply Z.eqb_neq in E; apply (Hu _ j E).
    exists PInd; split; [exact I | reflexivity].
  - destruct (i_addrs (icache s ip) (NDIRECT + 1) =? 0) eqn:E; [reflexivity |].
    apply Z.eqb_neq in E; apply (Hu _ j E).
    exists PDbl; split; [exact I | reflexivity].
  - destruct (i_addrs (icache s ip) (NDIRECT + 1) =? 0) eqn:E; [reflexivity |].
    apply Z.eqb_neq in E.
    assert (Hg : u32_at s1 (i_dev (icache s ip)) (i_addrs (icache s ip) (NDIRECT + 1)) j
                 = u32_at s (i_dev (icache s ip)) (i_addrs (icache s ip) (NDIRECT + 1)) j).
    { apply (Hu _ j E); exists PDbl; split; [exact I | reflexivity]. }
    fold s1; rewrite Hg.
    destruct (u32_at s (i_dev (icache s ip)) (i_addrs (icache s ip) (NDIRECT + 1)) j =? 0)
      eqn:E2; [reflexivity |].
    apply Z.eqb_neq in E2; apply (Hu _ k E2).
    exists (PDblE j); split; [exact (proj1 Hp) |].
    unfold ref_at; apply Z.eqb_neq in E; rewrite E; reflexivity.
Qed.

Lemma reserved_alloc s ip a b :
  inode_wf s ip ->
  0 <= a < sb_size (sb s) -> block_used s (i_dev (icache s ip)) a = false ->
  reserved s (i_dev (icache s ip)) b \/ b = a ->
  reserved (zero_block (i_dev (icache s ip)) a (mark_used (i_dev (icache s ip)) a s))
           (i_dev (icache s ip)) b.
Proof.
  intros W Ha Hfree H.
  destruct (fresh_block s ip a W Ha Hfree) as (_ & _ & Hb).
  unfold reserved; rewrite sb_alloc.
  destruct (Z_lt_le_dec b 0) as [H0 | H0]; [left; exact H0 |].
  destruct (Z_lt_le_dec b (sb_size (sb s))) as [H1 | H1]; [| right; left; exact H1].
  right; right; apply used_alloc; [apply Hb; lia |].
  destruct H as [[H | [H | H]] | H]; [lia | lia | left; exact H | right; exact H].
Qed.

(** The invariant holds again once a fresh block has been put at a place
    that was empty. *)
Lemma wf_extend s s2 ip p0 a :
  inode_wf s ip -> valid_pos p0 ->
  sb s2 = sb s -> i_dev (icache s2 ip) = i_dev (icache s ip) ->
  (forall p, valid_pos p ->
     ref_at s2 ip p = if pos_eqb p p0 then a else ref_at s ip p) ->
  a <> 0 ->
  (forall p, valid_pos p -> ref_at s ip p <> 0 -> ref_at s ip p <> a) ->
  (forall x, 0 <= x < sb_size (sb s) -> BBLOCK x (sb s) <> a) ->
  (forall b, reserved s (i_dev (icache s ip)) b \/ b = a ->
             reserved s2 (i_dev (icache s ip)) b) ->
  inode_wf s2 ip.
Proof.
  intros W Hp0 Hsb Hdev Href Ha Hfresh Hbm Hres.
  constructor.
  - rewrite Hsb; apply (wf_size _ _ W).
  - intros p q Hp Hq; rewrite (Href p Hp), (Href q Hq).
    destruct (pos_eqb p p0) eqn:E1; destruct (pos_eqb q p0) eqn:E2.
    + apply pos_eqb_eq in E1, E2; congruence.
    + intros _ H; exfalso.
      destruct (Z.eq_dec (ref_at s ip q) 0) as [Hz | Hz]; [congruence |].
      apply (Hfresh q Hq Hz); congruence.
    + intros Hne H; exfalso; apply (Hfresh p Hp Hne); exact H.
    + apply (wf_inj _ _ W); assumption.
  - intros p Hp; rewrite Hdev, (Href p Hp).
    destruct (pos_eqb p p0); intros Hne.
    + apply Hres; right; reflexivity.
    + apply Hres; left; apply (wf_used _ _ W); assumption.
  - intros x Hx; rewrite Hsb in *; rewrite Hdev; split.
    + apply Hres; left; apply (wf_bitmap _ _ W x Hx).
    + intros p Hp; rewrite (Href p Hp).
      destruct (pos_eqb p p0); intros Hne.
      * intros H; apply (Hbm x Hx); congruence.
      * apply (wf_bitmap _ _ W x Hx); assumption.
  - rewrite Hdev; apply Hres; left; apply (wf_zero _ _ W).
Qed.

Lemma ref_at_store_addr s1 ip k a p0 p :
  slot_of p0 = Some k -> valid_pos p0 -> valid_pos p ->
  ref_at s1 ip p0 = 0 ->
  (forall o, disk s1 (i_dev (icache s1 ip)) a o = 0) -> a <> 0 ->
  ref_at (store_addr ip k a s1) ip p = if pos_eqb p p0 then a else ref_at s1 ip p.
Proof.
  intros Hslot Hp0 Hp Hz Hzero Ha.
  assert (Hu : forall j, u32_at s1 (i_dev (icache s1 ip)) a j = 0)
    by (intros j; apply u32_zero; exact Hzero).
  apply Z.eqb_neq in Ha.
  destruct p0 as [k0 | | j0 | | j0 | j0 k0]; cbn [slot_of] in Hslot;
    try discriminate; injection Hslot as Hk; subst k;
    cbn [valid_pos] in Hp0; cbn [ref_at] in Hz;
    destruct p as [k1 | | j1 | | j1 | j1 k1]; cbn [valid_pos] in Hp;
    unfold ref_at, store_addr; cbn [icache set_icache]; rewrite updn_same;
    cbn [i_addrs with_addrs i_dev pos_eqb];
    change (u32_at (set_icache ?c s1)) with (u32_at s1);
    rewrite ?upd_same; rewrite ?(upd_other _ _ _ NDIRECT) by lia;
    rewrite ?(upd_other _ _ _ (NDIRECT + 1)) by lia;
    try reflexivity.
  all: rewrite ?upd_other by lia; rewrite ?Ha, ?Hu, ?Hz; reflexivity.
Qed.

Lemma ref_at_child s ip p q j :
  parent_of p = Some (q, j) ->
  ref_at s ip p =
  if ref_at s ip q =? 0 then 0
  else u32_at s (i_dev (icache s ip)) (ref_at s ip q) j.
Proof.
  destruct p as [k | | j1 | | j1 | j1 k1]; cbn [parent_of]; intros H;
    try discriminate; injection H as <- <-; cbn [ref_at]; try reflexivity.
  destruct (i_addrs (icache s ip) (NDIRECT + 1) =? 0); reflexivity.
Qed.

Lemma parent_valid p q j : parent_of p = Some (q, j) -> valid_pos p -> valid_pos q.
Proof.
  destruct p as [k | | j1 | | j1 | j1 k1]; cbn [parent_of]; intros H;
    try discriminate; injection H as <- <-; cbn [valid_pos]; tauto.
Qed.

Lemma parent_eqb p q j p0 pm i :
  parent_of p = Some (q, j) -> parent_of p0 = Some (pm, i) ->
  pos_eqb p p0 = pos_eqb q pm && (j =? i).
Proof.
  destruct p as [k | | j1 | | j1 | j1 k1]; cbn [parent_of]; intros H;
    try discriminate; injection H as <- <-;
    destruct p0 as [k0 | | j0 | | j0 | j0 k0]; cbn [parent_of]; intros H;
    try discriminate; injection H as <- <-; reflexivity.
Qed.

(** Block numbers after a fresh block has been written into entry [i] of the
    block at place [pm]. *)
Lemma ref_at_put_entry s1 ip pm i a p0 p :
  (forall q r, valid_pos q -> valid_pos r ->
     ref_at s1 ip q <> 0 -> ref_at s1 ip q = ref_at s1 ip r -> q = r) ->
  parent_of p0 = Some (pm, i) -> valid_pos p0 -> valid_pos p ->
  ref_at s1 ip pm <> 0 -> ref_at s1 ip p0 = 0 ->
  0 <= a < 2 ^ 32 -> a <> 0 ->
  (forall o, disk s1 (i_dev (icache s1 ip)) a o = 0) ->
  (forall q, valid_pos q -> ref_at s1 ip q <> 0 -> ref_at s1 ip q <> a) ->
  ref_at (put_u32 (i_dev (icache s1 ip)) (ref_at s1 ip pm) i a s1) ip p
  = if pos_eqb p p0 then a else ref_at s1 ip p.
Proof.
  intros Hinj Hpar Hp0 Hp Hpm Hz Ha Ha0 Hzero Hfresh.
  pose proof (parent_valid _ _ _ Hpar Hp0) as Hvm.
  set (dev := i_dev (icache s1 ip)).
  set (s2 := put_u32 dev (ref_at s1 ip pm) i a s1).
  assert (Htop : forall q, parent_of q = None ->
            ref_at s2 ip q = if pos_eqb q p0 then a else ref_at s1 ip q).
  { intros q Hq; rewrite pos_eqb_neq by (intros ->; congruence).
    destruct q; cbn [parent_of] in Hq; try discriminate; reflexivity. }
  assert (HE : forall q j, valid_pos q -> ref_at s1 ip q <> 0 ->
            u32_at s2 dev (ref_at s1 ip q) j =
            if pos_eqb q pm && (j =? i) then a else u32_at s1 dev (ref_at s1 ip q) j).
  { intros q j Hq Hne; subst s2.
    destruct (pos_eqb q pm) eqn:E1.
    - apply pos_eqb_eq in E1; subst q; cbn [andb].
      destruct (j =? i) eqn:E2.
      + apply Z.eqb_eq in E2; subst j; apply u32_put_same; exact Ha.
      + apply Z.eqb_neq in E2; apply u32_put_other; tauto.
    - cbn [andb]; apply u32_put_other; right; left; intros Heq.
      apply (Hinj q pm Hq Hvm Hne) in Heq; subst q.
      rewrite pos_eqb_refl in E1; discriminate. }
  assert (HA : forall j, u32_at s2 dev a j = 0).
  { intros j; subst s2; rewrite u32_put_other.
    - apply u32_zero; exact Hzero.
    - right; left; intros Heq; apply (Hfresh pm Hvm Hpm); symmetry; exact Heq. }
  assert (Hstep : forall p' q j, parent_of p' = Some (q, j) -> valid_pos q ->
            ref_at s2 ip q = (if pos_eqb q p0 then a else ref_at s1 ip q) ->
            ref_at s2 ip p' = if pos_eqb p' p0 then a else ref_at s1 ip p').
  { intros p' q j Hq Hvq Hcl.
    rewrite (ref_at_child s2 ip p' q j Hq), (ref_at_child s1 ip p' q j Hq), Hcl.
    rewrite (parent_eqb _ _ _ _ _ _ Hq Hpar).
    change (i_dev (icache s2 ip)) with dev; change (i_dev (icache s1 ip)) with dev.
    destruct (pos_eqb q p0) eqn:E1.
    - apply pos_eqb_eq in E1; subst q.
      apply Z.eqb_neq in Ha0; rewrite Ha0, HA, Hz; cbn [Z.eqb].
      rewrite pos_eqb_neq; [reflexivity |].
      intros ->; apply Hpm; exact Hz.
    - destruct (ref_at s1 ip q =? 0) eqn:E2.
      + apply Z.eqb_eq in E2.
        rewrite pos_eqb_neq; [reflexivity |].
        intros ->; apply Hpm; exact E2.
      + apply Z.eqb_neq in E2; rewrite (HE q j Hvq E2); reflexivity. }
  destruct p as [k1 | | j1 | | j1 | j1 k1]; cbn [valid_pos] in Hp.
  - apply Htop; reflexivity.
  - apply Htop; reflexivity.
  - apply (Hstep _ PInd j1); [reflexivity | exact I | apply Htop; reflexivity].
  - apply Htop; reflexivity.
  - apply (Hstep _ PDbl j1); [reflexivity | exact I | apply Htop; reflexivity].
  - apply (Hstep _ (PDblE j1) k1); [reflexivity | exact (proj1 Hp) |].
    apply (Hstep _ PDbl j1); [reflexivity | exact I | apply Htop; reflexivity].
Qed.

Lemma ref_at_slot s ip p k :
  slot_of p = Some k -> ref_at s ip p = i_addrs (icache s ip) k.
Proof.
  destruct p; cbn [slot_of]; intros H; try discriminate;
    injection H as <-; reflexivity.
Qed.

Lemma parent_index p q j :
  parent_of p = Some (q, j) -> valid_pos p -> 0 <= j < NINDIRECT.
Proof.
  destruct p as [k | | j1 | | j1 | j1 k1]; cbn [parent_of]; intros H;
    try discriminate; injection H as <- <-; cbn [valid_pos]; tauto.
Qed.

Lemma step_post_same s ip p0 :
  inode_wf s ip -> ref_at s ip p0 <> 0 -> step_post s ip p0 (ref_at s ip p0) s.
Proof.
  intros W H; unfold step_post.
  split; [exact H |]; split; [reflexivity |]; split; [exact W |].
  split; [intros; reflexivity |]; split; [intros; reflexivity |].
  split; [repeat split; intros; reflexivity |].
  split; [intros; reflexivity |].
  split; [intros b _ Hb; exact Hb |].
  intros p _ Hz Hnz; contradiction.
Qed.

(** ip->addrs[k], allocated when it is 0. *)
Lemma bmap_slot_step s ip k p0 a s' :
  inode_wf s ip -> valid_pos p0 -> slot_of p0 = Some k ->
  bmap_slot ip (i_dev (icache s ip)) k s = Ret (a, s') ->
  step_post s ip p0 a s'.
Proof.
  intros W Hp0 Hslot; pose proof (ref_at_slot s ip p0 k Hslot) as Hk.
  unfold bmap_slot; unfold bind at 1; unfold get.
  destruct (i_addrs (icache s ip) k =? 0) eqn:E.
  2:{ unfold ret; intros H; injection H as <- <-; rewrite <- Hk.
      apply step_post_same; [exact W |].
      rewrite Hk; apply Z.eqb_neq; exact E. }
  apply Z.eqb_eq in E; rewrite <- Hk in E.
  intros H; apply bind_inv in H; destruct H as (a' & s1 & Hb & H).
  unfold bind, set_addr, modify, ret in H; injection H as <- <-.
  apply balloc_spec in Hb; destruct Hb as (Ha & Hfree & _ & ->).
  destruct (fresh_block s ip a' W Ha Hfree) as (Ha0 & Hf & Hbm).
  set (dev := i_dev (icache s ip)) in *.
  set (s1 := zero_block dev a' (mark_used dev a' s)).
  assert (Href : forall p, valid_pos p ->
            ref_at (store_addr ip k a' s1) ip p
            = if pos_eqb p p0 then a' else ref_at s ip p).
  { intros p Hp; rewrite (ref_at_store_addr s1 ip k a' p0 p Hslot Hp0 Hp).
    - destruct (pos_eqb p p0); [reflexivity |].
      apply ref_at_alloc; assumption.
    - subst s1 dev; rewrite ref_at_alloc by assumption; exact E.
    - intros o; apply disk_alloc_zero.
    - exact Ha0. }
  unfold step_post; split; [exact Ha0 |]; split.
  { rewrite (Href p0 Hp0), pos_eqb_refl; reflexivity. }
  split.
  { apply (wf_extend s _ ip p0 a' W Hp0); try reflexivity; try assumption.
    - cbn [store_addr icache set_icache]; rewrite updn_same; reflexivity.
    - intros p Hp Hne; apply (Hf p Hp Hne).
    - intros b Hb; apply (reserved_alloc s ip a' b W Ha Hfree Hb). }
  split.
  { intros p Hp Hne; rewrite (Href p Hp), pos_eqb_neq; [reflexivity |].
    intros ->; contradiction. }
  split.
  { intros p o Hp _ Hne; destruct (Hf p Hp Hne) as [H1 H2].
    apply (disk_alloc_other dev a' s dev _ o H1 H2). }
  split.
  { repeat split; try reflexivity.
    - intros j Hj; cbn [store_addr icache set_icache]; apply updn_other; exact Hj.
    - cbn [store_addr icache set_icache]; rewrite updn_same; reflexivity.
    - cbn [store_addr icache set_icache]; rewrite updn_same; reflexivity. }
  split; [intros Hne; contradiction |].
  assert (Hmono : forall b, 0 <= b < sb_size (sb s) ->
            block_used s dev b = true \/ b = a' -> block_used s1 dev b = true).
  { intros b Hb Hu; apply used_alloc; [apply Hbm; exact Hb | exact Hu]. }
  split; [intros b Hb Hu; apply (Hmono b Hb); left; exact Hu |].
  intros p Hp Hz; rewrite (Href p Hp).
  destruct (pos_eqb p p0); [| intros Hnz; contradiction].
  intros _; split; [exact Ha |]; split; [exact Hfree |].
  apply (Hmono a' Ha); right; reflexivity.
Qed.

(** Entry [i] of the block at place [pm], allocated when it is 0. *)
Lemma bmap_entry_step s ip pm i p0 a s' :
  inode_wf s ip -> valid_pos p0 -> parent_of p0 = Some (pm, i) ->
  ref_at s ip pm <> 0 ->
  bmap_entry (i_dev (icache s ip)) (ref_at s ip pm) i s = Ret (a, s') ->
  step_post s ip p0 a s'.
Proof.
  intros W Hp0 Hpar Hpm.
  pose proof (parent_index _ _ _ Hpar Hp0) as Hi.
  pose proof (parent_valid _ _ _ Hpar Hp0) as Hvm.
  assert (Hk : ref_at s ip p0 = u32_at s (i_dev (icache s ip)) (ref_at s ip pm) i).
  { rewrite (ref_at_child s ip p0 pm i Hpar); apply if_zero_val; exact Hpm. }
  unfold bmap_entry; unfold bind at 1; rewrite (read_entry_in _ _ _ _ Hi).
  destruct (u32_at s (i_dev (icache s ip)) (ref_at s ip pm) i =? 0) eqn:E.
  2:{ unfold ret; intros H; injection H as <- <-; rewrite <- Hk.
      apply step_post_same; [exact W |].
      rewrite Hk; apply Z.eqb_neq; exact E. }
  apply Z.eqb_eq in E; rewrite <- Hk in E.
  intros H; apply bind_inv in H; destruct H as (a' & s1 & Hb & H).
  apply balloc_spec in Hb; destruct Hb as (Ha & Hfree & _ & ->).
  unfold bind, write_entry in H.
  destruct ((0 <=? i) && (i <? NINDIRECT)) eqn:Ei; [| discriminate].
  unfold ret in H; injection H as <- <-.
  destruct (fresh_block s ip a' W Ha Hfree) as (Ha0 & Hf & Hbm).
  set (dev := i_dev (icache s ip)) in *.
  set (s1 := zero_block dev a' (mark_used dev a' s)).
  assert (Hr1 : forall p, valid_pos p -> ref_at s1 ip p = ref_at s ip p)
    by (intros p Hp; apply ref_at_alloc; assumption).
  assert (Hsz := wf_size _ _ W).
  assert (Href : forall p, valid_pos p ->
            ref_at (put_u32 dev (ref_at s ip pm) i a' s1) ip p
            = if pos_eqb p p0 then a' else ref_at s ip p).
  { intros p Hp; rewrite <- (Hr1 pm Hvm).
    change dev with (i_dev (icache s1 ip)).
    rewrite (ref_at_put_entry s1 ip pm i a' p0 p); try assumption.
    - rewrite (Hr1 p Hp); reflexivity.
    - intros q r Hq Hr; rewrite (Hr1 q Hq), (Hr1 r Hr); apply (wf_inj _ _ W); assumption.
    - rewrite (Hr1 pm Hvm); exact Hpm.
    - rewrite (Hr1 p0 Hp0); exact E.
    - lia.
    - intros o; apply disk_alloc_zero.
    - intros q Hq; rewrite (Hr1 q Hq); intros Hne; apply (Hf q Hq Hne). }
  unfold step_post; split; [exact Ha0 |]; split.
  { rewrite (Href p0 Hp0), pos_eqb_refl; reflexivity. }
  split.
  { apply (wf_extend s _ ip p0 a' W Hp0); try reflexivity; try assumption.
    - intros p Hp Hne; apply (Hf p Hp Hne).
    - intros b Hb.
      pose proof (reserved_alloc s ip a' b W Ha Hfree Hb) as Hres.
      fold dev in Hres; fold s1 in Hres.
      destruct Hres as [H | [H | H]]; [left; exact H | right; left; exact H |].
      destruct (Z_lt_le_dec b 0) as [H0 | H0]; [left; exact H0 |].
      destruct (Z_lt_le_dec b (sb_size (sb s))) as [H1 | H1];
        [| right; left; exact H1].
      right; right; unfold block_used in *.
      rewrite disk_put_u32_other; [exact H |].
      right; left; intros Heq.
      apply (proj2 (wf_bitmap _ _ W b (conj H0 H1)) pm Hvm Hpm).
      symmetry; exact Heq. }
  split.
  { intros p Hp Hne; rewrite (Href p Hp), pos_eqb_neq; [reflexivity |].
    intros ->; contradiction. }
  split.
  { intros p o Hp Hd Hne; destruct (Hf p Hp Hne) as [H1 H2].
    rewrite disk_put_u32_other.
    - apply (disk_alloc_other dev a' s dev _ o H1 H2).
    - right; left; intros Heq.
      apply (wf_inj _ _ W p pm Hp Hvm Hne) in Heq; subst p.
      destruct p0; destruct pm; cbn [parent_of is_data] in *; congruence. }
  split.
  { repeat split; try reflexivity. }
  split; [intros Hne; contradiction |].
  assert (Hmono : forall b, 0 <= b < sb_size (sb s) ->
            block_used s dev b = true \/ b = a' ->
            block_used (put_u32 dev (ref_at s ip pm) i a' s1) dev b = true).
  { intros b Hb Hu; unfold block_used.
    rewrite disk_put_u32_other.
    - apply (used_alloc dev a' s b); [apply Hbm; exact Hb | exact Hu].
    - right; left; intros Heq.
      apply (proj2 (wf_bitmap _ _ W b Hb) pm Hvm Hpm); symmetry; exact Heq. }
  split; [intros b Hb Hu; apply (Hmono b Hb); left; exact Hu |].
  intros p Hp Hz0; rewrite (Href p Hp).
  destruct (pos_eqb p p0); [| intros Hnz; contradiction].
  intros _; split; [exact Ha |]; split; [exact Hfree |].
  apply (Hmono a' Ha); right; reflexivity.
Qed.

Lemma step_post_compose s s1 s2 ip p a q b :
  step_post s ip p a s1 -> step_post s1 ip q b s2 ->
  (ref_at s ip q <> 0 -> ref_at s ip p <> 0) ->
  step_post s ip q b s2.
Proof.
  intros (Ha & Hra & W1 & Hp1 & Hd1 & (F1 & F2 & F3 & F4 & F5 & F6 & F7 & F8) & I1 & M1 & N1)
         (Hb & Hrb & W2 & Hp2 & Hd2 & (G1 & G2 & G3 & G4 & G5 & G6 & G7 & G8) & I2 & M2 & N2)
         Hpar.
  unfold step_post.
  split; [exact Hb |]; split; [exact Hrb |]; split; [exact W2 |].
  split.
  { intros r Hr Hne; rewrite <- (Hp1 r Hr Hne); apply Hp2; [exact Hr |].
    rewrite (Hp1 r Hr Hne); exact Hne. }
  split.
  { intros r o Hr Hdat Hne.
    rewrite <- (Hd1 r o Hr Hdat Hne), <- (Hp1 r Hr Hne), <- F7.
    apply Hd2; [exact Hr | exact Hdat |].
    rewrite (Hp1 r Hr Hne); exact Hne. }
  split.
  { repeat split; try congruence.
    intros j Hj; rewrite (G6 j Hj); apply F6; exact Hj. }
  split; [intros Hne; specialize (I1 (Hpar Hne)); subst s1; apply I2; exact Hne |].
  rewrite F1, F7 in M2, N2.
  split; [intros x Hx Hu; apply (M2 x Hx), (M1 x Hx); exact Hu |].
  intros r Hr Hz Hnz.
  destruct (Z.eq_dec (ref_at s1 ip r) 0) as [Hz1 | Hz1].
  - destruct (N2 r Hr Hz1 Hnz) as (Hrange & Hfree & Hused).
    split; [exact Hrange |]; split; [| exact Hused].
    destruct (block_used s (i_dev (icache s ip)) (ref_at s2 ip r)) eqn:E; [| reflexivity].
    rewrite (M1 _ Hrange E) in Hfree; discriminate.
  - destruct (N1 r Hr Hz Hz1) as (Hrange & Hfree & Hused).
    rewrite (Hp2 r Hr Hz1).
    split; [exact Hrange |]; split; [exact Hfree |].
    apply (M2 _ Hrange); exact Hused.
Qed.

Lemma parent_nonzero s ip p q j :
  parent_of p = Some (q, j) -> ref_at s ip p <> 0 -> ref_at s ip q <> 0.
Proof.
  intros Hpar; rewrite (ref_at_child s ip p q j Hpar); intros H.
  apply if_zero_ne in H; tauto.
Qed.

Lemma data_pos_valid bn : 0 <= NDIRECT -> 0 <= bn < MAXFILE -> valid_pos (data_pos bn).
Proof.
  intros Hnd Hbn; unfold MAXFILE in Hbn; pose proof NINDIRECT_val as HN.
  unfold data_pos.
  destruct (bn <? NDIRECT) eqn:E1; [rewrite Z.ltb_lt in E1; cbn; lia |].
  rewrite Z.ltb_ge in E1.
  destruct (bn - NDIRECT <? NINDIRECT) eqn:E2; [rewrite Z.ltb_lt in E2; cbn; lia |].
  rewrite Z.ltb_ge in E2; cbn [valid_pos]; rewrite HN in *; split.
  - split; [apply Z.div_pos; lia | apply Z.div_lt_upper_bound; lia].
  - apply Z.mod_pos_bound; lia.
Qed.

(** bmap, on an inode that satisfies the invariant: the block number returned
    is not 0 and is the one found at the place of block bn afterwards; the
    invariant holds again; block numbers that were there and the contents of
    data blocks are kept; and nothing changes when the block was there. *)
Lemma bmap_step s ip bn a s' :
  0 <= NDIRECT -> inode_wf s ip -> 0 <= bn < MAXFILE ->
  bmap ip bn s = Ret (a, s') ->
  step_post s ip (data_pos bn) a s'.
Proof.
  intros Hnd W Hbn; pose proof (data_pos_valid bn Hnd Hbn) as Hv; revert Hv.
  unfold bmap, data_pos; unfold bind at 1; unfold get.
  destruct (bn <? NDIRECT) eqn:E1.
  - intros Hv; apply bmap_slot_step; [exact W | exact Hv | reflexivity].
  - destruct (bn - NDIRECT <? NINDIRECT) eqn:E2.
    + intros Hv H; apply bind_inv in H; destruct H as (ind & s1 & H1 & H2).
      apply (bmap_slot_step s ip NDIRECT PInd) in H1; [| exact W | exact I | reflexivity].
      pose proof H1 as (Hi0 & Hri & W1 & _ & _ & (_ & _ & _ & _ & _ & _ & Hdev & _) & _ & _ & _).
      rewrite <- Hdev, <- Hri in H2.
      apply (bmap_entry_step s1 ip PInd _ (PIndE (bn - NDIRECT))) in H2;
        [| exact W1 | exact Hv | reflexivity | rewrite Hri; exact Hi0].
      apply (step_post_compose _ _ _ _ _ _ _ _ H1 H2).
      apply (parent_nonzero s ip (PIndE (bn - NDIRECT)) PInd _ eq_refl).
    + intros Hv H; apply bind_inv in H; destruct H as (dbl & s1 & H1 & H2).
      apply (bmap_slot_step s ip (NDIRECT + 1) PDbl) in H1;
        [| exact W | exact I | reflexivity].
      pose proof H1 as (Hd0 & Hrd & W1 & _ & _ & (_ & _ & _ & _ & _ & _ & Hdev & _) & _ & _ & _).
      apply bind_inv in H2; destruct H2 as (sg & s2 & H2 & H3).
      rewrite <- Hdev, <- Hrd in H2.
      set (j := (bn - NDIRECT - NINDIRECT) / NINDIRECT) in *.
      set (k := (bn - NDIRECT - NINDIRECT) mod NINDIRECT) in *.
      apply (bmap_entry_step s1 ip PDbl _ (PDblE j)) in H2;
        [| exact W1 | exact (proj1 Hv) | reflexivity | rewrite Hrd; exact Hd0].
      pose proof H2 as (Hs0 & Hrs & W2 & Hp2 & _ & (_ & _ & _ & _ & _ & _ & Hdev2 & _) & _ & _ & _).
      apply bind_inv in H3; destruct H3 as (sg' & s2' & H3 & H4).
      assert (Hd2 : ref_at s2 ip PDbl = dbl).
      { rewrite (Hp2 PDbl I); [exact Hrd | rewrite Hrd; exact Hd0]. }
      rewrite read_entry_in in H3 by exact (proj1 Hv).
      injection H3 as <- <-.
      assert (Hsg : u32_at s2 (i_dev (icache s ip)) dbl j = ref_at s2 ip (PDblE j)).
      { rewrite (ref_at_child s2 ip (PDblE j) PDbl j eq_refl), Hd2.
        rewrite if_zero_val by exact Hd0; congruence. }
      rewrite Hsg in H4.
      replace (i_dev (icache s ip)) with (i_dev (icache s2 ip)) in H4 by congruence.
      apply (bmap_entry_step s2 ip (PDblE j) _ (PLeaf j k)) in H4;
        [| exact W2 | exact Hv | reflexivity | rewrite Hrs; exact Hs0].
      apply (step_post_compose s s1 s' ip PDbl dbl (PLeaf j k) a H1).
      * apply (step_post_compose s1 s2 s' ip (PDblE j) sg (PLeaf j k) a H2 H4).
        apply (parent_nonzero s1 ip (PLeaf j k) (PDblE j) _ eq_refl).
      * intros Hne.
        apply (parent_nonzero s ip (PDblE j) PDbl j eq_refl).
        apply (parent_nonzero s ip (PLeaf j k) (PDblE j) k eq_refl); exact Hne.
Qed.

(** ** Writing file data *)

Lemma data_pos_is_data bn : is_data (data_pos bn) = true.
Proof.
  unfold data_pos; destruct (bn <? NDIRECT); [reflexivity |].
  destruct (bn - NDIRECT <? NINDIRECT); reflexivity.
Qed.

Lemma data_pos_inj bn bn' :
  0 <= NDIRECT -> 0 <= bn -> 0 <= bn' -> data_pos bn = data_pos bn' -> bn = bn'.
Proof.
  intros Hnd Hb Hb'; pose proof NINDIRECT_val as HN; unfold data_pos.
  destruct (bn <? NDIRECT) eqn:E1; destruct (bn' <? NDIRECT) eqn:E1';
    try (destruct (bn - NDIRECT <? NINDIRECT) eqn:E2);
    try (destruct (bn' - NDIRECT <? NINDIRECT) eqn:E2');
    intros H; try discriminate; injection H; intros; try lia.
  rewrite HN in *; rewrite Z.ltb_ge in *.
  assert (bn - NDIRECT - 256 = bn' - NDIRECT - 256); [| lia].
  rewrite (Z.div_mod (bn - NDIRECT - 256) 256) by lia.
  rewrite (Z.div_mod (bn' - NDIRECT - 256) 256) by lia.
  congruence.
Qed.

Lemma parent_is_meta p q j : parent_of p = Some (q, j) -> is_data q = false.
Proof.
  destruct p; cbn [parent_of]; intros H; try discriminate;
    injection H as <- <-; reflexivity.
Qed.

(** Block numbers and invariant when only a data block of the inode is
    written. *)
Lemma data_write_refs s1 s2 ip p :
  inode_wf s1 ip -> valid_pos p -> is_data p = true -> ref_at s1 ip p <> 0 ->
  icache s2 = icache s1 -> sb s2 = sb s1 ->
  (forall b o, b <> ref_at s1 ip p ->
     disk s2 (i_dev (icache s1 ip)) b o = disk s1 (i_dev (icache s1 ip)) b o) ->
  (forall q, valid_pos q -> ref_at s2 ip q = ref_at s1 ip q) /\ inode_wf s2 ip.
Proof.
  intros W Hp Hdat Hne Hic Hsb Hdisk.
  assert (Hmeta : forall q, valid_pos q -> is_data q = false -> ref_at s1 ip q <> 0 ->
            ref_at s1 ip q <> ref_at s1 ip p).
  { intros q Hq Hm Hq0 Heq.
    apply (wf_inj _ _ W q p Hq Hp Hq0) in Heq; subst q; congruence. }
  assert (Htop : forall q, parent_of q = None -> ref_at s2 ip q = ref_at s1 ip q).
  { intros q Hq; destruct q; cbn [parent_of] in Hq; try discriminate;
      unfold ref_at; rewrite Hic; reflexivity. }
  assert (Hstep : forall p' q j, parent_of p' = Some (q, j) -> valid_pos q ->
            ref_at s2 ip q = ref_at s1 ip q -> ref_at s2 ip p' = ref_at s1 ip p').
  { intros p' q j Hpar Hq Hcl.
    rewrite (ref_at_child s2 ip p' q j Hpar), (ref_at_child s1 ip p' q j Hpar), Hcl, Hic.
    destruct (ref_at s1 ip q =? 0) eqn:E; [reflexivity |].
    apply Z.eqb_neq in E; apply u32_ext; intros o; apply Hdisk.
    apply Hmeta; [exact Hq | apply (parent_is_meta _ _ _ Hpar) | exact E]. }
  assert (Href : forall q, valid_pos q -> ref_at s2 ip q = ref_at s1 ip q).
  { intros q Hq; destruct q as [k1 | | j1 | | j1 | j1 k1]; cbn [valid_pos] in Hq.
    - apply Htop; reflexivity.
    - apply Htop; reflexivity.
    - apply (Hstep _ PInd j1); [reflexivity | exact I | apply Htop; reflexivity].
    - apply Htop; reflexivity.
    - apply (Hstep _ PDbl j1); [reflexivity | exact I | apply Htop; reflexivity].
    - apply (Hstep _ (PDblE j1) k1); [reflexivity | exact (proj1 Hq) |].
      apply (Hstep _ PDbl j1); [reflexivity | exact I | apply Htop; reflexivity]. }
  split; [exact Href |].
  assert (Hres : forall b, reserved s1 (i_dev (icache s1 ip)) b ->
            reserved s2 (i_dev (icache s1 ip)) b).
  { intros b [H | [H | H]]; unfold reserved; rewrite Hsb;
      [left; exact H | right; left; exact H |].
    destruct (Z_lt_le_dec b 0) as [H0 | H0]; [left; exact H0 |].
    destruct (Z_lt_le_dec b (sb_size (sb s1))) as [H1 | H1]; [| right; left; exact H1].
    right; right; unfold block_used in *; rewrite Hsb, Hdisk; [exact H |].
    intros Heq; apply (proj2 (wf_bitmap _ _ W b (conj H0 H1)) p Hp Hne).
    symmetry; exact Heq. }
  constructor.
  - rewrite Hsb; apply (wf_size _ _ W).
  - intros q r Hq Hr; rewrite (Href q Hq), (Href r Hr); apply (wf_inj _ _ W); assumption.
  - intros q Hq; rewrite (Href q Hq), Hic; intros H0.
    apply Hres, (wf_used _ _ W); assumption.
  - intros x Hx; rewrite Hsb in *; rewrite Hic; split.
    + apply Hres, (wf_bitmap _ _ W x Hx).
    + intros q Hq; rewrite (Href q Hq); apply (wf_bitmap _ _ W x Hx); exact Hq.
  - rewrite Hic; apply Hres, (wf_zero _ _ W).
Qed.

(** A successful either_copyin. *)
Lemma either_copyin_ok dev b boff user src len s :
  (forall i, 0 <= i < len -> mem_byte s user (src + i) <> None) ->
  exists s2, either_copyin dev b boff user src len s = Ret (0, s2) /\
    sb s2 = sb s /\ dinodes s2 = dinodes s /\ icache s2 = icache s /\
    cwd s2 = cwd s /\ umem s2 = umem s /\ kmem s2 = kmem s /\
    (forall b' o, b' <> b -> disk s2 dev b' o = disk s dev b' o) /\
    (forall o, disk s2 dev b o =
       if in_range boff len o
       then match mem_byte s user (src + (o - boff)) with Some v => v | None => 0 end
       else disk s dev b o).
Proof.
  intros H; unfold either_copyin; destruct user.
  - rewrite all_mapped_true by (intros i Hi; apply H; lia).
    eexists; split; [reflexivity |]; cbn [sb dinodes icache cwd umem kmem disk set_disk].
    repeat split; try reflexivity.
    + intros b' o Hb; rewrite upd_same, upd_other by exact Hb; reflexivity.
    + intros o; rewrite !upd_same; reflexivity.
  - eexists; split; [reflexivity |]; cbn [sb dinodes icache cwd umem kmem disk set_disk].
    repeat split; try reflexivity.
    + intros b' o Hb; rewrite upd_same, upd_other by exact Hb; reflexivity.
    + intros o; rewrite !upd_same; reflexivity.
Qed.

Lemma same_block off o :
  0 <= off -> 0 <= o -> o / BSIZE = off / BSIZE ->
  o mod BSIZE - off mod BSIZE = o - off.
Proof.
  rewrite BSIZE_val; intros Ho Ho' H.
  rewrite (Z.div_mod o 1024) at 2 by lia.
  rewrite (Z.div_mod off 1024) at 2 by lia.
  rewrite H; lia.
Qed.

(** One turn of the loop of writei: bmap, then the copy into the block. *)
Lemma write_span s ip user src off m data addr s1 r s2 :
  0 <= NDIRECT -> inode_wf s ip ->
  0 <= off -> 1 <= m <= BSIZE - off mod BSIZE -> off + m <= MAXFILE * BSIZE ->
  (forall o, off <= o < off + m -> mem_byte s user (src + (o - off)) = Some (data o)) ->
  bmap ip (off / BSIZE) s = Ret (addr, s1) ->
  either_copyin (i_dev (icache s1 ip)) addr (off mod BSIZE) user src m s1 = Ret (r, s2) ->
  r = 0 /\ write_post s ip off (off + m) data s2.
Proof.
  intros Hnd W Hoff Hm Hend Hmem Hb Hc.
  assert (Hbn : 0 <= off / BSIZE < MAXFILE) by (apply (block_in_file off m); lia).
  pose proof (data_pos_valid _ Hnd Hbn) as Hv.
  apply (bmap_step s ip _ addr s1 Hnd W Hbn) in Hb.
  destruct Hb as (Ha0 & Hra & W1 & Hp1 & Hd1 &
                  (F1 & F2 & F3 & F4 & F5 & F6 & F7 & F8) & _ & _ & _).
  assert (Hm1 : forall a, mem_byte s1 user a = mem_byte s user a)
    by (intros a; unfold mem_byte; rewrite F4, F5; reflexivity).
  destruct (either_copyin_ok (i_dev (icache s1 ip)) addr (off mod BSIZE) user src m s1)
    as (s2' & Hc' & G1 & G2 & G3 & G4 & G5 & G6 & Hother & Hblk).
  { intros i Hi; rewrite Hm1.
    replace (src + i) with (src + (off + i - off)) by lia.
    rewrite (Hmem (off + i)) by lia; discriminate. }
  rewrite Hc' in Hc; injection Hc as <- <-; split; [reflexivity |].
  destruct (data_write_refs s1 s2' ip (data_pos (off / BSIZE)) W1 Hv
              (data_pos_is_data _) ltac:(rewrite Hra; exact Ha0) G3 G1) as [Href2 W2].
  { intros b o Hne; apply Hother; rewrite <- Hra; exact Hne. }
  unfold write_post; split; [exact W2 |]; split.
  { rewrite G3; repeat split; try congruence.
    intros j Hj; apply F6; exact Hj. }
  split.
  - intros o Ho.
    assert (Hq : o / BSIZE = off / BSIZE).
    { replace o with (off + (o - off)) by lia.
      apply (span_arith off (o - off) Hoff); lia. }
    rewrite Hq, (Href2 _ Hv), Hra; split; [exact Ha0 |].
    unfold file_byte; rewrite Hq, (Href2 _ Hv), Hra, G3, Hblk.
    pose proof (same_block off o Hoff ltac:(lia) Hq) as Hsb.
    rewrite in_range_true by lia.
    replace (o mod BSIZE - off mod BSIZE) with (o - off) by lia.
    rewrite Hm1, (Hmem o Ho); reflexivity.
  - intros o Ho Hout Hne.
    assert (Hbo : 0 <= o / BSIZE < MAXFILE).
    { rewrite BSIZE_val in *; split;
        [apply Z.div_pos; lia | apply Z.div_lt_upper_bound; lia]. }
    pose proof (data_pos_valid _ Hnd Hbo) as Hvo.
    rewrite (Href2 _ Hvo), (Hp1 _ Hvo Hne); split; [exact Hne |].
    unfold file_byte; rewrite (Href2 _ Hvo), (Hp1 _ Hvo Hne), G3, F7.
    destruct (Z.eq_dec (ref_at s ip (data_pos (o / BSIZE))) addr) as [Heq | Hneq].
    + assert (Hq : o / BSIZE = off / BSIZE).
      { apply (data_pos_inj _ _ Hnd); [lia | lia |].
        apply (wf_inj _ _ W1 _ _ Hvo Hv).
        - rewrite (Hp1 _ Hvo Hne); exact Hne.
        - rewrite (Hp1 _ Hvo Hne), Hra; exact Heq. }
      pose proof (same_block off o Hoff ltac:(lia) Hq) as Hsb.
      rewrite Heq, <- F7, Hblk, in_range_false by lia.
      rewrite <- Heq, F7; apply Hd1; [exact Hvo | apply data_pos_is_data | exact Hne].
    + rewrite <- F7, Hother by exact Hneq.
      rewrite F7; apply Hd1; [exact Hvo | apply data_pos_is_data | exact Hne].
Qed.

Lemma write_post_refl s ip lo data :
  inode_wf s ip -> write_post s ip lo lo data s.
Proof.
  intros W; unfold write_post; split; [exact W |]; split.
  - repeat split; intros; reflexivity.
  - split; [intros o Ho; lia |].
    intros o _ _ Hne; split; [exact Hne | reflexivity].
Qed.

Lemma write_post_compose s s1 s2 ip lo mid hi data :
  0 <= lo <= mid -> mid <= hi <= MAXFILE * BSIZE ->
  write_post s ip lo mid data s1 -> write_post s1 ip mid hi data s2 ->
  write_post s ip lo hi data s2.
Proof.
  intros Hlo Hhi (W1 & (F1 & F2 & F3 & F4 & F5 & F6 & F7 & F8) & Hin1 & Hout1)
                 (W2 & (G1 & G2 & G3 & G4 & G5 & G6 & G7 & G8) & Hin2 & Hout2).
  unfold write_post; split; [exact W2 |]; split.
  { repeat split; try congruence.
    intros j Hj; rewrite (G6 j Hj); apply F6; exact Hj. }
  split.
  - intros o Ho; destruct (Z_lt_le_dec o mid) as [Hlt | Hge].
    + destruct (Hin1 o ltac:(lia)) as [Hm Hb].
      destruct (Hout2 o ltac:(lia) ltac:(lia) Hm) as [Hm2 Hb2].
      split; [exact Hm2 | congruence].
    + apply Hin2; lia.
  - intros o Ho Hout Hne.
    destruct (Hout1 o Ho ltac:(lia) Hne) as [Hm Hb].
    destruct (Hout2 o Ho ltac:(lia) Hm) as [Hm2 Hb2].
    split; [exact Hm2 | congruence].
Qed.

(** The loop of writei, when the source can be read: it runs to the end and
    leaves the bytes of the source in the file. *)
Lemma writei_loop_ok fuel : forall ip user n tot off src s r s' data,
  0 <= NDIRECT -> MAXFILE * BSIZE < 2 ^ 32 -> inode_wf s ip ->
  0 <= tot <= n -> n < 2 ^ 32 ->
  0 <= off -> off + (n - tot) <= MAXFILE * BSIZE ->
  0 <= src -> src + (n - tot) <= 2 ^ 64 ->
  (forall o, off <= o < off + (n - tot) ->
     mem_byte s user (src + (o - off)) = Some (data o)) ->
  writei_loop fuel ip user n tot off src s = Ret (r, s') ->
  r = (n, off + (n - tot)) /\ write_post s ip off (off + (n - tot)) data s'.
Proof.
  induction fuel as [| fuel IH];
    intros ip user n tot off src s r s' data Hnd Hmax W Htot Hn Hoff Hend Hsrc Hsend Hmem;
    cbn [writei_loop]; destruct (tot <? n) eqn:E; try discriminate.
  - rewrite Z.ltb_ge in E; assert (tot = n) by lia; subst tot.
    unfold ret; intros H; injection H as <- <-.
    rewrite Z.sub_diag, Z.add_0_r; split; [reflexivity |].
    apply write_post_refl; exact W.
  - rewrite Z.ltb_lt in E.
    destruct (span_len n tot off Hoff E) as [Hm1 Hm2].
    set (m := Z.min (n - tot) (BSIZE - off mod BSIZE)) in *.
    intros H; apply bind_inv in H; destruct H as (addr & s1 & Hb & H).
    unfold bind at 1 in H; unfold get in H.
    apply bind_inv in H; destruct H as (rc & s2 & Hc & H).
    destruct (write_span s ip user src off m data addr s1 rc s2) as [-> Hwp];
      try assumption; try lia.
    { intros o Ho; apply Hmem; lia. }
    replace (0 =? -1) with false in H by reflexivity.
    rewrite (wrap32_small (tot + m)), (wrap32_small (off + m)) in H by lia.
    pose proof Hwp as (W2 & (F1 & F2 & F3 & F4 & F5 & F6 & F7 & F8) & _ & _).
    assert (Hw : 0 <= wrap64 (src + m) /\
                 (tot + m < n -> wrap64 (src + m) = src + m)).
    { unfold wrap64; split; [apply Z.mod_pos_bound; lia |].
      intros Hlt; apply Z.mod_small; lia. }
    destruct Hw as [Hw1 Hw2].
    apply (IH ip user n (tot + m) (off + m) (wrap64 (src + m)) s2 r s' data) in H;
      try assumption; try lia.
    + destruct H as [-> Hwp2]; split; [f_equal; lia |].
      replace (off + m + (n - (tot + m))) with (off + (n - tot)) in Hwp2 by lia.
      apply (write_post_compose s s2 s' ip off (off + m) (off + (n - tot)) data);
        try assumption; lia.
    + destruct (Z_lt_le_dec (tot + m) n) as [Hlt | Hge];
        [rewrite (Hw2 Hlt); lia |].
      pose proof (Z.mod_pos_bound (src + m) (2 ^ 64) ltac:(lia)) as Hbd.
      unfold wrap64; lia.
    + intros o Ho; rewrite (Hw2 ltac:(lia)).
      unfold mem_byte; rewrite F4, F5.
      replace (src + m + (o - (off + m))) with (src + (o - off)) by lia.
      apply Hmem; lia.
  - rewrite Z.ltb_ge in E; assert (tot = n) by lia; subst tot.
    unfold ret; intros H; injection H as <- <-.
    rewrite Z.sub_diag, Z.add_0_r; split; [reflexivity |].
    apply write_post_refl; exact W.
Qed.

Lemma same_blocks s s' ip :
  sb s' = sb s -> disk s' = disk s ->
  i_dev (icache s' ip) = i_dev (icache s ip) ->
  i_addrs (icache s' ip) = i_addrs (icache s ip) ->
  (forall p, ref_at s' ip p = ref_at s ip p) /\
  (forall o, file_byte s' ip o = file_byte s ip o) /\
  (inode_wf s ip -> inode_wf s' ip).
Proof.
  intros Hsb Hdisk Hdev Haddrs.
  assert (Href : forall p, ref_at s' ip p = ref_at s ip p).
  { intros p; unfold ref_at, u32_at; rewrite Hdisk, Hdev, Haddrs; reflexivity. }
  split; [exact Href |]; split.
  - intros o; unfold file_byte; rewrite Href, Hdisk, Hdev; reflexivity.
  - intros W.
    assert (Hres : forall b, reserved s (i_dev (icache s ip)) b ->
              reserved s' (i_dev (icache s ip)) b).
    { intros b; unfold reserved, block_used; rewrite Hsb, Hdisk; tauto. }
    constructor.
    + rewrite Hsb; apply (wf_size _ _ W).
    + intros p q; rewrite !Href; apply (wf_inj _ _ W).
    + intros p Hp; rewrite Href, Hdev; intros H; apply Hres, (wf_used _ _ W); assumption.
    + intros x Hx; rewrite Hsb in *; rewrite Hdev; split.
      * apply Hres, (wf_bitmap _ _ W x Hx).
      * intros p Hp; rewrite Href; apply (wf_bitmap _ _ W x Hx); exact Hp.
    + rewrite Hdev; apply Hres, (wf_zero _ _ W).
Qed.

Lemma iupdate_inv ip s u s' :
  iupdate ip s = Ret (u, s') ->
  sb s' = sb s /\ disk s' = disk s /\ icache s' = icache s /\
  umem s' = umem s /\ kmem s' = kmem s.
Proof.
  unfold iupdate, modify; intros H; injection H as _ <-.
  repeat split; reflexivity.
Qed.

(** writei as a whole, when the source can be read. *)
Lemma writei_ok s ip user src off n r s1 data :
  0 <= NDIRECT -> MAXFILE * BSIZE < 2 ^ 31 -> inode_wf s ip ->
  0 <= off <= i_size (icache s ip) -> 0 <= n -> off + n <= MAXFILE * BSIZE ->
  0 <= src -> src + n <= 2 ^ 64 ->
  (forall o, off <= o < off + n -> mem_byte s user (src + (o - off)) = Some (data o)) ->
  writei ip user src off n s = Ret (r, s1) ->
  r = n /\ inode_wf s1 ip /\
  i_size (icache s1 ip) = Z.max (i_size (icache s ip)) (off + n) /\
  i_dev (icache s1 ip) = i_dev (icache s ip) /\
  sb s1 = sb s /\ umem s1 = umem s /\ kmem s1 = kmem s /\
  (forall j, j <> ip -> icache s1 j = icache s j) /\
  (forall o, off <= o < off + n ->
     ref_at s1 ip (data_pos (o / BSIZE)) <> 0 /\ file_byte s1 ip o = data o) /\
  (forall o, 0 <= o < MAXFILE * BSIZE -> o < off \/ off + n <= o ->
     ref_at s ip (data_pos (o / BSIZE)) <> 0 ->
     ref_at s1 ip (data_pos (o / BSIZE)) <> 0 /\ file_byte s1 ip o = file_byte s ip o).
Proof.
  intros Hnd Hmax W Hoff Hn Hend Hsrc Hsend Hmem.
  unfold writei; unfold bind at 1; unfold get.
  assert (Hw : wrap32 (off + n) = off + n) by (apply wrap32_small; lia).
  rewrite Hw.
  destruct (off >? i_size (icache s ip)) eqn:E1;
    [rewrite Z.gtb_ltb, Z.ltb_lt in E1; lia |].
  destruct (off + n <? off) eqn:E2; [rewrite Z.ltb_lt in E2; lia |].
  destruct (off + n >? MAXFILE * BSIZE) eqn:E3;
    [rewrite Z.gtb_ltb, Z.ltb_lt in E3; lia |].
  cbn [orb].
  intros H; apply bind_inv in H; destruct H as (rl & s' & Hl & H).
  apply (writei_loop_ok _ ip user n 0 off src s rl s' data) in Hl;
    try assumption; try lia;
    try (rewrite Z.sub_0_r; assumption).
  rewrite Z.sub_0_r in Hl; destruct Hl as [-> Hwp]; cbn [snd] in H.
  destruct Hwp as (W' & (F1 & F2 & F3 & F4 & F5 & F6 & F7 & F8) & Hin & Hout).
  rewrite to_int_small in H by lia.
  apply bind_inv in H; destruct H as (u & sA & H1 & H2).
  unfold ret in H2; injection H2 as <- <-.
  split; [reflexivity |].
  assert (Hfin : i_size (icache sA ip) = Z.max (i_size (icache s' ip)) (off + n) /\
                 sb sA = sb s' /\ disk sA = disk s' /\ umem sA = umem s' /\
                 kmem sA = kmem s' /\
                 i_dev (icache sA ip) = i_dev (icache s' ip) /\
                 i_addrs (icache sA ip) = i_addrs (icache s' ip) /\
                 (forall j, j <> ip -> icache sA j = icache s' j)).
  { destruct (n >? 0) eqn:En.
    - unfold bind at 1 in H1; unfold get in H1.
      apply bind_inv in H1; destruct H1 as (u2 & sB & H3 & H4).
      apply iupdate_inv in H4.
      destruct H4 as (I1 & I2 & I3 & I4 & I5).
      rewrite I3, I1, I2, I4, I5.
      destruct (off + n >? i_size (icache s' ip)) eqn:Es.
      + rewrite Z.gtb_ltb, Z.ltb_lt in Es.
        unfold set_inode, modify in H3; injection H3 as _ <-.
        cbn [icache set_icache sb disk umem kmem]; rewrite updn_same.
        cbn [i_size i_dev i_addrs with_size].
        repeat split; try reflexivity; try lia.
        intros j Hj; apply updn_other; exact Hj.
      + rewrite Z.gtb_ltb, Z.ltb_ge in Es.
        unfold ret in H3; injection H3 as _ <-.
        repeat split; try reflexivity; lia.
    - rewrite Z.gtb_ltb, Z.ltb_ge in En.
      unfold ret in H1; injection H1 as _ <-.
      repeat split; try reflexivity; lia. }
  destruct Hfin as (Hs & Hsb & Hdisk & Hum & Hkm & Hdev & Haddr & Hoth).
  destruct (same_blocks s' sA ip Hsb Hdisk Hdev Haddr) as (Href & Hfb & Hwf).
  split; [apply Hwf, W' |].
  split; [rewrite Hs, F8; reflexivity |].
  split; [congruence |]; split; [congruence |]; split; [congruence |].
  split; [congruence |]; split.
  { intros j Hj; rewrite (Hoth j Hj); apply F6; exact Hj. }
  split.
  - intros o Ho; rewrite Href, Hfb; apply Hin; exact Ho.
  - intros o Ho Hout' Hne; rewrite Href, Hfb; apply Hout; assumption.
Qed.

(** C1. Write/read round trip. On an inode that satisfies the invariant of
    the allocator and whose size is within the maximal file size, with
    off <= size and off + n <= MAXFILE * BSIZE: when a writei of n bytes at
    off from a readable source returns n, a readi of n bytes at off into a
    writable target returns n and leaves in the target the bytes that the
    source held. *)
Theorem writei_readi_roundtrip (s s1 : fs) (ip : nat)
    (user_src user_dst : bool) (src dst off n : Z) :
  0 <= NDIRECT -> MAXFILE * BSIZE < 2 ^ 31 ->
  inode_wf s ip ->
  0 <= off <= i_size (icache s ip) -> i_size (icache s ip) <= MAXFILE * BSIZE ->
  0 <= n -> off + n <= MAXFILE * BSIZE ->
  0 <= src -> src + n <= 2 ^ 64 -> 0 <= dst -> dst + n <= 2 ^ 64 ->
  (forall i, 0 <= i < n -> mem_byte s user_src (src + i) <> None) ->
  writei ip user_src src off n s = Ret (n, s1) ->
  (forall i, 0 <= i < n -> mem_byte s1 user_dst (dst + i) <> None) ->
  exists s2,
    readi ip user_dst dst off n s1 = Ret (n, s2) /\
    forall i, 0 <= i < n ->
      mem_byte s2 user_dst (dst + i) = mem_byte s user_src (src + i).
Proof.
  intros Hnd Hmax W Hoff Hsize Hn Hend Hsrc Hsend Hdst Hdend Hread Hw Hwrite.
  set (data := fun o => match mem_byte s user_src (src + (o - off)) with
                        | Some v => v
                        | None => 0
                        end).
  assert (Hmem : forall o, off <= o < off + n ->
            mem_byte s user_src (src + (o - off)) = Some (data o)).
  { intros o Ho; subst data; cbn beta.
    pose proof (Hread (o - off) ltac:(lia)) as Hr.
    destruct (mem_byte s user_src (src + (o - off))); [reflexivity | contradiction]. }
  destruct (writei_ok s ip user_src src off n n s1 data Hnd Hmax W Hoff Hn Hend
              Hsrc Hsend Hmem Hw)
    as (_ & W1 & Hs1 & _ & _ & _ & _ & _ & Hin & _).
  pose proof (readi_reads s1 ip user_dst dst off n Hnd Hmax ltac:(lia) ltac:(lia))
    as Hr.
  assert (Hcnt : Z.min n (i_size (icache s1 ip) - off) = n) by lia.
  specialize (Hr ltac:(lia) ltac:(lia) ltac:(lia)); cbn zeta in Hr.
  rewrite Hcnt in Hr.
  destruct (Hr Hdst Hdend) as (s2 & Hrd & _ & _ & _ & _ & _ & Hm & _).
  - intros o Ho; apply Hin; exact Ho.
  - exact Hwrite.
  - exists s2; split; [exact Hrd |].
    intros i Hi; rewrite Hm, in_range_true by lia.
    replace (off + (dst + i - dst)) with (off + i) by lia.
    rewrite (proj2 (Hin (off + i) ltac:(lia))).
    replace (src + i) with (src + (off + i - off)) by lia.
    symmetry; apply Hmem; lia.
Qed.

(** ** bmap returns when blocks are free *)

Lemma balloc_bits_returns fuel dev b bi s :
  0 <= bi -> (Z.to_nat (BPB - bi) <= fuel)%nat ->
  exists r s', balloc_bits fuel dev b bi s = Ret (r, s').
Proof.
  revert bi; induction fuel as [| fuel IH]; intros bi Hbi Hf; cbn [balloc_bits].
  - destruct (bi <? BPB) eqn:E; [rewrite Z.ltb_lt in E; lia |].
    cbn [andb]; eexists _, _; reflexivity.
  - destruct ((bi <? BPB) && (b + bi <? sb_size (sb s))) eqn:E;
      [| eexists _, _; reflexivity].
    destruct (Z.land _ _ =? 0).
    + unfold bind, modify, bzero, ret; eexists _, _; reflexivity.
    + apply IH; lia.
Qed.

Lemma balloc_blocks_returns fuel dev b s :
  0 <= b -> b mod BPB = 0 -> (Z.to_nat (sb_size (sb s) - b) <= fuel)%nat ->
  (exists x, b <= x < sb_size (sb s) /\ block_used s dev x = false) ->
  exists a s', balloc_blocks fuel dev b s = Ret (a, s').
Proof.
  revert b; induction fuel as [| fuel IH]; intros b Hb Hm Hf (x & Hx & Hfree);
    [lia |].
  cbn [balloc_blocks].
  destruct (b <? sb_size (sb s)) eqn:E; [| rewrite Z.ltb_ge in E; lia].
  destruct (balloc_bits_returns (Z.to_nat BPB) dev b 0 s) as (r & s1 & Hr);
    [lia | rewrite Z.sub_0_r; lia |].
  unfold bind at 1; rewrite Hr.
  pose proof (balloc_bits_spec _ dev b 0 s r s1 Hb Hm ltac:(lia) Hr) as Hspec.
  destruct r as [a |]; [eexists _, _; reflexivity |].
  destruct Hspec as [-> Hall].
  pose proof BPB_val as HB.
  apply IH; [lia | | lia |].
  - rewrite HB in *; Z.div_mod_to_equations; lia.
  - exists x; split; [| exact Hfree].
    destruct (Z_lt_le_dec x (b + BPB)) as [Hlt | Hge]; [| lia].
    rewrite (Hall x ltac:(lia) ltac:(lia)) in Hfree; discriminate.
Qed.

Lemma balloc_returns dev s :
  (exists x, 0 <= x < sb_size (sb s) /\ block_used s dev x = false) ->
  exists a s', balloc dev s = Ret (a, s').
Proof.
  intros H; unfold balloc; apply balloc_blocks_returns;
    [lia | reflexivity | lia | exact H].
Qed.

Lemma land_bits_disjoint k k' :
  0 <= k < 8 -> 0 <= k' < 8 -> k <> k' ->
  Z.land (Z.shiftl 1 k) (Z.shiftl 1 k') = 0.
Proof.
  intros Hk Hk' Hne.
  assert (H : k = 0 \/ k = 1 \/ k = 2 \/ k = 3 \/ k = 4 \/ k = 5 \/ k = 6 \/ k = 7) by lia.
  assert (H' : k' = 0 \/ k' = 1 \/ k' = 2 \/ k' = 3 \/ k' = 4 \/ k' = 5 \/ k' = 6 \/ k' = 7)
    by lia.
  repeat (destruct H as [-> | H]); try subst k;
    repeat (destruct H' as [-> | H']); try subst k';
    try reflexivity; try contradiction.
Qed.

(** The bits of the other blocks are not touched by an allocation. *)
Lemma used_alloc_other dev a s x :
  0 <= a -> 0 <= x -> x <> a -> BBLOCK x (sb s) <> a ->
  block_used (zero_block dev a (mark_used dev a s)) dev x = block_used s dev x.
Proof.
  intros Ha Hx Hne Hb; unfold block_used; rewrite sb_alloc, disk_zero_block.
  destruct (BBLOCK x (sb s) =? a) eqn:E; [apply Z.eqb_eq in E; contradiction |].
  rewrite andb_false_r; unfold mark_used; rewrite disk_put_byte, Z.eqb_refl.
  cbn [andb].
  destruct ((BBLOCK x (sb s) =? BBLOCK a (sb s)) && (x mod BPB / 8 =? a mod BPB / 8))
    eqn:E2; [| reflexivity].
  apply andb_true_iff in E2; destruct E2 as [E2 E3].
  apply Z.eqb_eq in E2, E3; rewrite <- E2, <- E3.
  rewrite Z.land_lor_distr_l, land_bits_disjoint, Z.lor_0_r; try reflexivity;
    try (apply Z.mod_pos_bound; lia).
  unfold BBLOCK in E2; rewrite BPB_val in *; intros H8.
  apply Hne; Z.div_mod_to_equations; lia.
Qed.

Lemma has_free_remove s s' dev a n :
  sb s' = sb s -> bits_kept s s' dev a ->
  has_free s dev (S n) -> has_free s' dev n.
Proof.
  intros Hsb Hk (l & Hnd & Hlen & Hall).
  assert (Hgood : forall x, In x l -> x <> a ->
            0 <= x < sb_size (sb s') /\ block_used s' dev x = false).
  { intros x Hx Hne; destruct (Hall x Hx) as [Hr Hf].
    rewrite Hsb; split; [exact Hr |]; rewrite (Hk x Hr Hne); exact Hf. }
  destruct (in_dec Z.eq_dec a l) as [Hin | Hnin].
  - apply in_split in Hin; destruct Hin as (l1 & l2 & ->).
    exists (l1 ++ l2); split; [apply (NoDup_remove_1 _ _ _ Hnd) |]; split.
    + rewrite length_app in *; cbn [List.length] in Hlen; lia.
    + intros x Hx; apply Hgood.
      * apply in_app_iff in Hx; apply in_app_iff; cbn [In]; tauto.
      * intros ->; apply (NoDup_remove_2 _ _ _ Hnd); exact Hx.
  - destruct l as [| y l]; [discriminate |].
    exists l; inversion Hnd; subst; split; [assumption |]; split.
    + cbn [List.length] in Hlen; lia.
    + intros x Hx; apply Hgood; [right; exact Hx |].
      intros ->; apply Hnin; right; exact Hx.
Qed.

Lemma has_free_fewer s dev n : has_free s dev (S n) -> has_free s dev n.
Proof.
  intros (l & Hnd & Hlen & Hall); destruct l as [| y l]; [discriminate |].
  exists l; inversion Hnd; subst; split; [assumption |]; split.
  - cbn [List.length] in Hlen; lia.
  - intros x Hx; apply Hall; right; exact Hx.
Qed.

Lemma has_free_block s dev n :
  has_free s dev (S n) ->
  exists x, 0 <= x < sb_size (sb s) /\ block_used s dev x = false.
Proof.
  intros (l & _ & Hlen & Hall); destruct l as [| y l]; [discriminate |].
  exists y; apply Hall; left; reflexivity.
Qed.

Lemma bmap_slot_total s ip k p0 n :
  inode_wf s ip -> valid_pos p0 -> slot_of p0 = Some k ->
  has_free s (i_dev (icache s ip)) (S n) ->
  exists a s', bmap_slot ip (i_dev (icache s ip)) k s = Ret (a, s') /\
    has_free s' (i_dev (icache s ip)) n.
Proof.
  intros W Hp0 Hslot Hfree.
  unfold bmap_slot; unfold bind at 1; unfold get.
  destruct (i_addrs (icache s ip) k =? 0).
  2:{ eexists _, _; split; [reflexivity | apply has_free_fewer; exact Hfree]. }
  destruct (balloc_returns _ s (has_free_block _ _ _ Hfree)) as (a & s1 & Hb).
  unfold bind at 1; rewrite Hb.
  eexists _, _; split; [reflexivity |].
  apply balloc_spec in Hb; destruct Hb as (Ha & Hf & _ & ->).
  destruct (fresh_block s ip a W Ha Hf) as (_ & _ & Hbm).
  apply (has_free_remove s _ _ a n); [reflexivity | | exact Hfree].
  intros x Hx Hne.
  apply (used_alloc_other (i_dev (icache s ip)) a s x); try lia.
  apply Hbm; exact Hx.
Qed.

Lemma bmap_entry_total s ip pm i p0 n :
  inode_wf s ip -> valid_pos p0 -> parent_of p0 = Some (pm, i) ->
  ref_at s ip pm <> 0 ->
  has_free s (i_dev (icache s ip)) (S n) ->
  exists a s', bmap_entry (i_dev (icache s ip)) (ref_at s ip pm) i s = Ret (a, s') /\
    has_free s' (i_dev (icache s ip)) n.
Proof.
  intros W Hp0 Hpar Hpm Hfree.
  pose proof (parent_index _ _ _ Hpar Hp0) as Hi.
  pose proof (parent_valid _ _ _ Hpar Hp0) as Hvm.
  unfold bmap_entry; unfold bind at 1; rewrite (read_entry_in _ _ _ _ Hi).
  destruct (u32_at s (i_dev (icache s ip)) (ref_at s ip pm) i =? 0).
  2:{ eexists _, _; split; [reflexivity | apply has_free_fewer; exact Hfree]. }
  destruct (balloc_returns _ s (has_free_block _ _ _ Hfree)) as (a & s1 & Hb).
  unfold bind at 1; rewrite Hb.
  unfold bind, write_entry.
  destruct Hi as [Hi1 Hi2]; apply Z.leb_le in Hi1; apply Z.ltb_lt in Hi2.
  rewrite Hi1, Hi2; cbn [andb].
  eexists _, _; split; [reflexivity |].
  apply balloc_spec in Hb; destruct Hb as (Ha & Hf & _ & ->).
  destruct (fresh_block s ip a W Ha Hf) as (_ & _ & Hbm).
  apply (has_free_remove s _ _ a n); [reflexivity | | exact Hfree].
  intros x Hx Hne; unfold block_used at 1.
  rewrite disk_put_u32_other.
  - apply (used_alloc_other (i_dev (icache s ip)) a s x); try lia.
    apply Hbm; exact Hx.
  - right; left; intros Heq.
    apply (proj2 (wf_bitmap _ _ W x Hx) pm Hvm Hpm); symmetry; exact Heq.
Qed.

Lemma has_free_le s dev n m : (m <= n)%nat -> has_free s dev n -> has_free s dev m.
Proof.
  intros Hle; induction Hle as [| n Hle IH]; [tauto |].
  intros H; apply IH, has_free_fewer; exact H.
Qed.

Lemma bmap_total_free s ip bn n :
  0 <= NDIRECT -> inode_wf s ip -> 0 <= bn < MAXFILE ->
  has_free s (i_dev (icache s ip)) (3 + n) ->
  exists a s', bmap ip bn s = Ret (a, s') /\ has_free s' (i_dev (icache s ip)) n.
Proof.
  intros Hnd W Hbn Hfree; pose proof (data_pos_valid bn Hnd Hbn) as Hv; revert Hv.
  unfold bmap, data_pos; unfold bind at 1; unfold get.
  destruct (bn <? NDIRECT) eqn:E1.
  - intros Hv.
    destruct (bmap_slot_total s ip bn (PDirect bn) (2 + n) W Hv eq_refl Hfree)
      as (a & s' & H & Hf).
    exists a, s'; split; [exact H |].
    apply (has_free_le _ _ (2 + n)); [lia | exact Hf].
  - destruct (bn - NDIRECT <? NINDIRECT) eqn:E2.
    + intros Hv.
      destruct (bmap_slot_total s ip NDIRECT PInd (2 + n) W I eq_refl Hfree)
        as (ind & s1 & H1 & Hf1).
      unfold bind at 1; rewrite H1.
      apply (bmap_slot_step s ip NDIRECT PInd) in H1; [| exact W | exact I | reflexivity].
      destruct H1 as (Hi0 & Hri & W1 & _ & _ & (_ & _ & _ & _ & _ & _ & Hdev & _) & _).
      rewrite <- Hdev, <- Hri; rewrite <- Hdev in Hf1.
      destruct (bmap_entry_total s1 ip PInd _ (PIndE (bn - NDIRECT)) (1 + n) W1 Hv eq_refl
                  ltac:(rewrite Hri; exact Hi0) Hf1) as (a & s' & H2 & Hf2).
      exists a, s'; split; [exact H2 |].
      apply (has_free_le _ _ (1 + n)); [lia | exact Hf2].
    + intros Hv.
      destruct (bmap_slot_total s ip (NDIRECT + 1) PDbl (2 + n) W I eq_refl Hfree)
        as (dbl & s1 & H1 & Hf1).
      unfold bind at 1; rewrite H1.
      apply (bmap_slot_step s ip (NDIRECT + 1) PDbl) in H1;
        [| exact W | exact I | reflexivity].
      destruct H1 as (Hd0 & Hrd & W1 & _ & _ & (_ & _ & _ & _ & _ & _ & Hdev & _) & _).
      set (j := (bn - NDIRECT - NINDIRECT) / NINDIRECT) in *.
      set (k := (bn - NDIRECT - NINDIRECT) mod NINDIRECT) in *.
      rewrite <- Hdev, <- Hrd; rewrite <- Hdev in Hf1.
      destruct (bmap_entry_total s1 ip PDbl _ (PDblE j) (1 + n) W1 (proj1 Hv) eq_refl
                  ltac:(rewrite Hrd; exact Hd0) Hf1) as (sg & s2 & H2 & Hf2).
      unfold bind at 1; rewrite H2.
      apply (bmap_entry_step s1 ip PDbl _ (PDblE j)) in H2;
        [| exact W1 | exact (proj1 Hv) | reflexivity | rewrite Hrd; exact Hd0].
      destruct H2 as (Hs0 & Hrs & W2 & Hp2 & _ & (_ & _ & _ & _ & _ & _ & Hdev2 & _) & _).
      unfold bind at 1; rewrite read_entry_in by exact (proj1 Hv).
      assert (Hd2 : ref_at s2 ip PDbl = ref_at s1 ip PDbl).
      { apply (Hp2 PDbl I); rewrite Hrd; exact Hd0. }
      assert (Hsg : u32_at s2 (i_dev (icache s1 ip)) (ref_at s1 ip PDbl) j
                    = ref_at s2 ip (PDblE j)).
      { rewrite (ref_at_child s2 ip (PDblE j) PDbl j eq_refl), Hd2.
        rewrite if_zero_val by (rewrite Hrd; exact Hd0); congruence. }
      rewrite Hsg; rewrite <- Hdev2; rewrite <- Hdev2 in Hf2.
      destruct (bmap_entry_total s2 ip (PDblE j) _ (PLeaf j k) n W2 Hv eq_refl
                  ltac:(rewrite Hrs; exact Hs0) Hf2) as (a & s' & H3 & Hf3).
      exists a, s'; split; [exact H3 | exact Hf3].
Qed.

Lemma bmap_total s ip bn :
  0 <= NDIRECT -> inode_wf s ip -> 0 <= bn < MAXFILE ->
  has_free s (i_dev (icache s ip)) 3 ->
  exists a s', bmap ip bn s = Ret (a, s').
Proof.
  intros Hnd W Hbn Hfree.
  destruct (bmap_total_free s ip bn 0 Hnd W Hbn Hfree) as (a & s' & H & _).
  exists a, s'; exact H.
Qed.

(** C2. Block-map layout. On an inode that satisfies the invariant of the
    allocator and for a block index below MAXFILE: bmap returns when three
    blocks are free; the number it returns is not 0 and is, afterwards,
    ip->addrs[bn] for a direct block, entry bn - NDIRECT of the block
    ip->addrs[NDIRECT] for an indirect one, and otherwise, with
    k = bn - NDIRECT - NINDIRECT, entry k mod NINDIRECT of the block found
    at entry k / NINDIRECT of the block ip->addrs[NDIRECT + 1]. Block numbers
    that were there are kept, the new ones are blocks that were free and now
    have their bit set, and when the block was there nothing changes. *)
Theorem bmap_layout (s : fs) (ip : nat) (bn : Z) :
  0 <= NDIRECT -> inode_wf s ip -> 0 <= bn < MAXFILE ->
  (has_free s (i_dev (icache s ip)) 3 -> exists a s', bmap ip bn s = Ret (a, s')) /\
  (forall a s', bmap ip bn s = Ret (a, s') ->
     let dev := i_dev (icache s ip) in
     let addrs := i_addrs (icache s' ip) in
     a <> 0 /\
     (bn < NDIRECT -> a = addrs bn) /\
     (NDIRECT <= bn < NDIRECT + NINDIRECT ->
      addrs NDIRECT <> 0 /\ a = u32_at s' dev (addrs NDIRECT) (bn - NDIRECT)) /\
     (NDIRECT + NINDIRECT <= bn ->
      let k := bn - NDIRECT - NINDIRECT in
      let sg := u32_at s' dev (addrs (NDIRECT + 1)) (k / NINDIRECT) in
      addrs (NDIRECT + 1) <> 0 /\ sg <> 0 /\ a = u32_at s' dev sg (k mod NINDIRECT)) /\
     (forall p, valid_pos p -> ref_at s ip p <> 0 -> ref_at s' ip p = ref_at s ip p) /\
     (forall p, valid_pos p -> ref_at s ip p = 0 -> ref_at s' ip p <> 0 ->
        block_used s dev (ref_at s' ip p) = false /\
        block_used s' dev (ref_at s' ip p) = true) /\
     (ref_at s ip (data_pos bn) <> 0 -> s' = s) /\
     inode_wf s' ip).
Proof.
  intros Hnd W Hbn; split; [apply bmap_total; assumption |].
  intros a s' H; apply (bmap_step s ip bn a s' Hnd W Hbn) in H.
  destruct H as (Ha0 & Hra & W' & Hp & _ & (_ & _ & _ & _ & _ & _ & Hdev & _) & Hid & _ & Hnew).
  cbn zeta; split; [exact Ha0 |].
  rewrite <- Hra in Ha0; unfold data_pos in Hra, Ha0.
  split; [| split; [| split]].
  - intros Hlt; apply Z.ltb_lt in Hlt; rewrite Hlt in Hra.
    symmetry; exact Hra.
  - intros [H1 H2].
    assert (E1 : (bn <? NDIRECT) = false) by (apply Z.ltb_ge; lia).
    assert (E2 : (bn - NDIRECT <? NINDIRECT) = true) by (apply Z.ltb_lt; lia).
    rewrite E1, E2 in Hra, Ha0; cbn [ref_at] in Hra, Ha0.
    apply if_zero_ne in Ha0; destruct Ha0 as [Hi _]; split; [exact Hi |].
    rewrite (if_zero_val _ _ Hi), Hdev in Hra; symmetry; exact Hra.
  - intros H1.
    assert (E1 : (bn <? NDIRECT) = false)
      by (apply Z.ltb_ge; pose proof NINDIRECT_val; lia).
    assert (E2 : (bn - NDIRECT <? NINDIRECT) = false) by (apply Z.ltb_ge; lia).
    rewrite E1, E2 in Hra, Ha0; cbn [ref_at] in Hra, Ha0.
    apply if_zero_ne in Ha0; destruct Ha0 as [Hd Ha0].
    apply if_zero_ne in Ha0; destruct Ha0 as [Hg _].
    rewrite Hdev in Hg; split; [exact Hd |]; split; [exact Hg |].
    rewrite (if_zero_val _ _ Hd), Hdev, (if_zero_val _ _ Hg) in Hra.
    symmetry; exact Hra.
  - split; [exact Hp |]; split; [| split; [exact Hid | exact W']].
    intros p Hv Hz Hnz; destruct (Hnew p Hv Hz Hnz) as (_ & H1 & H2).
    split; assumption.
Qed.

(** ** writei returns when enough blocks are free *)

Lemma has_free_ext s1 s2 dev n :
  sb s2 = sb s1 ->
  (forall x, 0 <= x < sb_size (sb s1) -> block_used s2 dev x = block_used s1 dev x) ->
  has_free s1 dev n -> has_free s2 dev n.
Proof.
  intros Hsb Hu (l & Hnd & Hlen & Hall); exists l; split; [exact Hnd |].
  split; [exact Hlen |].
  intros x Hx; destruct (Hall x Hx) as [Hr Hf]; rewrite Hsb; split; [exact Hr |].
  rewrite (Hu x Hr); exact Hf.
Qed.

Lemma spans_step off r m :
  0 <= off -> 0 < r -> m = Z.min r (BSIZE - off mod BSIZE) ->
  spans off r = 1 + spans (off + m) (r - m) /\ 0 <= spans (off + m) (r - m).
Proof.
  intros Ho Hr ->; unfold spans; rewrite BSIZE_val.
  destruct (r <=? 0) eqn:E1; [rewrite Z.leb_le in E1; lia |].
  destruct (r - Z.min r (1024 - off mod 1024) <=? 0) eqn:E2.
  - rewrite Z.leb_le in E2; split; [| lia].
    Z.div_mod_to_equations; lia.
  - rewrite Z.leb_gt in E2.
    assert (Hm : Z.min r (1024 - off mod 1024) = 1024 - off mod 1024) by lia.
    rewrite Hm in *.
    Z.div_mod_to_equations; lia.
Qed.

Lemma writei_loop_total fuel : forall ip user n tot off src s data,
  0 <= NDIRECT -> MAXFILE * BSIZE < 2 ^ 32 -> inode_wf s ip ->
  0 <= tot <= n -> n < 2 ^ 32 -> (Z.to_nat (n - tot) <= fuel)%nat ->
  0 <= off -> off + (n - tot) <= MAXFILE * BSIZE ->
  0 <= src -> src + (n - tot) <= 2 ^ 64 ->
  (forall o, off <= o < off + (n - tot) ->
     mem_byte s user (src + (o - off)) = Some (data o)) ->
  has_free s (i_dev (icache s ip)) (3 * Z.to_nat (spans off (n - tot))) ->
  exists r s', writei_loop fuel ip user n tot off src s = Ret (r, s').
Proof.
  induction fuel as [| fuel IH];
    intros ip user n tot off src s data Hnd Hmax W Htot Hn Hfuel Hoff Hend Hsrc Hsend
           Hmem Hfree;
    cbn [writei_loop]; destruct (tot <? n) eqn:E;
    try (eexists _, _; reflexivity).
  - rewrite Z.ltb_lt in E; lia.
  - rewrite Z.ltb_lt in E.
    destruct (span_len n tot off Hoff E) as [Hm1 Hm2].
    set (m := Z.min (n - tot) (BSIZE - off mod BSIZE)) in *.
    destruct (spans_step off (n - tot) m Hoff ltac:(lia) eq_refl) as [Hsp Hsp0].
    assert (Hbn : 0 <= off / BSIZE < MAXFILE) by (apply (block_in_file off m); lia).
    replace (3 * Z.to_nat (spans off (n - tot)))%nat
      with (3 + 3 * Z.to_nat (spans (off + m) (n - tot - m)))%nat in Hfree by lia.
    destruct (bmap_total_free s ip _ _ Hnd W Hbn Hfree) as (addr & s1 & Hb & Hf1).
    unfold bind at 1; rewrite Hb; unfold bind at 1; unfold get.
    pose proof (bmap_step s ip _ addr s1 Hnd W Hbn Hb) as
      (Ha0 & Hra & W1 & _ & _ & (F1 & _ & _ & F4 & F5 & _ & F7 & _) & _).
    destruct (either_copyin_ok (i_dev (icache s1 ip)) addr (off mod BSIZE) user src m s1)
      as (s2 & Hc & G1 & _ & G3 & _ & G5 & G6 & Hother & _).
    { intros i Hi; unfold mem_byte; rewrite F4, F5.
      replace (src + i) with (src + (off + i - off)) by lia.
      pose proof (Hmem (off + i) ltac:(lia)) as Hx; unfold mem_byte in Hx.
      rewrite Hx; discriminate. }
    destruct (write_span s ip user src off m data addr s1 0 s2) as [_ Hwp];
      try assumption; try lia.
    { intros o Ho; apply Hmem; lia. }
    unfold bind at 1; rewrite Hc.
    replace (0 =? -1) with false by reflexivity.
    rewrite (wrap32_small (tot + m)), (wrap32_small (off + m)) by lia.
    destruct Hwp as (W2 & (H1 & _ & _ & H4 & H5 & _ & H7 & _) & _ & _).
    assert (Hw : 0 <= wrap64 (src + m) /\
                 (tot + m < n -> wrap64 (src + m) = src + m)).
    { unfold wrap64; split; [apply Z.mod_pos_bound; lia |].
      intros Hlt; apply Z.mod_small; lia. }
    destruct Hw as [Hw1 Hw2].
    apply (IH ip user n (tot + m) (off + m) (wrap64 (src + m)) s2 data);
      try assumption; try lia.
    + destruct (Z_lt_le_dec (tot + m) n) as [Hlt | Hge];
        [rewrite (Hw2 Hlt); lia |].
      pose proof (Z.mod_pos_bound (src + m) (2 ^ 64) ltac:(lia)) as Hbd.
      unfold wrap64; lia.
    + intros o Ho; rewrite (Hw2 ltac:(lia)).
      unfold mem_byte; rewrite H4, H5.
      replace (src + m + (o - (off + m))) with (src + (o - off)) by lia.
      apply Hmem; lia.
    + rewrite H7.
      replace (n - (tot + m)) with (n - tot - m) by lia.
      apply (has_free_ext s1 s2); [exact G1 | | exact Hf1].
      intros x Hx; unfold block_used; rewrite G1, <- F7, Hother; [reflexivity |].
      rewrite <- Hra; intros Heq.
      apply (proj2 (wf_bitmap _ _ W1 x Hx) (data_pos (off / BSIZE))
               (data_pos_valid _ Hnd Hbn) ltac:(rewrite Hra; exact Ha0)).
      symmetry; exact Heq.
Qed.

(** writei returns n when the source can be read and three blocks are free
    for each block of the file that it touches. *)
Lemma writei_total s ip user src off n :
  0 <= NDIRECT -> MAXFILE * BSIZE < 2 ^ 31 -> inode_wf s ip ->
  0 <= off <= i_size (icache s ip) -> 0 <= n -> off + n <= MAXFILE * BSIZE ->
  0 <= src -> src + n <= 2 ^ 64 ->
  (forall i, 0 <= i < n -> mem_byte s user (src + i) <> None) ->
  has_free s (i_dev (icache s ip)) (3 * Z.to_nat (spans off n)) ->
  exists s1, writei ip user src off n s = Ret (n, s1).
Proof.
  intros Hnd Hmax W Hoff Hn Hend Hsrc Hsend Hread Hfree.
  set (data := fun o => match mem_byte s user (src + (o - off)) with
                        | Some v => v
                        | None => 0
                        end).
  assert (Hmem : forall o, off <= o < off + n ->
            mem_byte s user (src + (o - off)) = Some (data o)).
  { intros o Ho; subst data; cbn beta.
    pose proof (Hread (o - off) ltac:(lia)) as Hr.
    destruct (mem_byte s user (src + (o - off))); [reflexivity | contradiction]. }
  destruct (writei_loop_total (Z.to_nat n) ip user n 0 off src s data)
    as (r & s' & Hl); try assumption; try lia;
    try (rewrite Z.sub_0_r; assumption).
  unfold writei; unfold bind at 1; unfold get.
  rewrite (wrap32_small (off + n)) by lia.
  destruct (off >? i_size (icache s ip)) eqn:E1;
    [rewrite Z.gtb_ltb, Z.ltb_lt in E1; lia |].
  destruct (off + n <? off) eqn:E2; [rewrite Z.ltb_lt in E2; lia |].
  destruct (off + n >? MAXFILE * BSIZE) eqn:E3;
    [rewrite Z.gtb_ltb, Z.ltb_lt in E3; lia |].
  cbn [orb]; unfold bind at 1; rewrite Hl.
  rewrite to_int_small by lia.
  destruct (n >? 0).
  - unfold bind at 1; unfold bind at 1; unfold get.
    destruct (snd r >? i_size (icache s' ip));
      unfold bind, set_inode, iupdate, modify, ret; eexists; reflexivity.
  - unfold bind, ret; eexists; reflexivity.
Qed.

(** C5. writei returns -1, and changes nothing, when off is strictly greater
    than ip->size, when off + n wraps around, and when off + n exceeds
    MAXFILE * BSIZE. A write at off = ip->size within that bound is accepted:
    on an inode that satisfies the invariant of the allocator, from a
    readable source and with three free blocks for each block touched, it
    returns n and the size becomes off + n. *)
Theorem writei_preconditions (s : fs) (ip : nat) (user_src : bool) (src off n : Z) :
  0 <= NDIRECT -> MAXFILE * BSIZE < 2 ^ 31 ->
  0 <= off < 2 ^ 32 -> 0 <= n < 2 ^ 32 ->
  (off > i_size (icache s ip) \/ wrap32 (off + n) < off \/ off + n > MAXFILE * BSIZE ->
   writei ip user_src src off n s = Ret (-1, s)) /\
  (off = i_size (icache s ip) -> off + n <= MAXFILE * BSIZE ->
   inode_wf s ip -> 0 <= src -> src + n <= 2 ^ 64 ->
   (forall i, 0 <= i < n -> mem_byte s user_src (src + i) <> None) ->
   has_free s (i_dev (icache s ip)) (3 * Z.to_nat (spans off n)) ->
   exists s1, writei ip user_src src off n s = Ret (n, s1) /\
              i_size (icache s1 ip) = off + n).
Proof.
  intros Hnd Hmax Hoff Hn; split; [apply writei_rejects; assumption |].
  intros Heq Hend W Hsrc Hsend Hread Hfree.
  destruct (writei_total s ip user_src src off n) as (s1 & Hw);
    try assumption; try lia.
  exists s1; split; [exact Hw |].
  set (data := fun o => match mem_byte s user_src (src + (o - off)) with
                        | Some v => v
                        | None => 0
                        end).
  destruct (writei_ok s ip user_src src off n n s1 data) as (_ & _ & Hs & _);
    try assumption; try lia.
  intros o Ho; subst data; cbn beta.
  pose proof (Hread (o - off) ltac:(lia)) as Hr.
  destruct (mem_byte s user_src (src + (o - off))); [reflexivity | contradiction].
Qed.

(** ** Operations that leave the administration of the cache alone *)

Lemma preserves_ret {A} (R : fs -> fs -> Prop) (a : A) :
  (forall s, R s s) -> preserves R (ret a).
Proof. intros HR s a' s' H; injection H as _ <-; apply HR. Qed.

Lemma preserves_bind {A B} (R : fs -> fs -> Prop) (m : M A) (k : A -> M B) :
  (forall s1 s2 s3, R s1 s2 -> R s2 s3 -> R s1 s3) ->
  preserves R m -> (forall a, preserves R (k a)) -> preserves R (bind m k).
Proof.
  intros Ht Hm Hk s b s' H; apply bind_inv in H; destruct H as (a & s1 & H1 & H2).
  apply (Ht s s1 s'); [apply (Hm _ _ _ H1) | apply (Hk _ _ _ _ H2)].
Qed.

Lemma preserves_get_bind {A} (R : fs -> fs -> Prop) (k : fs -> M A) :
  (forall s0, preserves R (k s0)) -> preserves R (bind get k).
Proof. intros Hk s a s' H; unfold bind, get in H; apply (Hk s _ _ _ H). Qed.

Lemma preserves_modify (R : fs -> fs -> Prop) (f : fs -> fs) :
  (forall s, R s (f s)) -> preserves R (modify f).
Proof. intros HR s a s' H; injection H as _ <-; apply HR. Qed.

Lemma preserves_panic {A} (R : fs -> fs -> Prop) msg : preserves R (@panic A msg).
Proof. intros s a s' H; discriminate. Qed.

Lemma quiet_refl s : quiet s s.
Proof. unfold quiet; repeat split; intros; reflexivity. Qed.

Lemma quiet_trans s1 s2 s3 : quiet s1 s2 -> quiet s2 s3 -> quiet s1 s3.
Proof.
  intros (A1 & A2 & A3 & A4) (B1 & B2 & B3 & B4); unfold quiet.
  repeat split; try congruence; intros q; rewrite B4; apply A4.
Qed.

(** A change of the disk blocks, of user memory or of kernel memory. *)
Lemma quiet_set_disk d s : quiet s (set_disk d s).
Proof. unfold quiet; repeat split; intros; reflexivity. Qed.

Lemma quiet_set_umem m s : quiet s (set_umem m s).
Proof. unfold quiet; repeat split; intros; reflexivity. Qed.

Lemma quiet_set_kmem m s : quiet s (set_kmem m s).
Proof. unfold quiet; repeat split; intros; reflexivity. Qed.

Lemma quiet_put_byte dev b off v s : quiet s (put_byte dev b off v s).
Proof. apply quiet_set_disk. Qed.

Lemma quiet_store_addr ip k v s : quiet s (store_addr ip k v s).
Proof.
  unfold quiet; repeat split; try reflexivity.
  intros q; unfold store_addr; cbn [icache set_icache].
  destruct (Nat.eq_dec q ip) as [-> | Hne];
    [rewrite updn_same | rewrite updn_other by exact Hne]; reflexivity.
Qed.

Lemma quiet_with_size ip v s :
  quiet s (set_icache (updn (icache s) ip (with_size v (icache s ip))) s).
Proof.
  unfold quiet; repeat split; try reflexivity.
  intros q; cbn [icache set_icache].
  destruct (Nat.eq_dec q ip) as [-> | Hne];
    [rewrite updn_same | rewrite updn_other by exact Hne]; reflexivity.
Qed.

Ltac quiet_step :=
  lazymatch goal with
  | |- preserves _ (ret _) => apply preserves_ret; exact quiet_refl
  | |- preserves _ (panic _) => apply preserves_panic
  | |- preserves _ (bind get _) => apply preserves_get_bind; intros ?
  | |- preserves _ (bind _ _) =>
      apply preserves_bind; [exact quiet_trans | | intros ?]
  | |- preserves _ (modify _) =>
      apply preserves_modify; intros ?;
      first [apply quiet_set_disk | apply quiet_set_umem | apply quiet_set_kmem
            | apply quiet_store_addr | apply quiet_with_size]
  | |- preserves _ (if ?c then _ else _) => destruct c
  | |- preserves _ (match ?c with _ => _ end) => destruct c
  | |- preserves _ (fun _ => OutOfFuel) => intros ? ? ? ?; discriminate
  | |- preserves _ (fun _ => Hang) => intros ? ? ? ?; discriminate
  end.

Lemma quiet_read_entry dev b i : preserves quiet (read_entry dev b i).
Proof.
  intros s a s' H; unfold read_entry in H.
  destruct ((0 <=? i) && (i <? NINDIRECT)); [| discriminate].
  injection H as _ <-; apply quiet_refl.
Qed.

Lemma quiet_write_entry dev b i v : preserves quiet (write_entry dev b i v).
Proof.
  intros s a s' H; unfold write_entry in H.
  destruct ((0 <=? i) && (i <? NINDIRECT)); [| discriminate].
  injection H as _ <-; unfold put_u32.
  repeat (eapply quiet_trans; [| apply quiet_put_byte]); apply quiet_refl.
Qed.

Lemma quiet_balloc dev : preserves quiet (balloc dev).
Proof.
  intros s a s' H; apply balloc_spec in H; destruct H as (_ & _ & _ & ->).
  apply (quiet_trans _ (mark_used dev a s)); [apply quiet_put_byte |].
  apply quiet_set_disk.
Qed.

Lemma quiet_bfree dev b : preserves quiet (bfree dev b).
Proof.
  intros s a s' H; unfold bfree in H.
  destruct (Z.land _ _ =? 0); [discriminate |].
  injection H as _ <-; apply quiet_set_disk.
Qed.

Lemma quiet_bmap_slot ip dev k : preserves quiet (bmap_slot ip dev k).
Proof.
  unfold bmap_slot, set_addr; repeat quiet_step; apply quiet_balloc.
Qed.

Lemma quiet_bmap_entry dev b i : preserves quiet (bmap_entry dev b i).
Proof.
  unfold bmap_entry; repeat quiet_step;
    first [apply quiet_read_entry | apply quiet_balloc | apply quiet_write_entry].
Qed.

Lemma quiet_bmap ip bn : preserves quiet (bmap ip bn).
Proof.
  unfold bmap; repeat quiet_step;
    first [apply quiet_bmap_slot | apply quiet_bmap_entry | apply quiet_read_entry].
Qed.

Lemma quiet_either_copyout user dst src len :
  preserves quiet (either_copyout user dst src len).
Proof.
  intros s a s' H; unfold either_copyout in H; destruct user.
  - destruct (all_mapped _ _ _); injection H as _ <-;
      [apply quiet_set_umem | apply quiet_refl].
  - injection H as _ <-; apply quiet_set_kmem.
Qed.

Lemma quiet_either_copyin dev b boff user src len :
  preserves quiet (either_copyin dev b boff user src len).
Proof.
  intros s a s' H; unfold either_copyin in H; destruct user.
  - destruct (all_mapped _ _ _); injection H as _ <-;
      [apply quiet_set_disk | apply quiet_refl].
  - injection H as _ <-; apply quiet_set_disk.
Qed.

Lemma quiet_readi_loop fuel ip user n : forall tot off dst,
  preserves quiet (readi_loop fuel ip user n tot off dst).
Proof.
  induction fuel as [| fuel IH]; intros tot off dst; cbn [readi_loop];
    repeat quiet_step;
    first [apply quiet_bmap | apply quiet_either_copyout | apply IH].
Qed.

Lemma quiet_readi ip user dst off n : preserves quiet (readi ip user dst off n).
Proof.
  unfold readi; repeat quiet_step; apply quiet_readi_loop.
Qed.

(** ** The inode cache *)

Lemma adm_eq i i' :
  adm i' = adm i ->
  i_dev i' = i_dev i /\ i_inum i' = i_inum i /\ i_ref i' = i_ref i /\
  i_locked i' = i_locked i /\ i_valid i' = i_valid i /\ i_type i' = i_type i /\
  i_nlink i' = i_nlink i.
Proof. unfold adm; intros H; injection H; intros; repeat split; assumption. Qed.

Lemma same_slot_range q r : 0 <= same_slot q r <= 1.
Proof. unfold same_slot; destruct (Nat.eqb q r); lia. Qed.

Lemma same_slot_refl q : same_slot q q = 1.
Proof. unfold same_slot; rewrite Nat.eqb_refl; reflexivity. Qed.

Lemma same_slot_neq q r : q <> r -> same_slot q r = 0.
Proof.
  intros H; unfold same_slot; destruct (Nat.eqb q r) eqn:E; [| reflexivity].
  apply Nat.eqb_eq in E; contradiction.
Qed.

Lemma cache_ok_ext s s' :
  dinodes s' = dinodes s -> (forall q, adm (icache s' q) = adm (icache s q)) ->
  cache_ok s -> cache_ok s'.
Proof.
  intros Hd Ha C; constructor.
  - intros q Hq; destruct (adm_eq _ _ (Ha q)) as (_ & _ & -> & _).
    apply (ck_range _ C); exact Hq.
  - intros q r.
    destruct (adm_eq _ _ (Ha q)) as (-> & -> & -> & _).
    destruct (adm_eq _ _ (Ha r)) as (-> & -> & -> & _).
    apply (ck_unique _ C).
  - intros q; destruct (adm_eq _ _ (Ha q)) as (-> & -> & -> & _ & -> & -> & ->).
    rewrite Hd; apply (ck_coherent _ C).
Qed.

Lemma quiet_cache_post s s' need :
  quiet s s' -> cache_post need (fun _ => 0) s s'.
Proof.
  intros (H1 & H2 & H3 & H4); unfold cache_post.
  split; [exact H1 |]; split; [exact H3 |]; split.
  - intros C; split; [apply (cache_ok_ext s s' H2 H4 C) |].
    intros dev inum; rewrite H2; reflexivity.
  - intros q _; destruct (adm_eq _ _ (H4 q)) as (-> & -> & -> & _).
    repeat split; lia.
Qed.

Lemma cache_post_refl s need : cache_post need (fun _ => 0) s s.
Proof. apply quiet_cache_post, quiet_refl. Qed.

Lemma cache_post_trans need1 d1 need2 d2 need3 d3 s s1 s2 :
  cache_post need1 d1 s s1 -> cache_post need2 d2 s1 s2 ->
  (forall q, need1 q <= need3 q /\ need2 q <= need3 q + d1 q /\ d3 q = d1 q + d2 q) ->
  cache_post need3 d3 s s2.
Proof.
  intros (A1 & A2 & A3 & A4) (B1 & B2 & B3 & B4) Hq; unfold cache_post.
  split; [congruence |]; split; [congruence |]; split.
  - intros C; destruct (A3 C) as [C1 D1]; destruct (B3 C1) as [C2 D2].
    split; [exact C2 |]; intros dev inum; rewrite D2; apply D1.
  - intros q Hn; destruct (Hq q) as (Q1 & Q2 & Q3).
    destruct (A4 q ltac:(lia)) as (E1 & E2 & E3).
    destruct (B4 q ltac:(lia)) as (F1 & F2 & F3).
    repeat split; try congruence; lia.
Qed.

Lemma cache_post_weaken need d need' d' s s' :
  cache_post need d s s' ->
  (forall q, need q <= need' q /\ d' q = d q) ->
  cache_post need' d' s s'.
Proof.
  intros (A1 & A2 & A3 & A4) Hq; unfold cache_post.
  split; [exact A1 |]; split; [exact A2 |]; split; [exact A3 |].
  intros q Hn; destruct (Hq q) as (Q1 & Q2).
  destruct (A4 q ltac:(lia)) as (E1 & E2 & E3).
  repeat split; try assumption; lia.
Qed.

Lemma cache_ok_slot s x i' :
  cache_ok s ->
  (0 < i_ref i' -> (x < NINODE)%nat) ->
  (0 < i_ref i' -> forall r, r <> x -> 0 < i_ref (icache s r) ->
     ~ (i_dev (icache s r) = i_dev i' /\ i_inum (icache s r) = i_inum i')) ->
  (0 < i_ref i' -> i_valid i' <> 0 ->
     i_nlink i' = d_nlink (dinodes s (i_dev i') (i_inum i')) /\
     i_type i' = d_type (dinodes s (i_dev i') (i_inum i')) /\ i_type i' <> 0) ->
  cache_ok (set_icache (updn (icache s) x i') s).
Proof.
  intros C Hr Hu Hc; constructor; cbn [icache set_icache dinodes].
  - intros q Hq; destruct (Nat.eq_dec q x) as [-> | Hne].
    + rewrite updn_same; destruct (Z_lt_le_dec 0 (i_ref i')) as [H | H]; [| exact H].
      specialize (Hr H); lia.
    + rewrite updn_other by exact Hne; apply (ck_range _ C); exact Hq.
  - intros q r; destruct (Nat.eq_dec q x) as [-> | Hq];
      destruct (Nat.eq_dec r x) as [-> | Hr'];
      rewrite ?updn_same, ?(updn_other _ _ _ _ Hq), ?(updn_other _ _ _ _ Hr');
      try reflexivity.
    + intros H1 H2 H3 H4; exfalso; apply (Hu H1 r Hr' H2); split; congruence.
    + intros H1 H2 H3 H4; exfalso; apply (Hu H2 q Hq H1); split; congruence.
    + apply (ck_unique _ C).
  - intros q; destruct (Nat.eq_dec q x) as [-> | Hq].
    + rewrite updn_same; exact Hc.
    + rewrite updn_other by exact Hq; apply (ck_coherent _ C).
Qed.

(** A slot in use is changed without changing the inode it holds. *)
Lemma cache_ok_slot_same s x i' :
  cache_ok s -> 0 < i_ref (icache s x) ->
  i_dev i' = i_dev (icache s x) -> i_inum i' = i_inum (icache s x) ->
  (0 < i_ref i' -> i_valid i' <> 0 ->
     i_nlink i' = d_nlink (dinodes s (i_dev i') (i_inum i')) /\
     i_type i' = d_type (dinodes s (i_dev i') (i_inum i')) /\ i_type i' <> 0) ->
  cache_ok (set_icache (updn (icache s) x i') s).
Proof.
  intros C Hact Hd Hi Hc; apply cache_ok_slot; try assumption.
  - intros _; destruct (Nat.lt_ge_cases x NINODE) as [H | H]; [exact H |].
    pose proof (ck_range _ C x H); lia.
  - intros _ r Hr Hact' [H1 H2]; apply Hr.
    apply (ck_unique _ C); congruence.
Qed.

Lemma iget_loop_spec k idx dev inum empty s j s' :
  (forall e, empty = Some e -> (e < idx)%nat /\ i_ref (icache s e) = 0) ->
  (forall q, (q < idx)%nat ->
     ~ (0 < i_ref (icache s q) /\ i_dev (icache s q) = dev /\ i_inum (icache s q) = inum)) ->
  iget_loop k idx dev inum empty s = Ret (j, s') ->
  (j < idx + k)%nat /\
  ((0 < i_ref (icache s j) /\ i_dev (icache s j) = dev /\ i_inum (icache s j) = inum /\
    s' = set_icache (updn (icache s) j
           (with_ref (i_ref (icache s j) + 1) (icache s j))) s) \/
   (i_ref (icache s j) = 0 /\
    (forall q, (q < idx + k)%nat ->
       ~ (0 < i_ref (icache s q) /\ i_dev (icache s q) = dev /\
          i_inum (icache s q) = inum)) /\
    s' = set_icache (updn (icache s) j
           (mkInode dev inum 1 (i_locked (icache s j)) 0 (i_type (icache s j))
              (i_major (icache s j)) (i_minor (icache s j)) (i_nlink (icache s j))
              (i_size (icache s j)) (i_addrs (icache s j)))) s)).
Proof.
  revert idx empty; induction k as [| k IH]; intros idx empty He Hno;
    cbn [iget_loop].
  - destruct empty as [e |]; [| discriminate].
    unfold bind, set_inode, modify, ret; intros H; injection H as <- <-.
    destruct (He e eq_refl) as [He1 He2].
    split; [lia |]; right; split; [exact He2 |]; split; [| reflexivity].
    intros q Hq; apply Hno; lia.
  - unfold bind at 1; unfold get.
    destruct ((i_ref (icache s idx) >? 0) && (i_dev (icache s idx) =? dev)
              && (i_inum (icache s idx) =? inum)) eqn:E.
    + unfold bind, set_inode, modify, ret; intros H; injection H as <- <-.
      apply andb_true_iff in E; destruct E as [E E3].
      apply andb_true_iff in E; destruct E as [E1 E2].
      rewrite Z.gtb_ltb, Z.ltb_lt in E1; rewrite Z.eqb_eq in E2, E3.
      split; [lia |]; left; repeat split; assumption.
    + intros H; apply IH in H.
      * destruct H as [Hj H]; split; [lia |].
        replace (S idx + k)%nat with (idx + S k)%nat in H by lia; exact H.
      * intros e Heq; destruct empty as [e' |].
        -- destruct (He e' eq_refl) as [H1 H2]; injection Heq as <-; split; [lia | exact H2].
        -- destruct (i_ref (icache s idx) =? 0) eqn:E0; [| discriminate].
           injection Heq as <-; apply Z.eqb_eq in E0; split; [lia | exact E0].
      * intros q Hq [H1 [H2 H3]].
        destruct (Nat.eq_dec q idx) as [-> | Hne].
        -- apply Z.ltb_lt in H1; rewrite <- Z.gtb_ltb in H1.
           apply Z.eqb_eq in H2, H3; rewrite H1, H2, H3 in E; discriminate.
        -- apply (Hno q); [lia | tauto].
Qed.

(** iget: the slot returned holds (dev, inum) and has one reference more. *)
Lemma iget_cache_post dev inum s j s' :
  iget dev inum s = Ret (j, s') ->
  cache_post (fun _ => 1) (fun q => same_slot q j) s s' /\
  0 < i_ref (icache s' j) /\
  i_dev (icache s' j) = dev /\ i_inum (icache s' j) = inum /\
  disk s' = disk s /\ dinodes s' = dinodes s /\ umem s' = umem s /\ kmem s' = kmem s /\
  (forall q, q <> j -> icache s' q = icache s q) /\
  (i_valid (icache s' j) <> 0 -> icache s' j = with_ref (i_ref (icache s j) + 1) (icache s j)
                                 /\ 0 < i_ref (icache s j)).
Proof.
  intros H; apply iget_loop_spec in H;
    [| intros e He; discriminate | intros q Hq; lia].
  cbn [Nat.add] in H; destruct H as [Hj [(Hact & Hd & Hi & ->) | (Hz & Hno & ->)]].
  - split.
    { unfold cache_post; split; [reflexivity |]; split; [reflexivity |]; split.
      + intros C; split; [| reflexivity].
        apply cache_ok_slot_same; try assumption; try reflexivity.
        cbn [i_ref i_valid i_nlink i_type i_dev i_inum with_ref]; intros _.
        apply (ck_coherent _ C); exact Hact.
      + intros q Hq; cbn [icache set_icache].
        destruct (Nat.eq_dec q j) as [-> | Hne].
        * rewrite updn_same, same_slot_refl; repeat split; reflexivity.
        * rewrite updn_other, same_slot_neq by exact Hne; repeat split; lia. }
    cbn [icache set_icache disk dinodes umem kmem]; rewrite updn_same.
    cbn [i_ref i_dev i_inum with_ref i_valid].
    split; [lia |]; split; [exact Hd |]; split; [exact Hi |].
    split; [reflexivity |]; split; [reflexivity |].
    split; [reflexivity |]; split; [reflexivity |]; split.
    + intros q Hq; apply updn_other; exact Hq.
    + intros _; split; [reflexivity | exact Hact].
  - split.
    { unfold cache_post; split; [reflexivity |]; split; [reflexivity |]; split.
      + intros C; split; [| reflexivity].
        apply cache_ok_slot; try assumption; cbn [i_ref i_valid i_dev i_inum].
        * intros _; exact Hj.
        * intros _ r Hr Hact [H1 H2].
          destruct (Nat.lt_ge_cases r NINODE) as [Hlt | Hge].
          -- apply (Hno r Hlt); tauto.
          -- pose proof (ck_range _ C r Hge); lia.
        * intros _ H; contradiction.
      + intros q Hq; cbn [icache set_icache].
        destruct (Nat.eq_dec q j) as [-> | Hne]; [lia |].
        rewrite updn_other, same_slot_neq by exact Hne; repeat split; lia. }
    cbn [icache set_icache disk dinodes umem kmem]; rewrite updn_same.
    cbn [i_ref i_dev i_inum i_valid].
    split; [lia |]; split; [reflexivity |]; split; [reflexivity |].
    split; [reflexivity |]; split; [reflexivity |].
    split; [reflexivity |]; split; [reflexivity |]; split.
    + intros q Hq; apply updn_other; exact Hq.
    + intros H; contradiction.
Qed.

Lemma touch_refl x s : touch x s s.
Proof. unfold touch; repeat split; intros; try reflexivity; left; reflexivity. Qed.

Lemma touch_trans x s1 s2 s3 : touch x s1 s2 -> touch x s2 s3 -> touch x s1 s3.
Proof.
  intros (A1 & A2 & A3 & A4 & A5 & A6 & A8 & A7) (B1 & B2 & B3 & B4 & B5 & B6 & B8 & B7).
  unfold touch; repeat split; try congruence.
  - intros q Hq; rewrite (B3 q Hq); apply A3; exact Hq.
  - intros dev inum; destruct (B7 dev inum) as [H | (H1 & H2 & H3)].
    + rewrite H; apply A7.
    + right; repeat split; congruence.
Qed.

Lemma quiet_touch x s s' : quiet s s' -> touch x s s'.
Proof.
  intros (H1 & H2 & H3 & H4); unfold touch.
  destruct (adm_eq _ _ (H4 x)) as (E1 & E2 & E3 & _ & _ & _ & E7).
  repeat split; try assumption.
  - intros q _; apply H4.
  - intros dev inum; left; rewrite H2; reflexivity.
Qed.

(** A change of slot [x] that keeps the inode and the link count. *)
Lemma touch_slot x i' s :
  i_dev i' = i_dev (icache s x) -> i_inum i' = i_inum (icache s x) ->
  i_nlink i' = i_nlink (icache s x) -> i_ref i' = i_ref (icache s x) ->
  touch x s (set_icache (updn (icache s) x i') s).
Proof.
  intros H1 H2 H3 H4; unfold touch; cbn [sb cwd icache set_icache dinodes].
  rewrite updn_same; repeat split; try assumption.
  - intros q Hq; rewrite updn_other by exact Hq; reflexivity.
  - intros dev inum; left; reflexivity.
Qed.

Lemma touch_set_inode x f :
  (forall i, i_dev (f i) = i_dev i /\ i_inum (f i) = i_inum i /\
             i_nlink (f i) = i_nlink i /\ i_ref (f i) = i_ref i) ->
  preserves (touch x) (set_inode x f).
Proof.
  intros Hf s a s' H; unfold set_inode, modify in H; injection H as _ <-.
  destruct (Hf (icache s x)) as (H1 & H2 & H3 & H4); apply touch_slot; assumption.
Qed.

Lemma touch_iupdate x : preserves (touch x) (iupdate x).
Proof.
  intros s a s' H; unfold iupdate, modify in H; injection H as _ <-.
  unfold touch; cbn [sb cwd icache set_dinodes dinodes].
  repeat split; try reflexivity.
  intros dev inum; unfold upd.
  destruct (dev =? i_dev (icache s x)) eqn:E1; [| left; reflexivity].
  apply Z.eqb_eq in E1; subst dev.
  destruct (inum =? i_inum (icache s x)) eqn:E2; [| left; reflexivity].
  apply Z.eqb_eq in E2; right; repeat split; assumption.
Qed.

Lemma touch_acquiresleep x : preserves (touch x) (acquiresleep x).
Proof.
  intros s a s' H; unfold acquiresleep in H; unfold bind at 1 in H; unfold get in H.
  destruct (i_locked (icache s x)); [discriminate |].
  revert H; apply touch_set_inode; intros i; repeat split; reflexivity.
Qed.

Lemma touch_releasesleep x : preserves (touch x) (releasesleep x).
Proof. apply touch_set_inode; intros i; repeat split; reflexivity. Qed.

Lemma quiet_itrunc_direct k ip : forall i, preserves quiet (itrunc_direct k ip i).
Proof.
  induction k as [| k IH]; intros i; cbn [itrunc_direct]; unfold set_addr;
    repeat quiet_step; first [apply quiet_bfree | apply IH].
Qed.

Lemma quiet_free_entries k dev blk : forall j, preserves quiet (free_entries k dev blk j).
Proof.
  induction k as [| k IH]; intros j; cbn [free_entries];
    repeat quiet_step; first [apply quiet_read_entry | apply quiet_bfree | apply IH].
Qed.

Lemma quiet_free_double k dev blk : forall j, preserves quiet (free_double k dev blk j).
Proof.
  induction k as [| k IH]; intros j; cbn [free_double];
    repeat quiet_step;
    first [apply quiet_read_entry | apply quiet_bfree | apply quiet_free_entries
          | apply IH].
Qed.

Ltac touch_step x :=
  lazymatch goal with
  | |- preserves _ (ret _) => apply preserves_ret; exact (touch_refl x)
  | |- preserves _ (panic _) => apply preserves_panic
  | |- preserves _ (bind get _) => apply preserves_get_bind; intros ?
  | |- preserves _ (bind _ _) =>
      apply preserves_bind; [exact (touch_trans x) | | intros ?]
  | |- preserves _ (if ?c then _ else _) => destruct c
  | |- preserves _ (match ?c with _ => _ end) => destruct c
  | |- preserves _ (fun _ => OutOfFuel) => intros ? ? ? ?; discriminate
  | |- preserves _ (fun _ => Hang) => intros ? ? ? ?; discriminate
  end.

Lemma preserves_weaken {A} (R R' : fs -> fs -> Prop) (m : M A) :
  (forall s s', R s s' -> R' s s') -> preserves R m -> preserves R' m.
Proof. intros HR Hm s a s' H; apply HR, (Hm _ _ _ H). Qed.

Lemma touch_of_quiet {A} x (m : M A) : preserves quiet m -> preserves (touch x) m.
Proof. apply preserves_weaken; intros s s'; apply quiet_touch. Qed.

Lemma touch_itrunc x : preserves (touch x) (itrunc x).
Proof.
  unfold itrunc, set_addr; repeat (touch_step x);
    try (apply touch_of_quiet;
         first [apply quiet_itrunc_direct | apply quiet_free_entries
               | apply quiet_free_double | apply quiet_bfree
               | apply preserves_modify; intros ?; apply quiet_store_addr]);
    try apply touch_iupdate.
  all: apply touch_set_inode; intros i; repeat split; reflexivity.
Qed.

(** The cache invariant and the link counts on disk after an operation on
    the inode of a slot in use whose contents are valid. *)
Lemma touch_cache_ok x s s' :
  cache_ok s -> 0 < i_ref (icache s x) -> i_valid (icache s x) <> 0 ->
  touch x s s' ->
  (0 < i_ref (icache s' x) -> i_valid (icache s' x) <> 0 ->
     i_nlink (icache s' x)
       = d_nlink (dinodes s' (i_dev (icache s' x)) (i_inum (icache s' x))) /\
     i_type (icache s' x)
       = d_type (dinodes s' (i_dev (icache s' x)) (i_inum (icache s' x))) /\
     i_type (icache s' x) <> 0) ->
  cache_ok s' /\
  forall dev inum, d_nlink (dinodes s' dev inum) = d_nlink (dinodes s dev inum).
Proof.
  intros C Hact Hval (T1 & T2 & T3 & T4 & T5 & T6 & _ & T7) Hcoh.
  destruct (ck_coherent _ C x Hact Hval) as (Hn & _ & _).
  assert (Hxr : (x < NINODE)%nat).
  { destruct (Nat.lt_ge_cases x NINODE) as [H | H]; [exact H |].
    pose proof (ck_range _ C x H); lia. }
  split.
  - constructor.
    + intros q Hq; assert (Hne : q <> x) by lia.
      destruct (adm_eq _ _ (T3 q Hne)) as (_ & _ & -> & _).
      apply (ck_range _ C); exact Hq.
    + assert (Hx : forall r, r <> x -> 0 < i_ref (icache s' r) ->
                i_dev (icache s' x) = i_dev (icache s' r) ->
                i_inum (icache s' x) = i_inum (icache s' r) -> False).
      { intros r Hr; destruct (adm_eq _ _ (T3 r Hr)) as (-> & -> & -> & _).
        rewrite T4, T5; intros H1 H2 H3; apply Hr; symmetry.
        apply (ck_unique _ C); assumption. }
      intros q r; destruct (Nat.eq_dec q x) as [-> | Hq];
        destruct (Nat.eq_dec r x) as [-> | Hr]; try reflexivity.
      * intros _ H1 H2 H3; exfalso; apply (Hx r Hr H1 H2 H3).
      * intros H1 _ H2 H3; exfalso; apply (Hx q Hq H1); congruence.
      * destruct (adm_eq _ _ (T3 q Hq)) as (-> & -> & -> & _).
        destruct (adm_eq _ _ (T3 r Hr)) as (-> & -> & -> & _).
        apply (ck_unique _ C).
    + intros q; destruct (Nat.eq_dec q x) as [-> | Hq]; [exact Hcoh |].
      destruct (adm_eq _ _ (T3 q Hq)) as (-> & -> & -> & _ & -> & -> & ->).
      intros H1 H2.
      destruct (T7 (i_dev (icache s q)) (i_inum (icache s q))) as [-> | (E1 & E2 & _)].
      * apply (ck_coherent _ C); assumption.
      * exfalso; apply Hq; apply (ck_unique _ C); assumption.
  - intros dev inum; destruct (T7 dev inum) as [-> | (-> & -> & ->)];
      [reflexivity | exact Hn].
Qed.

Lemma touch_held x s s' q k :
  touch x s s' -> q <> x -> held k 0 q s s'.
Proof.
  intros (_ & _ & T3 & _) Hq _.
  destruct (adm_eq _ _ (T3 q Hq)) as (-> & -> & -> & _); repeat split; lia.
Qed.

(** idup *)
Lemma idup_cache_post x s r s' :
  0 < i_ref (icache s x) -> idup x s = Ret (r, s') ->
  r = x /\ cache_post (fun _ => 1) (fun q => same_slot q x) s s'.
Proof.
  intros Hact H; unfold idup, bind, set_inode, modify, ret in H.
  injection H as <- <-; split; [reflexivity |].
  unfold cache_post; split; [reflexivity |]; split; [reflexivity |]; split.
  - intros C; split; [| reflexivity].
    apply cache_ok_slot_same; try assumption; try reflexivity.
    cbn [i_ref i_valid i_nlink i_type i_dev i_inum with_ref]; intros _.
    apply (ck_coherent _ C); exact Hact.
  - intros q Hq; cbn [icache set_icache].
    destruct (Nat.eq_dec q x) as [-> | Hne].
    + rewrite updn_same, same_slot_refl; repeat split; reflexivity.
    + rewrite updn_other, same_slot_neq by exact Hne; repeat split; lia.
Qed.

(** ilock: what the locked slot holds afterwards. *)
Lemma ilock_spec x s u s' :
  ilock x s = Ret (u, s') ->
  1 <= i_ref (icache s x) /\
  sb s' = sb s /\ cwd s' = cwd s /\ disk s' = disk s /\ dinodes s' = dinodes s /\
  umem s' = umem s /\ kmem s' = kmem s /\
  (forall q, q <> x -> icache s' q = icache s q) /\
  i_dev (icache s' x) = i_dev (icache s x) /\
  i_inum (icache s' x) = i_inum (icache s x) /\
  i_ref (icache s' x) = i_ref (icache s x) /\
  i_locked (icache s' x) = true /\ i_valid (icache s' x) <> 0 /\
  (i_valid (icache s x) <> 0 -> icache s' x = with_locked true (icache s x)) /\
  (i_valid (icache s x) = 0 ->
   let dip := dinodes s (i_dev (icache s x)) (i_inum (icache s x)) in
   d_type dip <> 0 /\
   icache s' x = mkInode (i_dev (icache s x)) (i_inum (icache s x))
                   (i_ref (icache s x)) true 1 (d_type dip) (d_major dip)
                   (d_minor dip) (d_nlink dip) (d_size dip) (d_addrs dip)).
Proof.
  unfold ilock; unfold bind at 1; unfold get.
  destruct (i_ref (icache s x) <? 1) eqn:Er; [discriminate |].
  rewrite Z.ltb_ge in Er.
  unfold acquiresleep; unfold bind at 1; unfold bind at 1; unfold get.
  destruct (i_locked (icache s x)) eqn:El; [discriminate |].
  unfold set_inode, modify; unfold bind at 1; unfold get.
  cbn [icache set_icache]; rewrite updn_same; cbn [i_valid with_locked].
  destruct (i_valid (icache s x) =? 0) eqn:Ev.
  - rewrite Z.eqb_eq in Ev.
    unfold bind at 1; unfold bind at 1; unfold get.
    cbn [icache set_icache dinodes]; rewrite !updn_same.
    cbn [i_type i_dev i_inum i_ref i_locked with_locked].
    destruct (d_type (dinodes s (i_dev (icache s x)) (i_inum (icache s x))) =? 0) eqn:Et;
      [discriminate |].
    rewrite Z.eqb_neq in Et.
    unfold ret; intros H; injection H as _ <-.
    cbn [sb cwd disk dinodes umem kmem icache set_icache]; rewrite updn_same.
    cbn [i_dev i_inum i_ref i_locked i_valid].
    repeat split; try reflexivity; try lia; try (intros; contradiction);
      try exact Et.
    intros q Hq; rewrite !updn_other by exact Hq; reflexivity.
  - rewrite Z.eqb_neq in Ev.
    unfold ret; intros H; injection H as _ <-.
    cbn [sb cwd disk dinodes umem kmem icache set_icache]; rewrite updn_same.
    cbn [i_dev i_inum i_ref i_locked i_valid with_locked].
    repeat split; try reflexivity; try lia; try assumption; try (intros; contradiction).
    intros q Hq; rewrite !updn_other by exact Hq; reflexivity.
Qed.

Lemma ilock_cache_post x s u s' need :
  ilock x s = Ret (u, s') -> cache_post need (fun _ => 0) s s'.
Proof.
  intros H; apply ilock_spec in H.
  destruct H as (Hr & H1 & H2 & H3 & H4 & H5 & H6 & Ho & Hd & Hi & Hrf & Hl & Hv & Hsame & Hload).
  unfold cache_post; split; [exact H1 |]; split; [exact H2 |]; split.
  - intros C; split; [| intros dev inum; rewrite H4; reflexivity].
    constructor.
    + intros q Hq; destruct (Nat.eq_dec q x) as [-> | Hne];
        [rewrite Hrf | rewrite (Ho q Hne)]; apply (ck_range _ C); exact Hq.
    + intros q r.
      assert (Hid : forall t, i_ref (icache s' t) = i_ref (icache s t) /\
                  i_dev (icache s' t) = i_dev (icache s t) /\
                  i_inum (icache s' t) = i_inum (icache s t)).
      { intros t; destruct (Nat.eq_dec t x) as [-> | Hne];
          [tauto | rewrite (Ho t Hne); tauto]. }
      destruct (Hid q) as (-> & -> & ->); destruct (Hid r) as (-> & -> & ->).
      apply (ck_unique _ C).
    + intros q; destruct (Nat.eq_dec q x) as [-> | Hne].
      * rewrite H4, Hrf, Hd, Hi; intros Hact _.
        destruct (Z.eq_dec (i_valid (icache s x)) 0) as [Hz | Hnz].
        -- destruct (Hload Hz) as [Ht ->]; cbn [i_nlink i_type]; tauto.
        -- rewrite (Hsame Hnz); cbn [i_nlink i_type with_locked].
           apply (ck_coherent _ C); assumption.
      * rewrite (Ho q Hne), H4; apply (ck_coherent _ C).
  - intros q _; destruct (Nat.eq_dec q x) as [-> | Hne].
    + repeat split; try assumption; lia.
    + rewrite (Ho q Hne); repeat split; lia.
Qed.

(** iunlock *)
Lemma iunlock_spec x s u s' :
  iunlock x s = Ret (u, s') ->
  s' = set_icache (updn (icache s) x (with_locked false (icache s x))) s /\
  1 <= i_ref (icache s x).
Proof.
  unfold iunlock; unfold bind at 1; unfold get.
  destruct (negb (i_locked (icache s x))); [discriminate |]; cbn [orb].
  destruct (i_ref (icache s x) <? 1) eqn:E; [discriminate |].
  rewrite Z.ltb_ge in E.
  unfold releasesleep, set_inode, modify; intros H; injection H as _ <-.
  split; [reflexivity | exact E].
Qed.

Lemma iunlock_cache_post x s u s' need :
  iunlock x s = Ret (u, s') -> cache_post need (fun _ => 0) s s'.
Proof.
  intros H; apply iunlock_spec in H; destruct H as [-> Hr].
  unfold cache_post; split; [reflexivity |]; split; [reflexivity |]; split.
  - intros C; split; [| reflexivity].
    apply cache_ok_slot_same; try assumption; try reflexivity; try lia.
    cbn [i_ref i_valid i_nlink i_type i_dev i_inum with_locked].
    apply (ck_coherent _ C).
  - intros q _; cbn [icache set_icache].
    destruct (Nat.eq_dec q x) as [-> | Hne].
    + rewrite updn_same; repeat split; cbn; lia.
    + rewrite updn_other by exact Hne; repeat split; lia.
Qed.

(** ** Running a computation *)

Lemma after_ret {A} (m : M A) s a :
  result m s = Some a -> m s = Ret (a, after m s).
Proof.
  unfold result, after; destruct (m s) as [[a' s'] | | | |]; try discriminate.
  intros H; injection H as ->; reflexivity.
Qed.

(** ** Inodes without blocks *)

Lemma ref_at_empty s ip p :
  (forall k, i_addrs (icache s ip) k = 0) -> ref_at s ip p = 0.
Proof.
  intros H; destruct p; cbn [ref_at]; rewrite ?H; reflexivity.
Qed.

(** An inode without blocks satisfies the invariant of the allocator when the
    bitmap blocks and block 0 are marked as used. *)
Lemma inode_wf_empty s ip :
  (forall k, i_addrs (icache s ip) k = 0) ->
  0 <= sb_size (sb s) < 2 ^ 32 ->
  (forall x, 0 <= x < sb_size (sb s) ->
     reserved s (i_dev (icache s ip)) (BBLOCK x (sb s))) ->
  reserved s (i_dev (icache s ip)) 0 ->
  inode_wf s ip.
Proof.
  intros He Hs Hb Hz; constructor; try assumption.
  - intros p q _ _ Hp; rewrite (ref_at_empty s ip p He) in Hp; contradiction.
  - intros p _ Hp; rewrite (ref_at_empty s ip p He) in Hp; contradiction.
  - intros x Hx; split; [apply Hb; exact Hx |].
    intros p _ Hp; rewrite (ref_at_empty s ip p He) in Hp; contradiction.
Qed.

(** ** readi when a copy fails *)

(** readi returns the clamped count as soon as its loop ends, whatever the
    number of bytes that the loop has copied. *)
Lemma readi_result (s s' : fs) (ip : nat) (user_dst : bool) (dst off n tot : Z) :
  off <= i_size (icache s ip) -> off <= wrap32 (off + n) ->
  let cnt := if wrap32 (off + n) >? i_size (icache s ip)
             then wrap32 (i_size (icache s ip) - off) else n in
  readi_loop (Z.to_nat cnt) ip user_dst cnt 0 off dst s = Ret (tot, s') ->
  readi ip user_dst dst off n s = Ret (to_int cnt, s').
Proof.
  intros H1 H2 cnt Hl; unfold readi; unfold bind at 1; unfold get.
  destruct (off >? i_size (icache s ip)) eqn:E1;
    [rewrite Z.gtb_ltb, Z.ltb_lt in E1; lia |].
  destruct (wrap32 (off + n) <? off) eqn:E2; [rewrite Z.ltb_lt in E2; lia |].
  cbn [orb]; fold cnt; unfold bind; rewrite Hl; reflexivity.
Qed.

(** C4. When the copy to the target fails in the loop of readi after [tot]
    bytes, fewer than the clamped count, readi does not return [tot]: it
    returns the clamped count, as if all of the range had been copied. *)
Theorem readi_count_after_copy_failure (s s' : fs) (ip : nat) (user_dst : bool)
    (dst off n tot : Z) :
  off <= i_size (icache s ip) -> off <= wrap32 (off + n) ->
  let cnt := if wrap32 (off + n) >? i_size (icache s ip)
             then wrap32 (i_size (icache s ip) - off) else n in
  readi_loop (Z.to_nat cnt) ip user_dst cnt 0 off dst s = Ret (tot, s') ->
  0 <= tot < cnt -> cnt < 2 ^ 31 ->
  readi ip user_dst dst off n s = Ret (cnt, s') /\ cnt <> tot.
Proof.
  intros H1 H2 cnt Hl Ht Hc; split; [| lia].
  rewrite <- (to_int_small cnt) at 1 by lia.
  apply readi_result with (tot := tot); assumption.
Qed.

(** ** writei and memory *)

(** writei leaves the memory as it is. *)
Lemma writei_mem s ip user src off n r s1 :
  0 <= NDIRECT -> MAXFILE * BSIZE < 2 ^ 31 -> inode_wf s ip ->
  0 <= off <= i_size (icache s ip) -> 0 <= n -> off + n <= MAXFILE * BSIZE ->
  0 <= src -> src + n <= 2 ^ 64 ->
  (forall i, 0 <= i < n -> mem_byte s user (src + i) <> None) ->
  writei ip user src off n s = Ret (r, s1) ->
  forall u a, mem_byte s1 u a = mem_byte s u a.
Proof.
  intros Hnd Hmax W Hoff Hn Hend Hsrc Hsend Hread Hw.
  set (data := fun o => match mem_byte s user (src + (o - off)) with
                        | Some v => v
                        | None => 0
                        end).
  assert (Hmem : forall o, off <= o < off + n ->
            mem_byte s user (src + (o - off)) = Some (data o)).
  { intros o Ho; subst data; cbn beta.
    pose proof (Hread (o - off) ltac:(lia)) as Hr.
    destruct (mem_byte s user (src + (o - off))); [reflexivity | contradiction]. }
  destruct (writei_ok s ip user src off n r s1 data Hnd Hmax W Hoff Hn Hend
              Hsrc Hsend Hmem Hw)
    as (_ & _ & _ & _ & _ & Hu & Hk & _).
  intros u a; unfold mem_byte; rewrite Hu, Hk; reflexivity.
Qed.

(** iput: the branch that frees the inode. *)
Lemma iput_free_body x s u s1 :
  (acquiresleep x ;;; itrunc x ;;; set_inode x (with_type 0) ;;; iupdate x ;;;
   set_inode x (with_valid 0) ;;; releasesleep x) s = Ret (u, s1) ->
  touch x s s1 /\ i_valid (icache s1 x) = 0.
Proof.
  intros H.
  apply bind_inv in H; destruct H as (u1 & t1 & H1 & H).
  apply bind_inv in H; destruct H as (u2 & t2 & H2 & H).
  apply bind_inv in H; destruct H as (u3 & t3 & H3 & H).
  apply bind_inv in H; destruct H as (u4 & t4 & H4 & H).
  apply bind_inv in H; destruct H as (u5 & t5 & H5 & H).
  assert (T5 : touch x s t5).
  { apply touch_acquiresleep in H1; apply touch_itrunc in H2.
    apply touch_iupdate in H4.
    apply (touch_set_inode x (with_type 0)) in H3;
      [| intros i; repeat split; reflexivity].
    apply (touch_set_inode x (with_valid 0)) in H5;
      [| intros i; repeat split; reflexivity].
    repeat (eapply touch_trans; [eassumption |]); apply touch_refl. }
  split.
  - eapply touch_trans; [exact T5 | apply (touch_releasesleep x _ _ _ H)].
  - unfold set_inode, modify in H5; injection H5 as _ <-.
    unfold releasesleep, set_inode, modify in H; injection H as _ <-.
    cbn [icache set_icache]; rewrite !updn_same; reflexivity.
Qed.

(** iput drops one reference of slot [x] and changes no link count on disk. *)
Lemma iput_cache_post x s u s' need :
  iput x s = Ret (u, s') -> cache_post need (fun q => - same_slot q x) s s'.
Proof.
  unfold iput; unfold bind at 1; unfold get; intros H.
  apply bind_inv in H; destruct H as (u1 & s1 & H1 & H).
  unfold set_inode, modify in H; injection H as _ <-.
  assert (Hb : touch x s s1 /\
               (cache_ok s -> cache_ok s1 /\
                  forall dev inum, d_nlink (dinodes s1 dev inum)
                                   = d_nlink (dinodes s dev inum))).
  { destruct ((i_ref (icache s x) =? 1) && negb (i_valid (icache s x) =? 0)
              && (i_nlink (icache s x) =? 0)) eqn:E.
    - apply andb_prop in E; destruct E as [E E3].
      apply andb_prop in E; destruct E as [E1 E2].
      apply Z.eqb_eq in E1; apply negb_true_iff in E2; apply Z.eqb_neq in E2.
      apply iput_free_body in H1; destruct H1 as [T Hv].
      split; [exact T |]; intros C.
      apply (touch_cache_ok x s s1 C ltac:(lia) E2 T).
      intros _ Hv'; contradiction.
    - injection H1 as _ <-; split; [apply touch_refl |].
      intros C; split; [exact C | reflexivity]. }
  destruct Hb as [(T1 & T2 & T3 & T4 & T5 & T6 & T8 & T7) Hc].
  unfold cache_post, held; cbn [sb cwd icache set_icache dinodes].
  split; [exact T1 |]; split; [exact T2 |]; split.
  - intros C; destruct (Hc C) as [C1 D1]; split; [| exact D1].
    destruct (Z_lt_le_dec 0 (i_ref (icache s1 x) - 1)) as [Hp | Hp].
    + apply cache_ok_slot_same; try assumption; try reflexivity; try lia.
      cbn [i_ref i_valid i_nlink i_type i_dev i_inum with_ref]; intros _.
      apply (ck_coherent _ C1); lia.
    + apply cache_ok_slot; try assumption;
        cbn [i_ref with_ref]; intros; lia.
  - intros q _; destruct (Nat.eq_dec q x) as [-> | Hne].
    + rewrite updn_same, same_slot_refl; cbn [i_dev i_inum i_ref with_ref].
      repeat split; try assumption; lia.
    + rewrite updn_other, same_slot_neq by exact Hne.
      destruct (adm_eq _ _ (T3 q Hne)) as (-> & -> & -> & _); repeat split; lia.
Qed.

Lemma iunlockput_cache_post x s u s' need :
  iunlockput x s = Ret (u, s') -> cache_post need (fun q => - same_slot q x) s s'.
Proof.
  unfold iunlockput; intros H.
  apply bind_inv in H; destruct H as (u1 & s1 & H1 & H).
  apply (iunlock_cache_post x s u1 s1 need) in H1.
  apply (iput_cache_post x s1 u s' need) in H.
  apply (cache_post_trans _ _ _ _ need (fun q => - same_slot q x) _ _ _ H1 H).
  intros q; pose proof (same_slot_range q x); lia.
Qed.

(** ** Directories and paths *)

(** dirlookup reads the directory and, when it finds the name, ends in the
    iget of the inode of the entry. *)
Lemma dirlookup_loop_iget fuel dp name : forall off s r s',
  dirlookup_loop fuel dp name off s = Ret (r, s') ->
  match r with
  | None => quiet s s'
  | Some (j, _) =>
      exists t, quiet s t /\
        iget (i_dev (icache t dp)) (de_inum t de_dirlookup) t = Ret (j, s')
  end.
Proof.
  induction fuel as [| fuel IH]; intros off s r s'; cbn [dirlookup_loop];
    unfold bind at 1; unfold get.
  - destruct (off <? i_size (icache s dp)); [discriminate |].
    intros H; injection H as <- <-; apply quiet_refl.
  - destruct (off <? i_size (icache s dp));
      [| intros H; injection H as <- <-; apply quiet_refl].
    intros H; apply bind_inv in H; destruct H as (n & t & Hr & H).
    apply quiet_readi in Hr.
    destruct (negb (n =? DIRENT_SIZE)); [discriminate |].
    unfold bind at 1 in H; unfold get in H.
    assert (Hrec : forall off', dirlookup_loop fuel dp name off' t = Ret (r, s') ->
              match r with
              | None => quiet s s'
              | Some (j, _) =>
                  exists t, quiet s t /\
                    iget (i_dev (icache t dp)) (de_inum t de_dirlookup) t = Ret (j, s')
              end).
    { intros off' H'; apply IH in H'; destruct r as [[j o] |].
      - destruct H' as (t' & Q & G); exists t'; split; [| exact G].
        apply (quiet_trans _ _ _ Hr Q).
      - apply (quiet_trans _ _ _ Hr H'). }
    destruct (de_inum t de_dirlookup =? 0); [apply (Hrec _ H) |].
    destruct (namecmp name (de_name t de_dirlookup) =? 0); [| apply (Hrec _ H)].
    apply bind_inv in H; destruct H as (j & t' & G & H).
    injection H as <- <-; exists t; split; [exact Hr | exact G].
Qed.

Lemma dirlookup_iget dp name s r s' :
  dirlookup dp name s = Ret (r, s') ->
  i_type (icache s dp) = T_DIR /\
  match r with
  | None => quiet s s'
  | Some (j, _) =>
      exists t, quiet s t /\
        iget (i_dev (icache t dp)) (de_inum t de_dirlookup) t = Ret (j, s')
  end.
Proof.
  unfold dirlookup; unfold bind at 1; unfold get.
  destruct (i_type (icache s dp) =? T_DIR) eqn:E; [| discriminate].
  cbn [negb]; apply Z.eqb_eq in E; intros H; split; [exact E |].
  apply (dirlookup_loop_iget _ _ _ _ _ _ _ H).
Qed.

(** dirlookup as an operation of the cache: the slot found has one reference
    more. *)
Lemma dirlookup_cache_post dp name s r s' :
  dirlookup dp name s = Ret (r, s') ->
  cache_post (fun _ => 1)
    (fun q => match r with Some (j, _) => same_slot q j | None => 0 end) s s' /\
  forall j o, r = Some (j, o) -> 0 < i_ref (icache s' j).
Proof.
  intros H; apply dirlookup_iget in H; destruct H as [_ H].
  destruct r as [[j o] |].
  - destruct H as (t & Q & G); apply iget_cache_post in G.
    destruct G as (G & Hr & _); split.
    + apply (cache_post_trans _ _ _ _ (fun _ => 1) (fun q => same_slot q j) _ _ _
               (quiet_cache_post _ _ (fun _ => 1) Q) G).
      intros q; lia.
    + intros j' o' E; injection E as <- <-; exact Hr.
  - split; [apply quiet_cache_post; exact H | intros j o E; discriminate].
Qed.

Lemma held_ref need d s s' q :
  cache_post need d s s' -> need q <= i_ref (icache s q) ->
  i_ref (icache s' q) = i_ref (icache s q) + d q.
Proof. intros (_ & _ & _ & H) Hq; apply (H q Hq). Qed.

(** The end of the loop of namex, when the path has no further element. *)
Lemma namex_end_cache_post (cur : nat) (b : bool) (name : list Z) s
    (r : option nat) (name' : list Z) s' :
  (if b then iput cur ;;; ret (@None nat, name) else ret (Some cur, name)) s
    = Ret ((r, name'), s') ->
  cache_post (fun q => 1 + same_slot q cur)
    (fun q => match r with Some j => same_slot q j | None => 0 end
              - same_slot q cur) s s' /\
  (0 < i_ref (icache s cur) -> forall j, r = Some j -> 0 < i_ref (icache s' j)).
Proof.
  destruct b; intros H.
  - apply bind_inv in H; destruct H as (u & t & Hp & H).
    injection H as <- _ <-; split; [| intros _ j E; discriminate].
    apply (iput_cache_post cur s u t (fun q => 1 + same_slot q cur)) in Hp.
    apply (cache_post_weaken _ _ _ _ _ _ Hp); intros q; lia.
  - injection H as <- _ <-; split.
    + apply (cache_post_weaken _ _ _ _ _ _
               (cache_post_refl s (fun q => 1 + same_slot q cur))).
      intros q; lia.
    + intros Hr j E; injection E as <-; exact Hr.
Qed.

(** The loop of namex started from slot [cur]: the reference to [cur] is
    given up and the slot returned carries a reference. *)
Lemma namex_loop_cache_post fuel : forall cur path b name s r name' s',
  namex_loop fuel cur path b name s = Ret ((r, name'), s') ->
  cache_post (fun q => 1 + same_slot q cur)
    (fun q => match r with Some j => same_slot q j | None => 0 end
              - same_slot q cur) s s' /\
  (0 < i_ref (icache s cur) -> forall j, r = Some j -> 0 < i_ref (icache s' j)).
Proof.
  induction fuel as [| fuel IH]; intros cur path b name s r name' s';
    cbn [namex_loop]; destruct (skipelem path name) as [[path' name1] |];
    try apply namex_end_cache_post; try discriminate.
  intros H; apply bind_inv in H; destruct H as (u1 & s1 & Hl & H).
  unfold bind at 1 in H; unfold get in H.
  pose (need0 := fun q => 1 + same_slot q cur).
  assert (P1 := ilock_cache_post cur s u1 s1 need0 Hl).
  assert (R1 : 0 < i_ref (icache s cur) -> i_ref (icache s1 cur) = i_ref (icache s cur)).
  { intros Hr; destruct (ilock_spec _ _ _ _ Hl) as (_ & _ & _ & _ & _ & _ & _ & _ & _ & _ & E & _).
    exact E. }
  destruct (negb (i_type (icache s1 cur) =? T_DIR)).
  { apply bind_inv in H; destruct H as (u2 & s2 & Hp & H).
    injection H as <- _ <-; split; [| intros _ j E; discriminate].
    apply (iunlockput_cache_post cur s1 u2 s2 (fun _ => 1)) in Hp.
    refine (cache_post_trans _ _ _ _ _ _ _ _ _ P1 Hp _).
    intros q; pose proof (same_slot_range q cur); subst need0; cbn beta; lia. }
  destruct (b && (deref path' =? 0)).
  { apply bind_inv in H; destruct H as (u2 & s2 & Hp & H).
    injection H as <- _ <-.
    apply (iunlock_cache_post cur s1 u2 s2 (fun _ => 1)) in Hp.
    assert (P : cache_post need0 (fun _ => 0) s s2).
    { refine (cache_post_trans _ _ _ _ _ _ _ _ _ P1 Hp _).
      intros q; pose proof (same_slot_range q cur); subst need0; cbn beta; lia. }
    split.
    - apply (cache_post_weaken _ _ _ _ _ _ P); intros q; subst need0; cbn beta; lia.
    - intros Hr j E; injection E as <-.
      rewrite (held_ref _ _ _ _ cur Hp) by (rewrite R1; lia).
      rewrite R1 by exact Hr; lia. }
  apply bind_inv in H; destruct H as (nx & s2 & Hd & H).
  apply dirlookup_cache_post in Hd; destruct Hd as [P2 Hn].
  destruct nx as [[next o] |].
  - apply bind_inv in H; destruct H as (u3 & s3 & Hp & H).
    apply (iunlockput_cache_post cur s2 u3 s3 (fun _ => 1)) in Hp.
    apply IH in H; destruct H as [P4 Hres].
    assert (P12 : cache_post need0 (fun q => same_slot q next) s s2).
    { refine (cache_post_trans _ _ _ _ _ _ _ _ _ P1 P2 _).
      intros q; pose proof (same_slot_range q cur); subst need0; cbn beta; lia. }
    assert (P123 : cache_post need0
                     (fun q => same_slot q next - same_slot q cur) s s3).
    { refine (cache_post_trans _ _ _ _ _ _ _ _ _ P12 Hp _).
      intros q; pose proof (same_slot_range q cur);
        pose proof (same_slot_range q next); subst need0; cbn beta; lia. }
    split.
    + refine (cache_post_trans _ _ _ _ _ _ _ _ _ P123 P4 _).
      intros q; pose proof (same_slot_range q cur);
        pose proof (same_slot_range q next); subst need0; cbn beta; lia.
    + intros Hr; apply Hres.
      specialize (Hn next o eq_refl).
      rewrite (held_ref _ _ _ _ next Hp) by lia.
      destruct (Nat.eq_dec next cur) as [-> | Hne].
      * rewrite same_slot_refl.
        rewrite (held_ref _ _ _ _ cur P2) by (rewrite R1; lia).
        rewrite R1, same_slot_refl by exact Hr; lia.
      * rewrite same_slot_neq by exact Hne; lia.
  - apply bind_inv in H; destruct H as (u3 & s3 & Hp & H).
    injection H as <- _ <-; split; [| intros _ j E; discriminate].
    apply (iunlockput_cache_post cur s2 u3 s3 (fun _ => 1)) in Hp.
    assert (P12 : cache_post need0 (fun _ => 0) s s2).
    { refine (cache_post_trans _ _ _ _ _ _ _ _ _ P1 P2 _).
      intros q; pose proof (same_slot_range q cur); subst need0; cbn beta; lia. }
    refine (cache_post_trans _ _ _ _ _ _ _ _ _ P12 Hp _).
    intros q; pose proof (same_slot_range q cur); subst need0; cbn beta; lia.
Qed.

Lemma namex_cache_post path b name s r name' s' :
  namex path b name s = Ret ((r, name'), s') ->
  0 < i_ref (icache s (cwd s)) ->
  cache_post (fun _ => 1)
    (fun q => match r with Some j => same_slot q j | None => 0 end) s s' /\
  forall j, r = Some j -> 0 < i_ref (icache s' j).
Proof.
  unfold namex; intros H Hcwd.
  apply bind_inv in H; destruct H as (cur & s0 & H0 & H).
  assert (P0 : cache_post (fun _ => 1) (fun q => same_slot q cur) s s0 /\
               0 < i_ref (icache s0 cur)).
  { destruct (deref path =? slash).
    - apply iget_cache_post in H0; destruct H0 as (P & Hr & _); split; assumption.
    - unfold bind at 1 in H0; unfold get in H0.
      destruct (idup_cache_post _ _ _ _ Hcwd H0) as [-> P]; split; [exact P |].
      rewrite (held_ref _ _ _ _ (cwd s) P) by lia.
      rewrite same_slot_refl; lia. }
  destruct P0 as [P0 Hr0].
  apply namex_loop_cache_post in H; destruct H as [P Hres]; split.
  - refine (cache_post_trans _ _ _ _ _ _ _ _ _ P0 P _).
    intros q; pose proof (same_slot_range q cur); lia.
  - apply Hres; exact Hr0.
Qed.

Lemma namei_cache_post path s r s' :
  namei path s = Ret (r, s') ->
  0 < i_ref (icache s (cwd s)) ->
  cache_post (fun _ => 1)
    (fun q => match r with Some j => same_slot q j | None => 0 end) s s' /\
  forall j, r = Some j -> 0 < i_ref (icache s' j).
Proof.
  unfold namei; intros H.
  apply bind_inv in H; destruct H as ([r0 nm] & s0 & H0 & H).
  injection H as <- <-; cbn [fst]; apply (namex_cache_post _ _ _ _ _ _ _ H0).
Qed.

(** dirlink fails only when the name is there already, and then it only
    takes and drops a reference to the inode found. *)
Lemma dirlink_fails_cache_post dp name inum s r s' :
  dirlink dp name inum s = Ret (r, s') -> r < 0 ->
  cache_post (fun _ => 1) (fun _ => 0) s s'.
Proof.
  unfold dirlink; intros H Hr.
  apply bind_inv in H; destruct H as (f & s0 & H0 & H).
  apply dirlookup_cache_post in H0; destruct H0 as [P0 _].
  destruct f as [[j o] |].
  - apply bind_inv in H; destruct H as (u & s1 & Hp & H).
    injection H as _ <-.
    apply (iput_cache_post j s0 u s1 (fun _ => 1)) in Hp.
    refine (cache_post_trans _ _ _ _ _ _ _ _ _ P0 Hp _).
    intros q; pose proof (same_slot_range q j); lia.
  - unfold bind at 1 in H; unfold get in H.
    apply bind_inv in H; destruct H as (off & s1 & _ & H).
    apply bind_inv in H; destruct H as (u2 & s2 & _ & H).
    apply bind_inv in H; destruct H as (u3 & s3 & _ & H).
    apply bind_inv in H; destruct H as (w & s4 & _ & H).
    destruct (negb (w =? DIRENT_SIZE)); [discriminate |].
    injection H as <- _; lia.
Qed.

(** ** Link counts *)

Lemma to_short_small x : - 2 ^ 15 <= x < 2 ^ 15 -> to_short x = x.
Proof.
  intros H; unfold to_short.
  destruct (x mod 2 ^ 16 <? 2 ^ 15) eqn:E;
    [rewrite Z.ltb_lt in E | rewrite Z.ltb_ge in E];
    Z.div_mod_to_equations; lia.
Qed.

Lemma to_short_inc_dec x : - 2 ^ 15 <= x < 2 ^ 15 -> to_short (to_short (x + 1) - 1) = x.
Proof.
  intros H; destruct (Z.eq_dec x (2 ^ 15 - 1)) as [-> | Hne].
  - reflexivity.
  - rewrite (to_short_small (x + 1)) by lia.
    replace (x + 1 - 1) with x by lia; apply to_short_small; exact H.
Qed.

(** ip->nlink = ...; iupdate(ip): the cache stays coherent with the disk,
    where the link count of the inode of the slot is the new one. *)
Lemma nlink_step x (g : inode -> Z) s u1 s1 u2 s2 :
  set_inode x (fun i => with_nlink (g i) i) s = Ret (u1, s1) ->
  iupdate x s1 = Ret (u2, s2) ->
  sb s2 = sb s /\ cwd s2 = cwd s /\
  (forall q, q <> x -> icache s2 q = icache s q) /\
  icache s2 x = with_nlink (g (icache s x)) (icache s x) /\
  (forall dev inum,
     d_nlink (dinodes s2 dev inum) =
     if (dev =? i_dev (icache s x)) && (inum =? i_inum (icache s x))
     then g (icache s x) else d_nlink (dinodes s dev inum)) /\
  (cache_ok s -> 0 < i_ref (icache s x) -> i_valid (icache s x) <> 0 ->
   cache_ok s2).
Proof.
  intros H1 H2; unfold set_inode, modify in H1; injection H1 as _ <-.
  unfold iupdate, modify in H2; injection H2 as _ <-.
  cbn [sb cwd icache dinodes set_icache set_dinodes]; rewrite !updn_same.
  cbn [i_dev i_inum i_type i_major i_minor i_nlink i_size i_addrs with_nlink].
  assert (Hd : forall dev inum,
            upd (dinodes s) (i_dev (icache s x))
              (upd (dinodes s (i_dev (icache s x))) (i_inum (icache s x))
                 (mkDinode (i_type (icache s x)) (i_major (icache s x))
                    (i_minor (icache s x)) (g (icache s x)) (i_size (icache s x))
                    (i_addrs (icache s x)))) dev inum =
            if (dev =? i_dev (icache s x)) && (inum =? i_inum (icache s x))
            then mkDinode (i_type (icache s x)) (i_major (icache s x))
                    (i_minor (icache s x)) (g (icache s x)) (i_size (icache s x))
                    (i_addrs (icache s x))
            else dinodes s dev inum).
  { intros dev inum; unfold upd.
    destruct (dev =? i_dev (icache s x)) eqn:E1; [| reflexivity].
    apply Z.eqb_eq in E1; subst dev.
    destruct (inum =? i_inum (icache s x)); reflexivity. }
  split; [reflexivity |]; split; [reflexivity |]; split;
    [intros q Hq; apply updn_other; exact Hq |].
  split; [reflexivity |]; split.
  - intros dev inum; rewrite Hd.
    destruct ((dev =? i_dev (icache s x)) && (inum =? i_inum (icache s x)));
      reflexivity.
  - intros C Hact Hval; constructor; cbn [icache dinodes set_icache set_dinodes].
    + intros q Hq; destruct (Nat.eq_dec q x) as [-> | Hne];
        [rewrite updn_same | rewrite updn_other by exact Hne];
        apply (ck_range _ C); exact Hq.
    + intros q r.
      assert (Hid : forall t,
                i_ref (updn (icache s) x (with_nlink (g (icache s x)) (icache s x)) t)
                  = i_ref (icache s t) /\
                i_dev (updn (icache s) x (with_nlink (g (icache s x)) (icache s x)) t)
                  = i_dev (icache s t) /\
                i_inum (updn (icache s) x (with_nlink (g (icache s x)) (icache s x)) t)
                  = i_inum (icache s t)).
      { intros t; destruct (Nat.eq_dec t x) as [-> | Hne];
          [rewrite updn_same | rewrite updn_other by exact Hne];
          repeat split; reflexivity. }
      destruct (Hid q) as (-> & -> & ->); destruct (Hid r) as (-> & -> & ->).
      apply (ck_unique _ C).
    + intros q; rewrite Hd; destruct (Nat.eq_dec q x) as [-> | Hne].
      * rewrite updn_same.
        cbn [i_dev i_inum i_ref i_valid i_type i_nlink with_nlink].
        rewrite !Z.eqb_refl; cbn [andb d_nlink d_type]; intros _ _.
        destruct (ck_coherent _ C x Hact Hval) as (_ & _ & Ht).
        repeat split; [exact Ht].
      * rewrite updn_other by exact Hne; intros Hq Hv.
        destruct ((i_dev (icache s q) =? i_dev (icache s x))
                  && (i_inum (icache s q) =? i_inum (icache s x))) eqn:E.
        -- apply andb_prop in E; destruct E as [E1 E2].
           apply Z.eqb_eq in E1; apply Z.eqb_eq in E2.
           exfalso; apply Hne; apply (ck_unique _ C); assumption.
        -- apply (ck_coherent _ C); assumption.
Qed.

(** The label bad of sys_link takes one off the link count of the inode of
    slot [ip], in the cache and on disk. *)
Lemma sys_link_bad_restores ip t r s' :
  cache_ok t -> sys_link_bad ip t = Ret (r, s') ->
  r = -1 /\ cache_ok s' /\
  forall dev inum,
    d_nlink (dinodes s' dev inum) =
    if (dev =? i_dev (icache t ip)) && (inum =? i_inum (icache t ip))
    then to_short (d_nlink (dinodes t dev inum) - 1)
    else d_nlink (dinodes t dev inum).
Proof.
  intros C H; unfold sys_link_bad in H.
  apply bind_inv in H; destruct H as (u1 & t1 & Hl & H).
  apply bind_inv in H; destruct H as (u2 & t2 & Hs & H).
  apply bind_inv in H; destruct H as (u3 & t3 & Hu & H).
  apply bind_inv in H; destruct H as (u4 & t4 & Hp & H).
  injection H as <- <-; split; [reflexivity |].
  destruct (ilock_cache_post ip t u1 t1 (fun _ => 1) Hl) as (_ & _ & C1 & _).
  destruct (C1 C) as [C1' _].
  destruct (ilock_spec _ _ _ _ Hl)
    as (Hr & _ & _ & _ & Hd & _ & _ & _ & Hdev & Hinum & Href & _ & Hv & _).
  destruct (ck_coherent _ C1' ip ltac:(lia) Hv) as (Hn & _).
  destruct (nlink_step ip (fun i => to_short (i_nlink i - 1)) _ _ _ _ _ Hs Hu)
    as (_ & _ & _ & _ & D3 & C3).
  specialize (C3 C1' ltac:(lia) Hv).
  destruct (iunlockput_cache_post ip t3 u4 t4 (fun _ => 1) Hp) as (_ & _ & C4 & _).
  destruct (C4 C3) as [C4' D4]; split; [exact C4' |].
  intros dev inum; rewrite D4, D3; cbn beta; rewrite Hdev, Hinum, Hd.
  destruct ((dev =? i_dev (icache t ip)) && (inum =? i_inum (icache t ip))) eqn:E;
    [| reflexivity].
  apply andb_prop in E; destruct E as [E1 E2].
  apply Z.eqb_eq in E1; apply Z.eqb_eq in E2; subst dev inum.
  rewrite Hn, Hdev, Hinum, Hd; reflexivity.
Qed.

Lemma iunlockput_returns x s :
  i_locked (icache s x) = true -> 1 <= i_ref (icache s x) ->
  i_nlink (icache s x) <> 0 ->
  exists s', iunlockput x s = Ret (tt, s').
Proof.
  intros Hl Hr Hn; unfold iunlockput, iunlock.
  unfold bind at 1; unfold bind at 1; unfold get; rewrite Hl; cbn [negb orb].
  destruct (i_ref (icache s x) <? 1) eqn:E; [rewrite Z.ltb_lt in E; lia |].
  unfold releasesleep, set_inode, modify.
  unfold iput; unfold bind at 1; unfold get.
  cbn [icache set_icache]; rewrite updn_same.
  cbn [i_ref i_valid i_nlink with_locked].
  apply Z.eqb_neq in Hn; rewrite Hn, andb_false_r.
  unfold bind, ret, modify; eexists; reflexivity.
Qed.

(** C8. sys_link(old, new) on a coherent inode cache. When old names a
    directory every result of the call is -1, and the call does return -1
    when the link count of the directory is not 0. Whenever the call returns
    -1 (a string that cannot be fetched, old not found, old a directory, no
    parent for new, another device, or the name new there already), the link
    count on disk of every inode, that of the inode named by old among them,
    is what it was before the call, and the cache is coherent again. *)
Theorem sys_link_failure_atomic (s : fs) (old new : option (list Z)) :
  cache_ok s -> 0 < i_ref (icache s (cwd s)) ->
  (forall dev inum, - 2 ^ 15 <= d_nlink (dinodes s dev inum) < 2 ^ 15) ->
  (forall o n ip s1 s2, old = Some o -> new = Some n ->
     namei o s = Ret (Some ip, s1) -> ilock ip s1 = Ret (tt, s2) ->
     i_type (icache s2 ip) = T_DIR ->
     (forall r s', sys_link old new s = Ret (r, s') -> r = -1) /\
     (i_nlink (icache s2 ip) <> 0 ->
      exists s', sys_link old new s = Ret (-1, s'))) /\
  (forall s', sys_link old new s = Ret (-1, s') ->
     cache_ok s' /\
     forall dev inum, d_nlink (dinodes s' dev inum) = d_nlink (dinodes s dev inum)).
Proof.
  intros C Hcwd Hshort; split.
  - intros o n ip s1 s2 -> -> Hn Hl Ht.
    assert (Hsys : sys_link (Some o) (Some n) s = (iunlockput ip ;;; ret (-1)) s2).
    { unfold sys_link; rewrite (bind_ret _ _ _ _ _ Hn), (bind_ret _ _ _ _ _ Hl).
      unfold bind at 1; unfold get; rewrite Ht, Z.eqb_refl; reflexivity. }
    rewrite Hsys.
    destruct (ilock_spec _ _ _ _ Hl)
      as (Hr & _ & _ & _ & _ & _ & _ & _ & _ & _ & Href & Hlk & _).
    split.
    + intros r s' H; apply bind_inv in H; destruct H as (u & t & _ & H).
      injection H as <- _; reflexivity.
    + intros Hnl.
      destruct (iunlockput_returns ip s2 Hlk ltac:(lia) Hnl) as (t & Hp).
      exists t; rewrite (bind_ret _ _ _ _ _ Hp); reflexivity.
  - intros s' H.
    assert (Hsame : cache_ok s /\
              forall dev inum, d_nlink (dinodes s dev inum) = d_nlink (dinodes s dev inum))
      by (split; [exact C | reflexivity]).
    destruct old as [o |]; [| injection H as <-; exact Hsame].
    destruct new as [n |]; [| injection H as <-; exact Hsame].
    clear Hsame; unfold sys_link in H.
    apply bind_inv in H; destruct H as (r0 & s1 & Hn & H).
    apply namei_cache_post in Hn; [| exact Hcwd]; destruct Hn as [P1 Hpos].
    destruct r0 as [ip |];
      [| injection H as <-; destruct P1 as (_ & _ & P1 & _); apply P1; exact C].
    specialize (Hpos ip eq_refl).
    apply bind_inv in H; destruct H as (u2 & s2 & Hl & H).
    unfold bind at 1 in H; unfold get in H.
    assert (P2 := ilock_cache_post ip s1 u2 s2 (fun _ => 1) Hl).
    destruct (ilock_spec _ _ _ _ Hl)
      as (Hr & _ & _ & _ & _ & _ & _ & _ & _ & _ & Href2 & _ & Hv2 & _).
    assert (P12 : cache_post (fun _ => 1) (fun q => same_slot q ip) s s2).
    { refine (cache_post_trans _ _ _ _ _ _ _ _ _ P1 P2 _).
      intros q; pose proof (same_slot_range q ip); lia. }
    destruct (P12) as (_ & Hcw2 & P12c & _); destruct (P12c C) as [C2 D2].
    destruct (i_type (icache s2 ip) =? T_DIR).
    { apply bind_inv in H; destruct H as (u3 & s3 & Hp & H); injection H as <-.
      destruct (iunlockput_cache_post ip s2 u3 s3 (fun _ => 1) Hp) as (_ & _ & C3 & _).
      destruct (C3 C2) as [C3' D3]; split; [exact C3' |].
      intros dev inum; rewrite D3; apply D2. }
    apply bind_inv in H; destruct H as (u3 & s3 & Hs3 & H).
    apply bind_inv in H; destruct H as (u4 & s4 & Hs4 & H).
    apply bind_inv in H; destruct H as (u5 & s5 & Hs5 & H).
    destruct (nlink_step ip (fun i => to_short (i_nlink i + 1)) _ _ _ _ _ Hs3 Hs4)
      as (_ & Hcw4 & Ho4 & Hx4 & D4 & C4).
    specialize (C4 C2 ltac:(lia) Hv2).
    destruct (ck_coherent _ C2 ip ltac:(lia) Hv2) as (Hn2 & _).
    assert (P5 := iunlock_cache_post ip s4 u5 s5 (fun _ => 1) Hs5).
    assert (Hid4 : forall q, i_ref (icache s4 q) = i_ref (icache s2 q) /\
                            i_dev (icache s4 q) = i_dev (icache s2 q) /\
                            i_inum (icache s4 q) = i_inum (icache s2 q)).
    { intros q; destruct (Nat.eq_dec q ip) as [-> | Hne];
        [rewrite Hx4 | rewrite (Ho4 q Hne)]; repeat split; reflexivity. }
    assert (Hcwd5 : 0 < i_ref (icache s5 (cwd s5))).
    { destruct P5 as (_ & Hcw5 & _ & P5h).
      rewrite Hcw5, Hcw4, Hcw2.
      pose proof (held_ref _ _ _ _ (cwd s) P12 ltac:(cbn beta; lia)) as E2.
      pose proof (same_slot_range (cwd s) ip).
      destruct (Hid4 (cwd s)) as (E4 & _).
      cbn beta in E2.
      destruct (P5h (cwd s) ltac:(cbn beta; lia)) as (_ & _ & E5); lia. }
    assert (Htail : exists t, cache_post (fun _ => 1) (fun _ => 0) s5 t /\
                              sys_link_bad ip t = Ret (-1, s')).
    { apply bind_inv in H; destruct H as ([r' nm] & s6 & Hnp & H).
      unfold nameiparent in Hnp.
      apply namex_cache_post in Hnp; [| exact Hcwd5]; destruct Hnp as [P6 _].
      destruct r' as [dp |]; [| exists s6; split; [exact P6 | exact H]].
      apply bind_inv in H; destruct H as (u7 & s7 & Hl7 & H).
      assert (P7 := ilock_cache_post dp s6 u7 s7 (fun _ => 1) Hl7).
      assert (P67 : cache_post (fun _ => 1) (fun q => same_slot q dp) s5 s7).
      { refine (cache_post_trans _ _ _ _ _ _ _ _ _ P6 P7 _).
        intros q; pose proof (same_slot_range q dp); lia. }
      unfold bind at 1 in H.
      destruct (negb (i_dev (icache s7 dp) =? i_dev (icache s7 ip))).
      - apply bind_inv in H; destruct H as (u8 & s8 & Hp8 & H).
        apply (iunlockput_cache_post dp s7 u8 s8 (fun _ => 1)) in Hp8.
        exists s8; split; [| exact H].
        refine (cache_post_trans _ _ _ _ _ _ _ _ _ P67 Hp8 _).
        intros q; pose proof (same_slot_range q dp); lia.
      - apply bind_inv in H; destruct H as (r8 & s8 & Hdl & H).
        destruct (r8 <? 0) eqn:E8.
        + apply Z.ltb_lt in E8.
          apply (dirlink_fails_cache_post _ _ _ _ _ _ Hdl) in E8.
          apply bind_inv in H; destruct H as (u9 & s9 & Hp9 & H).
          apply (iunlockput_cache_post dp s8 u9 s9 (fun _ => 1)) in Hp9.
          exists s9; split; [| exact H].
          assert (P68 : cache_post (fun _ => 1) (fun q => same_slot q dp) s5 s8).
          { refine (cache_post_trans _ _ _ _ _ _ _ _ _ P67 E8 _).
            intros q; pose proof (same_slot_range q dp); lia. }
          refine (cache_post_trans _ _ _ _ _ _ _ _ _ P68 Hp9 _).
          intros q; pose proof (same_slot_range q dp); lia.
        + apply bind_inv in H; destruct H as (u9 & s9 & _ & H).
          apply bind_inv in H; destruct H as (u10 & s10 & _ & H).
          discriminate H. }
    destruct Htail as (t & Pt & Hbad).
    assert (P4t : cache_post (fun _ => 1) (fun _ => 0) s4 t).
    { refine (cache_post_trans _ _ _ _ _ _ _ _ _ P5 Pt _); intros q; lia. }
    destruct P4t as (_ & _ & Ptc & Pth); destruct (Ptc C4) as [Ct Dt].
    destruct (Hid4 ip) as (E1 & E2 & E3).
    destruct (Pth ip ltac:(cbn beta; lia)) as (F1 & F2 & _).
    destruct (sys_link_bad_restores ip t _ s' Ct Hbad) as (_ & Cs' & Ds').
    split; [exact Cs' |].
    intros dev inum; rewrite Ds', F1, F2, E2, E3, Dt, D4; cbn beta.
    destruct ((dev =? i_dev (icache s2 ip)) && (inum =? i_inum (icache s2 ip))) eqn:E;
      [| apply D2].
    apply andb_prop in E; destruct E as [G1 G2].
    apply Z.eqb_eq in G1; apply Z.eqb_eq in G2; subst dev inum.
    rewrite Hn2, D2; apply to_short_inc_dec, Hshort.
Qed.

(** ** Blocks of other files *)

Lemma reserved_step s ip p0 a s' b :
  step_post s ip p0 a s' ->
  reserved s (i_dev (icache s ip)) b -> reserved s' (i_dev (icache s ip)) b.
Proof.
  intros (_ & _ & _ & _ & _ & (F1 & _) & _ & Hm & _) [H | [H | H]].
  - left; exact H.
  - right; left; rewrite F1; exact H.
  - destruct (Z_lt_le_dec b 0) as [H0 | H0]; [left; exact H0 |].
    destruct (Z_lt_le_dec b (sb_size (sb s))) as [H1 | H1];
      [| right; left; rewrite F1; exact H1].
    right; right; apply Hm; [lia | exact H].
Qed.

Lemma foreign_step s ip p0 a s' b :
  step_post s ip p0 a s' -> foreign s ip b -> foreign s' ip b.
Proof.
  intros Hs (R & Hb & Hp); pose proof (reserved_step _ _ _ _ _ b Hs R) as R'.
  destruct Hs as (_ & _ & _ & Hk & _ & (F1 & _ & _ & _ & _ & _ & F7 & _) & _ & _ & Hn).
  unfold foreign; rewrite F1, F7; split; [exact R' |]; split; [exact Hb |].
  intros p Hv E.
  destruct (Z.eq_dec (ref_at s ip p) 0) as [Hz | Hnz].
  - destruct (Z.eq_dec (ref_at s' ip p) 0) as [Hz' | Hnz'].
    + apply (Hp p Hv); congruence.
    + destruct (Hn p Hv Hz Hnz') as (Hr & Hfree & _).
      rewrite E in Hr, Hfree.
      destruct R as [R | [R | R]]; [lia | lia | congruence].
  - apply (Hp p Hv); rewrite <- (Hk p Hv Hnz); exact E.
Qed.

Lemma balloc_kept dev s a s' b :
  balloc dev s = Ret (a, s') ->
  reserved s dev b -> (forall x, 0 <= x < sb_size (sb s) -> b <> BBLOCK x (sb s)) ->
  forall dev' o, disk s' dev' b o = disk s dev' b o.
Proof.
  intros H R Hb dev' o; apply balloc_spec in H; destruct H as (Ha & Hfree & _ & ->).
  apply disk_alloc_other; [| apply Hb; exact Ha].
  intros ->; destruct R as [R | [R | R]]; [lia | lia | congruence].
Qed.

Lemma bmap_slot_kept ip dev k s a s' b :
  bmap_slot ip dev k s = Ret (a, s') ->
  reserved s dev b -> (forall x, 0 <= x < sb_size (sb s) -> b <> BBLOCK x (sb s)) ->
  forall dev' o, disk s' dev' b o = disk s dev' b o.
Proof.
  unfold bmap_slot; unfold bind at 1; unfold get.
  destruct (i_addrs (icache s ip) k =? 0).
  - intros H R Hb dev' o; apply bind_inv in H; destruct H as (a' & s1 & Hal & H).
    unfold bind, set_addr, modify, ret in H; injection H as _ <-.
    cbn [store_addr disk set_icache]; apply (balloc_kept _ _ _ _ _ Hal R Hb).
  - intros H _ _ dev' o; injection H as _ <-; reflexivity.
Qed.

Lemma bmap_entry_kept dev blk i s a s' b :
  bmap_entry dev blk i s = Ret (a, s') ->
  reserved s dev b -> (forall x, 0 <= x < sb_size (sb s) -> b <> BBLOCK x (sb s)) ->
  b <> blk ->
  forall dev' o, disk s' dev' b o = disk s dev' b o.
Proof.
  unfold bmap_entry; intros H R Hb Hne dev' o.
  apply bind_inv in H; destruct H as (e & s0 & He & H).
  unfold read_entry in He.
  destruct ((0 <=? i) && (i <? NINDIRECT)) eqn:Ei; [| discriminate].
  injection He as <- <-.
  destruct (u32_at s dev blk i =? 0).
  - apply bind_inv in H; destruct H as (a' & s1 & Hal & H).
    apply bind_inv in H; destruct H as (u & s2 & Hw & H).
    injection H as _ <-.
    unfold write_entry in Hw; rewrite Ei in Hw; injection Hw as _ <-.
    rewrite disk_put_u32_other by (right; left; exact Hne).
    apply (balloc_kept _ _ _ _ _ Hal R Hb).
  - injection H as _ <-; reflexivity.
Qed.

(** bmap on the inode in slot [ip] leaves the blocks of other files alone. *)
Lemma bmap_foreign s ip bn a s' b :
  0 <= NDIRECT -> inode_wf s ip -> 0 <= bn < MAXFILE ->
  bmap ip bn s = Ret (a, s') -> foreign s ip b ->
  foreign s' ip b /\ forall dev' o, disk s' dev' b o = disk s dev' b o.
Proof.
  intros Hnd W Hbn H Hf; split.
  { apply (foreign_step _ _ _ _ _ _ (bmap_step s ip bn a s' Hnd W Hbn H) Hf). }
  pose proof (data_pos_valid bn Hnd Hbn) as Hv; revert Hv H.
  unfold bmap, data_pos; unfold bind at 1; unfold get.
  destruct Hf as (R & Hb & Hp).
  destruct (bn <? NDIRECT) eqn:E1.
  - intros Hv H; apply (bmap_slot_kept _ _ _ _ _ _ _ H R Hb).
  - destruct (bn - NDIRECT <? NINDIRECT) eqn:E2.
    + intros Hv H; apply bind_inv in H; destruct H as (ind & s1 & H1 & H2).
      pose proof (bmap_slot_kept _ _ _ _ _ _ _ H1 R Hb) as K1.
      apply (bmap_slot_step s ip NDIRECT PInd) in H1; [| exact W | exact I | reflexivity].
      pose proof (foreign_step _ _ _ _ _ b H1 (conj R (conj Hb Hp))) as (R1 & Hb1 & Hp1).
      destruct H1 as (_ & Hri & _ & _ & _ & (_ & _ & _ & _ & _ & _ & Hdev & _) & _).
      rewrite Hdev in R1.
      intros dev' o; rewrite <- K1.
      apply (bmap_entry_kept _ _ _ _ _ _ _ H2 R1 Hb1).
      rewrite <- Hri; intros E; apply (Hp1 PInd I); symmetry; exact E.
    + intros Hv H; apply bind_inv in H; destruct H as (dbl & s1 & H1 & H2).
      pose proof (bmap_slot_kept _ _ _ _ _ _ _ H1 R Hb) as K1.
      apply (bmap_slot_step s ip (NDIRECT + 1) PDbl) in H1;
        [| exact W | exact I | reflexivity].
      pose proof (foreign_step _ _ _ _ _ b H1 (conj R (conj Hb Hp))) as (R1 & Hb1 & Hp1).
      pose proof H1 as (Hd0 & Hrd & W1 & _ & _ & (_ & _ & _ & _ & _ & _ & Hdev & _) & _ & _ & _).
      apply bind_inv in H2; destruct H2 as (sg & s2 & H2 & H3).
      set (j := (bn - NDIRECT - NINDIRECT) / NINDIRECT) in *.
      set (k := (bn - NDIRECT - NINDIRECT) mod NINDIRECT) in *.
      assert (K2 : forall dev' o, disk s2 dev' b o = disk s1 dev' b o).
      { apply (bmap_entry_kept _ _ _ _ _ _ _ H2); [rewrite <- Hdev; exact R1 | exact Hb1 |].
        rewrite <- Hrd; intros E; apply (Hp1 PDbl I); symmetry; exact E. }
      rewrite <- Hdev, <- Hrd in H2.
      apply (bmap_entry_step s1 ip PDbl _ (PDblE j)) in H2;
        [| exact W1 | exact (proj1 Hv) | reflexivity | rewrite Hrd; exact Hd0].
      pose proof (foreign_step _ _ _ _ _ b H2 (conj R1 (conj Hb1 Hp1))) as (R2 & Hb2 & Hp2).
      pose proof H2 as (Hs0 & Hrs & W2 & Hk2 & _ & (_ & _ & _ & _ & _ & _ & Hdev2 & _) & _ & _ & _).
      apply bind_inv in H3; destruct H3 as (sg' & s2' & H3 & H4).
      assert (Hd2 : ref_at s2 ip PDbl = dbl).
      { rewrite (Hk2 PDbl I); [exact Hrd | rewrite Hrd; exact Hd0]. }
      rewrite read_entry_in in H3 by exact (proj1 Hv).
      injection H3 as <- <-.
      assert (Hsg : u32_at s2 (i_dev (icache s ip)) dbl j = ref_at s2 ip (PDblE j)).
      { rewrite (ref_at_child s2 ip (PDblE j) PDbl j eq_refl), Hd2.
        rewrite if_zero_val by exact Hd0; congruence. }
      rewrite Hsg in H4.
      intros dev' o; rewrite <- K1, <- K2.
      apply (bmap_entry_kept _ _ _ _ _ _ _ H4);
        [rewrite <- Hdev, <- Hdev2; exact R2 | exact Hb2 |].
      intros E; apply (Hp2 (PDblE j) (proj1 Hv)); symmetry; exact E.
Qed.

Lemma foreign_same s s' ip b :
  sb s' = sb s -> disk s' = disk s ->
  i_dev (icache s' ip) = i_dev (icache s ip) ->
  i_addrs (icache s' ip) = i_addrs (icache s ip) ->
  foreign s ip b -> foreign s' ip b.
Proof.
  intros H1 H2 H3 H4 (R & Hb & Hp).
  destruct (same_blocks s s' ip H1 H2 H3 H4) as (Href & _ & _).
  unfold foreign, reserved, block_used; rewrite H1, H2, H3.
  split; [exact R |]; split; [exact Hb |].
  intros p Hv; rewrite Href; apply Hp; exact Hv.
Qed.

(** One round of the loop of writei. *)
Lemma write_span_foreign s ip user src off m data addr s1 r s2 b :
  0 <= NDIRECT -> inode_wf s ip ->
  0 <= off -> 1 <= m <= BSIZE - off mod BSIZE -> off + m <= MAXFILE * BSIZE ->
  (forall o, off <= o < off + m -> mem_byte s user (src + (o - off)) = Some (data o)) ->
  bmap ip (off / BSIZE) s = Ret (addr, s1) ->
  either_copyin (i_dev (icache s1 ip)) addr (off mod BSIZE) user src m s1 = Ret (r, s2) ->
  foreign s ip b ->
  foreign s2 ip b /\
  forall o, disk s2 (i_dev (icache s ip)) b o = disk s (i_dev (icache s ip)) b o.
Proof.
  intros Hnd W Hoff Hm Hend Hmem Hb Hc Hf.
  assert (Hbn : 0 <= off / BSIZE < MAXFILE) by (apply (block_in_file off m); lia).
  pose proof (data_pos_valid _ Hnd Hbn) as Hv.
  destruct (bmap_foreign s ip _ addr s1 b Hnd W Hbn Hb Hf) as [(R1 & Hb1 & Hp1) K1].
  apply (bmap_step s ip _ addr s1 Hnd W Hbn) in Hb.
  destruct Hb as (Ha0 & Hra & W1 & _ & _ &
                  (F1 & F2 & F3 & F4 & F5 & F6 & F7 & F8) & _ & _ & _).
  assert (Hm1 : forall a, mem_byte s1 user a = mem_byte s user a)
    by (intros a; unfold mem_byte; rewrite F4, F5; reflexivity).
  destruct (either_copyin_ok (i_dev (icache s1 ip)) addr (off mod BSIZE) user src m s1)
    as (s2' & Hc' & G1 & G2 & G3 & G4 & G5 & G6 & Hother & Hblk).
  { intros i Hi; rewrite Hm1.
    replace (src + i) with (src + (off + i - off)) by lia.
    rewrite (Hmem (off + i)) by lia; discriminate. }
  rewrite Hc' in Hc; injection Hc as <- <-.
  destruct (data_write_refs s1 s2' ip (data_pos (off / BSIZE)) W1 Hv
              (data_pos_is_data _) ltac:(rewrite Hra; exact Ha0) G3 G1) as [Href2 W2].
  { intros b' o Hne; apply Hother; rewrite <- Hra; exact Hne. }
  assert (Hba : b <> addr).
  { rewrite <- Hra; intros E; apply (Hp1 _ Hv); symmetry; exact E. }
  split.
  - unfold foreign, reserved; rewrite G3, G1; split; [| split; [exact Hb1 |]].
    + destruct R1 as [R1 | [R1 | R1]]; [left; exact R1 | right; left; exact R1 |].
      destruct (Z_lt_le_dec b 0) as [H0 | H0]; [left; exact H0 |].
      destruct (Z_lt_le_dec b (sb_size (sb s1))) as [Hlt | Hge];
        [| right; left; exact Hge].
      right; right; unfold block_used in *; rewrite G1, Hother; [exact R1 |].
      destruct (wf_bitmap _ _ W1 b ltac:(lia)) as [_ Hbm].
      intros E; apply (Hbm _ Hv); [rewrite Hra; exact Ha0 | rewrite Hra; symmetry; exact E].
    + intros p Hp; rewrite (Href2 p Hp); apply Hp1; exact Hp.
  - intros o; rewrite <- F7, (Hother b o Hba), F7; apply K1.
Qed.

Lemma writei_loop_foreign fuel : forall ip user n tot off src s r s' data b,
  0 <= NDIRECT -> MAXFILE * BSIZE < 2 ^ 32 -> inode_wf s ip ->
  0 <= tot <= n -> n < 2 ^ 32 ->
  0 <= off -> off + (n - tot) <= MAXFILE * BSIZE ->
  0 <= src -> src + (n - tot) <= 2 ^ 64 ->
  (forall o, off <= o < off + (n - tot) ->
     mem_byte s user (src + (o - off)) = Some (data o)) ->
  writei_loop fuel ip user n tot off src s = Ret (r, s') ->
  foreign s ip b ->
  foreign s' ip b /\
  forall o, disk s' (i_dev (icache s ip)) b o = disk s (i_dev (icache s ip)) b o.
Proof.
  induction fuel as [| fuel IH];
    intros ip user n tot off src s r s' data b Hnd Hmax W Htot Hn Hoff Hend Hsrc
           Hsend Hmem;
    cbn [writei_loop]; destruct (tot <? n) eqn:E; try discriminate.
  - intros H Hf; injection H as _ <-; split; [exact Hf | reflexivity].
  - rewrite Z.ltb_lt in E.
    destruct (span_len n tot off Hoff E) as [Hm1 Hm2].
    set (m := Z.min (n - tot) (BSIZE - off mod BSIZE)) in *.
    intros H Hf; apply bind_inv in H; destruct H as (addr & s1 & Hb & H).
    unfold bind at 1 in H; unfold get in H.
    apply bind_inv in H; destruct H as (rc & s2 & Hc & H).
    destruct (write_span_foreign s ip user src off m data addr s1 rc s2 b) as [Hf2 K2];
      try assumption; try lia.
    { intros o Ho; apply Hmem; lia. }
    destruct (write_span s ip user src off m data addr s1 rc s2) as [-> Hwp];
      try assumption; try lia.
    { intros o Ho; apply Hmem; lia. }
    replace (0 =? -1) with false in H by reflexivity.
    rewrite (wrap32_small (tot + m)), (wrap32_small (off + m)) in H by lia.
    pose proof Hwp as (W2 & (F1 & F2 & F3 & F4 & F5 & F6 & F7 & F8) & _ & _).
    assert (Hw : 0 <= wrap64 (src + m) /\
                 (tot + m < n -> wrap64 (src + m) = src + m)).
    { unfold wrap64; split; [apply Z.mod_pos_bound; lia |].
      intros Hlt; apply Z.mod_small; lia. }
    destruct Hw as [Hw1 Hw2].
    apply (IH ip user n (tot + m) (off + m) (wrap64 (src + m)) s2 r s' data b) in H;
      try assumption; try lia.
    + destruct H as [Hf' K']; split; [exact Hf' |].
      intros o; rewrite <- F7, K', F7; apply K2.
    + destruct (Z_lt_le_dec (tot + m) n) as [Hlt | Hge];
        [rewrite (Hw2 Hlt); lia |].
      pose proof (Z.mod_pos_bound (src + m) (2 ^ 64) ltac:(lia)) as Hbd.
      unfold wrap64; lia.
    + intros o Ho; rewrite (Hw2 ltac:(lia)).
      unfold mem_byte; rewrite F4, F5.
      replace (src + m + (o - (off + m))) with (src + (o - off)) by lia.
      apply Hmem; lia.
  - intros H Hf; injection H as _ <-; split; [exact Hf | reflexivity].
Qed.

Lemma quiet_writei_loop fuel ip user n : forall tot off src,
  preserves quiet (writei_loop fuel ip user n tot off src).
Proof.
  induction fuel as [| fuel IH]; intros tot off src; cbn [writei_loop];
    repeat quiet_step;
    first [apply quiet_bmap | apply quiet_either_copyin | apply IH].
Qed.

(** What writei on the inode in slot [ip] does to the blocks of other files,
    to the administration of the inode and to the inodes on disk. *)
Lemma writei_effect s ip user src off n r s1 :
  0 <= NDIRECT -> MAXFILE * BSIZE < 2 ^ 31 -> inode_wf s ip ->
  0 <= off <= i_size (icache s ip) -> 0 <= n -> off + n <= MAXFILE * BSIZE ->
  0 <= src -> src + n <= 2 ^ 64 ->
  (forall i, 0 <= i < n -> mem_byte s user (src + i) <> None) ->
  writei ip user src off n s = Ret (r, s1) ->
  (forall b, foreign s ip b ->
     foreign s1 ip b /\
     forall o, disk s1 (i_dev (icache s ip)) b o = disk s (i_dev (icache s ip)) b o) /\
  adm (icache s1 ip) = adm (icache s ip) /\ cwd s1 = cwd s /\
  (forall dev inum,
     dinodes s1 dev inum = dinodes s dev inum \/
     (dev = i_dev (icache s ip) /\ inum = i_inum (icache s ip) /\
      d_nlink (dinodes s1 dev inum) = i_nlink (icache s ip) /\
      d_type (dinodes s1 dev inum) = i_type (icache s ip))).
Proof.
  intros Hnd Hmax W Hoff Hn Hend Hsrc Hsend Hread.
  set (data := fun o => match mem_byte s user (src + (o - off)) with
                        | Some v => v
                        | None => 0
                        end).
  assert (Hmem : forall o, off <= o < off + n ->
            mem_byte s user (src + (o - off)) = Some (data o)).
  { intros o Ho; subst data; cbn beta.
    pose proof (Hread (o - off) ltac:(lia)) as Hr.
    destruct (mem_byte s user (src + (o - off))); [reflexivity | contradiction]. }
  unfold writei; unfold bind at 1; unfold get.
  assert (Hw : wrap32 (off + n) = off + n) by (apply wrap32_small; lia).
  rewrite Hw.
  destruct (off >? i_size (icache s ip)) eqn:E1;
    [rewrite Z.gtb_ltb, Z.ltb_lt in E1; lia |].
  destruct (off + n <? off) eqn:E2; [rewrite Z.ltb_lt in E2; lia |].
  destruct (off + n >? MAXFILE * BSIZE) eqn:E3;
    [rewrite Z.gtb_ltb, Z.ltb_lt in E3; lia |].
  cbn [orb].
  intros H; apply bind_inv in H; destruct H as (rl & s' & Hl & H).
  pose proof (quiet_writei_loop _ _ _ _ _ _ _ _ _ _ Hl) as (Q1 & Q2 & Q3 & Q4).
  assert (Hfor : forall b, foreign s ip b ->
            foreign s' ip b /\
            forall o, disk s' (i_dev (icache s ip)) b o = disk s (i_dev (icache s ip)) b o).
  { intros b Hf.
    apply (writei_loop_foreign (Z.to_nat n) ip user n 0 off src s rl s' data b);
      try assumption;
      try lia; try (rewrite Z.sub_0_r; assumption). }
  apply (writei_loop_ok _ ip user n 0 off src s rl s' data) in Hl;
    try assumption; try lia;
    try (rewrite Z.sub_0_r; assumption).
  rewrite Z.sub_0_r in Hl; destruct Hl as [-> Hwp]; cbn [snd] in H.
  apply bind_inv in H; destruct H as (u & sA & H1 & H2).
  unfold ret in H2; injection H2 as _ <-.
  assert (Hfin : sb sA = sb s' /\ disk sA = disk s' /\ cwd sA = cwd s' /\
                 i_dev (icache sA ip) = i_dev (icache s' ip) /\
                 i_addrs (icache sA ip) = i_addrs (icache s' ip) /\
                 adm (icache sA ip) = adm (icache s' ip) /\
                 (forall dev inum,
                    dinodes sA dev inum = dinodes s' dev inum \/
                    (dev = i_dev (icache s' ip) /\ inum = i_inum (icache s' ip) /\
                     d_nlink (dinodes sA dev inum) = i_nlink (icache s' ip) /\
                     d_type (dinodes sA dev inum) = i_type (icache s' ip)))).
  { destruct (n >? 0) eqn:En.
    - unfold bind at 1 in H1; unfold get in H1.
      apply bind_inv in H1; destruct H1 as (u2 & sB & H3 & H4).
      assert (HB : sb sB = sb s' /\ disk sB = disk s' /\ cwd sB = cwd s' /\
                   dinodes sB = dinodes s' /\
                   i_dev (icache sB ip) = i_dev (icache s' ip) /\
                   i_inum (icache sB ip) = i_inum (icache s' ip) /\
                   i_addrs (icache sB ip) = i_addrs (icache s' ip) /\
                   adm (icache sB ip) = adm (icache s' ip)).
      { destruct (off + n >? i_size (icache s' ip)).
        - unfold set_inode, modify in H3; injection H3 as _ <-.
          cbn [icache set_icache sb disk cwd dinodes]; rewrite updn_same.
          repeat split; reflexivity.
        - injection H3 as _ <-; repeat split; reflexivity. }
      destruct HB as (B1 & B2 & B3 & B4 & B5 & B6 & B7 & B8).
      unfold iupdate, modify in H4; injection H4 as _ <-.
      cbn [sb disk cwd icache dinodes set_dinodes].
      repeat split; try assumption.
      intros dev inum; unfold upd.
      destruct (dev =? i_dev (icache sB ip)) eqn:D1; [| left; rewrite B4; reflexivity].
      apply Z.eqb_eq in D1; subst dev.
      destruct (inum =? i_inum (icache sB ip)) eqn:D2; [| left; rewrite B4; reflexivity].
      apply Z.eqb_eq in D2; right.
      destruct (adm_eq _ _ B8) as (_ & _ & _ & _ & _ & A6 & A9).
      cbn [d_nlink d_type]; repeat split; congruence.
    - injection H1 as _ <-; repeat split; try reflexivity.
      intros dev inum; left; reflexivity. }
  destruct Hfin as (G1 & G2 & G3 & G4 & G5 & G6 & G7).
  destruct (adm_eq _ _ (Q4 ip)) as (A1 & A2 & _ & _ & _ & A6 & A9).
  split; [| split; [rewrite G6; apply Q4 | split; [congruence |]]].
  - intros b Hf; destruct (Hfor b Hf) as [Hf' K]; split.
    + apply (foreign_same s' sA ip b G1 G2 G4 G5 Hf').
    + intros o; rewrite G2; apply K.
  - intros dev inum; destruct (G7 dev inum) as [E | (D1 & D2 & D3 & D4)].
    + left; rewrite E, Q2; reflexivity.
    + right; repeat split; congruence.
Qed.

(** A file whose inode and whose blocks are left alone keeps its block map,
    its contents and the invariant of the allocator. *)
Lemma ref_at_kept s s' y :
  icache s' y = icache s y ->
  (forall p, valid_pos p -> ref_at s y p <> 0 ->
     forall o, disk s' (i_dev (icache s y)) (ref_at s y p) o
               = disk s (i_dev (icache s y)) (ref_at s y p) o) ->
  forall p, valid_pos p -> ref_at s' y p = ref_at s y p.
Proof.
  intros Hi Hk.
  assert (HInd : i_addrs (icache s y) NDIRECT <> 0 -> forall j,
            u32_at s' (i_dev (icache s y)) (i_addrs (icache s y) NDIRECT) j
            = u32_at s (i_dev (icache s y)) (i_addrs (icache s y) NDIRECT) j).
  { intros Hnz j; apply u32_ext; intros o; apply (Hk PInd I); exact Hnz. }
  assert (HDbl : i_addrs (icache s y) (NDIRECT + 1) <> 0 -> forall j,
            u32_at s' (i_dev (icache s y)) (i_addrs (icache s y) (NDIRECT + 1)) j
            = u32_at s (i_dev (icache s y)) (i_addrs (icache s y) (NDIRECT + 1)) j).
  { intros Hnz j; apply u32_ext; intros o; apply (Hk PDbl I); exact Hnz. }
  intros p Hv; destruct p as [k | | j | | j | j k]; cbn [ref_at]; rewrite Hi;
    try reflexivity.
  - destruct (i_addrs (icache s y) NDIRECT =? 0) eqn:E; [reflexivity |].
    apply Z.eqb_neq in E; apply HInd; exact E.
  - destruct (i_addrs (icache s y) (NDIRECT + 1) =? 0) eqn:E; [reflexivity |].
    apply Z.eqb_neq in E; apply HDbl; exact E.
  - destruct (i_addrs (icache s y) (NDIRECT + 1) =? 0) eqn:E; [reflexivity |].
    apply Z.eqb_neq in E; rewrite (HDbl E).
    destruct (u32_at s (i_dev (icache s y)) (i_addrs (icache s y) (NDIRECT + 1)) j =? 0)
      eqn:E2; [reflexivity |].
    apply Z.eqb_neq in E2; apply u32_ext; intros o.
    assert (Hr : ref_at s y (PDblE j)
                 = u32_at s (i_dev (icache s y)) (i_addrs (icache s y) (NDIRECT + 1)) j).
    { cbn [ref_at]; apply Z.eqb_neq in E; rewrite E; reflexivity. }
    rewrite <- Hr; apply (Hk (PDblE j) (proj1 Hv)); rewrite Hr; exact E2.
Qed.

Lemma inode_wf_kept s s' y :
  sb s' = sb s -> icache s' y = icache s y ->
  (forall p, valid_pos p -> ref_at s y p <> 0 ->
     reserved s' (i_dev (icache s y)) (ref_at s y p) /\
     forall o, disk s' (i_dev (icache s y)) (ref_at s y p) o
               = disk s (i_dev (icache s y)) (ref_at s y p) o) ->
  (forall x, 0 <= x < sb_size (sb s) ->
     reserved s' (i_dev (icache s y)) (BBLOCK x (sb s))) ->
  reserved s' (i_dev (icache s y)) 0 ->
  inode_wf s y -> inode_wf s' y.
Proof.
  intros Hsb Hi Hk Hbm Hz W.
  assert (Href : forall p, valid_pos p -> ref_at s' y p = ref_at s y p).
  { apply ref_at_kept; [exact Hi |].
    intros p Hv Hnz; apply (Hk p Hv Hnz). }
  constructor; rewrite ?Hsb, ?Hi.
  - apply (wf_size _ _ W).
  - intros p q Hp Hq; rewrite (Href p Hp), (Href q Hq); apply (wf_inj _ _ W); assumption.
  - intros p Hp; rewrite (Href p Hp); intros Hnz; apply (Hk p Hp Hnz).
  - intros x Hx; split; [apply Hbm; exact Hx |].
    intros p Hp; rewrite (Href p Hp); apply (wf_bitmap _ _ W x Hx); exact Hp.
  - exact Hz.
Qed.

Lemma file_byte_kept s s' y o :
  0 <= NDIRECT -> 0 <= o -> o < MAXFILE * BSIZE ->
  icache s' y = icache s y ->
  (forall p, valid_pos p -> ref_at s y p <> 0 ->
     forall o, disk s' (i_dev (icache s y)) (ref_at s y p) o
               = disk s (i_dev (icache s y)) (ref_at s y p) o) ->
  ref_at s y (data_pos (o / BSIZE)) <> 0 ->
  ref_at s' y (data_pos (o / BSIZE)) = ref_at s y (data_pos (o / BSIZE)) /\
  file_byte s' y o = file_byte s y o.
Proof.
  intros Hnd Ho Hlt Hi Hk Hnz.
  assert (Hbo : 0 <= o / BSIZE < MAXFILE).
  { rewrite BSIZE_val in *; split;
      [apply Z.div_pos; lia | apply Z.div_lt_upper_bound; lia]. }
  pose proof (data_pos_valid _ Hnd Hbo) as Hv.
  pose proof (ref_at_kept s s' y Hi Hk _ Hv) as Hr.
  split; [exact Hr |].
  unfold file_byte; rewrite Hr, Hi; apply (Hk _ Hv Hnz).
Qed.

(** ** Reading directories *)

Lemma kmem_only_refl s : kmem_only s s.
Proof. unfold kmem_only; repeat split; reflexivity. Qed.

Lemma kmem_only_trans s1 s2 s3 : kmem_only s1 s2 -> kmem_only s2 s3 -> kmem_only s1 s3.
Proof.
  intros (A1 & A2 & A3 & A4 & A5 & A6) (B1 & B2 & B3 & B4 & B5 & B6).
  unfold kmem_only; repeat split; try congruence; intros a; rewrite B6; apply A6.
Qed.

Lemma kmem_only_blocks s s' ip :
  kmem_only s s' ->
  (forall p, ref_at s' ip p = ref_at s ip p) /\
  (forall o, file_byte s' ip o = file_byte s ip o) /\
  (inode_wf s ip -> inode_wf s' ip) /\
  (forall off n, mapped s ip off n -> mapped s' ip off n) /\
  (forall b, foreign s ip b -> foreign s' ip b).
Proof.
  intros (A1 & A2 & A3 & A4 & A5 & A6).
  assert (Hd : i_dev (icache s' ip) = i_dev (icache s ip)) by (rewrite A4; reflexivity).
  assert (Ha : i_addrs (icache s' ip) = i_addrs (icache s ip)) by (rewrite A4; reflexivity).
  destruct (same_blocks s s' ip A1 A2 Hd Ha) as (H1 & H2 & H3).
  split; [exact H1 |]; split; [exact H2 |]; split; [exact H3 |]; split.
  - intros off n Hm o Ho; rewrite H1; apply Hm; exact Ho.
  - intros b; apply foreign_same; assumption.
Qed.

Lemma kmem_only_kstore a l s u s' : kstore a l s = Ret (u, s') -> kmem_only s s'.
Proof.
  unfold kstore, modify; intros H; injection H as _ <-.
  unfold kmem_only; repeat split; reflexivity.
Qed.

(** Reading the directory entry at offset [off] into the buffer at the kernel
    address [de]. *)
Lemma readi_entry s x de off r s' :
  0 <= NDIRECT -> MAXFILE * BSIZE < 2 ^ 31 ->
  0 <= off < i_size (icache s x) -> i_size (icache s x) <= MAXFILE * BSIZE ->
  0 <= de -> de + DIRENT_SIZE <= 2 ^ 64 ->
  mapped s x 0 (i_size (icache s x)) ->
  readi x false de off DIRENT_SIZE s = Ret (r, s') -> r = DIRENT_SIZE ->
  off + DIRENT_SIZE <= i_size (icache s x) /\ kmem_only s s' /\
  de_inum s' de = entry_inum s x off /\ de_name s' de = entry_name s x off.
Proof.
  intros Hnd Hmax Hoff Hsz Hde Hdend Hmap Hr ->.
  assert (HD : DIRENT_SIZE = 16) by reflexivity.
  destruct (readi_reads s x false de off DIRENT_SIZE Hnd Hmax ltac:(lia) ltac:(lia)
              ltac:(lia) ltac:(lia) Hsz Hde ltac:(lia))
    as (t & Ht & F1 & F2 & F3 & F4 & F5 & Hk & Hu).
  { intros o Ho; apply Hmap; lia. }
  { intros i _; discriminate. }
  rewrite Ht in Hr; injection Hr as Hcnt <-.
  assert (Hin : off + DIRENT_SIZE <= i_size (icache s x)) by lia.
  rewrite Z.min_l in Hk by lia.
  assert (Hb : forall i, 0 <= i < DIRENT_SIZE -> kmem t (de + i) = file_byte s x (off + i)).
  { intros i Hi; pose proof (Hk (de + i)) as E; cbn [mem_byte] in E.
    rewrite in_range_true in E by lia; injection E as ->; f_equal; lia. }
  split; [exact Hin |]; split.
  - unfold kmem_only; repeat split; assumption.
  - split.
    + unfold de_inum, entry_inum.
      pose proof (Hb 0 ltac:(lia)) as E0; rewrite !Z.add_0_r in E0.
      rewrite E0, (Hb 1) by lia; reflexivity.
    + unfold de_name, entry_name; apply map_ext_in; intros k Hk'.
      apply in_seq in Hk'.
      replace (de + 2 + Z.of_nat k) with (de + (2 + Z.of_nat k)) by lia.
      rewrite Hb; [f_equal; lia |].
      change (Z.to_nat DIRSIZ) with 14%nat in Hk'; lia.
Qed.

Lemma aligned_next o off :
  off + DIRENT_SIZE <= o -> (o - (off + DIRENT_SIZE)) mod DIRENT_SIZE = 0 ->
  (o - off) mod DIRENT_SIZE = 0.
Proof.
  change DIRENT_SIZE with 16; intros _ H.
  replace (o - off) with (o - (off + 16) + 1 * 16) by lia.
  rewrite Z.mod_add by lia; exact H.
Qed.

(** The loop of dirlookup over a directory without holes: a search that
    finds nothing changes kernel memory only, and the search finds nothing
    when every entry is empty or has another name. *)
Lemma dirlookup_loop_none fuel x name : forall off s r s',
  0 <= NDIRECT -> MAXFILE * BSIZE < 2 ^ 31 ->
  0 <= off -> i_size (icache s x) <= MAXFILE * BSIZE ->
  0 <= de_dirlookup -> de_dirlookup + DIRENT_SIZE <= 2 ^ 64 ->
  mapped s x 0 (i_size (icache s x)) ->
  dirlookup_loop fuel x name off s = Ret (r, s') ->
  (r = None -> kmem_only s s') /\
  ((forall o, off <= o -> o + DIRENT_SIZE <= i_size (icache s x) ->
      (o - off) mod DIRENT_SIZE = 0 ->
      entry_inum s x o = 0 \/ namecmp name (entry_name s x o) <> 0) ->
   r = None).
Proof.
  induction fuel as [| fuel IH]; intros off s r s' Hnd Hmax Hoff Hsz Hde Hdend Hmap;
    cbn [dirlookup_loop]; unfold bind at 1; unfold get;
    destruct (off <? i_size (icache s x)) eqn:E; try discriminate;
    try (intros H; injection H as <- <-; split;
         [intros _; apply kmem_only_refl | reflexivity]).
  apply Z.ltb_lt in E.
  intros H; apply bind_inv in H; destruct H as (n & t & Hr & H).
  destruct (n =? DIRENT_SIZE) eqn:En; [| discriminate]; cbn [negb] in H.
  apply Z.eqb_eq in En.
  destruct (readi_entry s x de_dirlookup off n t Hnd Hmax ltac:(lia) Hsz Hde Hdend
              Hmap Hr En) as (Hin & K & Hinum & Hname).
  unfold bind at 1 in H; unfold get in H.
  pose proof K as (_ & _ & _ & Kc & _).
  destruct (kmem_only_blocks s t x K) as (_ & Hfb & _ & Hmp & _).
  assert (HD : DIRENT_SIZE = 16) by reflexivity.
  assert (Hrec : dirlookup_loop fuel x name (wrap32 (off + DIRENT_SIZE)) t = Ret (r, s') ->
            (r = None -> kmem_only s s') /\
            ((forall o, off <= o -> o + DIRENT_SIZE <= i_size (icache s x) ->
                (o - off) mod DIRENT_SIZE = 0 ->
                entry_inum s x o = 0 \/ namecmp name (entry_name s x o) <> 0) ->
             r = None)).
  { rewrite wrap32_small by lia; intros H'.
    apply IH in H'; try assumption; try lia; try (rewrite Kc; assumption).
    2:{ rewrite Kc; apply Hmp; exact Hmap. }
    destruct H' as [H1 H2]; split.
    - intros Hn; apply (kmem_only_trans _ _ _ K (H1 Hn)).
    - intros He; apply H2; intros o Ho Ho' Hal.
      rewrite Kc in Ho'.
      assert (E1 : entry_inum t x o = entry_inum s x o)
        by (unfold entry_inum; rewrite !Hfb; reflexivity).
      assert (E2 : entry_name t x o = entry_name s x o).
      { unfold entry_name; apply map_ext; intros k; apply Hfb. }
      rewrite E1, E2; apply He; [lia | exact Ho' |].
      apply aligned_next; assumption. }
  destruct (de_inum t de_dirlookup =? 0) eqn:Ei; [apply Hrec; exact H |].
  destruct (namecmp name (de_name t de_dirlookup) =? 0) eqn:Ec; [| apply Hrec; exact H].
  apply bind_inv in H; destruct H as (j & t' & _ & H); injection H as <- _.
  split; [intros Hn; discriminate |].
  intros He; exfalso.
  apply Z.eqb_neq in Ei; apply Z.eqb_eq in Ec.
  destruct (He off ltac:(lia) Hin) as [H0 | H0].
  - rewrite Z.sub_diag; reflexivity.
  - rewrite Hinum in Ei; contradiction.
  - rewrite Hname in Ec; contradiction.
Qed.

(** The loop of dirlink over a directory without holes. *)
Lemma dirlink_loop_inv fuel x : forall off s r s',
  0 <= NDIRECT -> MAXFILE * BSIZE < 2 ^ 31 ->
  0 <= off <= i_size (icache s x) -> i_size (icache s x) <= MAXFILE * BSIZE ->
  0 <= de_dirlink -> de_dirlink + DIRENT_SIZE <= 2 ^ 64 ->
  mapped s x 0 (i_size (icache s x)) ->
  dirlink_loop fuel x off s = Ret (r, s') ->
  kmem_only s s' /\ off <= r <= i_size (icache s x) /\
  ((forall o, off <= o -> o + DIRENT_SIZE <= i_size (icache s x) ->
      (o - off) mod DIRENT_SIZE = 0 -> entry_inum s x o <> 0) ->
   r = i_size (icache s x)).
Proof.
  induction fuel as [| fuel IH]; intros off s r s' Hnd Hmax Hoff Hsz Hde Hdend Hmap;
    cbn [dirlink_loop]; unfold bind at 1; unfold get;
    destruct (off <? i_size (icache s x)) eqn:E; try discriminate;
    try (apply Z.ltb_ge in E; intros H; injection H as <- <-; split;
         [apply kmem_only_refl | split; [lia | intros _; lia]]).
  apply Z.ltb_lt in E.
  intros H; apply bind_inv in H; destruct H as (n & t & Hr & H).
  destruct (n =? DIRENT_SIZE) eqn:En; [| discriminate]; cbn [negb] in H.
  apply Z.eqb_eq in En.
  destruct (readi_entry s x de_dirlink off n t Hnd Hmax ltac:(lia) Hsz Hde Hdend
              Hmap Hr En) as (Hin & K & Hinum & Hname).
  unfold bind at 1 in H; unfold get in H.
  pose proof K as (_ & _ & _ & Kc & _).
  destruct (kmem_only_blocks s t x K) as (_ & Hfb & _ & Hmp & _).
  assert (HD : DIRENT_SIZE = 16) by reflexivity.
  destruct (de_inum t de_dirlink =? 0) eqn:Ei.
  - injection H as <- <-; split; [exact K |]; split; [lia |].
    intros He; exfalso; apply Z.eqb_eq in Ei; rewrite Hinum in Ei.
    apply (He off ltac:(lia) Hin); [rewrite Z.sub_diag; reflexivity | exact Ei].
  - rewrite wrap32_small in H by lia.
    apply IH in H; try assumption; try lia; try (rewrite Kc; assumption);
      try (rewrite Kc; lia).
    2:{ rewrite Kc; apply Hmp; exact Hmap. }
    rewrite Kc in H; destruct H as (H1 & H2 & H3); split; [| split; [lia |]].
    + apply (kmem_only_trans _ _ _ K H1).
    + intros He; apply H3; intros o Ho Ho' Hal.
      assert (E1 : entry_inum t x o = entry_inum s x o)
        by (unfold entry_inum; rewrite !Hfb; reflexivity).
      rewrite E1; apply He; [lia | exact Ho' |].
      apply aligned_next; assumption.
Qed.

(** The offset at which the loop of dirlink stops is a whole number of
    entries away from the offset at which it starts. *)
Lemma dirlink_loop_aligned fuel x : forall off s r s',
  0 <= NDIRECT -> MAXFILE * BSIZE < 2 ^ 31 ->
  0 <= off <= i_size (icache s x) -> i_size (icache s x) <= MAXFILE * BSIZE ->
  0 <= de_dirlink -> de_dirlink + DIRENT_SIZE <= 2 ^ 64 ->
  mapped s x 0 (i_size (icache s x)) ->
  dirlink_loop fuel x off s = Ret (r, s') ->
  (r - off) mod DIRENT_SIZE = 0.
Proof.
  induction fuel as [| fuel IH]; intros off s r s' Hnd Hmax Hoff Hsz Hde Hdend Hmap;
    cbn [dirlink_loop]; unfold bind at 1; unfold get;
    destruct (off <? i_size (icache s x)) eqn:E; try discriminate;
    try (intros H; injection H as <- <-; rewrite Z.sub_diag; reflexivity).
  apply Z.ltb_lt in E.
  intros H; apply bind_inv in H; destruct H as (n & t & Hr & H).
  destruct (n =? DIRENT_SIZE) eqn:En; [| discriminate]; cbn [negb] in H.
  apply Z.eqb_eq in En.
  destruct (readi_entry s x de_dirlink off n t Hnd Hmax ltac:(lia) Hsz Hde Hdend
              Hmap Hr En) as (Hin & K & _).
  unfold bind at 1 in H; unfold get in H.
  pose proof K as (_ & _ & _ & Kc & _).
  destruct (kmem_only_blocks s t x K) as (_ & _ & _ & Hmp & _).
  assert (HD : DIRENT_SIZE = 16) by reflexivity.
  destruct (de_inum t de_dirlink =? 0).
  - injection H as <- <-; rewrite Z.sub_diag; reflexivity.
  - rewrite wrap32_small in H by lia.
    pose proof (dirlink_loop_inv fuel x (off + DIRENT_SIZE) t r s' Hnd Hmax
                  ltac:(rewrite Kc; lia)
                  ltac:(rewrite Kc; exact Hsz) Hde Hdend
                  ltac:(rewrite Kc; apply Hmp; exact Hmap) H) as (_ & Hge & _).
    apply IH in H; try assumption; try lia; try (rewrite Kc; assumption);
      try (rewrite Kc; lia).
    2:{ rewrite Kc; apply Hmp; exact Hmap. }
    apply aligned_next; [lia | exact H].
Qed.

Lemma strncpy_length n : forall src, List.length (strncpy src n) = n.
Proof.
  induction n as [| n IH]; intros src; cbn [strncpy]; [reflexivity |].
  destruct (deref src =? 0); cbn [List.length]; rewrite IH; reflexivity.
Qed.

(** The buffer [de] of dirlink before it is written to the directory. *)
Lemma dirlink_buffer name inum s u1 s1 u2 s2 :
  kstore (de_dirlink + 2) (strncpy name (Z.to_nat DIRSIZ)) s = Ret (u1, s1) ->
  kstore de_dirlink [to_ushort inum mod 256; to_ushort inum / 256] s1 = Ret (u2, s2) ->
  forall i, 0 <= i < DIRENT_SIZE ->
    kmem s2 (de_dirlink + i) = nth (Z.to_nat i) (dirent_bytes name inum) 0.
Proof.
  unfold dirent_bytes.
  pose proof (strncpy_length (Z.to_nat DIRSIZ) name) as Hlen.
  change (Z.to_nat DIRSIZ) with 14%nat in Hlen at 2.
  generalize dependent (strncpy name (Z.to_nat DIRSIZ)); intros l Hlen.
  set (b0 := to_ushort inum mod 256); set (b1 := to_ushort inum / 256).
  unfold kstore, modify; intros H1 H2; injection H1 as _ <-; injection H2 as _ <-.
  intros i Hi; change DIRENT_SIZE with 16 in Hi; cbn [kmem set_kmem].
  rewrite Hlen.
  destruct (Z_lt_le_dec i 2) as [Hlt | Hge].
  - rewrite in_range_true by (cbn [List.length]; lia).
    rewrite app_nth1 by (cbn [List.length]; lia).
    replace (de_dirlink + i - de_dirlink) with i by lia; reflexivity.
  - rewrite in_range_false by (cbn [List.length]; lia).
    rewrite in_range_true by lia.
    rewrite app_nth2 by (cbn [List.length]; lia).
    replace (de_dirlink + i - (de_dirlink + 2)) with (i - 2) by lia.
    f_equal; cbn [List.length]; lia.
Qed.

(** dirlink on a directory without holes that does not have the name: the
    entry is written at an offset [off] within the directory or at its end,
    the other bytes of the directory, the blocks of other files and the
    other inodes are left alone. *)
Lemma dirlink_spec_aligned x name inum s r s' :
  0 <= NDIRECT -> MAXFILE * BSIZE < 2 ^ 31 -> inode_wf s x ->
  0 <= i_size (icache s x) <= MAXFILE * BSIZE ->
  mapped s x 0 (i_size (icache s x)) ->
  0 <= de_dirlookup -> de_dirlookup + DIRENT_SIZE <= 2 ^ 64 ->
  0 <= de_dirlink -> de_dirlink + DIRENT_SIZE <= 2 ^ 64 ->
  dirlink x name inum s = Ret (r, s') -> 0 <= r ->
  exists off,
    0 <= off <= i_size (icache s x) /\
    i_type (icache s x) = T_DIR /\
    inode_wf s' x /\
    i_size (icache s' x) = Z.max (i_size (icache s x)) (off + DIRENT_SIZE) /\
    sb s' = sb s /\ cwd s' = cwd s /\
    (forall j, j <> x -> icache s' j = icache s j) /\
    adm (icache s' x) = adm (icache s x) /\
    (forall o, off <= o < off + DIRENT_SIZE ->
       ref_at s' x (data_pos (o / BSIZE)) <> 0 /\
       file_byte s' x o = nth (Z.to_nat (o - off)) (dirent_bytes name inum) 0) /\
    (forall o, 0 <= o < MAXFILE * BSIZE -> o < off \/ off + DIRENT_SIZE <= o ->
       ref_at s x (data_pos (o / BSIZE)) <> 0 ->
       ref_at s' x (data_pos (o / BSIZE)) <> 0 /\ file_byte s' x o = file_byte s x o) /\
    (forall b, foreign s x b ->
       foreign s' x b /\
       forall o, disk s' (i_dev (icache s x)) b o = disk s (i_dev (icache s x)) b o) /\
    (forall dev i,
       dinodes s' dev i = dinodes s dev i \/
       (dev = i_dev (icache s x) /\ i = i_inum (icache s x) /\
        d_nlink (dinodes s' dev i) = i_nlink (icache s x) /\
        d_type (dinodes s' dev i) = i_type (icache s x))) /\
    ((forall o, 0 <= o -> o + DIRENT_SIZE <= i_size (icache s x) ->
        o mod DIRENT_SIZE = 0 -> entry_inum s x o <> 0) ->
     off = i_size (icache s x)) /\
    off mod DIRENT_SIZE = 0 /\ off + DIRENT_SIZE <= MAXFILE * BSIZE.
Proof.
  intros Hnd Hmax W Hsz Hmap Hl1 Hl2 Hk1 Hk2 H Hr.
  assert (HD : DIRENT_SIZE = 16) by reflexivity.
  unfold dirlink in H.
  apply bind_inv in H; destruct H as (f & s1 & Hf & H).
  destruct f as [[j o] |].
  { apply bind_inv in H; destruct H as (u & t & _ & H); injection H as <- _; lia. }
  unfold dirlookup in Hf; unfold bind at 1 in Hf; unfold get in Hf.
  destruct (i_type (icache s x) =? T_DIR) eqn:Et; [| discriminate].
  apply Z.eqb_eq in Et; cbn [negb] in Hf.
  apply dirlookup_loop_none in Hf; try assumption; try lia.
  destruct Hf as [K1 _]; specialize (K1 eq_refl).
  pose proof K1 as (_ & _ & _ & Kc1 & _).
  destruct (kmem_only_blocks s s1 x K1) as (_ & Hfb1 & W1 & Hmp1 & _).
  unfold bind at 1 in H; unfold get in H.
  apply bind_inv in H; destruct H as (off & s2 & Hlp & H).
  assert (Hoffal : off mod DIRENT_SIZE = 0).
  { apply dirlink_loop_aligned in Hlp; try assumption; try (rewrite Kc1; lia);
      try (rewrite Kc1; apply Hmp1; exact Hmap).
    rewrite Z.sub_0_r in Hlp; exact Hlp. }
  apply dirlink_loop_inv in Hlp; try assumption; try (rewrite Kc1; lia);
    try (rewrite Kc1; apply Hmp1; exact Hmap).
  rewrite Kc1 in Hlp; destruct Hlp as (K2 & Hoff & Hfull).
  apply bind_inv in H; destruct H as (u3 & s3 & Hs3 & H).
  apply bind_inv in H; destruct H as (u4 & s4 & Hs4 & H).
  pose proof (dirlink_buffer _ _ _ _ _ _ _ Hs3 Hs4) as Hbuf.
  assert (K : kmem_only s s4).
  { apply (kmem_only_trans _ _ _ K1), (kmem_only_trans _ _ _ K2).
    apply (kmem_only_trans _ s3); eapply kmem_only_kstore; eassumption. }
  assert (Hfull' : (forall o, 0 <= o -> o + DIRENT_SIZE <= i_size (icache s x) ->
                      o mod DIRENT_SIZE = 0 -> entry_inum s x o <> 0) ->
                   off = i_size (icache s x)).
  { intros He; apply Hfull; intros o Ho Ho' Hal.
    rewrite Z.sub_0_r in Hal; unfold entry_inum; rewrite !Hfb1.
    apply He; assumption. }
  clear Hs3 Hs4 K1 K2 W1 Hmp1 Kc1 Hfull Hfb1.
  pose proof K as (Ksb & Kd & Kdi & Kc & Kcw & _).
  destruct (kmem_only_blocks s s4 x K) as (Href & Hfb & W4 & _ & Hfor4).
  specialize (W4 W).
  apply bind_inv in H; destruct H as (w & s5 & Hw & H).
  destruct (w =? DIRENT_SIZE) eqn:Ew; [| discriminate]; cbn [negb] in H.
  apply Z.eqb_eq in Ew; injection H as _ <-.
  assert (Hend : off + DIRENT_SIZE <= MAXFILE * BSIZE).
  { destruct (Z_le_gt_dec (off + DIRENT_SIZE) (MAXFILE * BSIZE)) as [Hle | Hgt];
      [exact Hle |].
    rewrite (writei_rejects s4 x false de_dirlink off DIRENT_SIZE) in Hw;
      [injection Hw as <- _; lia | lia | lia | right; right; exact Hgt]. }
  set (data := fun o => kmem s4 (de_dirlink + (o - off))).
  destruct (writei_ok s4 x false de_dirlink off DIRENT_SIZE w s5 data Hnd Hmax W4)
    as (_ & W5 & Hs5 & _ & Hsb5 & _ & _ & Ho5 & Hin & Hout);
    try assumption; try (rewrite Kc; lia); try lia.
  { intros o Ho; reflexivity. }
  destruct (writei_effect s4 x false de_dirlink off DIRENT_SIZE w s5 Hnd Hmax W4)
    as (Hfor5 & Ha5 & Hcw5 & Hdi5);
    try assumption; try (rewrite Kc; lia); try lia.
  { intros i _; discriminate. }
  exists off; rewrite Kc in *.
  split; [exact Hoff |]; split; [exact Et |]; split; [exact W5 |].
  split; [exact Hs5 |]; split; [congruence |]; split; [congruence |].
  split; [exact Ho5 |]; split; [exact Ha5 |]; split.
  { intros o Ho; destruct (Hin o Ho) as [H1 H2]; split; [exact H1 |].
    rewrite H2; subst data; cbn beta; rewrite Hbuf by lia; reflexivity. }
  split.
  { intros o Ho Hout' Hnz; rewrite <- Href in Hnz.
    destruct (Hout o Ho Hout' Hnz) as [H1 H2]; split; [exact H1 |].
    rewrite H2; apply Hfb. }
  split.
  { intros b Hb; destruct (Hfor5 b (Hfor4 b Hb)) as [H1 H2]; split; [exact H1 |].
    intros o; rewrite H2, Kd; reflexivity. }
  split.
  { intros dev i; rewrite <- Kdi; apply Hdi5. }
  split; [exact Hfull' |]; split; [exact Hoffal | exact Hend].
Qed.

Lemma dirlink_spec x name inum s r s' :
  0 <= NDIRECT -> MAXFILE * BSIZE < 2 ^ 31 -> inode_wf s x ->
  0 <= i_size (icache s x) <= MAXFILE * BSIZE ->
  mapped s x 0 (i_size (icache s x)) ->
  0 <= de_dirlookup -> de_dirlookup + DIRENT_SIZE <= 2 ^ 64 ->
  0 <= de_dirlink -> de_dirlink + DIRENT_SIZE <= 2 ^ 64 ->
  dirlink x name inum s = Ret (r, s') -> 0 <= r ->
  exists off,
    0 <= off <= i_size (icache s x) /\
    i_type (icache s x) = T_DIR /\
    inode_wf s' x /\
    i_size (icache s' x) = Z.max (i_size (icache s x)) (off + DIRENT_SIZE) /\
    sb s' = sb s /\ cwd s' = cwd s /\
    (forall j, j <> x -> icache s' j = icache s j) /\
    adm (icache s' x) = adm (icache s x) /\
    (forall o, off <= o < off + DIRENT_SIZE ->
       ref_at s' x (data_pos (o / BSIZE)) <> 0 /\
       file_byte s' x o = nth (Z.to_nat (o - off)) (dirent_bytes name inum) 0) /\
    (forall o, 0 <= o < MAXFILE * BSIZE -> o < off \/ off + DIRENT_SIZE <= o ->
       ref_at s x (data_pos (o / BSIZE)) <> 0 ->
       ref_at s' x (data_pos (o / BSIZE)) <> 0 /\ file_byte s' x o = file_byte s x o) /\
    (forall b, foreign s x b ->
       foreign s' x b /\
       forall o, disk s' (i_dev (icache s x)) b o = disk s (i_dev (icache s x)) b o) /\
    (forall dev i,
       dinodes s' dev i = dinodes s dev i \/
       (dev = i_dev (icache s x) /\ i = i_inum (icache s x) /\
        d_nlink (dinodes s' dev i) = i_nlink (icache s x) /\
        d_type (dinodes s' dev i) = i_type (icache s x))) /\
    ((forall o, 0 <= o -> o + DIRENT_SIZE <= i_size (icache s x) ->
        o mod DIRENT_SIZE = 0 -> entry_inum s x o <> 0) ->
     off = i_size (icache s x)).
Proof.
  intros Hnd Hmax W Hsz Hmap Hl1 Hl2 Hk1 Hk2 H Hr.
  destruct (dirlink_spec_aligned x name inum s r s' Hnd Hmax W Hsz Hmap Hl1 Hl2 Hk1
              Hk2 H Hr)
    as (off & A1 & A2 & A3 & A4 & A5 & A6 & A7 & A8 & A9 & A10 & A11 & A12 & A13 & _).
  exists off; repeat (split; [assumption |]); exact A13.
Qed.

(** ** Creating a directory *)

(** ialloc ends in the iget of the inode whose dinode it has initialised. *)
Lemma ialloc_loop_iget fuel dev type s ip s' : forall inum,
  ialloc_loop fuel dev type inum s = Ret (ip, s') ->
  exists n, inum <= n < sb_ninodes (sb s) /\ d_type (dinodes s dev n) = 0 /\
    iget dev n (set_dinodes (upd (dinodes s) dev (upd (dinodes s dev) n
                  (mkDinode type 0 0 0 0 (fun _ => 0)))) s) = Ret (ip, s').
Proof.
  induction fuel as [| fuel IH]; intros inum;
    cbn [ialloc_loop]; unfold bind at 1; unfold get.
  - destruct (inum <? sb_ninodes (sb s)); discriminate.
  - destruct (inum <? sb_ninodes (sb s)) eqn:E; [| discriminate].
    rewrite Z.ltb_lt in E.
    destruct (d_type (dinodes s dev inum) =? 0) eqn:Et.
    + rewrite Z.eqb_eq in Et.
      unfold bind at 1; unfold modify.
      intros H; exists inum; repeat split; try assumption; lia.
    + intros H; apply IH in H; destruct H as (n & Hn & H).
      exists n; split; [lia | exact H].
Qed.

(** The inode that ialloc returns, once locked: it is new in the cache, and
    the slot holds the dinode that ialloc has initialised. *)
Lemma ialloc_ilock dev type t ip t1 u t2 :
  cache_ok t -> ialloc dev type t = Ret (ip, t1) -> ilock ip t1 = Ret (u, t2) ->
  exists inum,
    1 <= inum < sb_ninodes (sb t) /\ type <> 0 /\
    icache t2 ip = mkInode dev inum (i_ref (icache t2 ip)) true 1 type 0 0 0 0
                     (fun _ => 0) /\
    1 <= i_ref (icache t2 ip) /\
    (forall q, q <> ip -> icache t2 q = icache t q) /\
    (forall q, 0 < i_ref (icache t q) -> i_valid (icache t q) <> 0 ->
       q <> ip /\ ~ (i_dev (icache t q) = dev /\ i_inum (icache t q) = inum)) /\
    sb t2 = sb t /\ disk t2 = disk t /\ cwd t2 = cwd t /\ kmem t2 = kmem t /\
    dinodes t2 = upd (dinodes t) dev (upd (dinodes t dev) inum
                   (mkDinode type 0 0 0 0 (fun _ => 0))).
Proof.
  intros C Ha Hl; unfold ialloc in Ha; unfold bind at 1 in Ha; unfold get in Ha.
  apply ialloc_loop_iget in Ha; destruct Ha as (n & Hn & Hfree & Hg).
  set (t' := set_dinodes (upd (dinodes t) dev (upd (dinodes t dev) n
                 (mkDinode type 0 0 0 0 (fun _ => 0)))) t) in *.
  apply iget_cache_post in Hg.
  destruct Hg as (P & Hr1 & Hd1 & Hi1 & G1 & G2 & G3 & G4 & Go & Gv).
  assert (Hnew : forall q, 0 < i_ref (icache t q) -> i_valid (icache t q) <> 0 ->
            ~ (i_dev (icache t q) = dev /\ i_inum (icache t q) = n)).
  { intros q Hq Hv [E1 E2].
    destruct (ck_coherent _ C q Hq Hv) as (_ & Ht & Ht0).
    rewrite E1, E2, Hfree in Ht; contradiction. }
  assert (Hip : forall q, 0 < i_ref (icache t q) -> i_valid (icache t q) <> 0 -> q <> ip).
  { intros q Hq Hv ->; apply (Hnew ip Hq Hv).
    destruct P as (_ & _ & _ & Ph).
    destruct (Ph ip ltac:(cbn beta; change (icache t' ip) with (icache t ip); lia))
      as (E1 & E2 & _).
    change (icache t' ip) with (icache t ip) in E1, E2; split; congruence. }
  assert (Hv0 : i_valid (icache t1 ip) = 0).
  { destruct (Z.eq_dec (i_valid (icache t1 ip)) 0) as [E | E]; [exact E |].
    destruct (Gv E) as [Hw Hact]; change (icache t' ip) with (icache t ip) in Hw, Hact.
    exfalso; apply (Hip ip Hact); [| reflexivity].
    rewrite Hw in E; exact E. }
  destruct (ilock_spec _ _ _ _ Hl)
    as (Hr & L1 & L2 & L3 & L4 & L5 & L6 & Lo & Ldev & Linum & Lref & _ & _ & _ & Lload).
  destruct (Lload Hv0) as [Ht Hicache]; cbn zeta in Ht, Hicache.
  rewrite Hd1, Hi1, G2 in Ht, Hicache.
  assert (Hdn : dinodes t' dev n = mkDinode type 0 0 0 0 (fun _ => 0)).
  { subst t'; cbn [dinodes set_dinodes]; rewrite !upd_same; reflexivity. }
  rewrite Hdn in Ht, Hicache; cbn [d_type d_major d_minor d_nlink d_size d_addrs] in *.
  exists n.
  assert (Hin : i_inum (icache t2 ip) = n) by (rewrite Hicache; reflexivity).
  split; [lia |]; split; [exact Ht |]; split.
  { rewrite Hicache; cbn [i_ref]; reflexivity. }
  split; [lia |]; split.
  { intros q Hq; rewrite (Lo q Hq); apply (Go q Hq). }
  split.
  { intros q Hq Hv; split; [apply Hip; assumption | apply Hnew; assumption]. }
  split; [rewrite L1; destruct P as (P1 & _); exact P1 |].
  split; [rewrite L3, G1; reflexivity |].
  split; [rewrite L2; destruct P as (_ & P2 & _); exact P2 |].
  split; [rewrite L6, G4; reflexivity |].
  rewrite L4, G2; reflexivity.
Qed.

Lemma to_ushort_range x : 0 <= to_ushort x < 2 ^ 16.
Proof. unfold to_ushort; apply Z.mod_pos_bound; lia. Qed.

Lemma to_ushort_small x : 0 <= x < 2 ^ 16 -> to_ushort x = x.
Proof. intros H; unfold to_ushort; apply Z.mod_small; exact H. Qed.

Lemma nth_map_seq {A} (f : nat -> A) n k d :
  (k < n)%nat -> nth k (map f (seq 0 n)) d = f k.
Proof.
  intros H; rewrite (nth_indep _ d (f 0%nat))
    by (rewrite length_map, length_seq; exact H).
  rewrite map_nth, seq_nth by exact H; reflexivity.
Qed.

(** Decoding the directory entry that dirlink has written. *)
Lemma entry_of_bytes s x off name inum :
  (forall o, off <= o < off + DIRENT_SIZE ->
     file_byte s x o = nth (Z.to_nat (o - off)) (dirent_bytes name inum) 0) ->
  entry_inum s x off = to_ushort inum /\
  entry_name s x off = strncpy name (Z.to_nat DIRSIZ).
Proof.
  intros H; assert (HD : DIRENT_SIZE = 16) by reflexivity.
  pose proof (to_ushort_range inum) as Hu.
  pose proof (strncpy_length (Z.to_nat DIRSIZ) name) as Hlen.
  unfold dirent_bytes in H.
  generalize dependent (strncpy name (Z.to_nat DIRSIZ)); intros l H Hlen.
  split.
  - unfold entry_inum; rewrite (H off), (H (off + 1)) by lia.
    rewrite Z.sub_diag; replace (off + 1 - off) with 1 by lia.
    cbn [Z.to_nat Pos.to_nat Pos.iter_op Nat.add nth app].
    rewrite Z.mod_mod by lia.
    rewrite (Z.mod_small (to_ushort inum / 256)).
    + rewrite Z.add_comm, Z.mul_comm; symmetry; apply Z.div_mod; lia.
    + split; [apply Z.div_pos; lia | apply Z.div_lt_upper_bound; lia].
  - unfold entry_name; apply (nth_ext _ _ 0 0).
    + rewrite length_map, length_seq, Hlen; reflexivity.
    + intros k Hk; rewrite length_map, length_seq in Hk.
      change (Z.to_nat DIRSIZ) with 14%nat in Hk.
      rewrite nth_map_seq by exact Hk.
      rewrite H by lia.
      replace (Z.to_nat (off + 2 + Z.of_nat k - off)) with (2 + k)%nat by lia.
      reflexivity.
Qed.

(** iput on an inode with links only drops the reference. *)
Lemma iput_linked x s u s' :
  i_nlink (icache s x) <> 0 -> iput x s = Ret (u, s') ->
  s' = set_icache (updn (icache s) x
         (with_ref (i_ref (icache s x) - 1) (icache s x))) s.
Proof.
  intros Hn; unfold iput; unfold bind at 1; unfold get.
  apply Z.eqb_neq in Hn; rewrite Hn, andb_false_r.
  unfold bind, ret, set_inode, modify; intros H; injection H as _ <-; reflexivity.
Qed.

Lemma set_inode_facts x f s u s' :
  set_inode x f s = Ret (u, s') ->
  sb s' = sb s /\ disk s' = disk s /\ dinodes s' = dinodes s /\
  icache s' x = f (icache s x) /\ (forall q, q <> x -> icache s' q = icache s q).
Proof.
  unfold set_inode, modify; intros H; injection H as _ <-.
  cbn [sb disk dinodes icache set_icache]; rewrite updn_same.
  repeat split; try reflexivity.
  intros q Hq; apply updn_other; exact Hq.
Qed.

Lemma iupdate_facts x s u s' :
  iupdate x s = Ret (u, s') ->
  sb s' = sb s /\ disk s' = disk s /\ icache s' = icache s /\
  forall dev i,
    dinodes s' dev i =
    if (dev =? i_dev (icache s x)) && (i =? i_inum (icache s x))
    then mkDinode (i_type (icache s x)) (i_major (icache s x)) (i_minor (icache s x))
           (i_nlink (icache s x)) (i_size (icache s x)) (i_addrs (icache s x))
    else dinodes s dev i.
Proof.
  unfold iupdate, modify; intros H; injection H as _ <-.
  cbn [sb disk dinodes icache set_dinodes].
  repeat split; try reflexivity.
  intros dev i; unfold upd.
  destruct (dev =? i_dev (icache s x)) eqn:E1; [| reflexivity].
  apply Z.eqb_eq in E1; subst dev.
  destruct (i =? i_inum (icache s x)); reflexivity.
Qed.

(** iunlockput on an inode with links. *)
Lemma iunlockput_linked x s u s' :
  i_nlink (icache s x) <> 0 -> iunlockput x s = Ret (u, s') ->
  sb s' = sb s /\ disk s' = disk s /\ dinodes s' = dinodes s /\
  (forall q, q <> x -> icache s' q = icache s q) /\
  i_dev (icache s' x) = i_dev (icache s x) /\
  i_inum (icache s' x) = i_inum (icache s x) /\
  i_nlink (icache s' x) = i_nlink (icache s x).
Proof.
  intros Hn H; unfold iunlockput in H.
  apply bind_inv in H; destruct H as (u1 & s1 & H1 & H).
  apply iunlock_spec in H1; destruct H1 as [-> _].
  apply iput_linked in H;
    [| cbn [icache set_icache]; rewrite updn_same; exact Hn].
  subst s'; cbn [sb disk dinodes icache set_icache]; rewrite !updn_same.
  repeat split; try reflexivity.
  intros q Hq; rewrite !updn_other by exact Hq; reflexivity.
Qed.

(** An operation on the file in slot [x] that leaves alone the blocks
    foreign to it, seen from the file in slot [y], all of whose blocks are
    foreign to [x]. *)
Lemma other_file_kept x y s s' :
  inode_wf s y -> inode_wf s' x ->
  sb s' = sb s -> icache s' y = icache s y ->
  i_dev (icache s x) = i_dev (icache s y) ->
  i_dev (icache s' x) = i_dev (icache s x) ->
  (forall b, foreign s x b ->
     foreign s' x b /\
     forall o, disk s' (i_dev (icache s x)) b o = disk s (i_dev (icache s x)) b o) ->
  (forall q, valid_pos q -> ref_at s y q <> 0 -> foreign s x (ref_at s y q)) ->
  inode_wf s' y /\
  (forall q, valid_pos q -> ref_at s' y q = ref_at s y q) /\
  (forall q, valid_pos q -> ref_at s' y q <> 0 -> foreign s' x (ref_at s' y q)).
Proof.
  intros Wy Wx' Hsb Hy Hdev Hdev' Hfor Hdis.
  assert (Hk : forall p, valid_pos p -> ref_at s y p <> 0 ->
            reserved s' (i_dev (icache s y)) (ref_at s y p) /\
            forall o, disk s' (i_dev (icache s y)) (ref_at s y p) o
                      = disk s (i_dev (icache s y)) (ref_at s y p) o).
  { intros p Hp Hnz; destruct (Hfor _ (Hdis p Hp Hnz)) as [(R & _) K].
    rewrite Hdev', Hdev in R; rewrite Hdev in K; split; assumption. }
  assert (Href : forall q, valid_pos q -> ref_at s' y q = ref_at s y q).
  { apply ref_at_kept; [exact Hy |]; intros p Hp Hnz; apply (Hk p Hp Hnz). }
  split; [| split; [exact Href |]].
  - apply (inode_wf_kept s s' y Hsb Hy Hk); [| | exact Wy].
    + intros b Hb; rewrite <- Hsb in Hb |- *; rewrite <- Hdev, <- Hdev'.
      apply (wf_bitmap _ _ Wx' b Hb).
    + rewrite <- Hdev, <- Hdev'; apply (wf_zero _ _ Wx').
  - intros q Hq; rewrite (Href q Hq); intros Hnz.
    apply (Hfor _ (Hdis q Hq Hnz)).
Qed.

(** When the blocks of [y] are foreign to [x], the blocks of [x] are foreign
    to [y]. *)
Lemma foreign_sym x y s :
  inode_wf s x -> i_dev (icache s x) = i_dev (icache s y) ->
  (forall q, valid_pos q -> ref_at s y q <> 0 -> foreign s x (ref_at s y q)) ->
  forall p, valid_pos p -> ref_at s x p <> 0 -> foreign s y (ref_at s x p).
Proof.
  intros Wx Hdev Hdis p Hp Hnz; unfold foreign; rewrite <- Hdev.
  split; [apply (wf_used _ _ Wx p Hp Hnz) |]; split.
  - intros b Hb E; destruct (wf_bitmap _ _ Wx b Hb) as [_ Hbm].
    apply (Hbm p Hp Hnz); exact E.
  - intros q Hq E.
    destruct (Z.eq_dec (ref_at s y q) 0) as [Hz | Hnz']; [congruence |].
    destruct (Hdis q Hq Hnz') as (_ & _ & Hx).
    apply (Hx p Hp); symmetry; exact E.
Qed.

(** C9. create(path, T_DIR, major, minor) on a coherent inode cache, where
    nameiparent resolves the parent directory to slot [dp] and ilock locks it
    (state [s2]), the parent directory satisfies the invariant of the
    allocator, has no holes and has a link count from 0 to 32765. When create
    returns the inode in slot [ip]: the inode is another one than the parent,
    on the same device; the link count of the parent, on disk and in the
    cache, is one more than it was on disk before the call; the link count of
    the new directory is 1 on disk and in the cache; and the new directory
    consists of two entries, the first with the name "." and the inode number
    of the new directory, the second with the name ".." and the inode number
    of the parent (as the ushort that a directory entry holds). *)
Theorem create_dir_links (s s1 s2 s' : fs) (path name : list Z) (major minor : Z)
    (dp ip : nat) :
  0 <= NDIRECT -> MAXFILE * BSIZE < 2 ^ 31 -> T_DIR <> T_FILE ->
  0 <= de_dirlookup -> de_dirlookup + DIRENT_SIZE <= 2 ^ 64 ->
  0 <= de_dirlink -> de_dirlink + DIRENT_SIZE <= 2 ^ 64 ->
  sb_ninodes (sb s) <= 2 ^ 16 ->
  cache_ok s -> 0 < i_ref (icache s (cwd s)) ->
  nameiparent path (repeat 0 (Z.to_nat DIRSIZ)) s = Ret ((Some dp, name), s1) ->
  ilock dp s1 = Ret (tt, s2) ->
  inode_wf s2 dp -> 0 <= i_size (icache s2 dp) <= MAXFILE * BSIZE ->
  mapped s2 dp 0 (i_size (icache s2 dp)) ->
  0 <= i_nlink (icache s2 dp) < 2 ^ 15 - 1 ->
  create path T_DIR major minor s = Ret (Some ip, s') ->
  let pdev := i_dev (icache s2 dp) in
  let pinum := i_inum (icache s2 dp) in
  let inum := i_inum (icache s' ip) in
  ip <> dp /\ i_dev (icache s' ip) = pdev /\ inum <> pinum /\
  i_dev (icache s' dp) = pdev /\ i_inum (icache s' dp) = pinum /\
  d_nlink (dinodes s' pdev pinum) = d_nlink (dinodes s pdev pinum) + 1 /\
  i_nlink (icache s' dp) = d_nlink (dinodes s pdev pinum) + 1 /\
  d_nlink (dinodes s' pdev inum) = 1 /\ i_nlink (icache s' ip) = 1 /\
  i_type (icache s' ip) = T_DIR /\ i_size (icache s' ip) = 2 * DIRENT_SIZE /\
  mapped s' ip 0 (2 * DIRENT_SIZE) /\
  entry_inum s' ip 0 = inum /\
  entry_name s' ip 0 = strncpy [46] (Z.to_nat DIRSIZ) /\
  entry_inum s' ip DIRENT_SIZE = to_ushort pinum /\
  entry_name s' ip DIRENT_SIZE = strncpy [46; 46] (Z.to_nat DIRSIZ).
Proof.
  intros Hnd Hmax Htf Hl1 Hl2 Hk1 Hk2 Hni C Hcwd Hnp Hlk W Hsz Hmap Hnl H.
  assert (HD : DIRENT_SIZE = 16) by reflexivity.
  (* the cache after nameiparent and ilock *)
  unfold nameiparent in Hnp.
  destruct (namex_cache_post _ _ _ _ _ _ _ Hnp Hcwd) as [(Psb1 & _ & Pc1 & _) Hpos].
  destruct (Pc1 C) as [C1 D1].
  destruct (ilock_cache_post dp s1 tt s2 (fun _ => 1) Hlk) as (Psb2 & _ & Pc2 & _).
  destruct (Pc2 C1) as [C2 D2].
  destruct (ilock_spec _ _ _ _ Hlk)
    as (Hr1 & _ & _ & _ & _ & _ & _ & _ & _ & _ & Href2 & Hlocked2 & Hv2 & _).
  destruct (ck_coherent _ C2 dp ltac:(lia) Hv2) as (Hcn & Hct & Hct0).
  (* the run of create *)
  unfold create in H.
  change (namex path true (repeat 0 (Z.to_nat DIRSIZ)))
    with (nameiparent path (repeat 0 (Z.to_nat DIRSIZ))) in Hnp.
  rewrite (bind_ret _ _ _ _ _ Hnp) in H; cbv iota in H.
  rewrite (bind_ret _ _ _ _ _ Hlk) in H.
  apply bind_inv in H; destruct H as (f & s3 & Hf & H).
  destruct f as [[j o] |].
  { apply bind_inv in H; destruct H as (u & t & _ & H).
    apply bind_inv in H; destruct H as (u' & t' & _ & H).
    unfold bind at 1 in H; unfold get in H.
    apply Z.eqb_neq in Htf; rewrite Htf in H; cbn [andb] in H.
    apply bind_inv in H; destruct H as (u'' & t'' & _ & H); discriminate H. }
  unfold bind at 1 in H; unfold get in H.
  apply bind_inv in H; destruct H as (ip' & s4 & Hal & H).
  apply bind_inv in H; destruct H as (u5 & s5 & Hli & H).
  apply bind_inv in H; destruct H as (u6 & s6 & Hmaj & H).
  apply bind_inv in H; destruct H as (u7 & s7 & Hmin & H).
  apply bind_inv in H; destruct H as (u8 & s8 & Hn1 & H).
  apply bind_inv in H; destruct H as (u9 & s9 & Hup & H).
  apply bind_inv in H; destruct H as (u10 & s10 & Hdots & H).
  unfold bind at 1 in H; unfold get in H.
  apply bind_inv in H; destruct H as (r11 & s11 & Hdl & H).
  destruct (r11 <? 0) eqn:Er11; [discriminate |].
  apply bind_inv in H; destruct H as (u12 & s12 & Hiup & H).
  injection H as -> <-.
  rewrite Z.eqb_refl in Hdots.
  apply bind_inv in Hdots; destruct Hdots as (u13 & s13 & Hinc & Hdots).
  apply bind_inv in Hdots; destruct Hdots as (u14 & s14 & Hupd & Hdots).
  unfold bind at 1 in Hdots; unfold get in Hdots.
  apply bind_inv in Hdots; destruct Hdots as (r15 & s15 & Hdot & Hdots).
  destruct (r15 <? 0) eqn:Er15; [discriminate |].
  unfold bind at 1 in Hdots; unfold get in Hdots.
  apply bind_inv in Hdots; destruct Hdots as (r16 & s16 & Hdotdot & Hdots).
  destruct (r16 <? 0) eqn:Er16; [discriminate |].
  injection Hdots as _ <-.
  apply Z.ltb_ge in Er11; apply Z.ltb_ge in Er15; apply Z.ltb_ge in Er16.
  (* the search for the name in the parent *)
  unfold dirlookup in Hf; unfold bind at 1 in Hf; unfold get in Hf.
  destruct (i_type (icache s2 dp) =? T_DIR) eqn:Et; [| discriminate].
  apply Z.eqb_eq in Et; cbn [negb] in Hf.
  apply dirlookup_loop_none in Hf; try assumption; try lia.
  destruct Hf as [K3 _]; specialize (K3 eq_refl).
  destruct K3 as (K3sb & K3d & K3di & K3c & _ & _).
  assert (C3 : cache_ok s3).
  { apply (cache_ok_ext s2 s3 K3di); [intros q; rewrite K3c; reflexivity | exact C2]. }
  (* the new inode *)
  rewrite K3c in Hal.
  destruct (ialloc_ilock _ _ _ _ _ _ _ C3 Hal Hli)
    as (n & Hn & Ht0 & Hip5 & Hr5 & Ho5 & Hnew & Sb5 & Dk5 & _ & _ & Di5).
  destruct (Hnew dp) as [Hne Hid];
    [rewrite K3c; lia | rewrite K3c; exact Hv2 |].
  assert (Hne' : ip <> dp) by congruence.
  assert (Hpn : n <> i_inum (icache s2 dp)).
  { intros E; apply Hid; rewrite K3c; split; [reflexivity | symmetry; exact E]. }
  (* its fields and its dinode *)
  destruct (set_inode_facts _ _ _ _ _ Hmaj) as (Sb6 & Dk6 & Di6 & Hip6 & Ho6).
  destruct (set_inode_facts _ _ _ _ _ Hmin) as (Sb7 & Dk7 & Di7 & Hip7 & Ho7).
  destruct (set_inode_facts _ _ _ _ _ Hn1) as (Sb8 & Dk8 & Di8 & Hip8 & Ho8).
  destruct (iupdate_facts _ _ _ _ Hup) as (Sb9 & Dk9 & Ic9 & Di9).
  destruct (set_inode_facts _ _ _ _ _ Hinc) as (Sb13 & Dk13 & Di13 & Hdp13 & Ho13).
  destruct (iupdate_facts _ _ _ _ Hupd) as (Sb14 & Dk14 & Ic14 & Di14).
  set (pdev := i_dev (icache s2 dp)) in *.
  set (pinum := i_inum (icache s2 dp)) in *.
  set (nl := i_nlink (icache s2 dp)) in *.
  assert (Aip : icache s14 ip
                = mkInode pdev n (i_ref (icache s5 ip)) true 1 T_DIR major minor 1 0
                    (fun _ => 0)).
  { rewrite Ic14, (Ho13 ip Hne'), Ic9, Hip8, Hip7, Hip6, Hip5; reflexivity. }
  assert (Adp9 : icache s9 dp = icache s2 dp).
  { rewrite Ic9, (Ho8 dp), (Ho7 dp), (Ho6 dp), (Ho5 dp), K3c by congruence.
    reflexivity. }
  assert (Adp : icache s14 dp = with_nlink (nl + 1) (icache s2 dp)).
  { rewrite Ic14, Hdp13, Adp9; fold nl; rewrite to_short_small by lia; reflexivity. }
  assert (Asb : sb s14 = sb s2) by congruence.
  assert (Adk : disk s14 = disk s2) by congruence.
  assert (Adn : d_nlink (dinodes s14 pdev pinum) = nl + 1 /\
                d_nlink (dinodes s14 pdev n) = 1).
  { rewrite !Di14, Hdp13, Adp9; cbn [i_dev i_inum i_nlink with_nlink].
    fold pdev pinum nl; rewrite !Z.eqb_refl; cbn [andb d_nlink].
    rewrite to_short_small by lia; split; [reflexivity |].
    destruct (n =? pinum) eqn:E; [apply Z.eqb_eq in E; contradiction |].
    cbn [andb]; rewrite Di13, Di9, Hip8, Hip7, Hip6, Hip5.
    cbn [i_dev i_inum i_nlink with_nlink with_minor with_major].
    rewrite !Z.eqb_refl; reflexivity. }
  clear Hmaj Hmin Hn1 Hup Hinc Hupd.
  (* the two directories before the entries are written *)
  assert (Hbig : 2 * DIRENT_SIZE <= MAXFILE * BSIZE).
  { unfold MAXFILE; rewrite NINDIRECT_val, BSIZE_val, HD; lia. }
  assert (Ddp : i_dev (icache s14 dp) = pdev) by (rewrite Adp; reflexivity).
  assert (Dip : i_dev (icache s14 ip) = pdev) by (rewrite Aip; reflexivity).
  destruct (same_blocks s2 s14 dp Asb Adk) as (Rdp14 & _ & Wdp14);
    [rewrite Adp; reflexivity | rewrite Adp; reflexivity |].
  specialize (Wdp14 W).
  assert (Wip14 : inode_wf s14 ip).
  { apply inode_wf_empty; rewrite ?Dip, <- ?Ddp.
    - intros k; rewrite Aip; reflexivity.
    - apply (wf_size _ _ Wdp14).
    - intros x Hx; apply (wf_bitmap _ _ Wdp14 x Hx).
    - apply (wf_zero _ _ Wdp14). }
  assert (Dis14 : forall q, valid_pos q -> ref_at s14 dp q <> 0 ->
            foreign s14 ip (ref_at s14 dp q)).
  { intros q Hq Hnz; unfold foreign; rewrite Dip, <- Ddp.
    split; [apply (wf_used _ _ Wdp14 q Hq Hnz) |]; split.
    - intros x Hx E; destruct (wf_bitmap _ _ Wdp14 x Hx) as [_ Hbm].
      apply (Hbm q Hq Hnz); exact E.
    - intros p _; rewrite ref_at_empty; [congruence |].
      intros k; rewrite Aip; reflexivity. }
  (* the entry "." *)
  assert (Hin14 : i_inum (icache s14 ip) = n) by (rewrite Aip; reflexivity).
  assert (Hsz14 : i_size (icache s14 ip) = 0) by (rewrite Aip; reflexivity).
  rewrite Hin14 in Hdot.
  destruct (dirlink_spec ip [46] n s14 r15 s15 Hnd Hmax Wip14) as
    (off15 & Hoff15 & _ & Wip15 & Hsz15 & Sb15 & _ & Ho15 & Aa15 & Hin15 & _ & Hfor15
     & Hdi15 & _); try assumption; try (rewrite Hsz14; lia).
  { rewrite Hsz14; intros o Ho; lia. }
  rewrite Hsz14 in Hoff15, Hsz15.
  assert (off15 = 0) by lia; subst off15.
  rewrite Z.max_r in Hsz15 by lia; rewrite Z.add_0_l in Hsz15, Hin15.
  assert (Ddp15 : icache s15 dp = icache s14 dp) by (apply Ho15; congruence).
  destruct (adm_eq _ _ Aa15) as (Ad15 & Ai15 & _ & _ & _ & At15 & An15).
  destruct (other_file_kept ip dp s14 s15 Wdp14 Wip15 Sb15 Ddp15) as
    (Wdp15 & Rdp15 & Dis15); try assumption; try congruence.
  (* the entry ".." *)
  assert (Hpi15 : i_inum (icache s15 dp) = pinum) by (rewrite Ddp15, Adp; reflexivity).
  rewrite Hpi15 in Hdotdot.
  assert (Hmap15 : mapped s15 ip 0 (i_size (icache s15 ip))).
  { rewrite Hsz15; intros o Ho; apply (Hin15 o); lia. }
  destruct (entry_of_bytes s15 ip 0 [46] n) as [Hen15 Hnm15].
  { intros o Ho; apply (Hin15 o); lia. }
  rewrite to_ushort_small in Hen15 by (rewrite K3sb, Psb2, Psb1 in Hn; lia).
  destruct (dirlink_spec ip [46; 46] pinum s15 r16 s16 Hnd Hmax Wip15) as
    (off16 & Hoff16 & _ & Wip16 & Hsz16 & Sb16 & _ & Ho16 & Aa16 & Hin16 & Hout16
     & Hfor16 & Hdi16 & Hfull16); try assumption; try (rewrite Hsz15; lia).
  rewrite Hsz15 in Hoff16, Hsz16, Hfull16.
  assert (off16 = DIRENT_SIZE).
  { apply Hfull16; intros o Ho Ho' _.
    assert (o = 0) by lia; subst o; rewrite Hen15; lia. }
  subst off16; rewrite Z.max_r in Hsz16 by lia.
  assert (Ddp16 : icache s16 dp = icache s15 dp) by (apply Ho16; congruence).
  destruct (adm_eq _ _ Aa16) as (Ad16 & Ai16 & _ & _ & _ & At16 & An16).
  destruct (other_file_kept ip dp s15 s16 Wdp15 Wip16 Sb16 Ddp16) as
    (Wdp16 & Rdp16 & Dis16); try assumption; try congruence.
  (* the new directory after the two entries *)
  assert (Hby16 : forall o, 0 <= o < 2 * DIRENT_SIZE ->
            ref_at s16 ip (data_pos (o / BSIZE)) <> 0 /\
            file_byte s16 ip o =
            if o <? DIRENT_SIZE then nth (Z.to_nat o) (dirent_bytes [46] n) 0
            else nth (Z.to_nat (o - DIRENT_SIZE)) (dirent_bytes [46; 46] pinum) 0).
  { intros o Ho; destruct (o <? DIRENT_SIZE) eqn:E.
    - apply Z.ltb_lt in E; destruct (Hin15 o ltac:(lia)) as [R15 B15].
      destruct (Hout16 o ltac:(lia) ltac:(left; lia) R15) as [R16 B16].
      split; [exact R16 |]; rewrite B16, B15, Z.sub_0_r; reflexivity.
    - apply Z.ltb_ge in E; apply (Hin16 o); lia. }
  assert (Ddp16' : i_dev (icache s16 dp) = pdev) by (rewrite Ddp16, Ddp15; exact Ddp).
  assert (Dip16 : i_dev (icache s16 ip) = pdev) by congruence.
  assert (Iip16 : i_inum (icache s16 ip) = n) by congruence.
  pose proof (foreign_sym ip dp s16 Wip16 ltac:(congruence) Dis16) as Eip16.
  (* the entry in the parent *)
  rewrite Iip16 in Hdl.
  assert (Sdp16 : i_size (icache s16 dp) = i_size (icache s2 dp))
    by (rewrite Ddp16, Ddp15, Adp; reflexivity).
  assert (Hmap16 : mapped s16 dp 0 (i_size (icache s16 dp))).
  { rewrite Sdp16; intros o Ho.
    assert (Hbo : 0 <= o / BSIZE < MAXFILE).
    { rewrite BSIZE_val in *; split;
        [apply Z.div_pos; lia | apply Z.div_lt_upper_bound; lia]. }
    pose proof (data_pos_valid _ Hnd Hbo) as Hv.
    rewrite (Rdp16 _ Hv), (Rdp15 _ Hv), Rdp14; apply Hmap; exact Ho. }
  destruct (dirlink_spec dp name n s16 r11 s11 Hnd Hmax Wdp16) as
    (off11 & _ & _ & _ & _ & Sb11 & _ & Ho11 & Aa11 & _ & _ & Hfor11 & Hdi11 & _);
    try assumption; try (rewrite Sdp16; lia).
  destruct (adm_eq _ _ Aa11) as (Ad11 & Ai11 & _ & _ & _ & _ & An11).
  assert (Nl16 : i_nlink (icache s16 dp) = nl + 1)
    by (rewrite Ddp16, Ddp15, Adp; reflexivity).
  assert (Pi16 : i_inum (icache s16 dp) = pinum)
    by (rewrite Ddp16, Ddp15, Adp; reflexivity).
  assert (Iip11 : icache s11 ip = icache s16 ip) by (apply Ho11; exact Hne').
  assert (Kip11 : forall p, valid_pos p -> ref_at s16 ip p <> 0 ->
            forall o, disk s11 (i_dev (icache s16 ip)) (ref_at s16 ip p) o
                      = disk s16 (i_dev (icache s16 ip)) (ref_at s16 ip p) o).
  { intros p Hp Hnz; destruct (Hfor11 _ (Eip16 p Hp Hnz)) as [_ K].
    rewrite Dip16, <- Ddp16'; exact K. }
  (* the release of the parent *)
  destruct (iunlockput_linked dp s11 u12 s12 ltac:(lia) Hiup)
    as (Sb12 & Dk12 & Di12 & Ho12 & Ad12 & Ai12 & An12).
  assert (Iip12 : icache s12 ip = icache s16 ip)
    by (rewrite (Ho12 ip Hne'); exact Iip11).
  assert (Hby12 : forall o, 0 <= o < 2 * DIRENT_SIZE ->
            ref_at s12 ip (data_pos (o / BSIZE)) <> 0 /\
            file_byte s12 ip o = file_byte s16 ip o).
  { intros o Ho; destruct (Hby16 o Ho) as [R16 _].
    destruct (file_byte_kept s16 s11 ip o Hnd ltac:(lia) ltac:(lia) Iip11 Kip11 R16)
      as [R11 B11].
    destruct (same_blocks s11 s12 ip Sb12 Dk12) as (R12 & B12 & _);
      [rewrite (Ho12 ip Hne'); reflexivity | rewrite (Ho12 ip Hne'); reflexivity |].
    rewrite R12, B12, R11, B11; split; [exact R16 | reflexivity]. }
  (* conclusions *)
  assert (Hs : d_nlink (dinodes s pdev pinum) = nl).
  { rewrite <- D1, <- D2; symmetry; exact Hcn. }
  cbv zeta; rewrite Iip12, Iip16, Hs.
  split; [exact Hne' |]; split; [exact Dip16 |]; split; [exact Hpn |].
  split; [congruence |]; split; [congruence |]; split.
  { rewrite Di12; destruct (Hdi11 pdev pinum) as [-> | (_ & _ & -> & _)]; [| lia].
    destruct (Hdi16 pdev pinum) as [-> | (_ & E & _)]; [| congruence].
    destruct (Hdi15 pdev pinum) as [-> | (_ & E & _)]; [| congruence].
    apply Adn. }
  split; [congruence |]; split.
  { rewrite Di12; destruct (Hdi11 pdev n) as [-> | (_ & E & _)]; [| congruence].
    assert (N14 : i_nlink (icache s14 ip) = 1) by (rewrite Aip; reflexivity).
    destruct (Hdi16 pdev n) as [-> | (_ & _ & -> & _)]; [| congruence].
    destruct (Hdi15 pdev n) as [-> | (_ & _ & -> & _)]; [apply Adn | exact N14]. }
  split; [rewrite An16, An15, Aip; reflexivity |].
  split; [rewrite At16, At15, Aip; reflexivity |].
  split; [rewrite Hsz16; lia |]; split.
  { intros o Ho; apply (Hby12 o); lia. }
  destruct (entry_of_bytes s12 ip 0 [46] n) as [E1 E2].
  { intros o Ho; destruct (Hby12 o ltac:(lia)) as [_ ->].
    destruct (Hby16 o ltac:(lia)) as [_ ->].
    rewrite Z.sub_0_r; destruct (o <? DIRENT_SIZE) eqn:E; [reflexivity |].
    apply Z.ltb_ge in E; lia. }
  destruct (entry_of_bytes s12 ip DIRENT_SIZE [46; 46] pinum) as [E3 E4].
  { intros o Ho; destruct (Hby12 o ltac:(lia)) as [_ ->].
    destruct (Hby16 o ltac:(lia)) as [_ ->].
    destruct (o <? DIRENT_SIZE) eqn:E; [apply Z.ltb_lt in E; lia | reflexivity]. }
  rewrite to_ushort_small in E1 by (rewrite K3sb, Psb2, Psb1 in Hn; lia).
  repeat split; assumption.
Qed.

(** ** More on the block allocator *)

Lemma land_lnot_same v m : Z.land (Z.land v (Z.lnot m)) m = 0.
Proof.
  rewrite <- Z.land_assoc, (Z.land_comm (Z.lnot m) m), Z.land_lnot_diag.
  apply Z.land_0_r.
Qed.

Lemma land_lnot_other v m m' :
  Z.land m m' = 0 -> Z.land (Z.land v (Z.lnot m)) m' = Z.land v m'.
Proof.
  intros H; rewrite <- Z.land_assoc; f_equal.
  apply Z.bits_inj'; intros i Hi.
  rewrite Z.land_spec, Z.lnot_spec by exact Hi.
  assert (Hb : Z.testbit (Z.land m m') i = false) by (rewrite H; apply Z.bits_0).
  rewrite Z.land_spec in Hb.
  destruct (Z.testbit m i), (Z.testbit m' i); try reflexivity; discriminate.
Qed.

Lemma balloc_bits_none fuel dev b bi s :
  0 <= bi -> (Z.to_nat (BPB - bi) <= fuel)%nat ->
  (forall x, b + bi <= x < b + BPB -> x < sb_size (sb s) -> block_used s dev x = true) ->
  0 <= b -> b mod BPB = 0 ->
  balloc_bits fuel dev b bi s = Ret (None, s).
Proof.
  intros Hbi Hf Hall Hb Hm.
  destruct (balloc_bits_returns fuel dev b bi s Hbi Hf) as (r & s' & Hr).
  pose proof (balloc_bits_spec _ _ _ _ _ _ _ Hb Hm Hbi Hr) as Hs.
  destruct r as [a |].
  - destruct Hs as (H1 & H2 & H3 & _).
    rewrite (Hall a H1 H2) in H3; discriminate.
  - destruct Hs as [-> _]; exact Hr.
Qed.

Lemma balloc_blocks_none fuel dev b s :
  0 <= b -> b mod BPB = 0 -> (Z.to_nat (sb_size (sb s) - b) <= fuel)%nat ->
  (forall x, b <= x < sb_size (sb s) -> block_used s dev x = true) ->
  balloc_blocks fuel dev b s = Panic "balloc: out of blocks".
Proof.
  revert b; induction fuel as [| fuel IH]; intros b Hb Hm Hf Hall;
    cbn [balloc_blocks].
  - destruct (b <? sb_size (sb s)) eqn:E; [rewrite Z.ltb_lt in E; lia | reflexivity].
  - destruct (b <? sb_size (sb s)) eqn:E; [| reflexivity].
    rewrite Z.ltb_lt in E.
    unfold bind at 1.
    rewrite (balloc_bits_none (Z.to_nat BPB) dev b 0 s);
      [| lia | rewrite Z.sub_0_r; lia | intros x Hx Hx'; apply Hall; lia
       | exact Hb | exact Hm].
    pose proof BPB_val as HB.
    apply IH; [lia | | lia | intros x Hx; apply Hall; lia].
    rewrite HB in *; Z.div_mod_to_equations; lia.
Qed.

(** X1. balloc hands out the lowest-numbered block whose bit is clear in the
    bitmap. When the bitmap blocks are themselves marked as used, the bit of
    that block is set afterwards, the bits of all other blocks are as
    before, the block is filled with zeroes, and no block other than it and
    the bitmap block holding its bit is written. *)
Theorem balloc_first_free (dev : Z) (s s' : fs) (a : Z) :
  (forall x, 0 <= x < sb_size (sb s) -> reserved s dev (BBLOCK x (sb s))) ->
  balloc dev s = Ret (a, s') ->
  0 <= a < sb_size (sb s) /\
  block_used s dev a = false /\
  (forall x, 0 <= x < a -> block_used s dev x = true) /\
  block_used s' dev a = true /\
  (forall x, 0 <= x < sb_size (sb s) -> x <> a ->
     block_used s' dev x = block_used s dev x) /\
  (forall o, disk s' dev a o = 0) /\
  (forall dev' b o, b <> a -> b <> BBLOCK a (sb s) ->
     disk s' dev' b o = disk s dev' b o) /\
  sb s' = sb s /\ dinodes s' = dinodes s /\ icache s' = icache s.
Proof.
  intros Hbm H; apply balloc_spec in H; destruct H as (Ha & Hfree & Hlow & ->).
  assert (Hne : forall x, 0 <= x < sb_size (sb s) -> BBLOCK x (sb s) <> a).
  { intros x Hx E; destruct (Hbm x Hx) as [Hr | [Hr | Hr]]; rewrite E in Hr;
      [lia | lia | rewrite Hfree in Hr; discriminate]. }
  split; [exact Ha |]; split; [exact Hfree |]; split; [exact Hlow |].
  split; [apply used_alloc; [apply Hne; exact Ha | right; reflexivity] |].
  split; [intros x Hx Hxa; apply used_alloc_other; [lia | lia | exact Hxa | apply Hne; exact Hx] |].
  split; [intros o; apply disk_alloc_zero |].
  split; [intros dev' b o H1 H2; apply disk_alloc_other; assumption |].
  repeat split; reflexivity.
Qed.

(** X2. When the bit of every block of the device is set, balloc does not
    return: it stops in panic("balloc: out of blocks"). *)
Theorem balloc_out_of_blocks (dev : Z) (s : fs) :
  (forall x, 0 <= x < sb_size (sb s) -> block_used s dev x = true) ->
  balloc dev s = Panic "balloc: out of blocks".
Proof.
  intros Hall; unfold balloc; apply balloc_blocks_none;
    [lia | reflexivity | lia | exact Hall].
Qed.

Lemma bfree_bit dev b s :
  block_used s dev b = true ->
  bfree dev b s
  = Ret (tt, put_byte dev (BBLOCK b (sb s)) (b mod BPB / 8)
               (Z.land (disk s dev (BBLOCK b (sb s)) (b mod BPB / 8))
                       (Z.lnot (Z.shiftl 1 (b mod 8)))) s).
Proof.
  unfold block_used, bfree; intros H.
  assert (E8 : b mod BPB mod 8 = b mod 8)
    by (rewrite BPB_val; Z.div_mod_to_equations; lia).
  rewrite E8; apply negb_true_iff in H; rewrite H; reflexivity.
Qed.

Lemma bfree_free_block dev b s :
  block_used s dev b = false -> bfree dev b s = Panic "freeing free block".
Proof.
  unfold block_used, bfree; intros H.
  assert (E8 : b mod BPB mod 8 = b mod 8)
    by (rewrite BPB_val; Z.div_mod_to_equations; lia).
  rewrite E8; apply negb_false_iff in H; rewrite H; reflexivity.
Qed.

Lemma used_free_same dev b s :
  block_used (put_byte dev (BBLOCK b (sb s)) (b mod BPB / 8)
               (Z.land (disk s dev (BBLOCK b (sb s)) (b mod BPB / 8))
                       (Z.lnot (Z.shiftl 1 (b mod 8)))) s) dev b = false.
Proof.
  unfold block_used; cbn [sb put_byte set_disk].
  rewrite disk_put_byte, !Z.eqb_refl; cbn [andb].
  rewrite land_lnot_same; reflexivity.
Qed.

Lemma used_free_other dev b s x :
  0 <= b -> 0 <= x -> x <> b ->
  block_used (put_byte dev (BBLOCK b (sb s)) (b mod BPB / 8)
               (Z.land (disk s dev (BBLOCK b (sb s)) (b mod BPB / 8))
                       (Z.lnot (Z.shiftl 1 (b mod 8)))) s) dev x
  = block_used s dev x.
Proof.
  intros Hb Hx Hne; unfold block_used; cbn [sb put_byte set_disk].
  rewrite disk_put_byte, Z.eqb_refl; cbn [andb].
  destruct ((BBLOCK x (sb s) =? BBLOCK b (sb s)) && (x mod BPB / 8 =? b mod BPB / 8))
    eqn:E; [| reflexivity].
  apply andb_true_iff in E; destruct E as [E1 E2]; apply Z.eqb_eq in E1, E2.
  rewrite <- E1, <- E2, land_lnot_other; [reflexivity |].
  apply land_bits_disjoint; try (apply Z.mod_pos_bound; lia).
  unfold BBLOCK in E1; rewrite BPB_val in *; intros H8.
  apply Hne; Z.div_mod_to_equations; lia.
Qed.

(** X3. bfree of a block whose bit is set clears that bit and no other bit
    of the bitmap, and writes nothing but the bitmap block; freeing the same
    block once more stops in panic("freeing free block"). *)
Theorem bfree_clears_bit (dev b : Z) (s : fs) :
  0 <= b -> block_used s dev b = true ->
  exists s',
    bfree dev b s = Ret (tt, s') /\
    block_used s' dev b = false /\
    (forall x, 0 <= x -> x <> b -> block_used s' dev x = block_used s dev x) /\
    (forall dev' blk o, blk <> BBLOCK b (sb s) -> disk s' dev' blk o = disk s dev' blk o) /\
    sb s' = sb s /\ dinodes s' = dinodes s /\ icache s' = icache s /\
    bfree dev b s' = Panic "freeing free block".
Proof.
  intros Hb Hu; eexists; split; [apply bfree_bit; exact Hu |].
  split; [apply used_free_same |].
  split; [intros x Hx Hne; apply used_free_other; assumption |].
  split.
  { intros dev' blk o Hne; rewrite disk_put_byte.
    destruct (blk =? BBLOCK b (sb s)) eqn:E; [apply Z.eqb_eq in E; contradiction |].
    rewrite andb_false_r; reflexivity. }
  repeat split; try reflexivity.
  apply bfree_free_block, used_free_same.
Qed.

(** X4. Allocating a block and freeing it again gives back the bitmap: when
    the bitmap blocks are marked as used, bfree of the block that balloc
    returned does not panic, and afterwards every block of the device has
    the bit it had before the allocation. *)
Theorem balloc_bfree_roundtrip (dev : Z) (s s1 : fs) (a : Z) :
  (forall x, 0 <= x < sb_size (sb s) -> reserved s dev (BBLOCK x (sb s))) ->
  balloc dev s = Ret (a, s1) ->
  exists s2,
    bfree dev a s1 = Ret (tt, s2) /\
    forall x, 0 <= x < sb_size (sb s) -> block_used s2 dev x = block_used s dev x.
Proof.
  intros Hbm H; apply balloc_spec in H; destruct H as (Ha & Hfree & Hlow & ->).
  assert (Hne : forall x, 0 <= x < sb_size (sb s) -> BBLOCK x (sb s) <> a).
  { intros x Hx E; destruct (Hbm x Hx) as [Hr | [Hr | Hr]]; rewrite E in Hr;
      [lia | lia | rewrite Hfree in Hr; discriminate]. }
  assert (Hu : block_used (zero_block dev a (mark_used dev a s)) dev a = true)
    by (apply used_alloc; [apply Hne; exact Ha | right; reflexivity]).
  eexists; split; [apply bfree_bit; exact Hu |].
  intros x Hx; destruct (Z.eq_dec x a) as [-> | Hxa].
  - rewrite used_free_same, Hfree; reflexivity.
  - rewrite used_free_other by lia.
    apply used_alloc_other; [lia | lia | exact Hxa | apply Hne; exact Hx].
Qed.
(** X5. The block that bmap returned for a block index stays the block of
    that index: asking again returns the same block and changes nothing, a
    later bmap for another index returns a different block, and after it
    the first index still has its block. *)
Theorem bmap_stable (s s1 s2 : fs) (ip : nat) (bn bn' a a' : Z) :
  0 <= NDIRECT -> inode_wf s ip -> 0 <= bn < MAXFILE -> 0 <= bn' < MAXFILE ->
  bmap ip bn s = Ret (a, s1) -> bmap ip bn' s1 = Ret (a', s2) ->
  bmap ip bn s1 = Ret (a, s1) /\
  (bn' = bn -> a' = a /\ s2 = s1) /\
  (bn' <> bn -> a' <> a) /\
  bmap ip bn s2 = Ret (a, s2).
Proof.
  intros Hnd W Hbn Hbn' H1 H2.
  pose proof (data_pos_valid bn Hnd Hbn) as Hv.
  pose proof (data_pos_valid bn' Hnd Hbn') as Hv'.
  apply (bmap_step s ip bn a s1 Hnd W Hbn) in H1.
  destruct H1 as (Ha0 & Hra & W1 & _).
  assert (Hsame : bmap ip bn s1 = Ret (a, s1)).
  { rewrite <- Hra; apply bmap_mapped; [exact Hnd | exact Hbn | rewrite Hra; exact Ha0]. }
  pose proof (bmap_step s1 ip bn' a' s2 Hnd W1 Hbn' H2) as H3.
  destruct H3 as (Ha0' & Hra' & W2 & Hkeep & _).
  assert (Hra2 : ref_at s2 ip (data_pos bn) = a).
  { rewrite Hkeep; [exact Hra | exact Hv | rewrite Hra; exact Ha0]. }
  split; [exact Hsame |]; split; [| split].
  - intros ->; rewrite Hsame in H2; injection H2 as <- <-; split; reflexivity.
  - intros Hne E; apply Hne; symmetry.
    apply (data_pos_inj bn bn' Hnd); [lia | lia |].
    apply (wf_inj _ _ W2); [exact Hv | exact Hv' | rewrite Hra2; exact Ha0 |].
    rewrite Hra2, Hra'; symmetry; exact E.
  - rewrite <- Hra2; apply bmap_mapped; [exact Hnd | exact Hbn | rewrite Hra2; exact Ha0].
Qed.

(** ** More on the inode cache *)

Lemma iget_loop_finds k idx dev inum empty s j :
  (idx <= j < idx + k)%nat ->
  0 < i_ref (icache s j) -> i_dev (icache s j) = dev -> i_inum (icache s j) = inum ->
  (forall q, (idx <= q < j)%nat ->
     ~ (0 < i_ref (icache s q) /\ i_dev (icache s q) = dev /\ i_inum (icache s q) = inum)) ->
  iget_loop k idx dev inum empty s
  = Ret (j, set_icache (updn (icache s) j
                 (with_ref (i_ref (icache s j) + 1) (icache s j))) s).
Proof.
  intros Hj Hr Hd Hi; revert idx empty Hj; induction k as [| k IH];
    intros idx empty Hj Hno; [lia |].
  cbn [iget_loop]; unfold bind at 1; unfold get.
  destruct (Nat.eq_dec idx j) as [-> | Hne].
  - assert (E : (i_ref (icache s j) >? 0) && (i_dev (icache s j) =? dev)
                && (i_inum (icache s j) =? inum) = true).
    { rewrite Hd, Hi, !Z.eqb_refl, !andb_true_r; apply Z.gtb_lt; exact Hr. }
    rewrite E; reflexivity.
  - assert (E : (i_ref (icache s idx) >? 0) && (i_dev (icache s idx) =? dev)
                && (i_inum (icache s idx) =? inum) = false).
    { destruct (_ && _ && _) eqn:E; [| reflexivity].
      apply andb_prop in E; destruct E as [E E3].
      apply andb_prop in E; destruct E as [E1 E2].
      apply Z.gtb_lt in E1; apply Z.eqb_eq in E2, E3.
      exfalso; apply (Hno idx); [lia | repeat split; assumption]. }
    rewrite E; apply IH; [lia | intros q Hq; apply Hno; lia].
Qed.

Lemma iget_loop_full k idx dev inum s :
  (forall q, (idx <= q < idx + k)%nat ->
     0 < i_ref (icache s q) /\
     ~ (i_dev (icache s q) = dev /\ i_inum (icache s q) = inum)) ->
  iget_loop k idx dev inum None s = Panic "iget: no inodes".
Proof.
  revert idx; induction k as [| k IH]; intros idx Hall; [reflexivity |].
  cbn [iget_loop]; unfold bind at 1; unfold get.
  destruct (Hall idx ltac:(lia)) as [Hr Hne].
  assert (E : (i_ref (icache s idx) >? 0) && (i_dev (icache s idx) =? dev)
              && (i_inum (icache s idx) =? inum) = false).
  { destruct (_ && _ && _) eqn:E; [| reflexivity].
    apply andb_prop in E; destruct E as [E E3].
    apply andb_prop in E; destruct E as [E1 E2].
    apply Z.eqb_eq in E2, E3; exfalso; apply Hne; split; assumption. }
  rewrite E.
  assert (E0 : (i_ref (icache s idx) =? 0) = false) by (apply Z.eqb_neq; lia).
  rewrite E0; apply IH; intros q Hq; apply Hall; lia.
Qed.

(** X6. The inode cache holds an inode once: when iget has returned a slot
    for (dev, inum), a further iget of the same inode returns the same slot
    with one reference more and changes no other slot, and an iget that
    returns that slot is an iget of that inode. The cache invariant is
    kept. *)
Theorem iget_shares_slot (dev inum : Z) (s s1 : fs) (j : nat) :
  cache_ok s -> iget dev inum s = Ret (j, s1) ->
  (j < NINODE)%nat /\ cache_ok s1 /\
  i_dev (icache s1 j) = dev /\ i_inum (icache s1 j) = inum /\
  (exists s2,
     iget dev inum s1 = Ret (j, s2) /\ cache_ok s2 /\
     i_ref (icache s2 j) = i_ref (icache s1 j) + 1 /\
     forall q, q <> j -> icache s2 q = icache s1 q) /\
  (forall dev' inum' s3,
     iget dev' inum' s1 = Ret (j, s3) -> dev' = dev /\ inum' = inum).
Proof.
  intros C H.
  assert (Hj : (j < NINODE)%nat).
  { unfold iget in H; apply iget_loop_spec in H;
      [lia | intros e He; discriminate | intros q Hq; lia]. }
  pose proof (iget_cache_post _ _ _ _ _ H) as (P & Hr & Hd & Hi & _).
  destruct P as (_ & _ & Pc & _); destruct (Pc C) as [C1 _].
  split; [exact Hj |]; split; [exact C1 |]; split; [exact Hd |]; split; [exact Hi |].
  split.
  - assert (H2 : iget dev inum s1
                 = Ret (j, set_icache (updn (icache s1) j
                              (with_ref (i_ref (icache s1 j) + 1) (icache s1 j))) s1)).
    { unfold iget; apply iget_loop_finds; try assumption; [lia |].
      intros q Hq (Hq1 & Hq2 & Hq3).
      assert (q = j) by (apply (ck_unique _ C1); congruence); lia. }
    eexists; split; [exact H2 |].
    pose proof (iget_cache_post _ _ _ _ _ H2) as (P2 & _).
    destruct P2 as (_ & _ & Pc2 & _); destruct (Pc2 C1) as [C2 _].
    split; [exact C2 |]; cbn [icache set_icache]; split.
    + rewrite updn_same; reflexivity.
    + intros q Hq; rewrite updn_other by exact Hq; reflexivity.
  - intros dev' inum' s3 H3.
    pose proof (iget_cache_post _ _ _ _ _ H3) as (P3 & _ & Hd3 & Hi3 & _).
    destruct P3 as (_ & _ & _ & Ph).
    destruct (Ph j ltac:(cbn beta; lia)) as (E1 & E2 & _).
    split; congruence.
Qed.

(** X7. When every slot of the inode cache is in use for another inode,
    iget does not return: it stops in panic("iget: no inodes"). *)
Theorem iget_no_inodes (dev inum : Z) (s : fs) :
  (forall q, (q < NINODE)%nat ->
     0 < i_ref (icache s q) /\
     ~ (i_dev (icache s q) = dev /\ i_inum (icache s q) = inum)) ->
  iget dev inum s = Panic "iget: no inodes".
Proof.
  intros Hall; unfold iget; apply iget_loop_full.
  intros q Hq; apply Hall; lia.
Qed.

Lemma ialloc_loop_first fuel dev type s ip s' : forall inum,
  ialloc_loop fuel dev type inum s = Ret (ip, s') ->
  forall m, inum <= m < i_inum (icache s' ip) -> d_type (dinodes s dev m) <> 0.
Proof.
  induction fuel as [| fuel IH]; intros inum;
    cbn [ialloc_loop]; unfold bind at 1; unfold get.
  - destruct (inum <? sb_ninodes (sb s)); discriminate.
  - destruct (inum <? sb_ninodes (sb s)) eqn:E; [| discriminate].
    destruct (d_type (dinodes s dev inum) =? 0) eqn:Et.
    + unfold bind at 1; unfold modify; intros H.
      apply iget_result in H; destruct H as (_ & _ & _ & _ & Hi & _).
      intros m Hm; lia.
    + intros H m Hm; apply Z.eqb_neq in Et.
      destruct (Z.eq_dec m inum) as [-> | Hne]; [exact Et |].
      apply (IH _ H); lia.
Qed.

Lemma ialloc_loop_none fuel dev type s : forall inum,
  (Z.to_nat (sb_ninodes (sb s) - inum) <= fuel)%nat ->
  (forall n, inum <= n < sb_ninodes (sb s) -> d_type (dinodes s dev n) <> 0) ->
  ialloc_loop fuel dev type inum s = Panic "ialloc: no inodes".
Proof.
  induction fuel as [| fuel IH]; intros inum Hf Hall;
    cbn [ialloc_loop]; unfold bind at 1; unfold get.
  - destruct (inum <? sb_ninodes (sb s)) eqn:E; [rewrite Z.ltb_lt in E; lia | reflexivity].
  - destruct (inum <? sb_ninodes (sb s)) eqn:E; [| reflexivity].
    rewrite Z.ltb_lt in E.
    destruct (d_type (dinodes s dev inum) =? 0) eqn:Et.
    + apply Z.eqb_eq in Et; exfalso; apply (Hall inum); [lia | exact Et].
    + apply IH; [lia | intros n Hn; apply Hall; lia].
Qed.

(** X8. ialloc takes the free on-disk inode with the lowest number: every
    inode from number 1 up to the one it returns had a type other than 0.
    It writes the record of that inode only, and no block of the disk. *)
Theorem ialloc_first_free (s s' : fs) (dev type : Z) (ip : nat) :
  ialloc dev type s = Ret (ip, s') ->
  let inum := i_inum (icache s' ip) in
  (forall m, 1 <= m < inum -> d_type (dinodes s dev m) <> 0) /\
  (forall dev' m, ~ (dev' = dev /\ m = inum) ->
     dinodes s' dev' m = dinodes s dev' m) /\
  disk s' = disk s /\ 0 < i_ref (icache s' ip) /\
  (forall q, q <> ip -> icache s' q = icache s q).
Proof.
  unfold ialloc; unfold bind at 1; unfold get; intros H; cbn zeta.
  split; [apply (ialloc_loop_first _ _ _ _ _ _ _ H) |].
  apply ialloc_loop_iget in H; destruct H as (n & Hn & Hfree & Hg).
  apply iget_result in Hg; destruct Hg as (Hd & Hk & _ & _ & Hi & Hr & Ho).
  split; [| split; [exact Hk | split; [exact Hr | exact Ho]]].
  intros dev' m Hne; rewrite Hi in Hne; rewrite Hd; cbn [dinodes set_dinodes]; unfold upd.
  destruct (dev' =? dev) eqn:E1; [| reflexivity].
  destruct (m =? n) eqn:E2; [| apply Z.eqb_eq in E1; subst dev'; reflexivity].
  apply Z.eqb_eq in E1, E2; exfalso; apply Hne; split; assumption.
Qed.

(** X9. When every on-disk inode from number 1 on has a type other than 0,
    ialloc does not return: it stops in panic("ialloc: no inodes"). *)
Theorem ialloc_no_inodes (s : fs) (dev type : Z) :
  (forall n, 1 <= n < sb_ninodes (sb s) -> d_type (dinodes s dev n) <> 0) ->
  ialloc dev type s = Panic "ialloc: no inodes".
Proof.
  intros Hall; unfold ialloc; unfold bind at 1; unfold get.
  apply ialloc_loop_none; [lia | exact Hall].
Qed.

(** ** More on directories *)

(** A name is equal, for namecmp, to the name that strncpy stores for it. *)
Lemma strncmp_strncpy n : forall name, strncmp name (strncpy name n) n = 0.
Proof.
  induction n as [| n IH]; intros name; cbn [strncmp strncpy]; [reflexivity |].
  destruct (deref name =? 0) eqn:E.
  - cbn [negb andb deref]; apply Z.eqb_eq in E; rewrite E; reflexivity.
  - cbn [negb andb deref tl]; rewrite Z.eqb_refl; apply IH.
Qed.

(** The loop of dirlookup over a directory without holes, from the offset
    [off]: it finds the first entry in use that has the name. *)
Lemma dirlookup_loop_first fuel x name : forall off s r s',
  0 <= NDIRECT -> MAXFILE * BSIZE < 2 ^ 31 ->
  0 <= off -> i_size (icache s x) <= MAXFILE * BSIZE ->
  0 <= de_dirlookup -> de_dirlookup + DIRENT_SIZE <= 2 ^ 64 ->
  mapped s x 0 (i_size (icache s x)) ->
  dirlookup_loop fuel x name off s = Ret (r, s') ->
  disk s' = disk s /\ dinodes s' = dinodes s /\ sb s' = sb s /\
  match r with
  | None =>
      forall o, off <= o < i_size (icache s x) -> (o - off) mod DIRENT_SIZE = 0 ->
        o + DIRENT_SIZE <= i_size (icache s x) /\
        (entry_inum s x o = 0 \/ namecmp name (entry_name s x o) <> 0)
  | Some (ip, o) =>
      off <= o /\ o + DIRENT_SIZE <= i_size (icache s x) /\
      (o - off) mod DIRENT_SIZE = 0 /\
      entry_inum s x o <> 0 /\ namecmp name (entry_name s x o) = 0 /\
      (forall o', off <= o' < o -> (o' - off) mod DIRENT_SIZE = 0 ->
         entry_inum s x o' = 0 \/ namecmp name (entry_name s x o') <> 0) /\
      i_dev (icache s' ip) = i_dev (icache s x) /\
      i_inum (icache s' ip) = entry_inum s x o /\
      0 < i_ref (icache s' ip) /\
      (forall j, j <> ip -> icache s' j = icache s j)
  end.
Proof.
  assert (HD : DIRENT_SIZE = 16) by reflexivity.
  induction fuel as [| fuel IH]; intros off s r s' Hnd Hmax Hoff Hsz Hde Hdend Hmap;
    cbn [dirlookup_loop]; unfold bind at 1; unfold get;
    destruct (off <? i_size (icache s x)) eqn:E; try discriminate;
    try (apply Z.ltb_ge in E; intros H; injection H as <- <-;
         repeat (split; [reflexivity |]); intros o Ho; lia).
  apply Z.ltb_lt in E.
  intros H; apply bind_inv in H; destruct H as (n & t & Hr & H).
  destruct (n =? DIRENT_SIZE) eqn:En; [| discriminate]; cbn [negb] in H.
  apply Z.eqb_eq in En.
  destruct (readi_entry s x de_dirlookup off n t Hnd Hmax ltac:(lia) Hsz Hde Hdend
              Hmap Hr En) as (Hin & K & Hinum & Hname).
  unfold bind at 1 in H; unfold get in H.
  pose proof K as (Ksb & Kd & Kdi & Kc & _).
  destruct (kmem_only_blocks s t x K) as (_ & Hfb & _ & Hmp & _).
  assert (E1 : forall o, entry_inum t x o = entry_inum s x o)
    by (intros o; unfold entry_inum; rewrite !Hfb; reflexivity).
  assert (E2 : forall o, entry_name t x o = entry_name s x o).
  { intros o; unfold entry_name; apply map_ext; intros k; apply Hfb. }
  assert (Hrec : (entry_inum s x off = 0 \/ namecmp name (entry_name s x off) <> 0) ->
            dirlookup_loop fuel x name (wrap32 (off + DIRENT_SIZE)) t = Ret (r, s') ->
            disk s' = disk s /\ dinodes s' = dinodes s /\ sb s' = sb s /\
            match r with
            | None =>
                forall o, off <= o < i_size (icache s x) ->
                  (o - off) mod DIRENT_SIZE = 0 ->
                  o + DIRENT_SIZE <= i_size (icache s x) /\
                  (entry_inum s x o = 0 \/ namecmp name (entry_name s x o) <> 0)
            | Some (ip, o) =>
                off <= o /\ o + DIRENT_SIZE <= i_size (icache s x) /\
                (o - off) mod DIRENT_SIZE = 0 /\
                entry_inum s x o <> 0 /\ namecmp name (entry_name s x o) = 0 /\
                (forall o', off <= o' < o -> (o' - off) mod DIRENT_SIZE = 0 ->
                   entry_inum s x o' = 0 \/ namecmp name (entry_name s x o') <> 0) /\
                i_dev (icache s' ip) = i_dev (icache s x) /\
                i_inum (icache s' ip) = entry_inum s x o /\
                0 < i_ref (icache s' ip) /\
                (forall j, j <> ip -> icache s' j = icache s j)
            end).
  { intros Hoff0; rewrite wrap32_small by lia; intros H'.
    apply IH in H'; try assumption; try lia; try (rewrite Kc; assumption).
    2:{ rewrite Kc; apply Hmp; exact Hmap. }
    rewrite Kc, Kd, Kdi, Ksb in H'.
    destruct H' as (D1 & D2 & D3 & H'); split; [exact D1 |]; split; [exact D2 |].
    split; [exact D3 |].
    assert (Hstep : forall o, off <= o -> (o - off) mod DIRENT_SIZE = 0 ->
              o = off \/ (off + DIRENT_SIZE <= o /\
                          (o - (off + DIRENT_SIZE)) mod DIRENT_SIZE = 0)).
    { intros o Ho Hal; rewrite HD in *.
      destruct (Z.eq_dec o off) as [-> | Hne]; [left; reflexivity | right].
      replace (o - (off + 16)) with (o - off + (-1) * 16) by lia.
      rewrite Z.mod_add by lia; split; [| exact Hal].
      Z.div_mod_to_equations; lia. }
    destruct r as [[ip o] |].
    - destruct H' as (A1 & A2 & A3 & A4 & A5 & A6 & A7 & A8 & A9 & A10).
      rewrite E1, E2 in *.
      split; [lia |]; split; [exact A2 |]; split; [apply aligned_next; assumption |].
      split; [exact A4 |]; split; [exact A5 |]; split.
      + intros o' Ho' Hal'; destruct (Hstep o' ltac:(lia) Hal') as [-> | [B1 B2]];
          [exact Hoff0 |].
        rewrite <- E1, <- E2; apply A6; [lia | exact B2].
      + repeat split; assumption.
    - intros o Ho Hal; destruct (Hstep o ltac:(lia) Hal) as [-> | [B1 B2]];
        [split; [exact Hin | exact Hoff0] |].
      rewrite <- E1, <- E2; apply H'; [lia | exact B2]. }
  destruct (de_inum t de_dirlookup =? 0) eqn:Ei.
  { apply Hrec; [| exact H]; left; rewrite <- Hinum; apply Z.eqb_eq; exact Ei. }
  destruct (namecmp name (de_name t de_dirlookup) =? 0) eqn:Ec.
  2:{ apply Hrec; [| exact H]; right; rewrite <- Hname; apply Z.eqb_neq; exact Ec. }
  apply bind_inv in H; destruct H as (j & t' & G & H); injection H as <- <-.
  apply Z.eqb_neq in Ei; apply Z.eqb_eq in Ec.
  apply iget_result in G; destruct G as (G1 & G2 & G3 & G4 & G5 & G6 & G7).
  rewrite Kc in G4.
  split; [rewrite G2; exact Kd |]; split; [rewrite G1; exact Kdi |].
  split; [rewrite G3; exact Ksb |].
  split; [lia |]; split; [exact Hin |]; split; [rewrite Z.sub_diag; reflexivity |].
  split; [rewrite <- Hinum; exact Ei |]; split; [rewrite <- Hname; exact Ec |].
  split; [intros o' Ho'; lia |]; split; [exact G4 |].
  split; [rewrite G5; exact Hinum |]; split; [exact G6 |].
  intros q Hq; rewrite (G7 q Hq), Kc; reflexivity.
Qed.

(** The loop of dirlookup returns on a directory without holes whose size is
    a whole number of entries, when the inode cache has a free slot. *)
Lemma dirlookup_loop_returns fuel x name : forall off s,
  0 <= NDIRECT -> MAXFILE * BSIZE < 2 ^ 31 ->
  0 <= off -> i_size (icache s x) <= MAXFILE * BSIZE ->
  0 <= de_dirlookup -> de_dirlookup + DIRENT_SIZE <= 2 ^ 64 ->
  mapped s x 0 (i_size (icache s x)) ->
  (i_size (icache s x) - off) mod DIRENT_SIZE = 0 ->
  (Z.to_nat (i_size (icache s x) - off) <= fuel)%nat ->
  (exists j, (j < NINODE)%nat /\ i_ref (icache s j) = 0) ->
  exists r s', dirlookup_loop fuel x name off s = Ret (r, s').
Proof.
  assert (HD : DIRENT_SIZE = 16) by reflexivity.
  induction fuel as [| fuel IH];
    intros off s Hnd Hmax Hoff Hsz Hde Hdend Hmap Hal Hf Hslot;
    cbn [dirlookup_loop]; unfold bind at 1; unfold get;
    destruct (off <? i_size (icache s x)) eqn:E;
    try (eexists _, _; reflexivity).
  - apply Z.ltb_lt in E; lia.
  - apply Z.ltb_lt in E.
    assert (Hin : off + DIRENT_SIZE <= i_size (icache s x)).
    { rewrite HD in *; Z.div_mod_to_equations; lia. }
    destruct (readi_reads s x false de_dirlookup off DIRENT_SIZE Hnd Hmax ltac:(lia)
                ltac:(lia) ltac:(lia) ltac:(lia) Hsz Hde ltac:(lia))
      as (t & Ht & _).
    { intros o Ho; apply Hmap; lia. }
    { intros i _; discriminate. }
    rewrite Z.min_l in Ht by lia.
    unfold bind at 1; rewrite Ht, Z.eqb_refl; cbn [negb].
    destruct (readi_entry s x de_dirlookup off _ t Hnd Hmax ltac:(lia) Hsz Hde Hdend
                Hmap Ht eq_refl) as (_ & K & _).
    pose proof K as (_ & _ & _ & Kc & _).
    destruct (kmem_only_blocks s t x K) as (_ & _ & _ & Hmp & _).
    unfold bind at 1; unfold get.
    assert (Hrec : exists r s',
              dirlookup_loop fuel x name (wrap32 (off + DIRENT_SIZE)) t = Ret (r, s')).
    { rewrite wrap32_small by lia.
      apply IH; try assumption; try lia; rewrite ?Kc; try assumption; try lia.
      - apply Hmp; exact Hmap.
      - replace (i_size (icache s x) - (off + DIRENT_SIZE))
          with (i_size (icache s x) - off + (-1) * DIRENT_SIZE) by lia.
        rewrite Z.mod_add by lia; exact Hal. }
    destruct (de_inum t de_dirlookup =? 0); [exact Hrec |].
    destruct (namecmp name (de_name t de_dirlookup) =? 0); [| exact Hrec].
    destruct (iget_loop_returns NINODE 0 (i_dev (icache t x)) (de_inum t de_dirlookup)
                None t) as (j & t' & Hg).
    { right; destruct Hslot as (j & Hj & Hr); exists j; split; [lia |].
      rewrite Kc; exact Hr. }
    unfold bind at 1, iget; rewrite Hg; eexists _, _; reflexivity.
Qed.

(** dirlookup on a directory without holes. *)
Lemma dirlookup_spec (s s' : fs) (x : nat) (name : list Z)
    (r : option (nat * Z)) :
  0 <= NDIRECT -> MAXFILE * BSIZE < 2 ^ 31 ->
  i_size (icache s x) <= MAXFILE * BSIZE ->
  0 <= de_dirlookup -> de_dirlookup + DIRENT_SIZE <= 2 ^ 64 ->
  mapped s x 0 (i_size (icache s x)) ->
  dirlookup x name s = Ret (r, s') ->
  i_type (icache s x) = T_DIR /\ disk s' = disk s /\ dinodes s' = dinodes s /\
  match r with
  | None =>
      forall o, 0 <= o < i_size (icache s x) -> o mod DIRENT_SIZE = 0 ->
        entry_inum s x o = 0 \/ namecmp name (entry_name s x o) <> 0
  | Some (ip, o) =>
      0 <= o /\ o + DIRENT_SIZE <= i_size (icache s x) /\ o mod DIRENT_SIZE = 0 /\
      entry_inum s x o <> 0 /\ namecmp name (entry_name s x o) = 0 /\
      (forall o', 0 <= o' < o -> o' mod DIRENT_SIZE = 0 ->
         entry_inum s x o' = 0 \/ namecmp name (entry_name s x o') <> 0) /\
      i_dev (icache s' ip) = i_dev (icache s x) /\
      i_inum (icache s' ip) = entry_inum s x o /\
      0 < i_ref (icache s' ip) /\
      (forall j, j <> ip -> icache s' j = icache s j)
  end.
Proof.
  intros Hnd Hmax Hsz Hde Hdend Hmap.
  unfold dirlookup; unfold bind at 1; unfold get.
  destruct (i_type (icache s x) =? T_DIR) eqn:Et; [| discriminate].
  apply Z.eqb_eq in Et; cbn [negb]; intros H.
  apply dirlookup_loop_first in H; try assumption; try lia.
  destruct H as (D1 & D2 & _ & H).
  split; [exact Et |]; split; [exact D1 |]; split; [exact D2 |].
  destruct r as [[ip o] |].
  - rewrite Z.sub_0_r in H.
    destruct H as (A1 & A2 & A3 & A4 & A5 & A6 & A7).
    split; [exact A1 |]; split; [exact A2 |]; split; [exact A3 |].
    split; [exact A4 |]; split; [exact A5 |]; split; [| exact A7].
    intros o' Ho' Hal; apply A6; [exact Ho' | rewrite Z.sub_0_r; exact Hal].
  - intros o Ho Hal; apply H; [exact Ho | rewrite Z.sub_0_r; exact Hal].
Qed.

Lemma dirlookup_returns s x name :
  0 <= NDIRECT -> MAXFILE * BSIZE < 2 ^ 31 ->
  0 <= i_size (icache s x) <= MAXFILE * BSIZE ->
  i_size (icache s x) mod DIRENT_SIZE = 0 ->
  0 <= de_dirlookup -> de_dirlookup + DIRENT_SIZE <= 2 ^ 64 ->
  mapped s x 0 (i_size (icache s x)) ->
  i_type (icache s x) = T_DIR ->
  (exists j, (j < NINODE)%nat /\ i_ref (icache s j) = 0) ->
  exists r s', dirlookup x name s = Ret (r, s').
Proof.
  intros Hnd Hmax Hsz Hal Hde Hdend Hmap Et Hslot.
  unfold dirlookup; unfold bind at 1; unfold get.
  rewrite Et, Z.eqb_refl; cbn [negb].
  apply dirlookup_loop_returns; try assumption; try lia.
  rewrite Z.sub_0_r; exact Hal.
Qed.

(** X10. dirlookup on a directory without holes whose size is a whole
    number of entries returns when the inode cache has a free slot. It
    returns the first entry in use whose name compares equal: the inode it
    returns is (ip->dev, de.inum) of that entry, with a reference, and the
    offset is that of the entry; it returns 0 only when no entry in use has
    the name. It writes neither blocks nor on-disk inodes. *)
Theorem dirlookup_first_match (s : fs) (x : nat) (name : list Z) :
  0 <= NDIRECT -> MAXFILE * BSIZE < 2 ^ 31 ->
  0 <= i_size (icache s x) <= MAXFILE * BSIZE ->
  i_size (icache s x) mod DIRENT_SIZE = 0 ->
  0 <= de_dirlookup -> de_dirlookup + DIRENT_SIZE <= 2 ^ 64 ->
  mapped s x 0 (i_size (icache s x)) ->
  i_type (icache s x) = T_DIR ->
  (exists j, (j < NINODE)%nat /\ i_ref (icache s j) = 0) ->
  exists r s',
    dirlookup x name s = Ret (r, s') /\ disk s' = disk s /\ dinodes s' = dinodes s /\
    match r with
    | None =>
        forall o, 0 <= o < i_size (icache s x) -> o mod DIRENT_SIZE = 0 ->
          entry_inum s x o = 0 \/ namecmp name (entry_name s x o) <> 0
    | Some (ip, o) =>
        0 <= o /\ o + DIRENT_SIZE <= i_size (icache s x) /\ o mod DIRENT_SIZE = 0 /\
        entry_inum s x o <> 0 /\ namecmp name (entry_name s x o) = 0 /\
        (forall o', 0 <= o' < o -> o' mod DIRENT_SIZE = 0 ->
           entry_inum s x o' = 0 \/ namecmp name (entry_name s x o') <> 0) /\
        i_dev (icache s' ip) = i_dev (icache s x) /\
        i_inum (icache s' ip) = entry_inum s x o /\
        0 < i_ref (icache s' ip) /\
        (forall j, j <> ip -> icache s' j = icache s j)
    end.
Proof.
  intros Hnd Hmax Hsz Hal Hde Hdend Hmap Et Hslot.
  destruct (dirlookup_returns s x name Hnd Hmax Hsz Hal Hde Hdend Hmap Et Hslot)
    as (r & s' & H).
  exists r, s'; split; [exact H |].
  destruct (dirlookup_spec s s' x name r Hnd Hmax ltac:(lia) Hde Hdend Hmap H)
    as (_ & D1 & D2 & Hres).
  split; [exact D1 |]; split; [exact D2 | exact Hres].
Qed.

(** X11. A name that dirlink has entered is found by dirlookup. On a
    directory without holes whose size is a whole number of entries, after
    dirlink(dp, name, inum) has returned 0 with a non-zero inum, dirlookup
    of the name returns (it needs a free slot of the inode cache) the inode
    (dp->dev, inum) and the offset of an entry that holds inum and the
    name as strncpy stores it. *)
Theorem dirlink_dirlookup_roundtrip (s s1 : fs) (x : nat) (name : list Z)
    (inum : Z) :
  0 <= NDIRECT -> MAXFILE * BSIZE < 2 ^ 31 -> inode_wf s x ->
  0 <= i_size (icache s x) <= MAXFILE * BSIZE ->
  i_size (icache s x) mod DIRENT_SIZE = 0 ->
  mapped s x 0 (i_size (icache s x)) ->
  0 <= de_dirlookup -> de_dirlookup + DIRENT_SIZE <= 2 ^ 64 ->
  0 <= de_dirlink -> de_dirlink + DIRENT_SIZE <= 2 ^ 64 ->
  to_ushort inum <> 0 ->
  (exists j, (j < NINODE)%nat /\ i_ref (icache s j) = 0) ->
  dirlink x name inum s = Ret (0, s1) ->
  exists ip off s2,
    dirlookup x name s1 = Ret (Some (ip, off), s2) /\
    i_dev (icache s2 ip) = i_dev (icache s x) /\
    i_inum (icache s2 ip) = to_ushort inum /\
    entry_inum s1 x off = to_ushort inum /\
    entry_name s1 x off = strncpy name (Z.to_nat DIRSIZ) /\
    i_size (icache s1 x) mod DIRENT_SIZE = 0.
Proof.
  intros Hnd Hmax W Hsz Hal Hmap Hl1 Hl2 Hk1 Hk2 Hin0 Hslot H.
  assert (HD : DIRENT_SIZE = 16) by reflexivity.
  (* the name was not there *)
  assert (Hnone : forall o, 0 <= o < i_size (icache s x) -> o mod DIRENT_SIZE = 0 ->
            entry_inum s x o = 0 \/ namecmp name (entry_name s x o) <> 0).
  { pose proof H as H0; unfold dirlink in H0.
    apply bind_inv in H0; destruct H0 as (f & t & Hf & H0).
    destruct f as [[j o] |].
    - apply bind_inv in H0; destruct H0 as (u & t' & _ & H0); injection H0 as E _.
      discriminate.
    - apply dirlookup_spec in Hf; try assumption; try lia.
      destruct Hf as (_ & _ & _ & Hf); exact Hf. }
  destruct (dirlink_spec_aligned x name inum s 0 s1 Hnd Hmax W Hsz Hmap Hl1 Hl2 Hk1
              Hk2 H ltac:(lia))
    as (off & A1 & A2 & A3 & A4 & A5 & A6 & A7 & A8 & A9 & A10 & A11 & A12 & A13
        & A14 & A15).
  destruct (adm_eq _ _ A8) as (Edev & _ & Eref & _ & _ & Etype & _).
  destruct (entry_of_bytes s1 x off name inum) as [En Em].
  { intros o Ho; apply A9; exact Ho. }
  assert (Hsz1 : i_size (icache s1 x) mod DIRENT_SIZE = 0).
  { rewrite A4; destruct (Z.max_spec (i_size (icache s x)) (off + DIRENT_SIZE))
      as [[_ ->] | [_ ->]]; [| exact Hal].
    rewrite HD in *; rewrite <- Z.add_mod_idemp_l, A14 by lia; reflexivity. }
  assert (Hlt : forall o, 0 <= o < i_size (icache s1 x) ->
            o < off \/ off + DIRENT_SIZE <= o -> o < i_size (icache s x)).
  { intros o Ho Hout; rewrite A4 in Ho; lia. }
  assert (Hmap1 : mapped s1 x 0 (i_size (icache s1 x))).
  { intros o Ho.
    destruct (Z_lt_le_dec o off) as [H1 | H1].
    - apply A10; [lia | lia | apply Hmap; specialize (Hlt o); lia].
    - destruct (Z_lt_le_dec o (off + DIRENT_SIZE)) as [H2 | H2].
      + apply A9; lia.
      + apply A10; [lia | lia | apply Hmap; specialize (Hlt o); lia]. }
  assert (Hother : forall o, 0 <= o < i_size (icache s1 x) -> o mod DIRENT_SIZE = 0 ->
            o <> off ->
            entry_inum s1 x o = 0 \/ namecmp name (entry_name s1 x o) <> 0).
  { intros o Ho Hoal Hne.
    assert (Hout : o + DIRENT_SIZE <= off \/ off + DIRENT_SIZE <= o)
      by (rewrite HD in *; Z.div_mod_to_equations; lia).
    assert (Hos : o < i_size (icache s x)) by (apply Hlt; lia).
    assert (Hoe : o + DIRENT_SIZE <= i_size (icache s x))
      by (rewrite HD in *; Z.div_mod_to_equations; lia).
    assert (Hb : forall b, o <= b < o + DIRENT_SIZE ->
              file_byte s1 x b = file_byte s x b).
    { intros b Hb; apply A10; [lia | lia | apply Hmap; lia]. }
    assert (E1 : entry_inum s1 x o = entry_inum s x o)
      by (unfold entry_inum; rewrite !Hb by lia; reflexivity).
    assert (E2 : entry_name s1 x o = entry_name s x o).
    { unfold entry_name; apply map_ext_in; intros k Hk; apply in_seq in Hk.
      change (Z.to_nat DIRSIZ) with 14%nat in Hk; apply Hb; lia. }
    rewrite E1, E2; apply Hnone; [lia | exact Hoal]. }
  assert (Hsize1 : 0 <= i_size (icache s1 x) <= MAXFILE * BSIZE) by (rewrite A4; lia).
  destruct (dirlookup_returns s1 x name Hnd Hmax Hsize1 Hsz1 Hl1 Hl2 Hmap1)
    as (r & s2 & Hr).
  { rewrite Etype; exact A2. }
  { destruct Hslot as (j & Hj & Hj0); exists j; split; [exact Hj |].
    destruct (Nat.eq_dec j x) as [-> | Hjx]; [rewrite Eref; exact Hj0 |].
    rewrite (A7 j Hjx); exact Hj0. }
  pose proof (dirlookup_spec s1 s2 x name r Hnd Hmax ltac:(lia) Hl1 Hl2 Hmap1 Hr)
    as (_ & _ & _ & Hres).
  assert (Hmatch : namecmp name (entry_name s1 x off) = 0)
    by (rewrite Em; apply strncmp_strncpy).
  assert (Hoff1 : 0 <= off < i_size (icache s1 x)) by (rewrite A4; lia).
  destruct r as [[ip o] |].
  - destruct Hres as (B1 & B2 & B3 & B4 & B5 & _ & B7 & B8 & _).
    assert (o = off).
    { destruct (Z.eq_dec o off) as [E | E]; [exact E | exfalso].
      destruct (Hother o ltac:(lia) B3 E) as [H0 | H0]; contradiction. }
    subst o; exists ip, off, s2; split; [exact Hr |].
    split; [rewrite B7; exact Edev |]; split; [rewrite B8; exact En |].
    split; [exact En |]; split; [exact Em | exact Hsz1].
  - exfalso; destruct (Hres off Hoff1 A14) as [H0 | H0];
      [rewrite En in H0 | ]; contradiction.
Qed.

(** ** isdirempty *)

Lemma quiet_isdirempty_loop fuel x : forall off,
  preserves quiet (isdirempty_loop fuel x off).
Proof.
  induction fuel as [| fuel IH]; intros off; cbn [isdirempty_loop];
    repeat quiet_step; first [apply quiet_readi | apply IH].
Qed.

Lemma quiet_isdirempty x : preserves quiet (isdirempty x).
Proof. unfold isdirempty; repeat quiet_step; apply quiet_isdirempty_loop. Qed.

(** The loop of isdirempty over a directory without holes, from the offset
    [off]. *)
Lemma isdirempty_loop_spec fuel x : forall off s r s',
  0 <= NDIRECT -> MAXFILE * BSIZE < 2 ^ 31 ->
  0 <= off < 2 ^ 31 -> i_size (icache s x) <= MAXFILE * BSIZE ->
  0 <= de_isdirempty -> de_isdirempty + DIRENT_SIZE <= 2 ^ 64 ->
  mapped s x 0 (i_size (icache s x)) ->
  isdirempty_loop fuel x off s = Ret (r, s') ->
  kmem_only s s' /\
  ((r = 1 /\
    forall o, off <= o < i_size (icache s x) -> (o - off) mod DIRENT_SIZE = 0 ->
      entry_inum s x o = 0) \/
   (r = 0 /\
    exists o, off <= o /\ o + DIRENT_SIZE <= i_size (icache s x) /\
      (o - off) mod DIRENT_SIZE = 0 /\ entry_inum s x o <> 0)).
Proof.
  assert (HD : DIRENT_SIZE = 16) by reflexivity.
  induction fuel as [| fuel IH]; intros off s r s' Hnd Hmax Hoff Hsz Hde Hdend Hmap;
    cbn [isdirempty_loop]; unfold bind at 1; unfold get;
    rewrite (wrap32_small off) by lia;
    destruct (off <? i_size (icache s x)) eqn:E; try discriminate;
    try (apply Z.ltb_ge in E; intros H; injection H as <- <-; split;
         [apply kmem_only_refl | left; split; [reflexivity | intros o Ho; lia]]).
  apply Z.ltb_lt in E.
  intros H; apply bind_inv in H; destruct H as (n & t & Hr & H).
  destruct (n =? DIRENT_SIZE) eqn:En; [| discriminate]; cbn [negb] in H.
  apply Z.eqb_eq in En.
  destruct (readi_entry s x de_isdirempty off n t Hnd Hmax ltac:(lia) Hsz Hde Hdend
              Hmap Hr En) as (Hin & K & Hinum & _).
  unfold bind at 1 in H; unfold get in H.
  pose proof K as (_ & _ & _ & Kc & _).
  destruct (kmem_only_blocks s t x K) as (_ & Hfb & _ & Hmp & _).
  destruct (de_inum t de_isdirempty =? 0) eqn:Ei; cbn [negb] in H.
  - apply Z.eqb_eq in Ei; rewrite Hinum in Ei.
    rewrite to_int_small in H by lia.
    apply IH in H; try assumption; try lia; try (rewrite Kc; assumption).
    2:{ rewrite Kc; apply Hmp; exact Hmap. }
    rewrite Kc in H; destruct H as [K' H]; split; [apply (kmem_only_trans _ _ _ K K') |].
    assert (E1 : forall o, entry_inum t x o = entry_inum s x o)
      by (intros o; unfold entry_inum; rewrite !Hfb; reflexivity).
    destruct H as [[-> Hall] | [-> (o & H1 & H2 & H3 & H4)]].
    + left; split; [reflexivity |]; intros o Ho Hal.
      destruct (Z.eq_dec o off) as [-> | Hne]; [exact Ei |].
      rewrite <- E1; apply Hall.
      * rewrite HD in *; Z.div_mod_to_equations; lia.
      * replace (o - (off + DIRENT_SIZE)) with (o - off + (-1) * DIRENT_SIZE) by lia.
        rewrite Z.mod_add by lia; exact Hal.
    + right; split; [reflexivity |]; exists o; rewrite <- E1.
      split; [lia |]; split; [exact H2 |]; split; [| exact H4].
      apply aligned_next; assumption.
  - injection H as <- <-; split; [exact K |]; right; split; [reflexivity |].
    exists off; split; [lia |]; split; [exact Hin |]; split;
      [rewrite Z.sub_diag; reflexivity |].
    rewrite <- Hinum; apply Z.eqb_neq; exact Ei.
Qed.

Lemma isdirempty_loop_returns fuel x : forall off s,
  0 <= NDIRECT -> MAXFILE * BSIZE < 2 ^ 31 ->
  0 <= off < 2 ^ 31 -> i_size (icache s x) <= MAXFILE * BSIZE ->
  0 <= de_isdirempty -> de_isdirempty + DIRENT_SIZE <= 2 ^ 64 ->
  mapped s x 0 (i_size (icache s x)) ->
  i_size (icache s x) <= off \/ (i_size (icache s x) - off) mod DIRENT_SIZE = 0 ->
  (Z.to_nat (i_size (icache s x) - off) <= fuel)%nat ->
  exists r s', isdirempty_loop fuel x off s = Ret (r, s').
Proof.
  assert (HD : DIRENT_SIZE = 16) by reflexivity.
  induction fuel as [| fuel IH];
    intros off s Hnd Hmax Hoff Hsz Hde Hdend Hmap Hal Hf;
    cbn [isdirempty_loop]; unfold bind at 1; unfold get;
    rewrite (wrap32_small off) by lia;
    destruct (off <? i_size (icache s x)) eqn:E;
    try (eexists _, _; reflexivity).
  - apply Z.ltb_lt in E; lia.
  - apply Z.ltb_lt in E.
    destruct Hal as [Hal | Hal]; [lia |].
    assert (Hin : off + DIRENT_SIZE <= i_size (icache s x)).
    { rewrite HD in *; Z.div_mod_to_equations; lia. }
    destruct (readi_reads s x false de_isdirempty off DIRENT_SIZE Hnd Hmax ltac:(lia)
                ltac:(lia) ltac:(lia) ltac:(lia) Hsz Hde ltac:(lia))
      as (t & Ht & _).
    { intros o Ho; apply Hmap; lia. }
    { intros i _; discriminate. }
    rewrite Z.min_l in Ht by lia.
    unfold bind at 1; rewrite Ht, Z.eqb_refl; cbn [negb].
    destruct (readi_entry s x de_isdirempty off _ t Hnd Hmax ltac:(lia) Hsz Hde Hdend
                Hmap Ht eq_refl) as (_ & K & _).
    pose proof K as (_ & _ & _ & Kc & _).
    destruct (kmem_only_blocks s t x K) as (_ & _ & _ & Hmp & _).
    unfold bind at 1; unfold get.
    destruct (de_inum t de_isdirempty =? 0); cbn [negb];
      [| eexists _, _; reflexivity].
    rewrite to_int_small by lia.
    apply IH; try assumption; try lia; rewrite ?Kc; try assumption; try lia.
    + apply Hmp; exact Hmap.
    + right.
      replace (i_size (icache s x) - (off + DIRENT_SIZE))
        with (i_size (icache s x) - off + (-1) * DIRENT_SIZE) by lia.
      rewrite Z.mod_add by lia; exact Hal.
Qed.

(** X12. isdirempty on a directory without holes whose size is a whole
    number of entries returns, and changes kernel memory only. It returns 1
    when every entry from the third on (offset 2 * sizeof(de)) has inum 0,
    and 0 when one of them has not; the entries "." and ".." are not
    looked at. *)
Theorem isdirempty_spec (s : fs) (x : nat) :
  0 <= NDIRECT -> MAXFILE * BSIZE < 2 ^ 31 ->
  0 <= i_size (icache s x) <= MAXFILE * BSIZE ->
  i_size (icache s x) mod DIRENT_SIZE = 0 ->
  0 <= de_isdirempty -> de_isdirempty + DIRENT_SIZE <= 2 ^ 64 ->
  mapped s x 0 (i_size (icache s x)) ->
  exists r s',
    isdirempty x s = Ret (r, s') /\ kmem_only s s' /\
    ((r = 1 /\
      forall o, 2 * DIRENT_SIZE <= o < i_size (icache s x) -> o mod DIRENT_SIZE = 0 ->
        entry_inum s x o = 0) \/
     (r = 0 /\
      exists o, 2 * DIRENT_SIZE <= o /\ o + DIRENT_SIZE <= i_size (icache s x) /\
        o mod DIRENT_SIZE = 0 /\ entry_inum s x o <> 0)).
Proof.
  intros Hnd Hmax Hsz Hal Hde Hdend Hmap.
  assert (HD : DIRENT_SIZE = 16) by reflexivity.
  assert (Hshift : forall o, (o - 2 * DIRENT_SIZE) mod DIRENT_SIZE = o mod DIRENT_SIZE).
  { intros o; replace (o - 2 * DIRENT_SIZE) with (o + (-2) * DIRENT_SIZE) by lia.
    apply Z.mod_add; lia. }
  destruct (isdirempty_loop_returns (Z.to_nat (i_size (icache s x))) x
              (2 * DIRENT_SIZE) s Hnd Hmax ltac:(lia) ltac:(lia) Hde Hdend Hmap)
    as (r & s' & Hr).
  { right; rewrite Hshift; exact Hal. }
  { lia. }
  exists r, s'; split; [unfold isdirempty; unfold bind at 1; unfold get; exact Hr |].
  apply isdirempty_loop_spec in Hr; try assumption; try lia.
  destruct Hr as [K Hr]; split; [exact K |].
  destruct Hr as [[-> Hall] | [-> (o & H1 & H2 & H3 & H4)]].
  - left; split; [reflexivity |]; intros o Ho Hoal; apply Hall; [exact Ho |].
    rewrite Hshift; exact Hoal.
  - right; split; [reflexivity |]; exists o; rewrite Hshift in H3.
    repeat split; assumption.
Qed.
(** ** sys_unlink *)

Lemma sys_unlink_bad_cache_post dp t r s' :
  sys_unlink_bad dp t = Ret (r, s') ->
  r = -1 /\ cache_post (fun _ => 1) (fun q => - same_slot q dp) t s'.
Proof.
  unfold sys_unlink_bad; intros H.
  apply bind_inv in H; destruct H as (u & t1 & Hp & H); injection H as <- <-.
  split; [reflexivity | apply (iunlockput_cache_post dp t u t1 _ Hp)].
Qed.

Lemma sys_unlink_entry_result dp ip off s r s' :
  sys_unlink_entry dp ip off s = Ret (r, s') -> r = 0.
Proof.
  unfold sys_unlink_entry; intros H.
  apply bind_inv in H; destruct H as (u1 & t1 & _ & H).
  apply bind_inv in H; destruct H as (w & t2 & _ & H).
  destruct (negb (w =? DIRENT_SIZE)); [discriminate |].
  unfold bind at 1 in H; unfold get in H.
  apply bind_inv in H; destruct H as (u3 & t3 & _ & H).
  apply bind_inv in H; destruct H as (u4 & t4 & _ & H).
  apply bind_inv in H; destruct H as (u5 & t5 & _ & H).
  apply bind_inv in H; destruct H as (u6 & t6 & _ & H).
  apply bind_inv in H; destruct H as (u7 & t7 & _ & H).
  injection H as <- _; reflexivity.
Qed.



(** ** sys_chdir *)


(** iput leaves the administration of the other slots alone, and that of its
    own slot too, apart from the reference count, when the slot has further
    references. *)
Lemma iput_others x s u s' :
  iput x s = Ret (u, s') ->
  (forall q, q <> x -> adm (icache s' q) = adm (icache s q)) /\
  (i_ref (icache s x) <> 1 ->
   icache s' x = with_ref (i_ref (icache s x) - 1) (icache s x)).
Proof.
  unfold iput; unfold bind at 1; unfold get; intros H.
  apply bind_inv in H; destruct H as (u1 & s1 & H1 & H).
  unfold set_inode, modify in H; injection H as _ <-.
  cbn [icache set_icache]; split.
  - intros q Hq; rewrite updn_other by exact Hq.
    destruct ((i_ref (icache s x) =? 1) && negb (i_valid (icache s x) =? 0)
              && (i_nlink (icache s x) =? 0)).
    + apply iput_free_body in H1; destruct H1 as [(_ & _ & T3 & _) _].
      apply T3; exact Hq.
    + injection H1 as _ <-; reflexivity.
  - intros Hr; rewrite updn_same.
    apply Z.eqb_neq in Hr; rewrite Hr in H1; cbn [andb] in H1.
    injection H1 as _ <-; reflexivity.
Qed.


(** ** File descriptors *)

Lemma fdalloc_loop_spec k : forall fd ofile f r ofile',
  0 <= fd ->
  fdalloc_loop k fd ofile f = (r, ofile') ->
  (r = -1 /\ ofile' = ofile /\
   forall j, fd <= j < fd + Z.of_nat k -> ofile j <> 0) \/
  (fd <= r < fd + Z.of_nat k /\ ofile r = 0 /\
   (forall j, fd <= j < r -> ofile j <> 0) /\ ofile' = upd ofile r f).
Proof.
  induction k as [| k IH]; intros fd ofile f r ofile' Hfd; cbn [fdalloc_loop].
  - intros H; injection H as <- <-; left.
    split; [reflexivity |]; split; [reflexivity | intros j Hj; lia].
  - destruct (ofile fd =? 0) eqn:E.
    + apply Z.eqb_eq in E; intros H; injection H as <- <-; right.
      split; [lia |]; split; [exact E |]; split; [intros j Hj; lia | reflexivity].
    + apply Z.eqb_neq in E; intros H; apply IH in H; [| lia].
      destruct H as [(-> & -> & Hall) | (H1 & H2 & H3 & H4)].
      * left; split; [reflexivity |]; split; [reflexivity |].
        intros j Hj; destruct (Z.eq_dec j fd) as [-> | Hne]; [exact E |].
        apply Hall; lia.
      * right; split; [lia |]; split; [exact H2 |]; split; [| exact H4].
        intros j Hj; destruct (Z.eq_dec j fd) as [-> | Hne]; [exact E |].
        apply H3; lia.
Qed.

(** X15. fdalloc hands out the lowest free descriptor: the descriptor it
    returns is below NOFILE, its entry of p->ofile was 0 and every entry
    below it was not; the file is stored in that entry and no other entry
    changes. It returns -1, and changes nothing, exactly when no entry of
    the table is 0. *)
Theorem fdalloc_lowest_free (ofile ofile' : Z -> Z) (f fd : Z) :
  fdalloc ofile f = (fd, ofile') ->
  (fd = -1 /\ ofile' = ofile /\ forall j, 0 <= j < NOFILE -> ofile j <> 0) \/
  (0 <= fd < NOFILE /\ ofile fd = 0 /\ (forall j, 0 <= j < fd -> ofile j <> 0) /\
   ofile' fd = f /\ forall j, j <> fd -> ofile' j = ofile j).
Proof.
  unfold fdalloc; intros H; apply fdalloc_loop_spec in H; [| lia].
  destruct H as [(-> & -> & Hall) | (H1 & H2 & H3 & ->)].
  - left; split; [reflexivity |]; split; [reflexivity |].
    intros j Hj; apply Hall; lia.
  - right; split; [lia |]; split; [exact H2 |]; split; [exact H3 |].
    split; [apply upd_same | intros j Hj; apply upd_other; exact Hj].
Qed.

(** X16. A descriptor that fdalloc has returned for a file is resolved by
    argfd to that file, and the other descriptors resolve as before; argfd
    refuses a descriptor that is negative, not below NOFILE, or whose entry
    is 0. *)
Theorem fdalloc_argfd_roundtrip (ofile ofile' : Z -> Z) (f fd : Z) :
  fdalloc ofile f = (fd, ofile') -> fd <> -1 -> f <> 0 ->
  argfd ofile' (Some fd) = Some (fd, f) /\
  (forall j, j <> fd -> argfd ofile' (Some j) = argfd ofile (Some j)) /\
  (forall j, j < 0 \/ NOFILE <= j \/ ofile' j = 0 -> argfd ofile' (Some j) = None).
Proof.
  unfold fdalloc; intros H Hfd Hf; apply fdalloc_loop_spec in H; [| lia].
  destruct H as [(-> & _) | (H1 & H2 & H3 & ->)]; [contradiction |].
  split; [| split].
  - unfold argfd; rewrite upd_same.
    assert (E1 : (fd <? 0) = false) by (apply Z.ltb_ge; lia).
    assert (E2 : (fd >=? NOFILE) = false) by (rewrite Z.geb_leb; apply Z.leb_gt; lia).
    assert (E3 : (f =? 0) = false) by (apply Z.eqb_neq; exact Hf).
    rewrite E1, E2, E3; reflexivity.
  - intros j Hj; unfold argfd; rewrite upd_other by exact Hj; reflexivity.
  - intros j Hj; unfold argfd.
    destruct (j <? 0) eqn:E1; [reflexivity |].
    destruct (j >=? NOFILE) eqn:E2; [reflexivity |].
    destruct (upd ofile fd f j =? 0) eqn:E3; [reflexivity |].
    apply Z.ltb_ge in E1; rewrite Z.geb_leb in E2; apply Z.leb_gt in E2.
    apply Z.eqb_neq in E3; lia.
Qed.

(** ** Truncating a file *)

Lemma frees_refl dev s : frees dev (fun _ => False) s s.
Proof.
  unfold frees; repeat split; try reflexivity; try (intros; contradiction).
  intros b H; exact H.
Qed.

Lemma frees_weaken dev (F G : Z -> Prop) s s' :
  (forall b, G b <-> F b) -> frees dev F s s' -> frees dev G s s'.
Proof.
  intros HFG (A1 & A2 & A3 & A4 & A5 & A6 & A7 & A8 & A9).
  unfold frees; repeat split; try assumption.
  - intros b Hb; apply A7, HFG; exact Hb.
  - intros b Hb Hn; apply A8; [exact Hb |]; intros HF; apply Hn, HFG; exact HF.
Qed.

Lemma frees_trans dev (F G : Z -> Prop) s s1 s2 :
  frees dev F s s1 -> frees dev G s1 s2 -> frees dev (fun b => F b \/ G b) s s2.
Proof.
  intros (A1 & A2 & A3 & A4 & A5 & A6 & A7 & A8 & A9)
         (B1 & B2 & B3 & B4 & B5 & B6 & B7 & B8 & B9).
  unfold frees; repeat split; try congruence.
  - intros dev' b o Hb; rewrite B6, A6; [reflexivity | exact Hb |].
    destruct Hb as [Hb | Hb]; [left; exact Hb | right].
    unfold not_bitmap in *; rewrite A1; exact Hb.
  - intros b [Hb | Hb]; [| apply B7; exact Hb].
    destruct (block_used s2 dev b) eqn:E; [| reflexivity].
    apply B9 in E; rewrite (A7 b Hb) in E; discriminate.
  - intros b Hb Hn; rewrite B8, A8; try assumption; try reflexivity; tauto.
  - intros b Hb; apply A9, B9; exact Hb.
Qed.

Lemma land_mono v n m : Z.land (Z.land v n) m <> 0 -> Z.land v m <> 0.
Proof.
  intros H E; apply H.
  rewrite <- Z.land_assoc, (Z.land_comm n m), Z.land_assoc, E; apply Z.land_0_l.
Qed.

(** bfree of a block of the device whose bit is set. *)
Lemma bfree_frees dev a s :
  0 <= a < sb_size (sb s) -> block_used s dev a = true ->
  exists s', bfree dev a s = Ret (tt, s') /\ icache s' = icache s /\
             frees dev (fun b => b = a) s s'.
Proof.
  intros Ha Hu; eexists; split; [apply bfree_bit; exact Hu |].
  split; [reflexivity |].
  unfold frees; repeat split; try reflexivity.
  - intros dev' b o Hb; rewrite disk_put_byte.
    destruct (dev' =? dev) eqn:E1; [| reflexivity].
    destruct (b =? BBLOCK a (sb s)) eqn:E2; [| reflexivity].
    apply Z.eqb_eq in E1, E2; exfalso.
    destruct Hb as [Hb | Hb]; [contradiction | apply (Hb a Ha); exact E2].
  - intros b ->; apply used_free_same.
  - intros b Hb Hne; apply used_free_other; [lia | exact Hb | exact Hne].
  - intros b; unfold block_used; cbn [sb put_byte set_disk].
    rewrite disk_put_byte, Z.eqb_refl; cbn [andb].
    destruct ((BBLOCK b (sb s) =? BBLOCK a (sb s)) && (b mod BPB / 8 =? a mod BPB / 8))
      eqn:E; [| intros H; exact H].
    apply andb_true_iff in E; destruct E as [E1 E2]; apply Z.eqb_eq in E1, E2.
    rewrite <- E1, <- E2; intros H.
    apply negb_true_iff, Z.eqb_neq in H; apply land_mono in H.
    apply negb_true_iff, Z.eqb_neq; exact H.
Qed.

(** Reading the disk after bits of the bitmap have been cleared. *)
Lemma frees_u32 dev F s s' b i :
  frees dev F s s' -> not_bitmap s b -> u32_at s' dev b i = u32_at s dev b i.
Proof.
  intros (_ & _ & _ & _ & _ & A6 & _) Hb; apply u32_ext.
  intros o; apply A6; right; exact Hb.
Qed.

(** The loop of itrunc over the entries j, ..., j + k - 1 of the indirect
    block [blk]: the entries that are not 0 are blocks of the device with
    their bits set, and no two of them are the same block. *)
Lemma free_entries_spec dev blk k : forall j s,
  0 <= j -> j + Z.of_nat k <= NINDIRECT -> not_bitmap s blk ->
  (forall j', j <= j' < j + Z.of_nat k -> u32_at s dev blk j' <> 0 ->
     0 <= u32_at s dev blk j' < sb_size (sb s) /\
     block_used s dev (u32_at s dev blk j') = true) ->
  (forall j1 j2, j <= j1 < j + Z.of_nat k -> j <= j2 < j + Z.of_nat k ->
     u32_at s dev blk j1 <> 0 -> u32_at s dev blk j1 = u32_at s dev blk j2 -> j1 = j2) ->
  exists s',
    free_entries k dev blk j s = Ret (tt, s') /\ icache s' = icache s /\
    frees dev (fun b => b <> 0 /\ exists j', j <= j' < j + Z.of_nat k /\
                                   u32_at s dev blk j' = b) s s'.
Proof.
  induction k as [| k IH]; intros j s Hj Hk Hnb Hin Hinj; cbn [free_entries].
  - exists s; split; [reflexivity |]; split; [reflexivity |].
    apply (frees_weaken dev (fun _ => False)); [| apply frees_refl].
    intros b; split; [intros (_ & j' & Hj' & _); lia | contradiction].
  - unfold bind at 1; rewrite read_entry_in by lia.
    set (a := u32_at s dev blk j) in *.
    assert (Hrest : forall s1 (F : Z -> Prop),
              icache s1 = icache s -> frees dev F s s1 ->
              (forall b, F b <-> (b <> 0 /\ b = a)) ->
              exists s',
                free_entries k dev blk (j + 1) s1 = Ret (tt, s') /\
                icache s' = icache s /\
                frees dev (fun b => b <> 0 /\
                             exists j', j <= j' < j + Z.of_nat (S k) /\
                                        u32_at s dev blk j' = b) s s').
    { intros s1 F Hi Hf HF.
      pose proof Hf as (F1 & _ & _ & _ & _ & _ & _ & F8 & _).
      assert (Hu : forall j', u32_at s1 dev blk j' = u32_at s dev blk j')
        by (intros j'; apply (frees_u32 dev F s s1 blk j' Hf Hnb)).
      destruct (IH (j + 1) s1) as (s' & Hr & Hi' & Hf'); try lia.
      - unfold not_bitmap; rewrite F1; exact Hnb.
      - intros j' Hj'; rewrite Hu, F1; intros Hnz.
        destruct (Hin j' ltac:(lia) Hnz) as [H1 H2]; split; [exact H1 |].
        rewrite F8; [exact H2 | lia |].
        intros HFb; apply HF in HFb; destruct HFb as [_ E].
        assert (j' = j) by (apply Hinj; [lia | lia | exact Hnz | exact E]); lia.
      - intros j1 j2 H1 H2; rewrite !Hu; apply Hinj; lia.
      - exists s'; split; [exact Hr |]; split; [congruence |].
        eapply frees_weaken; [| apply (frees_trans _ _ _ _ _ _ Hf Hf')].
        intros b; cbn beta; rewrite HF; split.
        + intros (Hb & j' & Hj' & E).
          destruct (Z.eq_dec j' j) as [-> | Hne]; [left; split; [exact Hb | subst a; congruence] |].
          right; split; [exact Hb |]; exists j'; split; [lia |]; rewrite Hu; exact E.
        + intros [[Hb E] | (Hb & j' & Hj' & E)].
          * split; [exact Hb |]; exists j; split; [lia | subst a; congruence].
          * split; [exact Hb |]; exists j'; split; [lia |]; rewrite <- Hu; exact E. }
    destruct (a =? 0) eqn:Ea; cbn [negb].
    + apply Z.eqb_eq in Ea; unfold bind at 1, ret.
      apply (Hrest s (fun _ => False)); [reflexivity | apply frees_refl |].
      intros b; split; [contradiction | intros [H1 H2]; congruence].
    + apply Z.eqb_neq in Ea.
      destruct (Hin j ltac:(lia) Ea) as [H1 H2].
      destruct (bfree_frees dev a s H1 H2) as (s1 & Hb & Hi & Hf).
      unfold bind at 1; rewrite Hb.
      apply (Hrest s1 (fun b => b = a)); [exact Hi | exact Hf |].
      intros b; split; [intros ->; split; [exact Ea | reflexivity] | intros [_ E]; exact E].
Qed.

(** The loop of itrunc over the entries j, ..., j + k - 1 of the
    doubly-indirect block [blk]: the singly-indirect blocks named there and
    the blocks named in these are blocks of the device with their bits set,
    no two of them the same. *)
Lemma free_double_spec dev blk k : forall j s,
  0 <= j -> j + Z.of_nat k <= NINDIRECT -> not_bitmap s blk ->
  (forall j', j <= j' < j + Z.of_nat k -> u32_at s dev blk j' <> 0 ->
     0 <= u32_at s dev blk j' < sb_size (sb s) /\
     block_used s dev (u32_at s dev blk j') = true /\
     not_bitmap s (u32_at s dev blk j')) ->
  (forall j' k', j <= j' < j + Z.of_nat k -> 0 <= k' < NINDIRECT ->
     u32_at s dev blk j' <> 0 -> u32_at s dev (u32_at s dev blk j') k' <> 0 ->
     0 <= u32_at s dev (u32_at s dev blk j') k' < sb_size (sb s) /\
     block_used s dev (u32_at s dev (u32_at s dev blk j') k') = true) ->
  (forall j1 j2, j <= j1 < j + Z.of_nat k -> j <= j2 < j + Z.of_nat k ->
     u32_at s dev blk j1 <> 0 -> u32_at s dev blk j1 = u32_at s dev blk j2 -> j1 = j2) ->
  (forall j1 j2 k', j <= j1 < j + Z.of_nat k -> j <= j2 < j + Z.of_nat k ->
     0 <= k' < NINDIRECT -> u32_at s dev blk j1 <> 0 ->
     u32_at s dev (u32_at s dev blk j1) k' <> 0 ->
     u32_at s dev (u32_at s dev blk j1) k' <> u32_at s dev blk j2) ->
  (forall j1 j2 k1 k2, j <= j1 < j + Z.of_nat k -> j <= j2 < j + Z.of_nat k ->
     0 <= k1 < NINDIRECT -> 0 <= k2 < NINDIRECT ->
     u32_at s dev blk j1 <> 0 -> u32_at s dev blk j2 <> 0 ->
     u32_at s dev (u32_at s dev blk j1) k1 <> 0 ->
     u32_at s dev (u32_at s dev blk j1) k1 = u32_at s dev (u32_at s dev blk j2) k2 ->
     j1 = j2 /\ k1 = k2) ->
  exists s',
    free_double k dev blk j s = Ret (tt, s') /\ icache s' = icache s /\
    frees dev (fun b => b <> 0 /\ exists j', j <= j' < j + Z.of_nat k /\
                 u32_at s dev blk j' <> 0 /\
                 (b = u32_at s dev blk j' \/
                  exists k', 0 <= k' < NINDIRECT /\
                             b = u32_at s dev (u32_at s dev blk j') k')) s s'.
Proof.
  pose proof NINDIRECT_val as HN.
  induction k as [| k IH]; intros j s Hj Hk Hnb Hsg Hleaf Hd1 Hd2 Hd3;
    cbn [free_double].
  - exists s; split; [reflexivity |]; split; [reflexivity |].
    apply (frees_weaken dev (fun _ => False)); [| apply frees_refl].
    intros b; split; [intros (_ & j' & Hj' & _); lia | contradiction].
  - unfold bind at 1; rewrite read_entry_in by lia.
    set (a := u32_at s dev blk j) in *.
    (* what the iteration for entry j frees *)
    set (Fj := fun b => b <> 0 /\ a <> 0 /\
                 (b = a \/ exists k', 0 <= k' < NINDIRECT /\ b = u32_at s dev a k')).
    assert (Hrest : forall s1,
              icache s1 = icache s -> frees dev Fj s s1 ->
              exists s',
                free_double k dev blk (j + 1) s1 = Ret (tt, s') /\
                icache s' = icache s /\
                frees dev (fun b => b <> 0 /\
                             exists j', j <= j' < j + Z.of_nat (S k) /\
                               u32_at s dev blk j' <> 0 /\
                               (b = u32_at s dev blk j' \/
                                exists k', 0 <= k' < NINDIRECT /\
                                  b = u32_at s dev (u32_at s dev blk j') k')) s s').
    { intros s1 Hi Hf.
      pose proof Hf as (F1 & _ & _ & _ & _ & _ & _ & F8 & _).
      assert (Hu : forall j', u32_at s1 dev blk j' = u32_at s dev blk j')
        by (intros j'; apply (frees_u32 dev Fj s s1 blk j' Hf Hnb)).
      assert (Hu2 : forall j' k', j <= j' < j + Z.of_nat (S k) ->
                u32_at s dev blk j' <> 0 ->
                u32_at s1 dev (u32_at s dev blk j') k'
                = u32_at s dev (u32_at s dev blk j') k').
      { intros j' k' Hj' Hnz; apply (frees_u32 dev Fj s s1 _ k' Hf).
        apply (Hsg j' Hj' Hnz). }
      assert (Hkeep : forall b, 0 <= b -> ~ Fj b ->
                block_used s1 dev b = block_used s dev b) by exact F8.
      destruct (IH (j + 1) s1) as (s' & Hr & Hi' & Hf'); try lia.
      - unfold not_bitmap; rewrite F1; exact Hnb.
      - intros j' Hj'; rewrite Hu, F1; intros Hnz.
        destruct (Hsg j' ltac:(lia) Hnz) as (H1 & H2 & H3).
        split; [exact H1 |]; split; [| unfold not_bitmap; rewrite F1; exact H3].
        rewrite Hkeep; [exact H2 | lia |].
        intros (_ & Ha & [E | (k' & Hk' & E)]).
        + assert (j' = j) by (apply Hd1; [lia | lia | exact Hnz | exact E]); lia.
        + apply (Hd2 j j' k'); try lia; try assumption; [| symmetry; exact E].
          fold a; rewrite <- E; exact Hnz.
      - intros j' k' Hj' Hk'; rewrite !Hu, F1; intros Hnz.
        rewrite Hu2 by (try lia; exact Hnz); intros Hnz2.
        destruct (Hleaf j' k' ltac:(lia) Hk' Hnz Hnz2) as [H1 H2].
        split; [exact H1 |].
        rewrite Hkeep; [exact H2 | lia |].
        intros (_ & Ha & [E | (k2 & Hk2 & E)]).
        + apply (Hd2 j' j k'); try lia; assumption.
        + destruct (Hd3 j' j k' k2) as [E1 _]; try lia; assumption.
      - intros j1 j2 H1 H2; rewrite !Hu; apply Hd1; lia.
      - intros j1 j2 k' H1 H2 Hk'; rewrite !Hu; intros Hnz.
        rewrite Hu2 by (try lia; exact Hnz); apply Hd2; try lia; assumption.
      - intros j1 j2 k1 k2 H1 H2 Hk1 Hk2; rewrite !Hu; intros Hnz1 Hnz2.
        rewrite !Hu2 by (try lia; assumption).
        apply Hd3; try lia; assumption.
      - exists s'; split; [exact Hr |]; split; [congruence |].
        eapply frees_weaken; [| apply (frees_trans _ _ _ _ _ _ Hf Hf')].
        intros b; cbn beta; unfold Fj; split.
        + intros (Hb & j' & Hj' & Hnz & Hcase).
          destruct (Z.eq_dec j' j) as [-> | Hne].
          * left; split; [exact Hb |]; split; [exact Hnz | exact Hcase].
          * right; split; [exact Hb |]; exists j'; split; [lia |].
            rewrite Hu; split; [exact Hnz |].
            destruct Hcase as [E | (k' & Hk' & E)]; [left; exact E | right].
            exists k'; split; [exact Hk' |]; rewrite Hu2 by (try lia; exact Hnz); exact E.
        + intros [(Hb & Ha & Hcase) | (Hb & j' & Hj' & Hnz & Hcase)].
          * split; [exact Hb |]; exists j; split; [lia |]; split; [exact Ha | exact Hcase].
          * rewrite Hu in Hnz, Hcase.
            split; [exact Hb |]; exists j'; split; [lia |]; split; [exact Hnz |].
            destruct Hcase as [E | (k' & Hk' & E)]; [left; exact E | right].
            exists k'; split; [exact Hk' |].
            rewrite Hu2 in E by (try lia; exact Hnz); exact E. }
    destruct (a =? 0) eqn:Ea; cbn [negb].
    + apply Z.eqb_eq in Ea; unfold bind at 1, ret.
      apply (Hrest s); [reflexivity |].
      apply (frees_weaken dev (fun _ => False)); [| apply frees_refl].
      intros b; unfold Fj; split; [intros (_ & Hn & _); contradiction | contradiction].
    + apply Z.eqb_neq in Ea.
      destruct (Hsg j ltac:(lia) Ea) as (H1 & H2 & H3).
      destruct (free_entries_spec dev a (Z.to_nat NINDIRECT) 0 s)
        as (s1 & Hr1 & Hi1 & Hf1); try lia; try assumption.
      { intros k' Hk' Hnz; apply (Hleaf j k'); try lia; assumption. }
      { intros k1 k2 Hk1 Hk2 Hnz E.
        destruct (Hd3 j j k1 k2) as [_ E']; try lia; assumption. }
      pose proof Hf1 as (G1 & _ & _ & _ & _ & _ & _ & G8 & _).
      unfold bind at 1; unfold bind at 1; rewrite Hr1.
      unfold bind at 1; rewrite read_entry_in by lia.
      rewrite (frees_u32 dev _ s s1 blk j Hf1 Hnb); fold a.
      destruct (bfree_frees dev a s1) as (s2 & Hr2 & Hi2 & Hf2).
      { rewrite G1; exact H1. }
      { rewrite G8; [exact H2 | lia |].
        intros (_ & k' & Hk' & E).
        apply (Hd2 j j k' ltac:(lia) ltac:(lia) ltac:(lia) Ea); fold a;
          [rewrite E; exact Ea | exact E]. }
      rewrite Hr2.
      apply (Hrest s2); [congruence |].
      eapply frees_weaken; [| apply (frees_trans _ _ _ _ _ _ Hf1 Hf2)].
      intros b; cbn beta; unfold Fj; split.
      * intros (Hb & _ & [E | (k' & Hk' & E)]); [right; exact E | left].
        split; [exact Hb |]; exists k'; split; [lia | symmetry; exact E].
      * intros [(Hb & k' & Hk' & E) | E].
        -- split; [exact Hb |]; split; [exact Ea |]; right.
           exists k'; split; [lia | symmetry; exact E].
        -- split; [rewrite E; exact Ea |]; split; [exact Ea |]; left; exact E.
Qed.

Lemma frees_store_addr dev F s s1 x i v :
  frees dev F s s1 -> frees dev F s (store_addr x i v s1).
Proof. intros H; exact H. Qed.

(** The first loop of itrunc over ip->addrs[i], ..., ip->addrs[i + k - 1]. *)
Lemma itrunc_direct_spec x k : forall i s,
  (forall i', i <= i' < i + Z.of_nat k -> i_addrs (icache s x) i' <> 0 ->
     0 <= i_addrs (icache s x) i' < sb_size (sb s) /\
     block_used s (i_dev (icache s x)) (i_addrs (icache s x) i') = true) ->
  (forall i1 i2, i <= i1 < i + Z.of_nat k -> i <= i2 < i + Z.of_nat k ->
     i_addrs (icache s x) i1 <> 0 ->
     i_addrs (icache s x) i1 = i_addrs (icache s x) i2 -> i1 = i2) ->
  exists s',
    itrunc_direct k x i s = Ret (tt, s') /\
    frees (i_dev (icache s x))
      (fun b => b <> 0 /\ exists i', i <= i' < i + Z.of_nat k /\
                            i_addrs (icache s x) i' = b) s s' /\
    (forall q, q <> x -> icache s' q = icache s q) /\
    adm (icache s' x) = adm (icache s x) /\
    i_size (icache s' x) = i_size (icache s x) /\
    (forall i', i_addrs (icache s' x) i'
                = if (i <=? i') && (i' <? i + Z.of_nat k) then 0
                  else i_addrs (icache s x) i').
Proof.
  induction k as [| k IH]; intros i s Hin Hinj; cbn [itrunc_direct].
  - exists s; split; [reflexivity |]; split.
    { apply (frees_weaken _ (fun _ => False)); [| apply frees_refl].
      intros b; split; [intros (_ & i' & Hi' & _); lia | contradiction]. }
    split; [reflexivity |]; split; [reflexivity |]; split; [reflexivity |].
    intros i'; destruct ((i <=? i') && (i' <? i + Z.of_nat 0)) eqn:E; [| reflexivity].
    apply andb_prop in E; destruct E as [E1 E2].
    apply Z.leb_le in E1; apply Z.ltb_lt in E2; lia.
  - unfold bind at 1; unfold get.
    set (dev := i_dev (icache s x)) in *.
    set (a := i_addrs (icache s x) i) in *.
    assert (Hrest : forall s1 (F : Z -> Prop),
              frees dev F s s1 -> (forall b, F b <-> (b <> 0 /\ b = a)) ->
              (forall q, q <> x -> icache s1 q = icache s q) ->
              adm (icache s1 x) = adm (icache s x) ->
              i_size (icache s1 x) = i_size (icache s x) ->
              (forall i', i_addrs (icache s1 x) i'
                          = if i' =? i then 0 else i_addrs (icache s x) i') ->
              exists s',
                itrunc_direct k x (i + 1) s1 = Ret (tt, s') /\
                frees dev
                  (fun b => b <> 0 /\ exists i', i <= i' < i + Z.of_nat (S k) /\
                                        i_addrs (icache s x) i' = b) s s' /\
                (forall q, q <> x -> icache s' q = icache s q) /\
                adm (icache s' x) = adm (icache s x) /\
                i_size (icache s' x) = i_size (icache s x) /\
                (forall i', i_addrs (icache s' x) i'
                            = if (i <=? i') && (i' <? i + Z.of_nat (S k)) then 0
                              else i_addrs (icache s x) i')).
    { intros s1 F Hf HF Ho Ha Hs Had.
      pose proof Hf as (F1 & _ & _ & _ & _ & _ & _ & F8 & _).
      destruct (adm_eq _ _ Ha) as (Hdev & _).
      assert (Hother : forall i', i' <> i ->
                i_addrs (icache s1 x) i' = i_addrs (icache s x) i').
      { intros i' Hne; rewrite Had.
        destruct (i' =? i) eqn:E; [apply Z.eqb_eq in E; contradiction | reflexivity]. }
      destruct (IH (i + 1) s1) as (s' & Hr & Hf' & Ho' & Ha' & Hs' & Had').
      - intros i' Hi'; rewrite Hother, F1, Hdev by lia; intros Hnz.
        destruct (Hin i' ltac:(lia) Hnz) as [H1 H2]; split; [exact H1 |].
        fold dev; rewrite F8; [exact H2 | lia |].
        intros HFb; apply HF in HFb; destruct HFb as [_ E].
        assert (i' = i) by (apply Hinj; [lia | lia | exact Hnz | exact E]); lia.
      - intros i1 i2 H1 H2; rewrite !Hother by lia; apply Hinj; lia.
      - rewrite Hdev in Hf'; fold dev in Hf'.
        exists s'; split; [exact Hr |]; split.
        { eapply frees_weaken; [| apply (frees_trans _ _ _ _ _ _ Hf Hf')].
          intros b; cbn beta; rewrite HF; split.
          - intros (Hb & i' & Hi' & E).
            destruct (Z.eq_dec i' i) as [-> | Hne];
              [left; split; [exact Hb | subst a; congruence] |].
            right; split; [exact Hb |]; exists i'; split; [lia |].
            rewrite Hother by exact Hne; exact E.
          - intros [[Hb E] | (Hb & i' & Hi' & E)].
            + split; [exact Hb |]; exists i; split; [lia | subst a; congruence].
            + split; [exact Hb |]; exists i'; split; [lia |].
              rewrite Hother in E by lia; exact E. }
        split; [intros q Hq; rewrite (Ho' q Hq); apply Ho; exact Hq |].
        split; [congruence |]; split; [congruence |].
        intros i'; rewrite Had', Had.
        destruct (i' =? i) eqn:E1.
        + apply Z.eqb_eq in E1; subst i'.
          assert (E2 : (i <=? i) && (i <? i + Z.of_nat (S k)) = true).
          { apply andb_true_intro; split; [apply Z.leb_le | apply Z.ltb_lt]; lia. }
          rewrite E2; destruct ((i + 1 <=? i) && (i <? i + 1 + Z.of_nat k)); reflexivity.
        + apply Z.eqb_neq in E1.
          assert (E2 : (i + 1 <=? i') && (i' <? i + 1 + Z.of_nat k)
                       = (i <=? i') && (i' <? i + Z.of_nat (S k))).
          { destruct ((i <=? i') && (i' <? i + Z.of_nat (S k))) eqn:E.
            - apply andb_prop in E; destruct E as [E3 E4].
              apply Z.leb_le in E3; apply Z.ltb_lt in E4.
              apply andb_true_intro; split; [apply Z.leb_le | apply Z.ltb_lt]; lia.
            - apply andb_false_iff in E; apply andb_false_iff.
              rewrite Z.leb_gt, Z.ltb_ge in *; lia. }
          rewrite E2; reflexivity. }
    destruct (a =? 0) eqn:Ea; cbn [negb].
    + apply Z.eqb_eq in Ea; unfold bind at 1, ret.
      apply (Hrest s (fun _ => False)); try reflexivity; [apply frees_refl | |].
      * intros b; split; [contradiction | intros [H1 H2]; congruence].
      * intros i'; destruct (i' =? i) eqn:E; [| reflexivity].
        apply Z.eqb_eq in E; subst i'; exact Ea.
    + apply Z.eqb_neq in Ea.
      destruct (Hin i ltac:(lia) Ea) as [H1 H2].
      destruct (bfree_frees dev a s H1 H2) as (s1 & Hb & Hi & Hf).
      unfold bind at 1; unfold bind at 1; rewrite Hb.
      unfold set_addr, modify.
      apply (Hrest (store_addr x i 0 s1) (fun b => b = a)).
      * apply frees_store_addr; exact Hf.
      * intros b; split; [intros ->; split; [exact Ea | reflexivity] | intros [_ E]; exact E].
      * intros q Hq; unfold store_addr; cbn [icache set_icache].
        rewrite updn_other by exact Hq; rewrite Hi; reflexivity.
      * unfold store_addr; cbn [icache set_icache]; rewrite updn_same, Hi; reflexivity.
      * unfold store_addr; cbn [icache set_icache]; rewrite updn_same, Hi; reflexivity.
      * intros i'; unfold store_addr; cbn [icache set_icache].
        rewrite updn_same, Hi; reflexivity.
Qed.

(** A block of the inode that has not been freed yet. *)
Lemma frees_keeps s t x (C : pos -> Prop) q :
  inode_wf s x ->
  (forall p, valid_pos p -> ref_at s x p <> 0 -> 0 <= ref_at s x p < sb_size (sb s)) ->
  frees (i_dev (icache s x)) (blocks_at s x C) s t ->
  valid_pos q -> ref_at s x q <> 0 -> ~ C q ->
  0 <= ref_at s x q < sb_size (sb t) /\
  block_used t (i_dev (icache s x)) (ref_at s x q) = true /\
  not_bitmap t (ref_at s x q) /\ not_bitmap s (ref_at s x q).
Proof.
  intros W Hrng (F1 & _ & _ & _ & _ & _ & _ & F8 & _) Hv Hnz HC.
  destruct (Hrng q Hv Hnz) as [H1 H2].
  assert (Hnb : not_bitmap s (ref_at s x q)).
  { intros y Hy; destruct (wf_bitmap _ _ W y Hy) as [_ Hb]; apply Hb; assumption. }
  split; [rewrite F1; lia |]; split; [| split; [| exact Hnb]].
  - rewrite F8; [| lia |].
    + destruct (wf_used _ _ W q Hv Hnz) as [H | [H | H]]; [lia | lia | exact H].
    + intros (_ & p & Hp & HCp & E).
      assert (p = q)
        by (apply (wf_inj _ _ W); [exact Hp | exact Hv | rewrite E; exact Hnz | exact E]).
      subst p; contradiction.
  - unfold not_bitmap; rewrite F1; exact Hnb.
Qed.

(** The second part of itrunc, on the indirect block. *)
Lemma itrunc_indirect_spec s t x (C : pos -> Prop) :
  inode_wf s x ->
  (forall p, valid_pos p -> ref_at s x p <> 0 -> 0 <= ref_at s x p < sb_size (sb s)) ->
  frees (i_dev (icache s x)) (blocks_at s x C) s t ->
  ~ C PInd -> (forall j, ~ C (PIndE j)) ->
  i_dev (icache t x) = i_dev (icache s x) ->
  i_addrs (icache t x) NDIRECT = i_addrs (icache s x) NDIRECT ->
  exists t',
    (let a := i_addrs (icache t x) NDIRECT in
     if negb (a =? 0) then
       free_entries (Z.to_nat NINDIRECT) (i_dev (icache t x)) a 0 ;;;
       bfree (i_dev (icache t x)) a ;;;
       set_addr x NDIRECT 0
     else ret tt) t = Ret (tt, t') /\
    frees (i_dev (icache s x))
      (blocks_at s x (fun p => C p \/ p = PInd \/ exists j, p = PIndE j)) s t' /\
    (forall q, q <> x -> icache t' q = icache t q) /\
    adm (icache t' x) = adm (icache t x) /\
    i_size (icache t' x) = i_size (icache t x) /\
    (forall i', i_addrs (icache t' x) i'
                = if i' =? NDIRECT then 0 else i_addrs (icache t x) i').
Proof.
  intros W Hrng Hf HC1 HC2 Hdev Ha; pose proof NINDIRECT_val as HN.
  cbn zeta; rewrite Hdev, Ha.
  set (dev := i_dev (icache s x)) in *.
  set (a := i_addrs (icache s x) NDIRECT) in *.
  assert (Hra : ref_at s x PInd = a) by reflexivity.
  destruct (a =? 0) eqn:Ea; cbn [negb].
  - apply Z.eqb_eq in Ea; exists t; split; [reflexivity |]; split.
    { eapply frees_weaken; [| exact Hf].
      intros b; unfold blocks_at; split.
      - intros (Hb & p & Hp & [HCp | [-> | [j ->]]] & E).
        + split; [exact Hb |]; exists p; repeat split; assumption.
        + rewrite Hra in E; congruence.
        + cbn [ref_at] in E; fold a in E; rewrite Ea in E; cbn in E; congruence.
      - intros (Hb & p & Hp & HCp & E); split; [exact Hb |].
        exists p; split; [exact Hp |]; split; [left; exact HCp | exact E]. }
    split; [reflexivity |]; split; [reflexivity |]; split; [reflexivity |].
    intros i'; destruct (i' =? NDIRECT) eqn:E; [| reflexivity].
    apply Z.eqb_eq in E; subst i'; rewrite Ha; exact Ea.
  - apply Z.eqb_neq in Ea.
    assert (Hre : forall j, ref_at s x (PIndE j) = u32_at s dev a j).
    { intros j; cbn [ref_at]; fold a dev; apply if_zero_val; exact Ea. }
    destruct (frees_keeps s t x C PInd W Hrng Hf I ltac:(rewrite Hra; exact Ea) HC1)
      as (K1 & K2 & K3 & K4).
    rewrite Hra in K1, K2, K3, K4; fold dev in K2.
    assert (Hu : forall j, u32_at t dev a j = u32_at s dev a j)
      by (intros j; apply (frees_u32 dev _ s t a j Hf K4)).
    destruct (free_entries_spec dev a (Z.to_nat NINDIRECT) 0 t)
      as (t1 & R1 & I1 & G); try lia; try assumption.
    { intros j Hj; rewrite Hu, <- Hre; intros Hnz.
      destruct (frees_keeps s t x C (PIndE j) W Hrng Hf ltac:(cbn; lia) Hnz (HC2 j))
        as (L1 & L2 & _); split; assumption. }
    { intros j1 j2 Hj1 Hj2; rewrite !Hu, <- !Hre; intros Hnz E.
      assert (E' : PIndE j1 = PIndE j2)
        by (apply (wf_inj _ _ W); [cbn; lia | cbn; lia | exact Hnz | exact E]).
      injection E' as ->; reflexivity. }
    pose proof G as (G1 & _ & _ & _ & _ & _ & _ & G8 & _).
    destruct (bfree_frees dev a t1) as (t2 & R2 & I2 & G').
    { rewrite G1; exact K1. }
    { rewrite G8; [exact K2 | lia |].
      intros (_ & j & Hj & E); rewrite Hu, <- Hre, <- Hra in E.
      assert (E' : PIndE j = PInd).
      { apply (wf_inj _ _ W); [cbn; lia | exact I | | exact E].
        rewrite E, Hra; exact Ea. }
      discriminate E'. }
    exists (store_addr x NDIRECT 0 t2); split.
    { unfold bind at 1; rewrite R1; unfold bind at 1; rewrite R2; reflexivity. }
    split.
    { apply frees_store_addr.
      eapply frees_weaken;
        [| apply (frees_trans _ _ _ _ _ _ Hf (frees_trans _ _ _ _ _ _ G G'))].
      intros b; cbn beta; unfold blocks_at; split.
      - intros (Hb & p & Hp & [HCp | [-> | [j ->]]] & E).
        + left; split; [exact Hb |]; exists p; repeat split; assumption.
        + right; right; rewrite <- E; exact Hra.
        + right; left; split; [exact Hb |]; exists j; cbn in Hp.
          split; [lia |]; rewrite Hu, <- Hre; exact E.
      - intros [(Hb & p & Hp & HCp & E) | [(Hb & j & Hj & E) | E]].
        + split; [exact Hb |]; exists p; split; [exact Hp |]; split;
            [left; exact HCp | exact E].
        + split; [exact Hb |]; exists (PIndE j); split; [cbn; lia |]; split;
            [right; right; exists j; reflexivity | rewrite Hre, <- Hu; exact E].
        + split; [rewrite E; exact Ea |]; exists PInd; split; [exact I |]; split;
            [right; left; reflexivity | rewrite Hra; symmetry; exact E]. }
    unfold store_addr; cbn [icache set_icache]; rewrite I2, I1.
    split; [intros q Hq; rewrite updn_other by exact Hq; reflexivity |].
    rewrite updn_same; split; [reflexivity |]; split; [reflexivity |].
    intros i'; reflexivity.
Qed.

(** The third part of itrunc, on the doubly-indirect block. *)
Lemma itrunc_double_spec s t x (C : pos -> Prop) a0 :
  inode_wf s x ->
  (forall p, valid_pos p -> ref_at s x p <> 0 -> 0 <= ref_at s x p < sb_size (sb s)) ->
  frees (i_dev (icache s x)) (blocks_at s x C) s t ->
  ~ C PDbl -> (forall j, ~ C (PDblE j)) -> (forall j k, ~ C (PLeaf j k)) ->
  a0 = i_addrs (icache s x) (NDIRECT + 1) ->
  exists t',
    (if negb (a0 =? 0) then
       free_double (Z.to_nat NINDIRECT) (i_dev (icache s x)) a0 0 ;;;
       bfree (i_dev (icache s x)) a0 ;;;
       set_addr x (NDIRECT + 1) 0
     else ret tt) t = Ret (tt, t') /\
    frees (i_dev (icache s x))
      (blocks_at s x (fun p => C p \/ p = PDbl \/ (exists j, p = PDblE j)
                               \/ exists j k, p = PLeaf j k)) s t' /\
    (forall q, q <> x -> icache t' q = icache t q) /\
    adm (icache t' x) = adm (icache t x) /\
    i_size (icache t' x) = i_size (icache t x) /\
    (forall i', i_addrs (icache t' x) i'
                = if (i' =? NDIRECT + 1) && negb (a0 =? 0) then 0
                  else i_addrs (icache t x) i').
Proof.
  intros W Hrng Hf HC1 HC2 HC3 ->; pose proof NINDIRECT_val as HN.
  set (dev := i_dev (icache s x)) in *.
  set (a := i_addrs (icache s x) (NDIRECT + 1)) in *.
  assert (Hra : ref_at s x PDbl = a) by reflexivity.
  destruct (a =? 0) eqn:Ea; cbn [negb].
  - apply Z.eqb_eq in Ea; exists t; split; [reflexivity |]; split.
    { eapply frees_weaken; [| exact Hf].
      intros b; unfold blocks_at; split.
      - intros (Hb & p & Hp & [HCp | [-> | [[j ->] | (j & k & ->)]]] & E).
        + split; [exact Hb |]; exists p; repeat split; assumption.
        + rewrite Hra in E; congruence.
        + cbn [ref_at] in E; fold a in E; rewrite Ea in E; cbn in E; congruence.
        + cbn [ref_at] in E; fold a in E; rewrite Ea in E; cbn in E; congruence.
      - intros (Hb & p & Hp & HCp & E); split; [exact Hb |].
        exists p; split; [exact Hp |]; split; [left; exact HCp | exact E]. }
    split; [reflexivity |]; split; [reflexivity |]; split; [reflexivity |].
    intros i'; rewrite andb_false_r; reflexivity.
  - apply Z.eqb_neq in Ea.
    assert (Hre : forall j, ref_at s x (PDblE j) = u32_at s dev a j).
    { intros j; cbn [ref_at]; fold a dev; apply if_zero_val; exact Ea. }
    assert (Hrl : forall j k, u32_at s dev a j <> 0 ->
              ref_at s x (PLeaf j k) = u32_at s dev (u32_at s dev a j) k).
    { intros j k Hnz; cbn [ref_at]; fold a dev.
      rewrite (if_zero_val _ _ Ea); apply if_zero_val; exact Hnz. }
    destruct (frees_keeps s t x C PDbl W Hrng Hf I ltac:(rewrite Hra; exact Ea) HC1)
      as (K1 & K2 & K3 & K4).
    rewrite Hra in K1, K2, K3, K4; fold dev in K2.
    assert (Hu : forall j, u32_at t dev a j = u32_at s dev a j)
      by (intros j; apply (frees_u32 dev _ s t a j Hf K4)).
    assert (Hsg : forall j, 0 <= j < NINDIRECT -> u32_at s dev a j <> 0 ->
              0 <= u32_at s dev a j < sb_size (sb t) /\
              block_used t dev (u32_at s dev a j) = true /\
              not_bitmap t (u32_at s dev a j) /\ not_bitmap s (u32_at s dev a j)).
    { intros j Hj Hnz; rewrite <- Hre in *.
      apply (frees_keeps s t x C (PDblE j) W Hrng Hf ltac:(cbn; lia) Hnz (HC2 j)). }
    assert (Hu2 : forall j k, 0 <= j < NINDIRECT -> u32_at s dev a j <> 0 ->
              u32_at t dev (u32_at s dev a j) k = u32_at s dev (u32_at s dev a j) k).
    { intros j k Hj Hnz; apply (frees_u32 dev _ s t _ k Hf).
      apply (Hsg j Hj Hnz). }
    destruct (free_double_spec dev a (Z.to_nat NINDIRECT) 0 t)
      as (t1 & R1 & I1 & G); try lia; try assumption.
    { intros j Hj; rewrite Hu; intros Hnz.
      destruct (Hsg j ltac:(lia) Hnz) as (L1 & L2 & L3 & _).
      split; [exact L1 |]; split; assumption. }
    { intros j k Hj Hk; rewrite !Hu; intros Hnz.
      rewrite Hu2 by (try lia; exact Hnz); rewrite <- Hrl by exact Hnz; intros Hnz2.
      destruct (frees_keeps s t x C (PLeaf j k) W Hrng Hf ltac:(cbn; lia) Hnz2 (HC3 j k))
        as (L1 & L2 & _); split; assumption. }
    { intros j1 j2 Hj1 Hj2; rewrite !Hu, <- !Hre; intros Hnz E.
      assert (E' : PDblE j1 = PDblE j2)
        by (apply (wf_inj _ _ W); [cbn; lia | cbn; lia | exact Hnz | exact E]).
      injection E' as ->; reflexivity. }
    { intros j1 j2 k Hj1 Hj2 Hk; rewrite !Hu; intros Hnz.
      rewrite Hu2 by (try lia; exact Hnz); rewrite <- Hrl by exact Hnz.
      rewrite <- Hre; intros Hnz2 E.
      assert (E' : PLeaf j1 k = PDblE j2)
        by (apply (wf_inj _ _ W); [cbn; lia | cbn; lia | exact Hnz2 | exact E]).
      discriminate E'. }
    { intros j1 j2 k1 k2 Hj1 Hj2 Hk1 Hk2; rewrite !Hu; intros Hnz1 Hnz2.
      rewrite !Hu2 by (try lia; assumption).
      rewrite <- !Hrl by assumption; intros Hnz E.
      assert (E' : PLeaf j1 k1 = PLeaf j2 k2)
        by (apply (wf_inj _ _ W); [cbn; lia | cbn; lia | exact Hnz | exact E]).
      injection E' as -> ->; split; reflexivity. }
    pose proof G as (G1 & _ & _ & _ & _ & _ & _ & G8 & _).
    destruct (bfree_frees dev a t1) as (t2 & R2 & I2 & G').
    { rewrite G1; exact K1. }
    { rewrite G8; [exact K2 | lia |].
      intros (_ & j & Hj & Hnz & Hcase); rewrite Hu in Hnz, Hcase.
      destruct Hcase as [E | (k & Hk & E)].
      - rewrite <- Hre, <- Hra in E.
        assert (E' : PDbl = PDblE j).
        { apply (wf_inj _ _ W); [exact I | cbn; lia | | exact E].
          rewrite Hra; exact Ea. }
        discriminate E'.
      - rewrite Hu2 in E by (try lia; exact Hnz).
        rewrite <- Hrl, <- Hra in E by exact Hnz.
        assert (E' : PDbl = PLeaf j k).
        { apply (wf_inj _ _ W); [exact I | cbn; lia | | exact E].
          rewrite Hra; exact Ea. }
        discriminate E'. }
    exists (store_addr x (NDIRECT + 1) 0 t2); split.
    { unfold bind at 1; rewrite R1; unfold bind at 1; rewrite R2; reflexivity. }
    split.
    { apply frees_store_addr.
      eapply frees_weaken;
        [| apply (frees_trans _ _ _ _ _ _ Hf (frees_trans _ _ _ _ _ _ G G'))].
      intros b; cbn beta; unfold blocks_at; split.
      - intros (Hb & p & Hp & [HCp | [-> | [[j ->] | (j & k & ->)]]] & E).
        + left; split; [exact Hb |]; exists p; repeat split; assumption.
        + right; right; rewrite <- E; exact Hra.
        + right; left; split; [exact Hb |]; exists j; cbn in Hp.
          rewrite Hu, <- Hre; split; [lia |]; split; [rewrite E; exact Hb |].
          left; symmetry; exact E.
        + right; left; split; [exact Hb |]; exists j; cbn in Hp.
          assert (Hnz : u32_at s dev a j <> 0).
          { rewrite <- E in Hb; cbn [ref_at] in Hb; fold a dev in Hb.
            rewrite (if_zero_val _ _ Ea) in Hb; apply if_zero_ne in Hb; tauto. }
          rewrite Hu; split; [lia |]; split; [exact Hnz |].
          right; exists k; split; [lia |].
          rewrite Hu2 by (try lia; exact Hnz); rewrite <- Hrl by exact Hnz.
          symmetry; exact E.
      - intros [(Hb & p & Hp & HCp & E) | [(Hb & j & Hj & Hnz & Hcase) | E]].
        + split; [exact Hb |]; exists p; split; [exact Hp |]; split;
            [left; exact HCp | exact E].
        + rewrite Hu in Hnz, Hcase; split; [exact Hb |].
          destruct Hcase as [E | (k & Hk & E)].
          * exists (PDblE j); split; [cbn; lia |]; split;
              [right; right; left; exists j; reflexivity | rewrite Hre; symmetry; exact E].
          * rewrite Hu2 in E by (try lia; exact Hnz).
            exists (PLeaf j k); split; [cbn; lia |]; split;
              [right; right; right; exists j, k; reflexivity
              | rewrite Hrl by exact Hnz; symmetry; exact E].
        + split; [rewrite E; exact Ea |]; exists PDbl; split; [exact I |]; split;
            [right; left; reflexivity | rewrite Hra; symmetry; exact E]. }
    unfold store_addr; cbn [icache set_icache]; rewrite I2, I1.
    split; [intros q Hq; rewrite updn_other by exact Hq; reflexivity |].
    rewrite updn_same; split; [reflexivity |]; split; [reflexivity |].
    intros i'; rewrite andb_true_r; reflexivity.
Qed.

(** itrunc on an inode that satisfies the invariant of the allocator and
    whose block numbers are blocks of the device. *)
Lemma itrunc_spec s x :
  0 <= NDIRECT -> inode_wf s x ->
  (forall p, valid_pos p -> ref_at s x p <> 0 -> 0 <= ref_at s x p < sb_size (sb s)) ->
  exists s',
    itrunc x s = Ret (tt, s') /\
    (forall p, valid_pos p -> ref_at s x p <> 0 ->
       block_used s' (i_dev (icache s x)) (ref_at s x p) = false) /\
    (forall b, 0 <= b -> ~ blocks_at s x (fun _ => True) b ->
       block_used s' (i_dev (icache s x)) b = block_used s (i_dev (icache s x)) b) /\
    (forall dev' b o, dev' <> i_dev (icache s x) \/ not_bitmap s b ->
       disk s' dev' b o = disk s dev' b o) /\
    sb s' = sb s /\ cwd s' = cwd s /\ umem s' = umem s /\ kmem s' = kmem s /\
    (forall q, q <> x -> icache s' q = icache s q) /\
    adm (icache s' x) = adm (icache s x) /\
    i_size (icache s' x) = 0 /\
    (forall k, 0 <= k <= NDIRECT + 1 -> i_addrs (icache s' x) k = 0) /\
    (forall k, k < 0 \/ NDIRECT + 1 < k ->
       i_addrs (icache s' x) k = i_addrs (icache s x) k) /\
    (forall dev' inum,
       dinodes s' dev' inum =
       if (dev' =? i_dev (icache s x)) && (inum =? i_inum (icache s x))
       then mkDinode (i_type (icache s x)) (i_major (icache s x))
              (i_minor (icache s x)) (i_nlink (icache s x)) 0
              (i_addrs (icache s' x))
       else dinodes s dev' inum).
Proof.
  intros Hnd W Hrng; pose proof NINDIRECT_val as HN.
  set (dev := i_dev (icache s x)) in *.
  (* the direct blocks *)
  destruct (itrunc_direct_spec x (Z.to_nat NDIRECT) 0 s)
    as (s1 & R1 & Fr1 & O1 & A1 & S1 & Ad1).
  { intros i' Hi' Hnz.
    split; [apply (Hrng (PDirect i')); [cbn; lia | exact Hnz] |].
    destruct (wf_used _ _ W (PDirect i') ltac:(cbn; lia) Hnz) as [H | [H | H]];
      [| | exact H];
      pose proof (Hrng (PDirect i') ltac:(cbn; lia) Hnz) as Hr; cbn [ref_at] in H, Hr; lia. }
  { intros i1 i2 H1 H2 Hnz E.
    assert (E' : PDirect i1 = PDirect i2)
      by (apply (wf_inj _ _ W); [cbn; lia | cbn; lia | exact Hnz | exact E]).
    injection E' as ->; reflexivity. }
  fold dev in Fr1.
  assert (Fr1' : frees dev (blocks_at s x (fun p => exists k, p = PDirect k)) s s1).
  { eapply frees_weaken; [| exact Fr1].
    intros b; unfold blocks_at; split.
    - intros (Hb & p & Hp & [k ->] & E); split; [exact Hb |].
      exists k; cbn in Hp; split; [lia | exact E].
    - intros (Hb & k & Hk & E); split; [exact Hb |].
      exists (PDirect k); split; [cbn; lia |]; split; [exists k; reflexivity | exact E]. }
  destruct (adm_eq _ _ A1) as (Hdev1 & _).
  assert (Hkeep1 : forall k, NDIRECT <= k ->
            i_addrs (icache s1 x) k = i_addrs (icache s x) k).
  { intros k Hk; rewrite Ad1.
    assert (E : (k <? 0 + Z.of_nat (Z.to_nat NDIRECT)) = false) by (apply Z.ltb_ge; lia).
    rewrite E, andb_false_r; reflexivity. }
  (* the indirect block *)
  destruct (itrunc_indirect_spec s s1 x _ W Hrng Fr1')
    as (s4 & R2 & Fr2 & O2 & A2 & S2 & Ad2).
  { intros [k E]; discriminate. }
  { intros j [k E]; discriminate. }
  { exact Hdev1. }
  { apply Hkeep1; lia. }
  (* the doubly-indirect block *)
  destruct (itrunc_double_spec s s4 x _ (i_addrs (icache s1 x) (NDIRECT + 1)) W Hrng Fr2)
    as (s7 & R3 & Fr3 & O3 & A3 & S3 & Ad3).
  { intros [[k E] | [E | [j E]]]; discriminate. }
  { intros j [[k E] | [E | [j' E]]]; discriminate. }
  { intros j k [[k' E] | [E | [j' E]]]; discriminate. }
  { apply Hkeep1; lia. }
  fold dev in R3, Fr3, Fr2.
  set (s8 := set_icache (updn (icache s7) x (with_size 0 (icache s7 x))) s7).
  set (s9 := set_dinodes
               (upd (dinodes s8) (i_dev (icache s8 x))
                  (upd (dinodes s8 (i_dev (icache s8 x))) (i_inum (icache s8 x))
                     (mkDinode (i_type (icache s8 x)) (i_major (icache s8 x))
                        (i_minor (icache s8 x)) (i_nlink (icache s8 x))
                        (i_size (icache s8 x)) (i_addrs (icache s8 x))))) s8).
  exists s9; split.
  { unfold itrunc; unfold bind at 1; rewrite R1.
    unfold bind at 1; unfold get.
    unfold bind at 1; cbn zeta in R2; cbn zeta; rewrite R2.
    unfold bind at 1; rewrite Hdev1; fold dev; rewrite R3.
    reflexivity. }
  pose proof Fr3 as (F1 & F2 & F3 & F4 & F5 & F6 & F7 & F8 & F9).
  assert (Hadm : adm (icache s7 x) = adm (icache s x)) by congruence.
  destruct (adm_eq _ _ Hadm) as (E1 & E2 & E3 & E4 & E5 & E6 & E9).
  assert (Hmaj : i_major (icache s7 x) = i_major (icache s x) /\
                 i_minor (icache s7 x) = i_minor (icache s x)).
  { unfold adm in Hadm; injection Hadm as _ _ _ _ _ _ H7 H8 _; split; assumption. }
  assert (Hz : forall k, 0 <= k <= NDIRECT + 1 -> i_addrs (icache s7 x) k = 0).
  { intros k Hk; rewrite Ad3.
    destruct ((k =? NDIRECT + 1) && negb (i_addrs (icache s1 x) (NDIRECT + 1) =? 0))
      eqn:E; [reflexivity |].
    rewrite Ad2; destruct (k =? NDIRECT) eqn:En; [reflexivity |].
    apply Z.eqb_neq in En.
    destruct (Z.eq_dec k (NDIRECT + 1)) as [-> | Hne].
    - rewrite Z.eqb_refl in E; cbn [andb] in E.
      apply negb_false_iff, Z.eqb_eq in E; exact E.
    - rewrite Ad1.
      assert (E' : (0 <=? k) && (k <? 0 + Z.of_nat (Z.to_nat NDIRECT)) = true).
      { apply andb_true_intro; split; [apply Z.leb_le | apply Z.ltb_lt]; lia. }
      rewrite E'; reflexivity. }
  split.
  { intros p Hp Hnz; apply (F7 (ref_at s x p)); split; [exact Hnz |].
    exists p; split; [exact Hp |]; split; [| reflexivity].
    destruct p as [k | | j | | j | j k].
    - left; left; exists k; reflexivity.
    - left; right; left; reflexivity.
    - left; right; right; exists j; reflexivity.
    - right; left; reflexivity.
    - right; right; left; exists j; reflexivity.
    - right; right; right; exists j, k; reflexivity. }
  split.
  { intros b Hb Hno; apply (F8 b Hb).
    intros (Hb0 & p & Hp & _ & E); apply Hno; split; [exact Hb0 |].
    exists p; split; [exact Hp |]; split; [exact I | exact E]. }
  split; [exact F6 |].
  split; [exact F1 |]; split; [exact F3 |]; split; [exact F4 |]; split; [exact F5 |].
  cbn [icache s9 s8 set_dinodes set_icache].
  split.
  { intros q Hq; rewrite updn_other by exact Hq.
    rewrite (O3 q Hq), (O2 q Hq); apply (O1 q Hq). }
  rewrite updn_same; split; [exact Hadm |]; split; [reflexivity |].
  cbn [i_addrs with_size]; split; [exact Hz |]; split.
  { intros k Hk; rewrite Ad3.
    assert (E : (k =? NDIRECT + 1) = false) by (apply Z.eqb_neq; lia).
    rewrite E; cbn [andb]; rewrite Ad2.
    assert (E' : (k =? NDIRECT) = false) by (apply Z.eqb_neq; lia).
    rewrite E', Ad1.
    destruct ((0 <=? k) && (k <? 0 + Z.of_nat (Z.to_nat NDIRECT))) eqn:Ek; [| reflexivity].
    apply andb_prop in Ek; destruct Ek as [E3' E4'].
    apply Z.leb_le in E3'; apply Z.ltb_lt in E4'; lia. }
  intros dev' inum; unfold s9, s8; cbn [dinodes set_dinodes icache set_icache].
  unfold upd; rewrite ?updn_same.
  cbn [i_dev i_inum i_type i_major i_minor i_nlink i_size i_addrs with_size].
  destruct Hmaj as [Hm1 Hm2]; rewrite E1, E2, E6, E9, Hm1, Hm2, F2; fold dev.
  destruct (dev' =? dev) eqn:D1; [| reflexivity].
  apply Z.eqb_eq in D1; subst dev'.
  destruct (inum =? i_inum (icache s x)); reflexivity.
Qed.

(** After itrunc no place of the inode names a block. *)
Lemma ref_at_truncated s x p :
  0 <= NDIRECT ->
  (forall k, 0 <= k <= NDIRECT + 1 -> i_addrs (icache s x) k = 0) ->
  valid_pos p -> ref_at s x p = 0.
Proof.
  intros Hnd Hz Hp; destruct p as [k | | j | | j | j k]; cbn [ref_at];
    cbn in Hp; rewrite ?Hz by lia; reflexivity.
Qed.

(** X17. itrunc frees the blocks of a file, and nothing else. On an inode
    that satisfies the invariant of the allocator and whose block numbers
    are blocks of the device, itrunc returns (no bfree panics); afterwards
    the bit of every block that the inode named (data blocks, the indirect
    block, the doubly-indirect block and the indirect blocks below it) is
    clear, the bit of every other block is as before, only blocks of the
    bitmap have been written, the inode names no block, its size is 0 in
    the cache and on disk, and it satisfies the invariant again. *)
Theorem itrunc_frees_blocks (s : fs) (x : nat) :
  0 <= NDIRECT -> inode_wf s x ->
  (forall p, valid_pos p -> ref_at s x p <> 0 -> 0 <= ref_at s x p < sb_size (sb s)) ->
  exists s',
    itrunc x s = Ret (tt, s') /\
    (forall p, valid_pos p -> ref_at s x p <> 0 ->
       block_used s' (i_dev (icache s x)) (ref_at s x p) = false) /\
    (forall b, 0 <= b -> ~ blocks_at s x (fun _ => True) b ->
       block_used s' (i_dev (icache s x)) b = block_used s (i_dev (icache s x)) b) /\
    (forall dev' b o, dev' <> i_dev (icache s x) \/ not_bitmap s b ->
       disk s' dev' b o = disk s dev' b o) /\
    i_size (icache s' x) = 0 /\
    d_size (dinodes s' (i_dev (icache s x)) (i_inum (icache s x))) = 0 /\
    (forall p, valid_pos p -> ref_at s' x p = 0) /\
    inode_wf s' x.
Proof.
  intros Hnd W Hrng.
  destruct (itrunc_spec s x Hnd W Hrng)
    as (s' & R & Ha & Hb & Hc & Hsb & _ & _ & _ & _ & Hadm & Hsz & Hz & _ & Hdi).
  destruct (adm_eq _ _ Hadm) as (Hdev & _).
  assert (Hzero : forall p, valid_pos p -> ref_at s' x p = 0)
    by (intros p Hp; apply ref_at_truncated; assumption).
  exists s'; split; [exact R |]; split; [exact Ha |]; split; [exact Hb |].
  split; [exact Hc |]; split; [exact Hsz |]; split.
  { rewrite Hdi, !Z.eqb_refl; reflexivity. }
  split; [exact Hzero |].
  assert (Hres : forall b, reserved s (i_dev (icache s x)) b ->
            ~ blocks_at s x (fun _ => True) b ->
            reserved s' (i_dev (icache s' x)) b).
  { intros b [H | [H | H]] Hno; unfold reserved; rewrite Hsb, Hdev;
      [left; exact H | right; left; exact H |].
    destruct (Z_lt_le_dec b 0) as [Hneg | Hpos]; [left; exact Hneg |].
    right; right; rewrite Hb; assumption. }
  constructor.
  - rewrite Hsb; apply (wf_size _ _ W).
  - intros p q Hp _ Hnz; rewrite (Hzero p Hp) in Hnz; contradiction.
  - intros p Hp Hnz; rewrite (Hzero p Hp) in Hnz; contradiction.
  - intros y Hy; rewrite Hsb in *.
    destruct (wf_bitmap _ _ W y Hy) as [H1 H2]; split.
    + apply Hres; [exact H1 |].
      intros (Hb0 & p & Hp & _ & E); apply (H2 p Hp); [rewrite E; exact Hb0 | exact E].
    + intros p Hp Hnz; rewrite (Hzero p Hp) in Hnz; contradiction.
  - apply Hres; [apply (wf_zero _ _ W) |].
    intros (Hb0 & _); contradiction.
Qed.

(** X18. iput of the last reference to an inode without links frees the
    inode. When the slot has one reference, is valid and not locked, its
    link count is 0 and the inode satisfies the invariant of the allocator
    with block numbers on the device, iput returns; afterwards the blocks
    of the file are free in the bitmap, the bits of the other blocks are
    unchanged, the on-disk inode has type 0 (ialloc may take it), link
    count 0, size 0 and no block numbers, the on-disk records of the other
    inodes are untouched, and the slot has no reference and is not valid. *)
Theorem iput_frees_unlinked (s : fs) (x : nat) :
  0 <= NDIRECT -> inode_wf s x ->
  (forall p, valid_pos p -> ref_at s x p <> 0 -> 0 <= ref_at s x p < sb_size (sb s)) ->
  i_ref (icache s x) = 1 -> i_valid (icache s x) <> 0 -> i_nlink (icache s x) = 0 ->
  i_locked (icache s x) = false ->
  exists s',
    iput x s = Ret (tt, s') /\
    (forall p, valid_pos p -> ref_at s x p <> 0 ->
       block_used s' (i_dev (icache s x)) (ref_at s x p) = false) /\
    (forall b, 0 <= b -> ~ blocks_at s x (fun _ => True) b ->
       block_used s' (i_dev (icache s x)) b = block_used s (i_dev (icache s x)) b) /\
    (forall dev' b o, dev' <> i_dev (icache s x) \/ not_bitmap s b ->
       disk s' dev' b o = disk s dev' b o) /\
    i_ref (icache s' x) = 0 /\ i_valid (icache s' x) = 0 /\
    i_locked (icache s' x) = false /\
    (let dip := dinodes s' (i_dev (icache s x)) (i_inum (icache s x)) in
     d_type dip = 0 /\ d_nlink dip = 0 /\ d_size dip = 0 /\
     forall k, 0 <= k <= NDIRECT + 1 -> d_addrs dip k = 0) /\
    (forall dev' inum, ~ (dev' = i_dev (icache s x) /\ inum = i_inum (icache s x)) ->
       dinodes s' dev' inum = dinodes s dev' inum) /\
    (forall q, q <> x -> icache s' q = icache s q).
Proof.
  intros Hnd W Hrng Hr Hv Hn Hl.
  set (sa := set_icache (updn (icache s) x (with_locked true (icache s x))) s).
  assert (Hxa : icache sa x = with_locked true (icache s x))
    by (unfold sa; cbn [icache set_icache]; apply updn_same).
  destruct (same_blocks s sa x) as (Href & _ & Wa); try reflexivity;
    try (rewrite Hxa; reflexivity).
  destruct (itrunc_spec sa x Hnd (Wa W))
    as (sb' & R & Ha & Hb & Hc & Hsb & _ & _ & _ & Ho & Hadm & Hsz & Hz & _ & Hdi).
  { intros p Hp; rewrite Href; apply Hrng; exact Hp. }
  destruct (adm_eq _ _ Hadm) as (E1 & E2 & E3 & E4 & E5 & E6 & E9).
  rewrite Hxa in E1, E2, E3, E4, E5, E6, E9, Ha, Hb, Hc, Hdi.
  cbn [i_dev i_inum i_ref i_locked i_valid i_type i_nlink i_major i_minor with_locked]
    in E1, E2, E3, E4, E5, E6, E9, Ha, Hb, Hc, Hdi.
  eexists; split.
  { unfold iput; unfold bind at 1; unfold get.
    rewrite Hr, Hn; apply Z.eqb_neq in Hv; rewrite Hv; cbn [Z.eqb andb negb Pos.eqb].
    unfold bind at 1; unfold bind at 1; unfold acquiresleep at 1.
    unfold bind at 1; unfold get; rewrite Hl.
    unfold set_inode at 1, modify at 1; fold sa.
    unfold bind at 1; rewrite R.
    reflexivity. }
  cbn [icache set_icache dinodes set_dinodes disk sb]; rewrite !updn_same.
  cbn [i_ref i_valid i_locked i_dev i_inum i_type i_major i_minor i_nlink i_size
       i_addrs with_ref with_valid with_locked with_type].
  split.
  { intros p Hp Hnz; rewrite <- Href in *; apply Ha; assumption. }
  split.
  { intros b Hb0 Hno; apply Hb; [exact Hb0 |].
    intros (Hb1 & p & Hp & _ & E); apply Hno; split; [exact Hb1 |].
    exists p; split; [exact Hp |]; split; [exact I | rewrite <- Href; exact E]. }
  split; [exact Hc |].
  split; [lia |]; split; [reflexivity |]; split; [reflexivity |].
  rewrite E1, E2; unfold upd; split.
  { rewrite !Z.eqb_refl; cbn [d_type d_nlink d_size d_addrs].
    split; [reflexivity |]; split; [rewrite E9; exact Hn |]; split; [exact Hsz | exact Hz]. }
  split.
  { intros dev' inum Hne.
    destruct (dev' =? i_dev (icache s x)) eqn:D1.
    - apply Z.eqb_eq in D1; subst dev'.
      destruct (inum =? i_inum (icache s x)) eqn:D2.
      + apply Z.eqb_eq in D2; exfalso; apply Hne; split; [reflexivity | exact D2].
      + rewrite Hdi, Z.eqb_refl, D2; reflexivity.
    - rewrite Hdi, D1; reflexivity. }
  intros q Hq; rewrite !updn_other by exact Hq.
  rewrite (Ho q Hq); unfold sa; cbn [icache set_icache].
  rewrite updn_other by exact Hq; reflexivity.
Qed.

(** ** sys_unlink: the link counts *)

Lemma kmem_only_quiet s s' : kmem_only s s' -> quiet s s'.
Proof.
  intros (A1 & _ & A3 & A4 & A5 & _); unfold quiet.
  split; [exact A1 |]; split; [exact A3 |]; split; [exact A5 |].
  intros q; rewrite A4; reflexivity.
Qed.

(** writei and the administration of the inodes: the slots keep theirs, and
    on disk only the inode of the slot is written, with its link count and
    its type. *)
Lemma writei_adm x user src off n s r s' :
  writei x user src off n s = Ret (r, s') ->
  sb s' = sb s /\ cwd s' = cwd s /\
  (forall q, adm (icache s' q) = adm (icache s q)) /\
  (forall dev inum,
     dinodes s' dev inum = dinodes s dev inum \/
     (dev = i_dev (icache s x) /\ inum = i_inum (icache s x) /\
      d_nlink (dinodes s' dev inum) = i_nlink (icache s x) /\
      d_type (dinodes s' dev inum) = i_type (icache s x))).
Proof.
  unfold writei; unfold bind at 1; unfold get.
  assert (Hsame : forall t : fs,
            sb t = sb t /\ cwd t = cwd t /\
            (forall q, adm (icache t q) = adm (icache t q)) /\
            (forall dev inum,
               dinodes t dev inum = dinodes t dev inum \/
               (dev = i_dev (icache t x) /\ inum = i_inum (icache t x) /\
                d_nlink (dinodes t dev inum) = i_nlink (icache t x) /\
                d_type (dinodes t dev inum) = i_type (icache t x)))).
  { intros t; repeat split; try reflexivity; intros dev inum; left; reflexivity. }
  destruct ((off >? i_size (icache s x)) || (wrap32 (off + n) <? off));
    [intros H; injection H as _ <-; apply Hsame |].
  destruct (wrap32 (off + n) >? MAXFILE * BSIZE);
    [intros H; injection H as _ <-; apply Hsame |].
  intros H; apply bind_inv in H; destruct H as (rl & s1 & Hl & H).
  pose proof (quiet_writei_loop _ _ _ _ _ _ _ _ _ _ Hl) as (Q1 & Q2 & Q3 & Q4).
  apply bind_inv in H; destruct H as (u & sA & H1 & H2).
  unfold ret in H2; injection H2 as _ <-.
  destruct (n >? 0).
  - unfold bind at 1 in H1; unfold get in H1.
    apply bind_inv in H1; destruct H1 as (u2 & sB & H3 & H4).
    assert (QB : quiet s1 sB).
    { destruct (snd rl >? i_size (icache s1 x)).
      - unfold set_inode, modify in H3; injection H3 as _ <-; apply quiet_with_size.
      - injection H3 as _ <-; apply quiet_refl. }
    destruct QB as (B1 & B2 & B3 & B4).
    unfold iupdate, modify in H4; injection H4 as _ <-.
    cbn [sb cwd icache dinodes set_dinodes].
    split; [congruence |]; split; [congruence |]; split.
    { intros q; rewrite B4; apply Q4. }
    destruct (adm_eq _ _ (B4 x)) as (E1 & E2 & _ & _ & _ & E6 & E9).
    destruct (adm_eq _ _ (Q4 x)) as (G1 & G2 & _ & _ & _ & G6 & G9).
    intros dev inum; unfold upd.
    destruct (dev =? i_dev (icache sB x)) eqn:D1;
      [| left; rewrite B2, Q2; reflexivity].
    apply Z.eqb_eq in D1; subst dev.
    destruct (inum =? i_inum (icache sB x)) eqn:D2;
      [| left; rewrite B2, Q2; reflexivity].
    apply Z.eqb_eq in D2; right; cbn [d_nlink d_type].
    repeat split; congruence.
  - injection H1 as _ <-.
    split; [exact Q1 |]; split; [exact Q3 |]; split; [exact Q4 |].
    intros dev inum; left; rewrite Q2; reflexivity.
Qed.

(** writei on a slot in use with valid contents, as an operation of the
    cache. *)
Lemma writei_cache_post x user src off n s r s' need :
  writei x user src off n s = Ret (r, s') ->
  0 < i_ref (icache s x) -> i_valid (icache s x) <> 0 ->
  cache_post need (fun _ => 0) s s' /\
  forall q, adm (icache s' q) = adm (icache s q).
Proof.
  intros H Hr Hv; apply writei_adm in H; destruct H as (W1 & W2 & W3 & W4).
  split; [| exact W3].
  unfold cache_post; split; [exact W1 |]; split; [exact W2 |]; split.
  - intros C; destruct (ck_coherent _ C x Hr Hv) as (Hn & Ht & Ht0).
    split.
    + constructor.
      * intros q Hq; destruct (adm_eq _ _ (W3 q)) as (_ & _ & -> & _).
        apply (ck_range _ C); exact Hq.
      * intros q q'.
        destruct (adm_eq _ _ (W3 q)) as (-> & -> & -> & _).
        destruct (adm_eq _ _ (W3 q')) as (-> & -> & -> & _).
        apply (ck_unique _ C).
      * intros q.
        destruct (adm_eq _ _ (W3 q)) as (-> & -> & -> & _ & -> & -> & ->).
        intros Hq Hvq; destruct (ck_coherent _ C q Hq Hvq) as (Hnq & Htq & Htq0).
        destruct (W4 (i_dev (icache s q)) (i_inum (icache s q)))
          as [E | (D1 & D2 & D3 & D4)].
        -- rewrite E; repeat split; assumption.
        -- assert (q = x) by (apply (ck_unique _ C); assumption).
           subst q; repeat split; [symmetry; exact D3 | symmetry; exact D4 | exact Htq0].
    + intros dev inum; destruct (W4 dev inum) as [E | (D1 & D2 & D3 & D4)].
      * rewrite E; reflexivity.
      * subst dev inum; rewrite D3; exact Hn.
  - intros q _; destruct (adm_eq _ _ (W3 q)) as (-> & -> & -> & _).
    repeat split; lia.
Qed.

Lemma ilock_unlocked x s u s' :
  ilock x s = Ret (u, s') -> i_locked (icache s x) = false.
Proof.
  unfold ilock; unfold bind at 1; unfold get.
  destruct (i_ref (icache s x) <? 1); [discriminate |].
  unfold bind at 1; unfold acquiresleep; unfold bind at 1; unfold get.
  destruct (i_locked (icache s x)); [discriminate | reflexivity].
Qed.

(** dirlookup neither locks nor unlocks an inode. *)
Lemma dirlookup_locked dp name s r s' q :
  dirlookup dp name s = Ret (r, s') ->
  i_locked (icache s' q) = i_locked (icache s q).
Proof.
  intros H; apply dirlookup_iget in H; destruct H as [_ H].
  destruct r as [[j o] |].
  - destruct H as (t & (_ & _ & _ & Q) & G).
    destruct (adm_eq _ _ (Q q)) as (_ & _ & _ & <- & _).
    unfold iget in G; apply iget_loop_spec in G;
      [| intros e He; discriminate | intros q' Hq'; lia].
    destruct G as [_ [(_ & _ & _ & ->) | (_ & _ & ->)]]; cbn [icache set_icache];
      (destruct (Nat.eq_dec q j) as [-> | Hne];
       [rewrite updn_same | rewrite updn_other by exact Hne]); reflexivity.
  - destruct H as (_ & _ & _ & Q).
    destruct (adm_eq _ _ (Q q)) as (_ & _ & _ & E & _); exact E.
Qed.

Lemma iunlockput_others x s u s' :
  iunlockput x s = Ret (u, s') ->
  forall q, q <> x -> adm (icache s' q) = adm (icache s q).
Proof.
  unfold iunlockput; intros H q Hq.
  apply bind_inv in H; destruct H as (u1 & s1 & H1 & H).
  apply iunlock_spec in H1; destruct H1 as [-> _].
  destruct (iput_others _ _ _ _ H) as [Ho _].
  rewrite (Ho q Hq); cbn [icache set_icache]; rewrite updn_other by exact Hq.
  reflexivity.
Qed.

(** sys_unlink from the point where the entry is known: the link count of
    the inode of slot [ip] goes down by one, and that of the directory in
    slot [dp] too when the inode is a directory. *)
Lemma sys_unlink_entry_links dp ip off t r s' :
  cache_ok t -> ip <> dp ->
  0 < i_ref (icache t dp) -> i_valid (icache t dp) <> 0 ->
  0 < i_ref (icache t ip) -> i_valid (icache t ip) <> 0 ->
  sys_unlink_entry dp ip off t = Ret (r, s') ->
  cache_ok s' /\
  forall dev inum,
    d_nlink (dinodes s' dev inum) =
    if (dev =? i_dev (icache t ip)) && (inum =? i_inum (icache t ip))
    then to_short (d_nlink (dinodes t dev inum) - 1)
    else if (dev =? i_dev (icache t dp)) && (inum =? i_inum (icache t dp))
            && (i_type (icache t ip) =? T_DIR)
    then to_short (d_nlink (dinodes t dev inum) - 1)
    else d_nlink (dinodes t dev inum).
Proof.
  intros C Hne Hrd Hvd Hri Hvi H; unfold sys_unlink_entry in H.
  destruct (ck_coherent _ C dp Hrd Hvd) as (Hnd & _).
  destruct (ck_coherent _ C ip Hri Hvi) as (Hni & _).
  apply bind_inv in H; destruct H as (u1 & t1 & Hk & H).
  apply kmem_only_kstore in Hk; pose proof Hk as (_ & _ & K3 & K4 & _).
  apply kmem_only_quiet in Hk; pose proof Hk as (_ & _ & _ & Q1).
  assert (C1 : cache_ok t1) by (apply (cache_ok_ext t t1 K3 Q1 C)).
  apply bind_inv in H; destruct H as (w & t2 & Hw & H).
  destruct (writei_cache_post dp false de_unlink off DIRENT_SIZE t1 w t2 (fun _ => 1) Hw)
    as [(_ & _ & P2 & _) A2]; [rewrite K4; exact Hrd | rewrite K4; exact Hvd |].
  destruct (P2 C1) as [C2 D2].
  destruct (negb (w =? DIRENT_SIZE)); [discriminate |].
  unfold bind at 1 in H; unfold get in H.
  apply bind_inv in H; destruct H as (u3 & t3 & H3 & H).
  apply bind_inv in H; destruct H as (u4 & t4 & H4 & H).
  apply bind_inv in H; destruct H as (u5 & t5 & H5 & H).
  apply bind_inv in H; destruct H as (u6 & t6 & H6 & H).
  apply bind_inv in H; destruct H as (u7 & t7 & H7 & H).
  injection H as _ <-.
  assert (Hadm2 : forall q, adm (icache t2 q) = adm (icache t q))
    by (intros q; rewrite A2, K4; reflexivity).
  destruct (adm_eq _ _ (Hadm2 dp)) as (Ed1 & Ed2 & Ed3 & _ & Ed5 & _ & Ed9).
  destruct (adm_eq _ _ (Hadm2 ip)) as (Ei1 & Ei2 & Ei3 & _ & Ei5 & Ei6 & Ei9).
  rewrite Ei6 in H3.
  (* the link count of the directory *)
  assert (S3 : cache_ok t3 /\ (forall q, q <> dp -> icache t3 q = icache t2 q) /\
               i_dev (icache t3 dp) = i_dev (icache t dp) /\
               i_inum (icache t3 dp) = i_inum (icache t dp) /\
               forall dev inum,
                 d_nlink (dinodes t3 dev inum) =
                 if (dev =? i_dev (icache t dp)) && (inum =? i_inum (icache t dp))
                    && (i_type (icache t ip) =? T_DIR)
                 then to_short (d_nlink (dinodes t dev inum) - 1)
                 else d_nlink (dinodes t dev inum)).
  { destruct (i_type (icache t ip) =? T_DIR).
    - apply bind_inv in H3; destruct H3 as (ua & ta & Ha & Hb).
      destruct (nlink_step dp (fun i => to_short (i_nlink i - 1)) _ _ _ _ _ Ha Hb)
        as (_ & _ & N3 & N4 & N5 & N6).
      split; [apply N6; [exact C2 | lia | congruence] |].
      split; [exact N3 |]; rewrite N4; cbn [i_dev i_inum with_nlink].
      split; [exact Ed1 |]; split; [exact Ed2 |].
      intros dev inum; rewrite N5; cbn beta; rewrite Ed1, Ed2, andb_true_r.
      destruct ((dev =? i_dev (icache t dp)) && (inum =? i_inum (icache t dp))) eqn:E.
      + apply andb_prop in E; destruct E as [G1 G2].
        apply Z.eqb_eq in G1, G2; subst dev inum; rewrite Ed9, Hnd; reflexivity.
      + rewrite D2, K3; reflexivity.
    - injection H3 as _ <-; split; [exact C2 |]; split; [reflexivity |].
      split; [exact Ed1 |]; split; [exact Ed2 |].
      intros dev inum; rewrite andb_false_r, D2, K3; reflexivity. }
  destruct S3 as (C3 & O3 & Sd1 & Sd2 & D3).
  destruct (iunlockput_cache_post dp t3 u4 t4 (fun _ => 1) H4) as (_ & _ & P4 & _).
  destruct (P4 C3) as [C4 D4].
  pose proof (iunlockput_others _ _ _ _ H4 ip Hne) as A4.
  rewrite (O3 ip Hne) in A4.
  destruct (adm_eq _ _ A4) as (Fi1 & Fi2 & Fi3 & _ & Fi5 & _ & Fi9).
  destruct (nlink_step ip (fun i => to_short (i_nlink i - 1)) _ _ _ _ _ H5 H6)
    as (_ & _ & _ & _ & N5 & N6).
  assert (C6 : cache_ok t6) by (apply N6; [exact C4 | lia | congruence]).
  destruct (iunlockput_cache_post ip t6 u7 t7 (fun _ => 1) H7) as (_ & _ & P7 & _).
  destruct (P7 C6) as [C7 D7].
  split; [exact C7 |].
  intros dev inum; rewrite D7, N5; cbn beta.
  rewrite Fi1, Fi2, Ei1, Ei2, Fi9, Ei9.
  destruct ((dev =? i_dev (icache t ip)) && (inum =? i_inum (icache t ip))) eqn:E.
  - apply andb_prop in E; destruct E as [G1 G2].
    apply Z.eqb_eq in G1, G2; subst dev inum; rewrite Hni; reflexivity.
  - rewrite D4; apply D3.
Qed.

(** X19. A successful sys_unlink takes one link from the inode that the
    name stood for and, when that inode is a directory, one from the
    directory that held the name (the ".." of the removed directory); no
    other link count on disk changes. dp and name are what nameiparent
    returns for the path, (ip, off) what dirlookup returns for the name in
    the locked dp, s4 the state once ip is locked. The name is neither "."
    nor "..", the two inodes differ, the inode had a link, and the inode
    cache is coherent afterwards. *)
Theorem sys_unlink_links (s s1 s2 s3 s4 s' : fs) (path name : list Z)
    (dp ip : nat) (off : Z) :
  cache_ok s -> 0 < i_ref (icache s (cwd s)) ->
  nameiparent path (repeat 0 (Z.to_nat DIRSIZ)) s = Ret ((Some dp, name), s1) ->
  ilock dp s1 = Ret (tt, s2) ->
  dirlookup dp name s2 = Ret (Some (ip, off), s3) ->
  ilock ip s3 = Ret (tt, s4) ->
  sys_unlink (Some path) s = Ret (0, s') ->
  let tdev := i_dev (icache s4 ip) in
  let tinum := i_inum (icache s4 ip) in
  let pdev := i_dev (icache s4 dp) in
  let pinum := i_inum (icache s4 dp) in
  namecmp name [46] <> 0 /\ namecmp name [46; 46] <> 0 /\
  ~ (tdev = pdev /\ tinum = pinum) /\
  1 <= d_nlink (dinodes s tdev tinum) /\
  cache_ok s' /\
  d_nlink (dinodes s' tdev tinum) = to_short (d_nlink (dinodes s tdev tinum) - 1) /\
  d_nlink (dinodes s' pdev pinum) =
    (if i_type (icache s4 ip) =? T_DIR
     then to_short (d_nlink (dinodes s pdev pinum) - 1)
     else d_nlink (dinodes s pdev pinum)) /\
  (forall dev inum, ~ (dev = tdev /\ inum = tinum) -> ~ (dev = pdev /\ inum = pinum) ->
     d_nlink (dinodes s' dev inum) = d_nlink (dinodes s dev inum)).
Proof.
  intros C Hcwd Hn Hl Hdl Hl4 H; cbn zeta.
  (* the state once both inodes are locked *)
  pose proof Hn as Hn0; unfold nameiparent in Hn0.
  apply namex_cache_post in Hn0; [| exact Hcwd]; destruct Hn0 as [P1 Hpos1].
  specialize (Hpos1 dp eq_refl).
  assert (P2 := ilock_cache_post dp s1 tt s2 (fun _ => 1) Hl).
  destruct (ilock_spec _ _ _ _ Hl)
    as (_ & _ & _ & _ & _ & _ & _ & _ & _ & _ & Lr2 & Ll2 & Lv2 & _).
  destruct (dirlookup_cache_post _ _ _ _ _ Hdl) as [P3 Hpos3].
  specialize (Hpos3 ip off eq_refl).
  assert (P4 := ilock_cache_post ip s3 tt s4 (fun _ => 1) Hl4).
  destruct (ilock_spec _ _ _ _ Hl4)
    as (_ & _ & _ & _ & _ & _ & _ & Lo4 & _ & _ & Lr4 & _ & Lv4 & _).
  assert (Hne : ip <> dp).
  { intros ->; apply ilock_unlocked in Hl4.
    rewrite (dirlookup_locked _ _ _ _ _ dp Hdl), Ll2 in Hl4; discriminate. }
  assert (Hd3 : adm (icache s3 dp) = adm (icache s2 dp)).
  { pose proof Hdl as Hg; apply dirlookup_iget in Hg; destruct Hg as [_ (t & Q & G)].
    apply iget_cache_post in G.
    destruct G as (_ & _ & _ & _ & _ & _ & _ & _ & Go & _).
    rewrite (Go dp ltac:(intros E; apply Hne; symmetry; exact E)).
    destruct Q as (_ & _ & _ & Q); apply Q. }
  destruct (adm_eq _ _ Hd3) as (_ & _ & Dr3 & _ & Dv3 & _).
  assert (P14 : cache_post (fun _ => 1) (fun q => same_slot q dp + same_slot q ip) s s4).
  { assert (P12 : cache_post (fun _ => 1) (fun q => same_slot q dp) s s2).
    { refine (cache_post_trans _ _ _ _ _ _ _ _ _ P1 P2 _).
      intros q; pose proof (same_slot_range q dp); lia. }
    assert (P13 : cache_post (fun _ => 1)
                    (fun q => same_slot q dp + same_slot q ip) s s3).
    { refine (cache_post_trans _ _ _ _ _ _ _ _ _ P12 P3 _).
      intros q; pose proof (same_slot_range q dp); lia. }
    refine (cache_post_trans _ _ _ _ _ _ _ _ _ P13 P4 _).
    intros q; pose proof (same_slot_range q dp); pose proof (same_slot_range q ip); lia. }
  destruct P14 as (_ & _ & P14 & _); destruct (P14 C) as [C4 D4].
  assert (Hrd4 : 0 < i_ref (icache s4 dp) /\ i_valid (icache s4 dp) <> 0).
  { rewrite (Lo4 dp ltac:(intros E; apply Hne; symmetry; exact E)).
    split; [lia | congruence]. }
  assert (Hri4 : 0 < i_ref (icache s4 ip)) by lia.
  destruct (ck_coherent _ C4 ip Hri4 Lv4) as (Hni4 & _).
  (* the call *)
  unfold sys_unlink in H.
  apply bind_inv in H; destruct H as ([r0 nm] & t1 & Hn' & H).
  rewrite Hn in Hn'; injection Hn' as <- <- <-.
  apply bind_inv in H; destruct H as (u2 & t2 & Hl' & H).
  rewrite Hl in Hl'; injection Hl' as _ <-.
  destruct (namecmp name [46] =? 0) eqn:N1; cbn [orb] in H.
  { apply sys_unlink_bad_cache_post in H; destruct H as [H _]; discriminate. }
  destruct (namecmp name [46; 46] =? 0) eqn:N2; cbn [orb] in H.
  { apply sys_unlink_bad_cache_post in H; destruct H as [H _]; discriminate. }
  apply Z.eqb_neq in N1, N2.
  apply bind_inv in H; destruct H as (r3 & t3 & Hdl' & H).
  rewrite Hdl in Hdl'; injection Hdl' as <- <-.
  apply bind_inv in H; destruct H as (u4 & t4 & Hl4' & H).
  rewrite Hl4 in Hl4'; injection Hl4' as _ <-.
  unfold bind at 1 in H; unfold get in H.
  destruct (i_nlink (icache s4 ip) <? 1) eqn:Enl; [discriminate |].
  apply Z.ltb_ge in Enl.
  assert (Hent : exists t, quiet s4 t /\ sys_unlink_entry dp ip off t = Ret (0, s')).
  { destruct (i_type (icache s4 ip) =? T_DIR).
    - apply bind_inv in H; destruct H as (e & s5 & He & H).
      apply quiet_isdirempty in He.
      destruct (e =? 0).
      + apply bind_inv in H; destruct H as (u6 & s6 & _ & H).
        apply sys_unlink_bad_cache_post in H; destruct H as [H _]; discriminate.
      + exists s5; split; [exact He | exact H].
    - exists s4; split; [apply quiet_refl | exact H]. }
  destruct Hent as (t & (_ & Q2 & _ & Q4) & He).
  assert (Ct : cache_ok t) by (apply (cache_ok_ext s4 t Q2 Q4 C4)).
  destruct (adm_eq _ _ (Q4 dp)) as (Td1 & Td2 & Td3 & _ & Td5 & _).
  destruct (adm_eq _ _ (Q4 ip)) as (Ti1 & Ti2 & Ti3 & _ & Ti5 & Ti6 & _).
  destruct (sys_unlink_entry_links dp ip off t 0 s' Ct Hne) as [Cs' Ds']; try exact He;
    try (rewrite ?Td3, ?Td5, ?Ti3, ?Ti5; tauto).
  assert (Hdiff : ~ (i_dev (icache s4 ip) = i_dev (icache s4 dp) /\
                     i_inum (icache s4 ip) = i_inum (icache s4 dp))).
  { intros [E1 E2]; apply Hne.
    apply (ck_unique _ C4); [exact Hri4 | tauto | exact E1 | exact E2]. }
  split; [exact N1 |]; split; [exact N2 |]; split; [exact Hdiff |].
  split; [rewrite <- D4, <- Hni4; exact Enl |].
  split; [exact Cs' |].
  rewrite Ti1, Ti2, Td1, Td2, Ti6, Q2 in Ds'.
  split; [| split].
  - rewrite Ds', !Z.eqb_refl; cbn [andb]; rewrite D4; reflexivity.
  - rewrite Ds', !Z.eqb_refl; cbn [andb].
    destruct ((i_dev (icache s4 dp) =? i_dev (icache s4 ip))
              && (i_inum (icache s4 dp) =? i_inum (icache s4 ip))) eqn:E.
    + apply andb_prop in E; destruct E as [G1 G2]; apply Z.eqb_eq in G1, G2.
      exfalso; apply Hdiff; split; congruence.
    + rewrite D4; reflexivity.
  - intros dev inum Ht Hp; rewrite Ds'.
    destruct ((dev =? i_dev (icache s4 ip)) && (inum =? i_inum (icache s4 ip))) eqn:E.
    + apply andb_prop in E; destruct E as [G1 G2]; apply Z.eqb_eq in G1, G2.
      exfalso; apply Ht; split; assumption.
    + destruct ((dev =? i_dev (icache s4 dp)) && (inum =? i_inum (icache s4 dp))) eqn:E'.
      * apply andb_prop in E'; destruct E' as [G1 G2]; apply Z.eqb_eq in G1, G2.
        exfalso; apply Hp; split; assumption.
      * cbn [andb]; apply D4.
Qed.

(** ** create on a name that exists *)

Lemma create_existing_spec (s s1 s2 s3 s' : fs) (path name : list Z)
    (type major minor : Z) (dp ip : nat) (off : Z) (r : option nat) :
  cache_ok s -> 0 < i_ref (icache s (cwd s)) ->
  nameiparent path (repeat 0 (Z.to_nat DIRSIZ)) s = Ret ((Some dp, name), s1) ->
  ilock dp s1 = Ret (tt, s2) ->
  dirlookup dp name s2 = Ret (Some (ip, off), s3) ->
  create path type major minor s = Ret (r, s') ->
  cache_ok s' /\ cwd s' = cwd s /\
  (forall dev inum, d_nlink (dinodes s' dev inum) = d_nlink (dinodes s dev inum)) /\
  ((r = Some ip /\ type = T_FILE /\
    (i_type (icache s' ip) = T_FILE \/ i_type (icache s' ip) = T_DEVICE) /\
    i_locked (icache s' ip) = true /\
    forall q, 0 < i_ref (icache s q) ->
      i_ref (icache s' q) = i_ref (icache s q) + same_slot q ip) \/
   (r = None /\
    forall q, 0 < i_ref (icache s q) -> i_ref (icache s' q) = i_ref (icache s q))).
Proof.
  intros C Hcwd Hn Hl Hdl H.
  pose proof Hn as Hn0; unfold nameiparent in Hn0.
  apply namex_cache_post in Hn0; [| exact Hcwd]; destruct Hn0 as [P1 _].
  assert (P2 := ilock_cache_post dp s1 tt s2 (fun _ => 1) Hl).
  destruct (dirlookup_cache_post _ _ _ _ _ Hdl) as [P3 _].
  unfold create in H.
  apply bind_inv in H; destruct H as ([r0 nm] & t1 & Hn' & H).
  rewrite Hn in Hn'; injection Hn' as <- <- <-.
  apply bind_inv in H; destruct H as (u2 & t2 & Hl' & H).
  rewrite Hl in Hl'; injection Hl' as _ <-.
  apply bind_inv in H; destruct H as (r3 & t3 & Hdl' & H).
  rewrite Hdl in Hdl'; injection Hdl' as <- <-.
  apply bind_inv in H; destruct H as (u4 & s4 & Hp4 & H).
  apply bind_inv in H; destruct H as (u5 & s5 & Hl5 & H).
  assert (P4 := iunlockput_cache_post dp s3 u4 s4 (fun _ => 1) Hp4).
  assert (P5 := ilock_cache_post ip s4 u5 s5 (fun _ => 1) Hl5).
  destruct (ilock_spec _ _ _ _ Hl5)
    as (_ & _ & _ & _ & _ & _ & _ & _ & _ & _ & _ & Ll5 & _).
  assert (P15 : cache_post (fun _ => 1) (fun q => same_slot q ip) s s5).
  { assert (P12 : cache_post (fun _ => 1) (fun q => same_slot q dp) s s2).
    { refine (cache_post_trans _ _ _ _ _ _ _ _ _ P1 P2 _).
      intros q; pose proof (same_slot_range q dp); lia. }
    assert (P13 : cache_post (fun _ => 1)
                    (fun q => same_slot q dp + same_slot q ip) s s3).
    { refine (cache_post_trans _ _ _ _ _ _ _ _ _ P12 P3 _).
      intros q; pose proof (same_slot_range q dp); lia. }
    assert (P14 : cache_post (fun _ => 1) (fun q => same_slot q ip) s s4).
    { refine (cache_post_trans _ _ _ _ _ _ _ _ _ P13 P4 _).
      intros q; pose proof (same_slot_range q dp); pose proof (same_slot_range q ip);
        lia. }
    refine (cache_post_trans _ _ _ _ _ _ _ _ _ P14 P5 _).
    intros q; pose proof (same_slot_range q ip); lia. }
  unfold bind at 1 in H; unfold get in H.
  destruct ((type =? T_FILE)
            && ((i_type (icache s5 ip) =? T_FILE) || (i_type (icache s5 ip) =? T_DEVICE)))
    eqn:E.
  - injection H as <- <-.
    apply andb_prop in E; destruct E as [E1 E2].
    apply Z.eqb_eq in E1; apply orb_prop in E2.
    destruct P15 as (_ & Hc & Hok & Hh); destruct (Hok C) as [C' D].
    split; [exact C' |]; split; [exact Hc |]; split; [exact D |].
    left; split; [reflexivity |]; split; [exact E1 |]; split.
    { destruct E2 as [E2 | E2]; apply Z.eqb_eq in E2; [left | right]; exact E2. }
    split; [exact Ll5 |].
    intros q Hq; destruct (Hh q ltac:(cbn beta; lia)) as (_ & _ & E3); exact E3.
  - apply bind_inv in H; destruct H as (u6 & s6 & Hp6 & H); injection H as <- <-.
    apply (iunlockput_cache_post ip s5 u6 s6 (fun _ => 1)) in Hp6.
    assert (P16 : cache_post (fun _ => 1) (fun _ => 0) s s6).
    { refine (cache_post_trans _ _ _ _ _ _ _ _ _ P15 Hp6 _).
      intros q; pose proof (same_slot_range q ip); lia. }
    destruct P16 as (_ & Hc & Hok & Hh); destruct (Hok C) as [C' D].
    split; [exact C' |]; split; [exact Hc |]; split; [exact D |].
    right; split; [reflexivity |].
    intros q Hq; destruct (Hh q ltac:(cbn beta; lia)) as (_ & _ & E3); lia.
Qed.


(** X21. sys_mkdir of a name that exists fails: when the types T_DIR and
    T_FILE differ and dirlookup finds the last element of the path in its
    parent directory, every result of the call is -1, and it leaves the
    link counts, the reference counts and the coherence of the inode cache
    as they were. *)
Theorem sys_mkdir_existing (s s1 s2 s3 s' : fs) (path name : list Z)
    (dp ip : nat) (off r : Z) :
  T_DIR <> T_FILE ->
  cache_ok s -> 0 < i_ref (icache s (cwd s)) ->
  nameiparent path (repeat 0 (Z.to_nat DIRSIZ)) s = Ret ((Some dp, name), s1) ->
  ilock dp s1 = Ret (tt, s2) ->
  dirlookup dp name s2 = Ret (Some (ip, off), s3) ->
  sys_mkdir (Some path) s = Ret (r, s') ->
  r = -1 /\ cache_ok s' /\
  (forall dev inum, d_nlink (dinodes s' dev inum) = d_nlink (dinodes s dev inum)) /\
  (forall q, 0 < i_ref (icache s q) -> i_ref (icache s' q) = i_ref (icache s q)).
Proof.
  intros Hty C Hcwd Hn Hl Hdl H; unfold sys_mkdir in H.
  apply bind_inv in H; destruct H as (rc & t & Hc & H).
  destruct (create_existing_spec s s1 s2 s3 t path name T_DIR 0 0 dp ip off rc
              C Hcwd Hn Hl Hdl Hc)
    as (C' & _ & D & [(_ & E & _) | (-> & Hr)]); [contradiction |].
  injection H as <- <-.
  split; [reflexivity |]; split; [exact C' |]; split; [exact D | exact Hr].
Qed.

(** ** sys_link: a new link *)

Lemma quiet_dirlink_loop fuel dp : forall off,
  preserves quiet (dirlink_loop fuel dp off).
Proof.
  induction fuel as [| fuel IH]; intros off; cbn [dirlink_loop];
    repeat quiet_step; first [apply quiet_readi | apply IH].
Qed.

(** dirlink that enters the name, as an operation of the cache. *)
Lemma dirlink_ok_cache_post dp name inum s r s' :
  dirlink dp name inum s = Ret (r, s') -> 0 <= r ->
  0 < i_ref (icache s dp) -> i_valid (icache s dp) <> 0 ->
  cache_post (fun _ => 1) (fun _ => 0) s s'.
Proof.
  unfold dirlink; intros H Hr Hrd Hvd.
  apply bind_inv in H; destruct H as (f & s0 & H0 & H).
  apply dirlookup_iget in H0; destruct H0 as [_ H0].
  destruct f as [[j o] |].
  { apply bind_inv in H; destruct H as (u & s1 & _ & H); injection H as <- _; lia. }
  unfold bind at 1 in H; unfold get in H.
  apply bind_inv in H; destruct H as (off & s1 & H1 & H).
  apply quiet_dirlink_loop in H1.
  apply bind_inv in H; destruct H as (u2 & s2 & H2 & H).
  apply kmem_only_kstore, kmem_only_quiet in H2.
  apply bind_inv in H; destruct H as (u3 & s3 & H3 & H).
  apply kmem_only_kstore, kmem_only_quiet in H3.
  apply bind_inv in H; destruct H as (w & s4 & Hw & H).
  destruct (negb (w =? DIRENT_SIZE)); [discriminate |].
  injection H as _ <-.
  assert (Q : quiet s s3).
  { apply (quiet_trans _ _ _ H0), (quiet_trans _ _ _ H1), (quiet_trans _ _ _ H2 H3). }
  pose proof Q as (_ & _ & _ & Q4).
  destruct (adm_eq _ _ (Q4 dp)) as (_ & _ & E3 & _ & E5 & _).
  destruct (writei_cache_post dp false de_dirlink off DIRENT_SIZE s3 w s4 (fun _ => 1) Hw)
    as [P _]; [lia | congruence |].
  refine (cache_post_trans _ _ _ _ _ _ _ _ _ (quiet_cache_post _ _ (fun _ => 1) Q) P _).
  intros q; lia.
Qed.

(** X22. A successful sys_link (return 0) adds one link to the inode that
    old names and changes no other link count on disk; the inode is not a
    directory. The call leaves every reference count as it was and the
    inode cache coherent. ip is the slot that namei returns for old, and s2
    the state once it is locked. *)
Theorem sys_link_success (s s1 s2 s' : fs) (old new : list Z) (ip : nat) :
  cache_ok s -> 0 < i_ref (icache s (cwd s)) ->
  namei old s = Ret (Some ip, s1) -> ilock ip s1 = Ret (tt, s2) ->
  sys_link (Some old) (Some new) s = Ret (0, s') ->
  let tdev := i_dev (icache s1 ip) in
  let tinum := i_inum (icache s1 ip) in
  cache_ok s' /\ i_type (icache s2 ip) <> T_DIR /\
  d_nlink (dinodes s' tdev tinum) = to_short (d_nlink (dinodes s tdev tinum) + 1) /\
  (forall dev inum, ~ (dev = tdev /\ inum = tinum) ->
     d_nlink (dinodes s' dev inum) = d_nlink (dinodes s dev inum)) /\
  (forall q, 0 < i_ref (icache s q) -> i_ref (icache s' q) = i_ref (icache s q)).
Proof.
  intros C Hcwd Hn Hl0 H; cbn zeta.
  unfold sys_link in H.
  apply bind_inv in H; destruct H as (r0 & t1 & Hn' & H).
  rewrite Hn in Hn'; injection Hn' as <- <-.
  apply namei_cache_post in Hn; [| exact Hcwd]; destruct Hn as [P1 Hpos].
  specialize (Hpos ip eq_refl).
  apply bind_inv in H; destruct H as (u2 & t2 & Hl & H).
  rewrite Hl0 in Hl; injection Hl as _ <-; rename Hl0 into Hl.
  unfold bind at 1 in H; unfold get in H.
  assert (P2 := ilock_cache_post ip s1 tt s2 (fun _ => 1) Hl).
  destruct (ilock_spec _ _ _ _ Hl)
    as (_ & _ & _ & _ & _ & _ & _ & _ & Ld2 & Li2 & Lr2 & _ & Lv2 & _).
  assert (P12 : cache_post (fun _ => 1) (fun q => same_slot q ip) s s2).
  { refine (cache_post_trans _ _ _ _ _ _ _ _ _ P1 P2 _).
    intros q; pose proof (same_slot_range q ip); lia. }
  pose proof P12 as (_ & Hcw2 & P12c & P12h); destruct (P12c C) as [C2 D2].
  destruct (i_type (icache s2 ip) =? T_DIR) eqn:Ety.
  { apply bind_inv in H; destruct H as (u3 & s3 & _ & H); discriminate. }
  apply Z.eqb_neq in Ety.
  apply bind_inv in H; destruct H as (u3 & s3 & Hs3 & H).
  apply bind_inv in H; destruct H as (u4 & s4 & Hs4 & H).
  apply bind_inv in H; destruct H as (u5 & s5 & Hs5 & H).
  destruct (nlink_step ip (fun i => to_short (i_nlink i + 1)) _ _ _ _ _ Hs3 Hs4)
    as (_ & Hcw4 & Ho4 & Hx4 & D4 & C4).
  specialize (C4 C2 ltac:(lia) Lv2).
  destruct (ck_coherent _ C2 ip ltac:(lia) Lv2) as (Hn2 & _).
  assert (P5 := iunlock_cache_post ip s4 u5 s5 (fun _ => 1) Hs5).
  assert (Hid4 : forall q, i_ref (icache s4 q) = i_ref (icache s2 q) /\
                          i_dev (icache s4 q) = i_dev (icache s2 q) /\
                          i_inum (icache s4 q) = i_inum (icache s2 q)).
  { intros q; destruct (Nat.eq_dec q ip) as [-> | Hne];
      [rewrite Hx4 | rewrite (Ho4 q Hne)]; repeat split; reflexivity. }
  assert (Hcwd5 : 0 < i_ref (icache s5 (cwd s5))).
  { destruct P5 as (_ & Hcw5 & _ & P5h).
    rewrite Hcw5, Hcw4, Hcw2.
    pose proof (held_ref _ _ _ _ (cwd s) P12 ltac:(cbn beta; lia)) as E2.
    pose proof (same_slot_range (cwd s) ip).
    destruct (Hid4 (cwd s)) as (E4 & _).
    cbn beta in E2.
    destruct (P5h (cwd s) ltac:(cbn beta; lia)) as (_ & _ & E5); lia. }
  (* the second half, from the state s5 *)
  assert (Htail : cache_post (fun _ => 1) (fun q => - same_slot q ip) s5 s').
  { apply bind_inv in H; destruct H as ([r' nm] & s6 & Hnp & H).
    unfold nameiparent in Hnp.
    apply namex_cache_post in Hnp; [| exact Hcwd5]; destruct Hnp as [P6 Hpos6].
    destruct r' as [dp |].
    2:{ apply sys_link_bad_restores in H; [destruct H as [H _]; discriminate |].
        destruct P6 as (_ & _ & P6 & _); destruct P5 as (_ & _ & P5 & _).
        apply P6, P5; exact C4. }
    specialize (Hpos6 dp eq_refl).
    apply bind_inv in H; destruct H as (u7 & s7 & Hl7 & H).
    assert (P7 := ilock_cache_post dp s6 u7 s7 (fun _ => 1) Hl7).
    destruct (ilock_spec _ _ _ _ Hl7)
      as (_ & _ & _ & _ & _ & _ & _ & _ & _ & _ & Lr7 & _ & Lv7 & _).
    assert (P67 : cache_post (fun _ => 1) (fun q => same_slot q dp) s5 s7).
    { refine (cache_post_trans _ _ _ _ _ _ _ _ _ P6 P7 _).
      intros q; pose proof (same_slot_range q dp); lia. }
    assert (C7 : cache_ok s7).
    { destruct P67 as (_ & _ & P67 & _); destruct P5 as (_ & _ & P5 & _).
      apply P67, P5; exact C4. }
    unfold bind at 1 in H.
    destruct (negb (i_dev (icache s7 dp) =? i_dev (icache s7 ip))).
    { apply bind_inv in H; destruct H as (u8 & s8 & Hp8 & H).
      apply (iunlockput_cache_post dp s7 u8 s8 (fun _ => 1)) in Hp8.
      apply sys_link_bad_restores in H; [destruct H as [H _]; discriminate |].
      destruct Hp8 as (_ & _ & Hp8 & _); apply Hp8; exact C7. }
    apply bind_inv in H; destruct H as (r8 & s8 & Hdl & H).
    destruct (r8 <? 0) eqn:E8.
    { apply Z.ltb_lt in E8.
      apply (dirlink_fails_cache_post _ _ _ _ _ _ Hdl) in E8.
      apply bind_inv in H; destruct H as (u9 & s9 & Hp9 & H).
      apply (iunlockput_cache_post dp s8 u9 s9 (fun _ => 1)) in Hp9.
      apply sys_link_bad_restores in H; [destruct H as [H _]; discriminate |].
      destruct Hp9 as (_ & _ & Hp9 & _); destruct E8 as (_ & _ & E8 & _).
      apply Hp9, E8; exact C7. }
    apply Z.ltb_ge in E8.
    assert (Pd : cache_post (fun _ => 1) (fun _ => 0) s7 s8)
      by (apply (dirlink_ok_cache_post _ _ _ _ _ _ Hdl E8); [lia | exact Lv7]).
    apply bind_inv in H; destruct H as (u9 & s9 & Hp9 & H).
    apply bind_inv in H; destruct H as (u10 & s10 & Hp10 & H).
    injection H as <-.
    apply (iunlockput_cache_post dp s8 u9 s9 (fun _ => 1)) in Hp9.
    apply (iput_cache_post ip s9 u10 s10 (fun _ => 1)) in Hp10.
    assert (P68 : cache_post (fun _ => 1) (fun q => same_slot q dp) s5 s8).
    { refine (cache_post_trans _ _ _ _ _ _ _ _ _ P67 Pd _).
      intros q; pose proof (same_slot_range q dp); lia. }
    assert (P69 : cache_post (fun _ => 1) (fun _ => 0) s5 s9).
    { refine (cache_post_trans _ _ _ _ _ _ _ _ _ P68 Hp9 _).
      intros q; pose proof (same_slot_range q dp); lia. }
    refine (cache_post_trans _ _ _ _ _ _ _ _ _ P69 Hp10 _).
    intros q; pose proof (same_slot_range q ip); lia. }
  assert (P4' : cache_post (fun _ => 1) (fun q => - same_slot q ip) s4 s').
  { refine (cache_post_trans _ _ _ _ _ _ _ _ _ P5 Htail _); intros q; lia. }
  destruct P4' as (_ & _ & P4c & P4h); destruct (P4c C4) as [Cs' Ds'].
  destruct (Hid4 ip) as (E1 & E2 & E3).
  split; [exact Cs' |].
  assert (Hd' : forall dev inum,
            d_nlink (dinodes s' dev inum) =
            if (dev =? i_dev (icache s1 ip)) && (inum =? i_inum (icache s1 ip))
            then to_short (d_nlink (dinodes s dev inum) + 1)
            else d_nlink (dinodes s dev inum)).
  { intros dev inum; rewrite Ds', D4; cbn beta; rewrite Ld2, Li2.
    destruct ((dev =? i_dev (icache s1 ip)) && (inum =? i_inum (icache s1 ip))) eqn:E;
      [| apply D2].
    apply andb_prop in E; destruct E as [G1 G2]; apply Z.eqb_eq in G1, G2; subst dev inum.
    rewrite Hn2, Ld2, Li2, D2; reflexivity. }
  split; [exact Ety |].
  split; [rewrite Hd', !Z.eqb_refl; reflexivity |].
  split.
  { intros dev inum Hne; rewrite Hd'.
    destruct ((dev =? i_dev (icache s1 ip)) && (inum =? i_inum (icache s1 ip))) eqn:E;
      [| reflexivity].
    apply andb_prop in E; destruct E as [G1 G2]; apply Z.eqb_eq in G1, G2.
    exfalso; apply Hne; split; assumption. }
  intros q Hq.
  pose proof (held_ref _ _ _ _ q P12 ltac:(cbn beta; lia)) as R2; cbn beta in R2.
  destruct (Hid4 q) as (R4 & _).
  pose proof (same_slot_range q ip) as Hss.
  destruct (P4h q) as (_ & _ & R5); [cbn beta; lia |].
  lia.
Qed.

(** ** Paths without an element *)




(** ** sys_unlink: the directory entry *)

Lemma same_store_refl x s : same_store x s s.
Proof. repeat split. Qed.

Lemma same_store_trans x s1 s2 s3 :
  same_store x s1 s2 -> same_store x s2 s3 -> same_store x s1 s3.
Proof.
  intros (A1 & A2 & A3 & A4 & A5) (B1 & B2 & B3 & B4 & B5).
  repeat split; congruence.
Qed.

Lemma same_store_set_inode x y f s u s' :
  (forall i, i_dev (f i) = i_dev i /\ i_addrs (f i) = i_addrs i /\
             i_size (f i) = i_size i) ->
  set_inode y f s = Ret (u, s') -> same_store x s s'.
Proof.
  intros Hf H; unfold set_inode, modify in H; injection H as _ <-.
  unfold same_store; cbn [sb disk icache set_icache].
  split; [reflexivity |]; split; [reflexivity |].
  destruct (Nat.eq_dec x y) as [-> | Hne].
  - rewrite updn_same; apply Hf.
  - rewrite updn_other by exact Hne; repeat split.
Qed.

Lemma same_store_iupdate x y s u s' :
  iupdate y s = Ret (u, s') -> same_store x s s'.
Proof.
  intros H; apply iupdate_facts in H; destruct H as (A1 & A2 & A3 & _).
  unfold same_store; rewrite A1, A2, A3; repeat split.
Qed.

Lemma same_store_iunlock x y s u s' :
  iunlock y s = Ret (u, s') -> same_store x s s'.
Proof.
  unfold iunlock; unfold bind at 1; unfold get.
  destruct (negb (i_locked (icache s y)) || (i_ref (icache s y) <? 1));
    [discriminate |].
  apply same_store_set_inode; intros i; repeat split.
Qed.

Lemma same_store_acquiresleep x y s u s' :
  acquiresleep y s = Ret (u, s') -> same_store x s s'.
Proof.
  unfold acquiresleep; unfold bind at 1; unfold get.
  destruct (i_locked (icache s y)); [discriminate |].
  apply same_store_set_inode; intros i; repeat split.
Qed.

(** iput of an inode that has another reference or a link left only drops
    the reference. *)
Lemma iput_kept x s u s' :
  i_ref (icache s x) <> 1 \/ i_nlink (icache s x) <> 0 ->
  iput x s = Ret (u, s') ->
  s' = set_icache (updn (icache s) x
         (with_ref (i_ref (icache s x) - 1) (icache s x))) s.
Proof.
  intros Hc; unfold iput; unfold bind at 1; unfold get.
  assert (E : (i_ref (icache s x) =? 1) && negb (i_valid (icache s x) =? 0)
              && (i_nlink (icache s x) =? 0) = false).
  { destruct Hc as [Hc | Hc]; apply Z.eqb_neq in Hc; rewrite Hc;
      [reflexivity | apply andb_false_r]. }
  rewrite E.
  unfold bind, ret, set_inode, modify; intros H; injection H as _ <-; reflexivity.
Qed.

Lemma same_store_iunlockput_kept x y s u s' :
  i_ref (icache s y) <> 1 \/ i_nlink (icache s y) <> 0 ->
  iunlockput y s = Ret (u, s') -> same_store x s s'.
Proof.
  intros Hc H; unfold iunlockput in H.
  apply bind_inv in H; destruct H as (u1 & s1 & H1 & H).
  pose proof (same_store_iunlock x _ _ _ _ H1) as S1.
  apply iunlock_spec in H1; destruct H1 as [E1 _].
  apply iput_kept in H.
  - apply (same_store_trans _ _ _ _ S1).
    apply (same_store_set_inode x y (fun i => with_ref (i_ref (icache s1 y) - 1) i) s1 tt).
    + intros i; repeat split.
    + unfold set_inode, modify; rewrite H; reflexivity.
  - rewrite E1; cbn [icache set_icache]; rewrite updn_same; exact Hc.
Qed.

Ltac ss_set H :=
  refine (same_store_set_inode _ _ _ _ _ _ _ H); intros ?; repeat split.

(** What the content of a file depends on. *)
Lemma same_store_blocks x s s' :
  same_store x s s' ->
  (forall p, ref_at s' x p = ref_at s x p) /\
  (forall o, file_byte s' x o = file_byte s x o) /\
  (inode_wf s x -> inode_wf s' x).
Proof.
  intros (A1 & A2 & A3 & A4 & _); apply same_blocks; assumption.
Qed.

(** iput of an inode whose blocks are in range writes, at most, the bitmap,
    the on-disk inode and the slot of the inode: a file in another slot
    whose blocks are none of the bitmap keeps its content. *)
Lemma iput_other_file x y s u s' :
  0 <= NDIRECT -> x <> y ->
  inode_wf s x ->
  (forall p, valid_pos p -> ref_at s x p <> 0 -> 0 <= ref_at s x p < sb_size (sb s)) ->
  inode_wf s y ->
  iput x s = Ret (u, s') ->
  i_size (icache s' y) = i_size (icache s y) /\
  forall o, 0 <= o < MAXFILE * BSIZE -> ref_at s y (data_pos (o / BSIZE)) <> 0 ->
    file_byte s' y o = file_byte s y o.
Proof.
  intros Hnd Hne Wx Hrng Wy H.
  destruct ((i_ref (icache s x) =? 1) && negb (i_valid (icache s x) =? 0)
            && (i_nlink (icache s x) =? 0)) eqn:E.
  - unfold iput in H; unfold bind at 1 in H; unfold get in H; rewrite E in H.
    apply bind_inv in H; destruct H as (u0 & t6 & H0 & H).
    apply bind_inv in H0; destruct H0 as (u1 & t1 & H1 & H0).
    apply bind_inv in H0; destruct H0 as (u2 & t2 & H2 & H0).
    apply bind_inv in H0; destruct H0 as (u3 & t3 & H3 & H0).
    apply bind_inv in H0; destruct H0 as (u4 & t4 & H4 & H0).
    apply bind_inv in H0; destruct H0 as (u5 & t5 & H5 & H0).
    (* up to itrunc *)
    pose proof (same_store_acquiresleep x _ _ _ _ H1) as Sx1.
    pose proof (same_store_acquiresleep y _ _ _ _ H1) as Sy1.
    destruct (same_store_blocks _ _ _ Sx1) as (Rx1 & _ & Wx1).
    destruct (same_store_blocks _ _ _ Sy1) as (Ry1 & Fy1 & Wy1).
    destruct Sx1 as (Sb1 & _); destruct Sy1 as (_ & _ & Dy1 & _ & Zy1).
    destruct (itrunc_spec t1 x Hnd (Wx1 Wx)) as (t2' & I2 & _ & _ & Id & Isb & _ & _ & _ & Io & _).
    { intros p Hp; rewrite Rx1, Sb1; apply Hrng; exact Hp. }
    rewrite I2 in H2; injection H2 as _ <-.
    assert (Ey : icache t2' y = icache t1 y)
      by (apply Io; intros E'; apply Hne; symmetry; exact E').
    (* after itrunc *)
    assert (S26 : same_store y t2' s').
    { apply (same_store_trans _ _ t3);
        [ss_set H3 |].
      apply (same_store_trans _ _ t4); [apply (same_store_iupdate y x _ _ _ H4) |].
      apply (same_store_trans _ _ t5);
        [ss_set H5 |].
      apply (same_store_trans _ _ t6);
        [ss_set H0 |].
      ss_set H. }
    destruct (same_store_blocks _ _ _ S26) as (_ & F26 & _).
    destruct S26 as (_ & _ & _ & _ & Z26).
    split; [rewrite Z26, Ey; exact Zy1 |].
    intros o Ho Hnz; rewrite F26, <- Fy1.
    apply (file_byte_kept t1 t2' y o Hnd); try lia; try exact Ey.
    + intros p Hp Hp0 o'; apply Id; right.
      intros b Hb; apply (proj2 (wf_bitmap _ _ (Wy1 Wy) b Hb) p Hp Hp0).
    + rewrite Ry1; exact Hnz.
  - assert (S : same_store y s s').
    { unfold iput in H; unfold bind at 1 in H; unfold get in H; rewrite E in H.
      unfold bind at 1 in H; unfold ret in H.
      ss_set H. }
    destruct (same_store_blocks _ _ _ S) as (_ & F & _).
    destruct S as (_ & _ & _ & _ & Z).
    split; [exact Z |]; intros o _ _; apply F.
Qed.

Lemma kstore_zero a n s u s' i :
  kstore a (repeat 0 n) s = Ret (u, s') -> 0 <= i < Z.of_nat n ->
  kmem s' (a + i) = 0.
Proof.
  unfold kstore, modify; intros H Hi; injection H as _ <-.
  cbn [kmem set_kmem]; rewrite repeat_length.
  rewrite in_range_true by lia.
  apply nth_repeat.
Qed.

(** sys_unlink from the point where the entry is known: the entry at [off]
    of the directory is zero afterwards and the rest of the directory is as
    it was, also when the inode of slot [ip] is freed. *)
Lemma sys_unlink_entry_clears dp ip off t r s' :
  0 <= NDIRECT -> MAXFILE * BSIZE < 2 ^ 31 ->
  0 <= de_unlink -> de_unlink + DIRENT_SIZE <= 2 ^ 64 ->
  ip <> dp -> i_dev (icache t ip) = i_dev (icache t dp) ->
  inode_wf t dp -> 0 <= off -> off + DIRENT_SIZE <= i_size (icache t dp) ->
  i_size (icache t dp) <= MAXFILE * BSIZE ->
  i_ref (icache t dp) <> 1 \/
  (if i_type (icache t ip) =? T_DIR then to_short (i_nlink (icache t dp) - 1)
   else i_nlink (icache t dp)) <> 0 ->
  inode_wf t ip ->
  (forall p, valid_pos p -> ref_at t ip p <> 0 -> 0 <= ref_at t ip p < sb_size (sb t)) ->
  (forall p, valid_pos p -> ref_at t ip p <> 0 -> foreign t dp (ref_at t ip p)) ->
  sys_unlink_entry dp ip off t = Ret (r, s') ->
  i_size (icache s' dp) = i_size (icache t dp) /\
  (forall o, off <= o < off + DIRENT_SIZE -> file_byte s' dp o = 0) /\
  (forall o, 0 <= o < MAXFILE * BSIZE -> o < off \/ off + DIRENT_SIZE <= o ->
     ref_at t dp (data_pos (o / BSIZE)) <> 0 -> file_byte s' dp o = file_byte t dp o).
Proof.
  intros Hnd Hmax Hde Hdend Hne Hdev Wd Hoff Hend Hsz Hnt Wi Hrng Hfor H.
  assert (HD : DIRENT_SIZE = 16) by reflexivity.
  unfold sys_unlink_entry in H.
  (* the buffer of zeroes *)
  apply bind_inv in H; destruct H as (u1 & t1 & Hk & H).
  assert (Hz : forall i, 0 <= i < DIRENT_SIZE -> kmem t1 (de_unlink + i) = 0).
  { intros i Hi; apply (kstore_zero _ _ _ _ _ _ Hk); exact Hi. }
  apply kmem_only_kstore in Hk; pose proof Hk as (K1 & _ & _ & K4 & _).
  destruct (kmem_only_blocks _ _ dp Hk) as (Rd1 & Fd1 & Wd1 & _ & Fo1).
  destruct (kmem_only_blocks _ _ ip Hk) as (Ri1 & _ & Wi1 & _ & _).
  (* the entry is written *)
  apply bind_inv in H; destruct H as (w & t2 & Hw & H).
  destruct (writei_ok t1 dp false de_unlink off DIRENT_SIZE w t2 (fun _ => 0))
    as (-> & Wd2 & Z2 & D2 & Sb2 & _ & _ & O2 & In2 & Out2);
    try assumption; try (rewrite ?K4; lia); try exact (Wd1 Wd).
  { intros o Ho; unfold mem_byte; rewrite Hz by lia; reflexivity. }
  destruct (writei_effect t1 dp false de_unlink off DIRENT_SIZE DIRENT_SIZE t2)
    as (Fo2 & A2 & _);
    try assumption; try (rewrite ?K4; lia); try exact (Wd1 Wd).
  { intros i _; discriminate. }
  destruct (adm_eq _ _ A2) as (_ & _ & Ar2 & _ & _ & _ & An2).
  assert (Ei2 : icache t2 ip = icache t1 ip) by (apply O2; exact Hne).
  destruct (other_file_kept dp ip t1 t2) as (Wi2 & Ri2 & _);
    try assumption; try (rewrite ?K4; congruence); try exact (Wi1 Wi).
  { intros q Hq Hq0; rewrite Ri1 in *; apply Fo1, Hfor; assumption. }
  rewrite Z.eqb_refl in H; cbn [negb] in H.
  unfold bind at 1 in H; unfold get in H.
  (* the link count of the directory *)
  apply bind_inv in H; destruct H as (u3 & t3 & H3 & H).
  assert (S3 : forall x, same_store x t2 t3).
  { intros x; destruct (i_type (icache t2 ip) =? T_DIR).
    - apply bind_inv in H3; destruct H3 as (u & t' & Ha & Hb).
      apply (same_store_trans _ _ t'); [ss_set Ha | apply (same_store_iupdate _ _ _ _ _ Hb)].
    - injection H3 as _ <-; apply same_store_refl. }
  assert (N3 : i_ref (icache t3 dp) = i_ref (icache t dp) /\
               i_nlink (icache t3 dp)
               = if i_type (icache t ip) =? T_DIR
                 then to_short (i_nlink (icache t dp) - 1) else i_nlink (icache t dp)).
  { rewrite Ei2, K4 in H3; rewrite K4 in Ar2, An2.
    destruct (i_type (icache t ip) =? T_DIR).
    - apply bind_inv in H3; destruct H3 as (u & t' & Ha & Hb).
      apply iupdate_facts in Hb; destruct Hb as (_ & _ & -> & _).
      apply set_inode_facts in Ha; destruct Ha as (_ & _ & _ & -> & _).
      cbn [i_ref i_nlink with_nlink]; rewrite Ar2, An2; split; reflexivity.
    - injection H3 as _ <-; split; assumption. }
  destruct N3 as [Nr3 Nn3].
  (* the directory is put *)
  apply bind_inv in H; destruct H as (u4 & t4 & H4 & H).
  assert (S4 : forall x, same_store x t3 t4).
  { intros x; apply (same_store_iunlockput_kept x dp _ _ _ ltac:(rewrite Nr3, Nn3; exact Hnt) H4). }
  (* the link count of the inode *)
  apply bind_inv in H; destruct H as (u5 & t5 & H5 & H).
  apply bind_inv in H; destruct H as (u6 & t6 & H6 & H).
  apply bind_inv in H; destruct H as (u7 & t7 & H7 & H).
  injection H as _ <-.
  unfold iunlockput in H7.
  apply bind_inv in H7; destruct H7 as (u8 & t8 & H8 & H7).
  assert (S8 : forall x, same_store x t2 t8).
  { intros x.
    apply (same_store_trans _ _ t3); [apply S3 |].
    apply (same_store_trans _ _ t4); [apply S4 |].
    apply (same_store_trans _ _ t5); [ss_set H5 |].
    apply (same_store_trans _ _ t6); [apply (same_store_iupdate _ _ _ _ _ H6) |].
    apply (same_store_iunlock _ _ _ _ _ H8). }
  destruct (same_store_blocks _ _ _ (S8 dp)) as (Rd8 & Fd8 & Wd8).
  destruct (same_store_blocks _ _ _ (S8 ip)) as (Ri8 & _ & Wi8).
  destruct (S8 dp) as (Sb8 & _ & _ & _ & Z8).
  destruct (iput_other_file ip dp t8 u7 t7 Hnd Hne (Wi8 Wi2)) as [Z7 F7];
    try exact H7; try exact (Wd8 Wd2).
  { intros p Hp; rewrite Ri8, Ri2, Ri1, Sb8, Sb2, K1 by exact Hp.
    apply Hrng; exact Hp. }
  assert (Zt : i_size (icache t2 dp) = i_size (icache t dp)).
  { rewrite Z2, K4; lia. }
  split; [rewrite Z7, Z8; exact Zt |]; split.
  - intros o Ho; destruct (In2 o Ho) as [Hm Hb].
    rewrite F7, Fd8; [exact Hb | lia | rewrite Rd8; exact Hm].
  - intros o Ho Hout Hm0.
    destruct (Out2 o Ho Hout) as [Hm Hb]; [rewrite Rd1; exact Hm0 |].
    rewrite F7, Fd8, Hb; [apply Fd1 | lia | rewrite Rd8; exact Hm].
Qed.

(** X24. A successful sys_unlink of a name that stands for something other
    than a directory removes the name and nothing else from the parent
    directory. dp is the parent that nameiparent returns, s2 the state once
    it is locked, ip and off what dirlookup finds for the name, and s4 the
    state once ip is locked too. The directory satisfies the invariant of
    the allocator, has no holes and has a link; the inode satisfies the
    invariant, has its blocks on the device and shares none with the
    directory. Before the call the entry at off holds the name and the
    number of the inode; after it the sixteen bytes of that entry are 0,
    and every other byte of the directory and its size are as they were,
    also when the call has freed the inode. *)
Theorem sys_unlink_clears_entry (s s1 s2 s3 s4 s' : fs) (path name : list Z)
    (dp ip : nat) (off : Z) :
  0 <= NDIRECT -> MAXFILE * BSIZE < 2 ^ 31 ->
  0 <= de_dirlookup -> de_dirlookup + DIRENT_SIZE <= 2 ^ 64 ->
  0 <= de_unlink -> de_unlink + DIRENT_SIZE <= 2 ^ 64 ->
  nameiparent path (repeat 0 (Z.to_nat DIRSIZ)) s = Ret ((Some dp, name), s1) ->
  ilock dp s1 = Ret (tt, s2) ->
  inode_wf s2 dp -> i_size (icache s2 dp) <= MAXFILE * BSIZE ->
  mapped s2 dp 0 (i_size (icache s2 dp)) ->
  i_nlink (icache s2 dp) <> 0 ->
  dirlookup dp name s2 = Ret (Some (ip, off), s3) ->
  ilock ip s3 = Ret (tt, s4) ->
  i_type (icache s4 ip) <> T_DIR ->
  inode_wf s4 ip ->
  (forall p, valid_pos p -> ref_at s4 ip p <> 0 ->
     0 <= ref_at s4 ip p < sb_size (sb s4)) ->
  (forall p, valid_pos p -> ref_at s4 ip p <> 0 -> foreign s4 dp (ref_at s4 ip p)) ->
  sys_unlink (Some path) s = Ret (0, s') ->
  0 <= off /\ off + DIRENT_SIZE <= i_size (icache s2 dp) /\ off mod DIRENT_SIZE = 0 /\
  entry_inum s2 dp off = i_inum (icache s4 ip) /\ entry_inum s2 dp off <> 0 /\
  namecmp name (entry_name s2 dp off) = 0 /\
  i_size (icache s' dp) = i_size (icache s2 dp) /\
  entry_inum s' dp off = 0 /\
  entry_name s' dp off = repeat 0 (Z.to_nat DIRSIZ) /\
  (forall o, 0 <= o < i_size (icache s2 dp) -> o < off \/ off + DIRENT_SIZE <= o ->
     file_byte s' dp o = file_byte s2 dp o).
Proof.
  intros Hnd Hmax Hl1 Hl2 Hu1 Hu2 Hn Hl Wd Hsz Hmap Hnl Hdl Hl4 Hty Wi Hrng Hfor H.
  assert (HD : DIRENT_SIZE = 16) by reflexivity.
  (* the two inodes once they are locked *)
  destruct (ilock_spec _ _ _ _ Hl)
    as (_ & _ & _ & _ & _ & _ & _ & _ & _ & _ & _ & Ll2 & _).
  destruct (ilock_spec _ _ _ _ Hl4)
    as (_ & Lsb4 & _ & Ld4 & _ & _ & _ & Lo4 & Ldev4 & Linum4 & _).
  assert (Hne : ip <> dp).
  { intros ->; apply ilock_unlocked in Hl4.
    rewrite (dirlookup_locked _ _ _ _ _ dp Hdl), Ll2 in Hl4; discriminate. }
  assert (Hne' : dp <> ip) by (intros E; apply Hne; symmetry; exact E).
  destruct (dirlookup_cache_post _ _ _ _ _ Hdl) as [(Psb3 & _) _].
  destruct (dirlookup_spec s2 s3 dp name _ Hnd Hmax Hsz Hl1 Hl2 Hmap Hdl)
    as (_ & Dd3 & _ & Ho1 & Ho2 & Ho3 & Hin & Hnm & _ & Ddev3 & Dinum3 & _ & Do3).
  assert (E4 : icache s4 dp = icache s2 dp).
  { rewrite (Lo4 dp Hne'); apply Do3; exact Hne'. }
  assert (S24 : same_store dp s2 s4).
  { unfold same_store; rewrite E4, Lsb4, Ld4, Psb3, Dd3; repeat split. }
  destruct (same_store_blocks _ _ _ S24) as (R24 & F24 & W24).
  (* the call *)
  unfold sys_unlink in H.
  apply bind_inv in H; destruct H as ([r0 nm] & t1 & Hn' & H).
  rewrite Hn in Hn'; injection Hn' as <- <- <-.
  apply bind_inv in H; destruct H as (u2 & t2 & Hl' & H).
  rewrite Hl in Hl'; injection Hl' as _ <-.
  destruct (namecmp name [46] =? 0) eqn:N1; cbn [orb] in H.
  { apply sys_unlink_bad_cache_post in H; destruct H as [H _]; discriminate. }
  destruct (namecmp name [46; 46] =? 0) eqn:N2; cbn [orb] in H.
  { apply sys_unlink_bad_cache_post in H; destruct H as [H _]; discriminate. }
  apply bind_inv in H; destruct H as (r3 & t3 & Hdl' & H).
  rewrite Hdl in Hdl'; injection Hdl' as <- <-.
  apply bind_inv in H; destruct H as (u4 & t4 & Hl4' & H).
  rewrite Hl4 in Hl4'; injection Hl4' as _ <-.
  unfold bind at 1 in H; unfold get in H.
  destruct (i_nlink (icache s4 ip) <? 1); [discriminate |].
  apply Z.eqb_neq in Hty; rewrite Hty in H.
  assert (Hdev : i_dev (icache s4 ip) = i_dev (icache s4 dp))
    by (rewrite Ldev4, E4; exact Ddev3).
  assert (Hnt : i_ref (icache s4 dp) <> 1 \/
                (if i_type (icache s4 ip) =? T_DIR
                 then to_short (i_nlink (icache s4 dp) - 1)
                 else i_nlink (icache s4 dp)) <> 0)
    by (right; rewrite Hty, E4; exact Hnl).
  destruct (sys_unlink_entry_clears dp ip off s4 0 s' Hnd Hmax Hu1 Hu2 Hne Hdev
              (W24 Wd) Ho1 ltac:(rewrite E4; exact Ho2) ltac:(rewrite E4; exact Hsz)
              Hnt Wi Hrng Hfor H) as (Z' & In' & Out').
  rewrite E4 in Z'.
  split; [exact Ho1 |]; split; [exact Ho2 |]; split; [exact Ho3 |].
  split; [rewrite Linum4; symmetry; exact Dinum3 |].
  split; [exact Hin |]; split; [exact Hnm |]; split; [exact Z' |].
  split; [| split].
  - unfold entry_inum; rewrite !In' by lia; reflexivity.
  - unfold entry_name; change (Z.to_nat DIRSIZ) with 14%nat.
    cbn [seq map repeat]; rewrite !In' by lia; reflexivity.
  - intros o Ho Hout; rewrite Out', F24; [reflexivity | lia | exact Hout |].
    rewrite R24; apply Hmap; lia.
Qed.

(** ** dirlink of a name that is there *)

(** A dirlookup that finds the name has read the directory, which changes
    kernel memory only, and has then taken the inode with iget. *)
Lemma dirlookup_loop_found fuel x name : forall off s j o s',
  0 <= NDIRECT -> MAXFILE * BSIZE < 2 ^ 31 ->
  0 <= off -> i_size (icache s x) <= MAXFILE * BSIZE ->
  0 <= de_dirlookup -> de_dirlookup + DIRENT_SIZE <= 2 ^ 64 ->
  mapped s x 0 (i_size (icache s x)) ->
  dirlookup_loop fuel x name off s = Ret (Some (j, o), s') ->
  exists t dev inum, kmem_only s t /\ iget dev inum t = Ret (j, s').
Proof.
  assert (HD : DIRENT_SIZE = 16) by reflexivity.
  induction fuel as [| fuel IH]; intros off s j o s' Hnd Hmax Hoff Hsz Hde Hdend Hmap;
    cbn [dirlookup_loop]; unfold bind at 1; unfold get;
    destruct (off <? i_size (icache s x)) eqn:E; try discriminate.
  apply Z.ltb_lt in E.
  intros H; apply bind_inv in H; destruct H as (n & t & Hr & H).
  destruct (n =? DIRENT_SIZE) eqn:En; [| discriminate]; cbn [negb] in H.
  apply Z.eqb_eq in En.
  destruct (readi_entry s x de_dirlookup off n t Hnd Hmax ltac:(lia) Hsz Hde Hdend
              Hmap Hr En) as (Hin & K & _).
  unfold bind at 1 in H; unfold get in H.
  pose proof K as (_ & _ & _ & Kc & _).
  destruct (kmem_only_blocks s t x K) as (_ & _ & _ & Hmp & _).
  assert (Hrec : dirlookup_loop fuel x name (wrap32 (off + DIRENT_SIZE)) t
                 = Ret (Some (j, o), s') ->
                 exists t' dev inum, kmem_only s t' /\ iget dev inum t' = Ret (j, s')).
  { rewrite wrap32_small by lia; intros H'.
    apply IH in H'; try assumption; try lia; try (rewrite Kc; assumption).
    - destruct H' as (t' & dev & inum & K' & G).
      exists t', dev, inum; split; [apply (kmem_only_trans _ _ _ K K') | exact G].
    - rewrite Kc; apply Hmp; exact Hmap. }
  destruct (de_inum t de_dirlookup =? 0); [apply Hrec; exact H |].
  destruct (namecmp name (de_name t de_dirlookup) =? 0); [| apply Hrec; exact H].
  apply bind_inv in H; destruct H as (j' & t' & G & H); injection H as <- _ <-.
  eexists t, _, _; split; [exact K | exact G].
Qed.

(** iput without the freeing of the inode. *)
Lemma iput_no_free x s u s' :
  (i_ref (icache s x) =? 1) && negb (i_valid (icache s x) =? 0)
    && (i_nlink (icache s x) =? 0) = false ->
  iput x s = Ret (u, s') ->
  s' = set_icache (updn (icache s) x
         (with_ref (i_ref (icache s x) - 1) (icache s x))) s.
Proof.
  intros E; unfold iput; unfold bind at 1; unfold get; rewrite E.
  unfold bind, ret, set_inode, modify; intros H; injection H as _ <-; reflexivity.
Qed.

(** X25. dirlink never enters a name a second time. On a directory without
    holes a dirlink that returns has returned -1 or 0. It returns -1 when
    some entry of the directory holds the name with an inode number other
    than 0; the disk, the on-disk inodes and every cache slot in use are
    then as before the call: the inode that the lookup took is put back and
    never freed. It returns 0 only when no entry in use has the name. *)
Theorem dirlink_no_duplicate (s s' : fs) (dp : nat) (name : list Z) (inum r : Z) :
  0 <= NDIRECT -> MAXFILE * BSIZE < 2 ^ 31 ->
  i_size (icache s dp) <= MAXFILE * BSIZE ->
  0 <= de_dirlookup -> de_dirlookup + DIRENT_SIZE <= 2 ^ 64 ->
  mapped s dp 0 (i_size (icache s dp)) ->
  dirlink dp name inum s = Ret (r, s') ->
  (r = -1 /\
   (exists off,
      0 <= off /\ off + DIRENT_SIZE <= i_size (icache s dp) /\
      off mod DIRENT_SIZE = 0 /\
      entry_inum s dp off <> 0 /\ namecmp name (entry_name s dp off) = 0) /\
   sb s' = sb s /\ disk s' = disk s /\ dinodes s' = dinodes s /\ cwd s' = cwd s /\
   (forall q, 0 < i_ref (icache s q) -> icache s' q = icache s q)) \/
  (r = 0 /\
   forall o, 0 <= o < i_size (icache s dp) -> o mod DIRENT_SIZE = 0 ->
     entry_inum s dp o = 0 \/ namecmp name (entry_name s dp o) <> 0).
Proof.
  intros Hnd Hmax Hsz Hde Hdend Hmap H; unfold dirlink in H.
  apply bind_inv in H; destruct H as (f & s0 & Hdl & H).
  pose proof (dirlookup_spec s s0 dp name f Hnd Hmax Hsz Hde Hdend Hmap Hdl)
    as (_ & _ & _ & Hf).
  destruct f as [[j o] |].
  - left.
    destruct Hf as (Ho1 & Ho2 & Ho3 & Hin & Hnm & _).
    apply bind_inv in H; destruct H as (u & s1 & Hp & H); injection H as <- <-.
    split; [reflexivity |].
    split; [exists o; repeat split; assumption |].
    (* the lookup *)
    unfold dirlookup in Hdl; unfold bind at 1 in Hdl; unfold get in Hdl.
    destruct (negb (i_type (icache s dp) =? T_DIR)); [discriminate |].
    apply dirlookup_loop_found in Hdl; try assumption; try lia.
    destruct Hdl as (t & dev & inum' & (K1 & K2 & K3 & K4 & K5 & _) & G).
    unfold iget in G; apply iget_loop_spec in G;
      [| intros e He; discriminate | intros q Hq; lia].
    destruct G as [_ [(Gr & _ & _ & ->) | (Gr & _ & ->)]].
    + (* the inode was in the cache *)
      apply iput_no_free in Hp.
      2:{ cbn [icache set_icache]; rewrite updn_same; cbn [i_ref with_ref].
          replace (i_ref (icache t j) + 1 =? 1) with false; [reflexivity |].
          symmetry; apply Z.eqb_neq; lia. }
      subst s1; cbn [sb disk dinodes cwd icache set_icache].
      repeat (split; [assumption |]).
      intros q Hq; rewrite !updn_same; cbn [i_ref with_ref].
      destruct (Nat.eq_dec q j) as [-> | Hne].
      * rewrite updn_same, K4; destruct (icache s j); unfold with_ref; cbn; f_equal; lia.
      * rewrite !updn_other by exact Hne; rewrite K4; reflexivity.
    + (* the inode has taken a slot that was free *)
      apply iput_no_free in Hp.
      2:{ cbn [icache set_icache]; rewrite updn_same; cbn [i_valid].
          rewrite andb_false_r; reflexivity. }
      subst s1; cbn [sb disk dinodes cwd icache set_icache].
      repeat (split; [assumption |]).
      intros q Hq; rewrite !updn_same.
      destruct (Nat.eq_dec q j) as [-> | Hne]; [rewrite K4 in Gr; lia |].
      rewrite !updn_other by exact Hne; rewrite K4; reflexivity.
  - right.
    unfold bind at 1 in H; unfold get in H.
    apply bind_inv in H; destruct H as (off & s1 & _ & H).
    apply bind_inv in H; destruct H as (u2 & s2 & _ & H).
    apply bind_inv in H; destruct H as (u3 & s3 & _ & H).
    apply bind_inv in H; destruct H as (w & s4 & _ & H).
    destruct (negb (w =? DIRENT_SIZE)); [discriminate |].
    injection H as <- _; split; [reflexivity | exact Hf].
Qed.

(** ** sys_unlink of a directory *)

(** X26. sys_unlink removes a directory only when it is empty. The name is
    neither "." nor "..", ip is what dirlookup finds for it in the parent,
    and s4 is the state once ip is locked, where ip is a directory without
    holes. A call that returns has returned 0 or -1: 0 only when every entry
    of the directory from the third on has the inode number 0, and -1 when
    one of them is in use. *)
Theorem sys_unlink_dir_empty (s s1 s2 s3 s4 s' : fs) (path name : list Z)
    (dp ip : nat) (off r : Z) :
  0 <= NDIRECT -> MAXFILE * BSIZE < 2 ^ 31 ->
  0 <= de_isdirempty -> de_isdirempty + DIRENT_SIZE <= 2 ^ 64 ->
  nameiparent path (repeat 0 (Z.to_nat DIRSIZ)) s = Ret ((Some dp, name), s1) ->
  namecmp name [46] <> 0 -> namecmp name [46; 46] <> 0 ->
  ilock dp s1 = Ret (tt, s2) ->
  dirlookup dp name s2 = Ret (Some (ip, off), s3) ->
  ilock ip s3 = Ret (tt, s4) ->
  i_type (icache s4 ip) = T_DIR ->
  i_size (icache s4 ip) <= MAXFILE * BSIZE ->
  mapped s4 ip 0 (i_size (icache s4 ip)) ->
  sys_unlink (Some path) s = Ret (r, s') ->
  (r = 0 /\
   forall o, 2 * DIRENT_SIZE <= o < i_size (icache s4 ip) -> o mod DIRENT_SIZE = 0 ->
     entry_inum s4 ip o = 0) \/
  (r = -1 /\
   exists o, 2 * DIRENT_SIZE <= o /\ o + DIRENT_SIZE <= i_size (icache s4 ip) /\
     o mod DIRENT_SIZE = 0 /\ entry_inum s4 ip o <> 0).
Proof.
  intros Hnd Hmax Hde Hdend Hn N1 N2 Hl Hdl Hl4 Hty Hsz Hmap H.
  assert (HD : DIRENT_SIZE = 16) by reflexivity.
  assert (Hshift : forall o, (o - 2 * DIRENT_SIZE) mod DIRENT_SIZE = o mod DIRENT_SIZE).
  { intros o; replace (o - 2 * DIRENT_SIZE) with (o + (-2) * DIRENT_SIZE) by lia.
    apply Z.mod_add; lia. }
  unfold sys_unlink in H.
  apply bind_inv in H; destruct H as ([r0 nm] & t1 & Hn' & H).
  rewrite Hn in Hn'; injection Hn' as <- <- <-.
  apply bind_inv in H; destruct H as (u2 & t2 & Hl' & H).
  rewrite Hl in Hl'; injection Hl' as _ <-.
  apply Z.eqb_neq in N1, N2; rewrite N1, N2 in H; cbn [orb] in H.
  apply bind_inv in H; destruct H as (r3 & t3 & Hdl' & H).
  rewrite Hdl in Hdl'; injection Hdl' as <- <-.
  apply bind_inv in H; destruct H as (u4 & t4 & Hl4' & H).
  rewrite Hl4 in Hl4'; injection Hl4' as _ <-.
  unfold bind at 1 in H; unfold get in H.
  destruct (i_nlink (icache s4 ip) <? 1); [discriminate |].
  rewrite Hty, Z.eqb_refl in H.
  apply bind_inv in H; destruct H as (e & s5 & He & H).
  unfold isdirempty in He; unfold bind at 1 in He; unfold get in He.
  apply isdirempty_loop_spec in He; try assumption; try lia.
  destruct He as [_ [(-> & Hall) | (-> & o & Ho1 & Ho2 & Ho3 & Ho4)]].
  - left; cbn [Z.eqb] in H.
    apply sys_unlink_entry_result in H; split; [exact H |].
    intros o Ho Hal; apply Hall; [exact Ho | rewrite Hshift; exact Hal].
  - right; cbn [Z.eqb] in H.
    apply bind_inv in H; destruct H as (u6 & s6 & _ & H).
    apply sys_unlink_bad_cache_post in H; destruct H as [-> _].
    split; [reflexivity |].
    exists o; rewrite Hshift in Ho3; repeat split; assumption.
Qed.

End FS.

(** * Instances on the example file system *)


Lemma demo_umem_mapped a : 4096 <= a < 8192 -> demo_umem a <> None.
Proof.
  intros H; unfold demo_umem.
  destruct (4096 <=? a) eqn:E1; [| rewrite Z.leb_gt in E1; lia].
  destruct (a <? 8192) eqn:E2; [| rewrite Z.ltb_ge in E2; lia].
  discriminate.
Qed.

Lemma demo_bitmap_block x : 0 <= x < 64 -> BBLOCK x demo_sb = 3.
Proof.
  intros H; unfold BBLOCK; rewrite Z.div_small; [reflexivity |].
  rewrite BPB_val; lia.
Qed.

Lemma demo_file_wf : inode_wf 11 demo_fs 0.
Proof.
  apply inode_wf_empty.
  - intros k; reflexivity.
  - cbn; lia.
  - intros x Hx; cbn [sb demo_fs] in *.
    rewrite demo_bitmap_block by exact Hx.
    right; right; vm_compute; reflexivity.
  - right; right; vm_compute; reflexivity.
Qed.

Lemma demo_has_free : has_free demo_fs 1 3.
Proof.
  exists [8; 9; 10]; split; [| split; [reflexivity |]].
  - repeat constructor; cbn; intuition lia.
  - intros x [<- | [<- | [<- | []]]]; split; try (cbn; lia); vm_compute; reflexivity.
Qed.

Lemma demo_maxfile : MAXFILE 11 * BSIZE < 2 ^ 31.
Proof. vm_compute; reflexivity. Qed.

(** Writing "hello" from user address 4096 to the empty file and reading it
    back to user address 4200. *)
Lemma writei_readi_roundtrip_witness :
  exists s2,
    readi 11 0 true 4200 0 5 (after (writei 11 0 true 4096 0 5) demo_fs)
      = Ret (5, s2) /\
    forall i, 0 <= i < 5 ->
      mem_byte s2 true (4200 + i) = mem_byte demo_fs true (4096 + i).
Proof.
  assert (Hw : writei 11 0 true 4096 0 5 demo_fs
               = Ret (5, after (writei 11 0 true 4096 0 5) demo_fs))
    by (apply after_ret; vm_compute; reflexivity).
  apply (writei_readi_roundtrip 11 demo_fs _ 0%nat true true 4096 4200 0 5);
    try exact demo_file_wf; try exact demo_maxfile; try exact Hw;
    try (cbn; lia); try (apply Z.leb_le; vm_compute; reflexivity).
  - intros i Hi; apply demo_umem_mapped; lia.
  - intros i Hi.
    rewrite (writei_mem 11 demo_fs 0%nat true 4096 0 5 5 _ ltac:(lia)
               demo_maxfile demo_file_wf ltac:(cbn; lia) ltac:(lia)
               ltac:(apply Z.leb_le; vm_compute; reflexivity) ltac:(lia) ltac:(lia)
               ltac:(intros j Hj; apply demo_umem_mapped; lia) Hw).
    apply demo_umem_mapped; lia.
Defined.

(** Block 567 of the empty file lies under the doubly-indirect block:
    k = 567 - 11 - 256 = 300, outer index 1, inner index 44. *)
Lemma bmap_layout_witness :
  exists a s',
    bmap 11 0 567 demo_fs = Ret (a, s') /\ a <> 0 /\
    i_addrs (icache s' 0) 12 <> 0 /\
    a = u32_at s' 1 (u32_at s' 1 (i_addrs (icache s' 0) 12) 1) 44 /\
    inode_wf 11 s' 0.
Proof.
  destruct (bmap_layout 11 demo_fs 0%nat 567 ltac:(lia) demo_file_wf
              ltac:(split; [lia | vm_compute; reflexivity])) as [Ht Hp].
  destruct (Ht demo_has_free) as (a & s' & H).
  exists a, s'; split; [exact H |].
  destruct (Hp a s' H) as (Ha & _ & _ & Hd & _ & _ & _ & Hwf).
  destruct (Hd ltac:(vm_compute; discriminate)) as (H1 & _ & H3).
  split; [exact Ha | split; [exact H1 | split; [exact H3 | exact Hwf]]].
Defined.

Lemma demo2_mapped : mapped 11 demo_fs2 0 100 1948.
Proof.
  intros o Ho.
  assert (H : o / BSIZE = 0 \/ o / BSIZE = 1).
  { rewrite BSIZE_val.
    assert (0 <= o / 1024 < 2) by (split; [apply Z.div_pos | apply Z.div_lt_upper_bound]; lia).
    lia. }
  destruct H as [-> | ->]; vm_compute; discriminate.
Qed.

(** On the file of 2048 bytes: a read at offset 3000 is rejected, and a read
    of 5000 bytes at offset 100 is clamped to the 1948 bytes that remain. *)
Lemma readi_spec_witness :
  readi 11 0 true 4096 3000 5 demo_fs2 = Ret (-1, demo_fs2) /\
  exists s', readi 11 0 true 4096 100 5000 demo_fs2 = Ret (1948, s') /\
             mem_byte s' true 4096 = Some 65 /\
             mem_byte s' true (4096 + 1947) = Some 66.
Proof.
  split.
  - apply (readi_spec 11 demo_fs2 0%nat true 4096 3000 5 ltac:(lia) demo_maxfile
             ltac:(lia) ltac:(lia)).
    left; vm_compute; reflexivity.
  - destruct (readi_spec 11 demo_fs2 0%nat true 4096 100 5000 ltac:(lia)
                demo_maxfile ltac:(lia) ltac:(lia)) as [_ Hr].
    destruct (Hr ltac:(vm_compute; discriminate) ltac:(lia)
                 ltac:(vm_compute; discriminate) ltac:(lia)
                 ltac:(vm_compute; discriminate) demo2_mapped)
      as (s' & H & _ & _ & _ & _ & _ & Hm & _).
    + intros i Hi; apply demo_umem_mapped.
      change (Z.min 5000 (i_size (icache demo_fs2 0) - 100)) with 1948 in Hi; lia.
    + exists s'; split; [exact H |]; rewrite !Hm; split; vm_compute; reflexivity.
Defined.

(** Reading the two blocks of the file to the user address 7168: the first
    block fits below the end of the mapped memory at 8192, the copy of the
    second block fails, and readi returns 2048 with 1024 bytes copied. *)
Lemma readi_count_after_copy_failure_witness :
  readi 11 0 true 7168 0 2048 demo_fs2
    = Ret (2048, after (readi_loop 11 2048 0 true 2048 0 0 7168) demo_fs2) /\
  2048 <> 1024.
Proof.
  apply (readi_count_after_copy_failure 11 demo_fs2 _ 0%nat true 7168 0 2048 1024).
  - vm_compute; discriminate.
  - vm_compute; discriminate.
  - apply after_ret; vm_compute; reflexivity.
  - split; [vm_compute; discriminate | vm_compute; reflexivity].
  - vm_compute; reflexivity.
Defined.

(** On the empty file: a write at offset 1 and a write that would end beyond
    the maximal file size are rejected, a write of 5 bytes at offset 0 = size
    is accepted and extends the file. *)
Lemma writei_preconditions_witness :
  writei 11 0 true 4096 1 5 demo_fs = Ret (-1, demo_fs) /\
  writei 11 0 true 4096 0 (MAXFILE 11 * BSIZE + 1) demo_fs = Ret (-1, demo_fs) /\
  exists s1, writei 11 0 true 4096 0 5 demo_fs = Ret (5, s1) /\
             i_size (icache s1 0) = 5.
Proof.
  split; [| split].
  - apply (writei_preconditions 11 demo_fs 0%nat true 4096 1 5 ltac:(lia)
             demo_maxfile ltac:(lia) ltac:(lia)).
    left; vm_compute; reflexivity.
  - apply (writei_preconditions 11 demo_fs 0%nat true 4096 0
             (MAXFILE 11 * BSIZE + 1) ltac:(lia) demo_maxfile ltac:(lia)
             ltac:(split; [vm_compute; discriminate | vm_compute; reflexivity])).
    right; right; lia.
  - destruct (writei_preconditions 11 demo_fs 0%nat true 4096 0 5 ltac:(lia)
                demo_maxfile ltac:(lia) ltac:(lia)) as [_ Hw].
    apply Hw.
    + reflexivity.
    + vm_compute; discriminate.
    + exact demo_file_wf.
    + lia.
    + lia.
    + intros i Hi; apply demo_umem_mapped; lia.
    + exact demo_has_free.
Defined.

(** Block MAXFILE of the file whose doubly-indirect block is there: bmap
    reads entry 256 of a block of 256 entries. *)
Lemma bmap_beyond_maxfile_witness :
  bmap 11 0 (MAXFILE 11) demo_fs2 <> Panic "bmap: out of range" /\
  bmap 11 0 (MAXFILE 11) demo_fs2 = Undefined.
Proof.
  destruct (bmap_beyond_maxfile 11 demo_fs2 0%nat (MAXFILE 11) ltac:(lia)
              ltac:(lia)) as [H1 H2].
  split; [exact H1 | apply H2; vm_compute; discriminate].
Defined.

(** The examples of the comment of skipelem, skipelem("///a//bb", name) and
    skipelem("////", name), and a component of 15 characters. *)
Lemma skipelem_spec_witness :
  skipelem [47; 47; 47; 97; 47; 47; 98; 98] (repeat 0 14)
    = Some ([98; 98], 97 :: repeat 0 13) /\
  skipelem [47; 47; 47; 47] (repeat 0 14) = None /\
  skipelem (repeat 97 15 ++ [47; 98]) (repeat 0 14) = Some ([98], repeat 97 14).
Proof.
  split; [| split].
  - apply (skipelem_spec 3 2 [97] [98; 98] (repeat 0 14)).
    + repeat constructor; unfold slash; lia.
    + unfold slash; cbn; lia.
    + intros H; discriminate H.
    + reflexivity.
    + discriminate.
  - apply (skipelem_spec 4 0 [] [] (repeat 0 14)).
    + constructor.
    + unfold slash; cbn; lia.
    + reflexivity.
    + reflexivity.
    + reflexivity.
  - apply (skipelem_spec 0 1 (repeat 97 15) [98] (repeat 0 14)).
    + repeat constructor; unfold slash; lia.
    + unfold slash; cbn; lia.
    + intros H; discriminate H.
    + reflexivity.
    + discriminate.
Defined.

(** Allocating a regular file (type 2) on the example file system, with an
    inode cache of 3 slots: inode 3 is the first free one. *)
Lemma ialloc_zeroes_dinode_witness :
  exists ip s',
    ialloc 3 1 2 demo_fs = Ret (ip, s') /\
    i_inum (icache s' ip) = 3 /\
    dinodes s' 1 3 = mkDinode 2 0 0 0 0 (d_addrs (dinodes s' 1 3)) /\
    forall k, d_addrs (dinodes s' 1 3) k = 0.
Proof.
  destruct (ialloc_zeroes_dinode 3 demo_fs 1 2) as [Hp Ht].
  destruct Ht as (ip & s' & H).
  - exists 3; split; [cbn; lia | reflexivity].
  - exists 2%nat; split; [lia | reflexivity].
  - exists ip, s'; split; [exact H |].
    assert (Hi : i_inum (icache s' ip) = 3).
    { assert (E : result (ialloc 3 1 2) demo_fs = Some ip)
        by (unfold result; rewrite H; reflexivity).
      vm_compute in E; injection E as <-.
      assert (E' : after (ialloc 3 1 2) demo_fs = s')
        by (unfold after; rewrite H; reflexivity).
      rewrite <- E'; vm_compute; reflexivity. }
    destruct (Hp ip s' H) as (_ & _ & _ & H1 & H2 & H3 & H4 & H5 & H6).
    rewrite Hi in *; split; [reflexivity |]; split; [| exact H6].
    destruct (dinodes s' 1 3); cbn in *; congruence.
Defined.

Lemma demo3_cache_ok : cache_ok 3 demo_fs3.
Proof.
  constructor.
  - intros q Hq; destruct q as [| [| [| q]]]; try lia; cbn; lia.
  - intros q r; destruct q as [| [| q]]; destruct r as [| [| r]]; cbn;
      intros H1 H2 H3 H4; try reflexivity; try lia.
  - intros q; destruct q as [| [| q]]; cbn; intros H1 H2; try lia;
      repeat split; discriminate.
Qed.

Lemma demo3_short dev inum : - 2 ^ 15 <= d_nlink (dinodes demo_fs3 dev inum) < 2 ^ 15.
Proof.
  cbn [dinodes demo_fs3]; unfold demo_dinodes3.
  destruct ((dev =? 1) && (inum =? 1)); [cbn; lia |].
  destruct ((dev =? 1) && (inum =? 2)); cbn; lia.
Qed.

(** In the root directory with the file "a": link("/", "e") is refused, and
    link("a", "a") fails after the link count of the file has been
    incremented, since the name "a" is there already. *)
Lemma sys_link_failure_atomic_witness :
  (exists s', sys_link 11 3 1 1 100 200 (Some [47]) (Some [101]) demo_fs3
              = Ret (-1, s')) /\
  exists s',
    sys_link 11 3 1 1 100 200 (Some [97]) (Some [97]) demo_fs3 = Ret (-1, s') /\
    cache_ok 3 s' /\
    forall dev inum,
      d_nlink (dinodes s' dev inum) = d_nlink (dinodes demo_fs3 dev inum).
Proof.
  split.
  - destruct (sys_link_failure_atomic 11 3 1 1 100 200 demo_fs3 (Some [47])
                (Some [101]) demo3_cache_ok ltac:(cbn; lia) demo3_short)
      as [H1 _].
    assert (Hn : namei 11 3 1 1 100 [47] demo_fs3
                 = Ret (Some 1%nat, after (namei 11 3 1 1 100 [47]) demo_fs3))
      by (apply after_ret; vm_compute; reflexivity).
    assert (Hl : ilock 1 (after (namei 11 3 1 1 100 [47]) demo_fs3)
                 = Ret (tt, after (ilock 1) (after (namei 11 3 1 1 100 [47]) demo_fs3)))
      by (apply after_ret; vm_compute; reflexivity).
    destruct (H1 [47] [101] 1%nat _ _ eq_refl eq_refl Hn Hl
                ltac:(vm_compute; reflexivity)) as [_ H2].
    apply H2; vm_compute; discriminate.
  - pose proof (after_ret (sys_link 11 3 1 1 100 200 (Some [97]) (Some [97]))
                  demo_fs3 (-1) ltac:(vm_compute; reflexivity)) as Hs.
    eexists; split; [exact Hs |].
    destruct (sys_link_failure_atomic 11 3 1 1 100 200 demo_fs3 (Some [97])
                (Some [97]) demo3_cache_ok ltac:(cbn; lia) demo3_short)
      as [_ H2].
    exact (H2 _ Hs).
Defined.

Lemma demo3_root_ref p :
  ref_at 11 demo_fs3 1 p = if pos_eqb p (PDirect 0) then 8 else 0.
Proof.
  destruct p as [k | | j | | j | j k]; reflexivity.
Qed.

Lemma demo3_root_wf : inode_wf 11 demo_fs3 1.
Proof.
  constructor.
  - cbn; lia.
  - intros p q _ _; rewrite !demo3_root_ref.
    destruct (pos_eqb p (PDirect 0)) eqn:E1; [| intros H; contradiction].
    destruct (pos_eqb q (PDirect 0)) eqn:E2; [| intros _ H; discriminate].
    apply pos_eqb_eq in E1; apply pos_eqb_eq in E2; congruence.
  - intros p _; rewrite demo3_root_ref.
    destruct (pos_eqb p (PDirect 0)); [| intros H; contradiction].
    intros _; right; right; vm_compute; reflexivity.
  - intros x Hx; cbn [sb demo_fs3] in *.
    rewrite demo_bitmap_block by exact Hx; split.
    + right; right; vm_compute; reflexivity.
    + intros p _; rewrite demo3_root_ref.
      destruct (pos_eqb p (PDirect 0)); [discriminate | intros H; contradiction].
  - right; right; vm_compute; reflexivity.
Qed.

(** mkdir("d") in the root directory with the file "a": the new directory
    is inode 3 in slot 2 of the cache. *)
Lemma create_dir_links_witness :
  exists s',
    create 11 3 1 1 2 3 100 200 [100] 1 0 0 demo_fs3 = Ret (Some 2%nat, s') /\
    i_inum (icache s' 2) = 3 /\
    d_nlink (dinodes demo_fs3 1 1) = 1 /\ d_nlink (dinodes s' 1 1) = 2 /\
    d_nlink (dinodes s' 1 3) = 1 /\ i_nlink (icache s' 2) = 1 /\
    i_size (icache s' 2) = 32 /\
    entry_inum 11 s' 2 0 = 3 /\ entry_name 11 s' 2 0 = strncpy [46] 14 /\
    entry_inum 11 s' 2 16 = 1 /\ entry_name 11 s' 2 16 = strncpy [46; 46] 14.
Proof.
  pose proof (after_ret (nameiparent 11 3 1 1 100 [100] (repeat 0 14)) demo_fs3
                (Some 1%nat, 100 :: repeat 0 13) ltac:(vm_compute; reflexivity)) as Hn.
  set (s1 := after (nameiparent 11 3 1 1 100 [100] (repeat 0 14)) demo_fs3) in *.
  pose proof (after_ret (ilock 1) s1 tt ltac:(vm_compute; reflexivity)) as Hl.
  set (s2 := after (ilock 1) s1) in *.
  pose proof (after_ret (create 11 3 1 1 2 3 100 200 [100] 1 0 0) demo_fs3
                (Some 2%nat) ltac:(vm_compute; reflexivity)) as Hc.
  set (s' := after (create 11 3 1 1 2 3 100 200 [100] 1 0 0) demo_fs3) in *.
  assert (W2 : inode_wf 11 s2 1).
  { apply (same_blocks 11 demo_fs3 s2 1); try reflexivity.
    exact demo3_root_wf. }
  assert (M2 : mapped 11 s2 1 0 (i_size (icache s2 1))).
  { intros o Ho; change (i_size (icache s2 1)) with 16 in Ho.
    assert (E : o / BSIZE = 0) by (rewrite BSIZE_val; apply Z.div_small; lia).
    rewrite E; vm_compute; discriminate. }
  pose proof (create_dir_links 11 3 1 1 2 3 100 200 demo_fs3 s1 s2 s' [100]
                (100 :: repeat 0 13) 0 0 1%nat 2%nat
                ltac:(lia) demo_maxfile ltac:(lia) ltac:(lia)
                ltac:(vm_compute; discriminate) ltac:(lia)
                ltac:(vm_compute; discriminate) ltac:(vm_compute; discriminate)
                demo3_cache_ok ltac:(vm_compute; reflexivity) Hn Hl W2
                ltac:(split; vm_compute; discriminate) M2
                ltac:(split; [vm_compute; discriminate | vm_compute; reflexivity])
                Hc) as H.
  cbv zeta in H.
  destruct H as (_ & _ & _ & _ & _ & H1 & _ & H2 & H3 & _ & H4 & _ & H5 & H6 & H7 & H8).
  exists s'; split; [exact Hc |].
  assert (Hi : i_inum (icache s' 2) = 3) by (vm_compute; reflexivity).
  rewrite Hi in H2, H5.
  split; [exact Hi |]; split; [vm_compute; reflexivity |].
  split; [exact H1 |]; split; [exact H2 |]; split; [exact H3 |]; split; [exact H4 |].
  split; [exact H5 |]; split; [exact H6 |]; split; [exact H7 | exact H8].
Defined.

Lemma demo_bitmap_reserved x :
  0 <= x < sb_size (sb demo_fs) -> reserved demo_fs 1 (BBLOCK x (sb demo_fs)).
Proof.
  intros Hx; cbn [sb demo_fs] in *; rewrite demo_bitmap_block by exact Hx.
  right; right; vm_compute; reflexivity.
Qed.

(** On the example file system balloc returns block 8, the first block
    after the blocks 0 to 7 that the bitmap marks as used. *)
Lemma balloc_first_free_witness :
  exists s',
    balloc 1 demo_fs = Ret (8, s') /\
    block_used s' 1 8 = true /\ forall o, disk s' 1 8 o = 0.
Proof.
  pose proof (after_ret (balloc 1) demo_fs 8 ltac:(vm_compute; reflexivity)) as H.
  exists (after (balloc 1) demo_fs); split; [exact H |].
  destruct (balloc_first_free 1 demo_fs _ 8 demo_bitmap_reserved H)
    as (_ & _ & _ & H1 & _ & H2 & _).
  split; [exact H1 | exact H2].
Defined.

Lemma balloc_out_of_blocks_witness :
  balloc 1 demo_fs_full = Panic "balloc: out of blocks".
Proof.
  apply balloc_out_of_blocks; intros x _; unfold block_used.
  cbn [disk demo_fs_full set_disk].
  assert (H : 0 <= x mod 8 < 8) by (apply Z.mod_pos_bound; lia).
  assert (H' : x mod 8 = 0 \/ x mod 8 = 1 \/ x mod 8 = 2 \/ x mod 8 = 3 \/
               x mod 8 = 4 \/ x mod 8 = 5 \/ x mod 8 = 6 \/ x mod 8 = 7) by lia.
  repeat (destruct H' as [-> | H']); try rewrite H'; reflexivity.
Defined.

(** Block 5 is marked as used on the example file system; freeing it clears
    its bit. *)
Lemma bfree_clears_bit_witness :
  exists s',
    bfree 1 5 demo_fs = Ret (tt, s') /\ block_used s' 1 5 = false /\
    bfree 1 5 s' = Panic "freeing free block".
Proof.
  destruct (bfree_clears_bit 1 5 demo_fs ltac:(lia) ltac:(vm_compute; reflexivity))
    as (s' & H1 & H2 & _ & _ & _ & _ & _ & H3).
  exists s'; split; [exact H1 |]; split; [exact H2 | exact H3].
Defined.

Lemma balloc_bfree_roundtrip_witness :
  exists s1 s2,
    balloc 1 demo_fs = Ret (8, s1) /\ bfree 1 8 s1 = Ret (tt, s2) /\
    forall x, 0 <= x < 64 -> block_used s2 1 x = block_used demo_fs 1 x.
Proof.
  pose proof (after_ret (balloc 1) demo_fs 8 ltac:(vm_compute; reflexivity)) as H.
  destruct (balloc_bfree_roundtrip 1 demo_fs _ 8 demo_bitmap_reserved H)
    as (s2 & H1 & H2).
  exists (after (balloc 1) demo_fs), s2; split; [exact H |]; split; [exact H1 | exact H2].
Defined.

(** On the empty example file, bmap of block 0 returns block 8 and bmap of
    block 1 then returns block 9. *)
Lemma bmap_stable_witness :
  exists s1 s2,
    bmap 11 0 0 demo_fs = Ret (8, s1) /\ bmap 11 0 1 s1 = Ret (9, s2) /\
    bmap 11 0 0 s2 = Ret (8, s2).
Proof.
  pose proof (after_ret (bmap 11 0 0) demo_fs 8 ltac:(vm_compute; reflexivity)) as H1.
  set (s1 := after (bmap 11 0 0) demo_fs) in *.
  pose proof (after_ret (bmap 11 0 1) s1 9 ltac:(vm_compute; reflexivity)) as H2.
  set (s2 := after (bmap 11 0 1) s1) in *.
  exists s1, s2; split; [exact H1 |]; split; [exact H2 |].
  destruct (bmap_stable 11 demo_fs s1 s2 0 0 1 8 9 ltac:(lia) demo_file_wf
              ltac:(vm_compute; split; [discriminate | reflexivity])
              ltac:(vm_compute; split; [discriminate | reflexivity]) H1 H2)
    as (_ & _ & _ & H3).
  exact H3.
Defined.

Lemma demo_cache_ok : cache_ok 3 demo_fs.
Proof.
  constructor.
  - intros q Hq; destruct q as [| [| [| q]]]; try lia; cbn; lia.
  - intros q r; destruct q as [| [| q]]; destruct r as [| [| r]]; cbn;
      intros H1 H2 H3 H4; try reflexivity; try lia.
  - intros q; destruct q as [| [| q]]; cbn; intros H1 H2; try lia;
      repeat split; discriminate.
Qed.

(** Inode 5 is not in the cache of the example file system: iget puts it in
    the free slot 2, and a second iget finds it there. *)
Lemma iget_shares_slot_witness :
  exists s1 s2,
    iget 3 1 5 demo_fs = Ret (2%nat, s1) /\ iget 3 1 5 s1 = Ret (2%nat, s2) /\
    i_ref (icache s2 2) = i_ref (icache s1 2) + 1.
Proof.
  pose proof (after_ret (iget 3 1 5) demo_fs 2%nat ltac:(vm_compute; reflexivity)) as H.
  destruct (iget_shares_slot 3 1 5 demo_fs _ 2%nat demo_cache_ok H)
    as (_ & _ & _ & _ & (s2 & H2 & _ & H3 & _) & _).
  exists (after (iget 3 1 5) demo_fs), s2.
  split; [exact H |]; split; [exact H2 | exact H3].
Defined.

Lemma iget_no_inodes_witness :
  iget 3 1 5 demo_fs_busy = Panic "iget: no inodes".
Proof.
  apply iget_no_inodes; intros q Hq.
  destruct q as [| [| [| q]]]; try lia; cbn; split; try lia;
    intros [_ H]; discriminate.
Defined.

(** The inodes 1 and 2 of the example file system are in use: ialloc takes
    inode 3. *)
Lemma ialloc_first_free_witness :
  exists ip s',
    ialloc 3 1 2 demo_fs = Ret (ip, s') /\ i_inum (icache s' ip) = 3 /\
    forall m, 1 <= m < 3 -> d_type (dinodes demo_fs 1 m) <> 0.
Proof.
  pose proof (after_ret (ialloc 3 1 2) demo_fs 2%nat ltac:(vm_compute; reflexivity)) as H.
  set (s' := after (ialloc 3 1 2) demo_fs) in *.
  assert (Hi : i_inum (icache s' 2) = 3) by (vm_compute; reflexivity).
  exists 2%nat, s'; split; [exact H |]; split; [exact Hi |].
  destruct (ialloc_first_free 3 demo_fs s' 1 2 2%nat H) as (H1 & _).
  rewrite Hi in H1; exact H1.
Defined.

Lemma ialloc_no_inodes_witness :
  ialloc 3 1 2 demo_fs_busy = Panic "ialloc: no inodes".
Proof. apply ialloc_no_inodes; intros n _; cbn; discriminate. Defined.

Lemma demo3_mapped : mapped 11 demo_fs3 1 0 (i_size (icache demo_fs3 1)).
Proof.
  intros o Ho; change (i_size (icache demo_fs3 1)) with 16 in Ho.
  assert (E : o / BSIZE = 0) by (rewrite BSIZE_val; apply Z.div_small; lia).
  rewrite E; vm_compute; discriminate.
Qed.

(** In the root directory of the third example, the name "a" is found at
    offset 0 and is inode 2, which slot 0 of the cache holds already. *)
Lemma dirlookup_first_match_witness :
  exists s',
    dirlookup 11 3 1 100 1 [97] demo_fs3 = Ret (Some (0%nat, 0), s') /\
    i_inum (icache s' 0) = entry_inum 11 demo_fs3 1 0 /\
    entry_inum 11 demo_fs3 1 0 <> 0.
Proof.
  destruct (dirlookup_first_match 11 3 1 100 demo_fs3 1 [97] ltac:(lia)
              demo_maxfile ltac:(split; vm_compute; discriminate)
              ltac:(vm_compute; reflexivity) ltac:(lia)
              ltac:(vm_compute; discriminate) demo3_mapped eq_refl
              ltac:(exists 2%nat; split; [lia | reflexivity]))
    as (r & s' & H & _ & _ & Hres).
  assert (E : result (dirlookup 11 3 1 100 1 [97]) demo_fs3 = Some r)
    by (unfold result; rewrite H; reflexivity).
  vm_compute in E; injection E as <-.
  destruct Hres as (_ & _ & _ & H1 & _ & _ & _ & H2 & _).
  exists s'; split; [exact H |]; split; [exact H2 | exact H1].
Defined.

(** Entering the name "b" for inode 3 in the root directory of the third
    example, and looking it up. *)
Lemma dirlink_dirlookup_roundtrip_witness :
  exists s1 ip off s2,
    dirlink 11 3 1 100 200 1 [98] 3 demo_fs3 = Ret (0, s1) /\
    dirlookup 11 3 1 100 1 [98] s1 = Ret (Some (ip, off), s2) /\
    i_inum (icache s2 ip) = to_ushort 3.
Proof.
  pose proof (after_ret (dirlink 11 3 1 100 200 1 [98] 3) demo_fs3 0
                ltac:(vm_compute; reflexivity)) as H.
  set (s1 := after (dirlink 11 3 1 100 200 1 [98] 3) demo_fs3) in *.
  destruct (dirlink_dirlookup_roundtrip 11 3 1 100 200 demo_fs3 s1 1 [98] 3
              ltac:(lia) demo_maxfile demo3_root_wf
              ltac:(split; vm_compute; discriminate) ltac:(vm_compute; reflexivity)
              demo3_mapped ltac:(lia) ltac:(vm_compute; discriminate) ltac:(lia)
              ltac:(vm_compute; discriminate) ltac:(vm_compute; discriminate)
              ltac:(exists 2%nat; split; [lia | reflexivity]) H)
    as (ip & off & s2 & H1 & _ & H2 & _).
  exists s1, ip, off, s2; split; [exact H |]; split; [exact H1 | exact H2].
Defined.

Lemma demo4_mapped : mapped 11 demo_fs4 1 0 (i_size (icache demo_fs4 1)).
Proof.
  intros o Ho; change (i_size (icache demo_fs4 1)) with 48 in Ho.
  assert (E : o / BSIZE = 0) by (rewrite BSIZE_val; apply Z.div_small; lia).
  rewrite E; vm_compute; discriminate.
Qed.

Lemma demo4_cache_ok : cache_ok 3 demo_fs4.
Proof.
  constructor.
  - intros q Hq; destruct q as [| [| [| q]]]; try lia; cbn; lia.
  - intros q r; destruct q as [| [| q]]; destruct r as [| [| r]]; cbn;
      intros H1 H2 H3 H4; try reflexivity; try lia.
  - intros q; destruct q as [| [| q]]; cbn; intros H1 H2; try lia;
      repeat split; discriminate.
Qed.

(** The root directory of the fourth example has the entry "a" after "."
    and "..": it is not empty. *)
Lemma isdirempty_spec_witness :
  exists s', isdirempty 11 300 1 demo_fs4 = Ret (0, s') /\ kmem_only demo_fs4 s'.
Proof.
  destruct (isdirempty_spec 11 300 demo_fs4 1 ltac:(lia) demo_maxfile
              ltac:(split; vm_compute; discriminate) ltac:(vm_compute; reflexivity)
              ltac:(lia) ltac:(vm_compute; discriminate) demo4_mapped)
    as (r & s' & H & K & _).
  assert (E : result (isdirempty 11 300 1) demo_fs4 = Some r)
    by (unfold result; rewrite H; reflexivity).
  vm_compute in E; injection E as <-.
  exists s'; split; [exact H | exact K].
Defined.



(** With the descriptors 0 and 1 in use, fdalloc returns 2. *)
Lemma fdalloc_lowest_free_witness :
  exists ofile',
    fdalloc 16 demo_ofile 9 = (2, ofile') /\ demo_ofile 2 = 0 /\ ofile' 2 = 9.
Proof.
  exists (snd (fdalloc 16 demo_ofile 9)).
  assert (H : fdalloc 16 demo_ofile 9 = (2, snd (fdalloc 16 demo_ofile 9)))
    by reflexivity.
  split; [exact H |].
  destruct (fdalloc_lowest_free 16 demo_ofile _ 9 2 H)
    as [(E & _) | (_ & H1 & _ & H2 & _)]; [discriminate |].
  split; [exact H1 | exact H2].
Defined.

Lemma fdalloc_argfd_roundtrip_witness :
  exists ofile',
    fdalloc 16 demo_ofile 9 = (2, ofile') /\ argfd 16 ofile' (Some 2) = Some (2, 9).
Proof.
  exists (snd (fdalloc 16 demo_ofile 9)).
  assert (H : fdalloc 16 demo_ofile 9 = (2, snd (fdalloc 16 demo_ofile 9)))
    by reflexivity.
  split; [exact H |].
  destruct (fdalloc_argfd_roundtrip 16 demo_ofile _ 9 2 H ltac:(discriminate)
              ltac:(discriminate)) as (H1 & _).
  exact H1.
Defined.

Lemma demo2_file_ref (s : fs) p :
  sb s = demo_sb -> disk s = demo_disk2 ->
  i_dev (icache s 0) = 1 -> i_addrs (icache s 0) = demo_addrs2 ->
  ref_at 11 s 0 p
  = match p with PDirect k => demo_addrs2 k | PDbl => 10 | _ => 0 end.
Proof.
  intros _ Hd Hdev Ha; destruct p as [k | | j | | j | j k]; cbn [ref_at];
    rewrite ?Hdev, ?Ha; try reflexivity; unfold u32_at; rewrite Hd; reflexivity.
Qed.

Lemma demo2_file_wf (s : fs) :
  sb s = demo_sb -> disk s = demo_disk2 ->
  i_dev (icache s 0) = 1 -> i_addrs (icache s 0) = demo_addrs2 ->
  inode_wf 11 s 0 /\
  forall p, valid_pos 11 p -> ref_at 11 s 0 p <> 0 ->
    0 <= ref_at 11 s 0 p < sb_size (sb s).
Proof.
  intros Hsb Hd Hdev Ha.
  pose proof (fun p => demo2_file_ref s p Hsb Hd Hdev Ha) as Hr.
  assert (Hcases : forall p, valid_pos 11 p -> ref_at 11 s 0 p <> 0 ->
            (p = PDirect 0 /\ ref_at 11 s 0 p = 8) \/
            (p = PDirect 1 /\ ref_at 11 s 0 p = 9) \/
            (p = PDbl /\ ref_at 11 s 0 p = 10)).
  { intros p Hp; rewrite Hr; destruct p as [k | | j | | j | j k];
      try (intros H; contradiction).
    - cbn in Hp; unfold demo_addrs2.
      destruct (k =? 0) eqn:E0; [apply Z.eqb_eq in E0; subst k; intros _; left; split; reflexivity |].
      destruct (k =? 1) eqn:E1; [apply Z.eqb_eq in E1; subst k; intros _; right; left; split; reflexivity |].
      destruct (k =? 12) eqn:E2; [apply Z.eqb_eq in E2; lia | intros H; contradiction].
    - intros _; right; right; split; reflexivity. }
  assert (Hused : forall b, b = 8 \/ b = 9 \/ b = 10 ->
            block_used s 1 b = true /\ forall x, 0 <= x < 64 -> b <> BBLOCK x demo_sb).
  { intros b Hb; split.
    - unfold block_used; rewrite Hsb, Hd.
      destruct Hb as [-> | [-> | ->]]; vm_compute; reflexivity.
    - intros x Hx; rewrite demo_bitmap_block by exact Hx; lia. }
  split; [constructor |].
  - rewrite Hsb; cbn; lia.
  - intros p q Hp Hq Hnz E.
    destruct (Hcases p Hp Hnz) as [[-> E1] | [[-> E1] | [-> E1]]];
      rewrite E1 in E;
      (destruct (Hcases q Hq ltac:(rewrite <- E; discriminate))
         as [[-> E2] | [[-> E2] | [-> E2]]]);
      rewrite E2 in E; try reflexivity; discriminate.
  - intros p Hp Hnz; right; right; rewrite Hdev.
    apply Hused; destruct (Hcases p Hp Hnz) as [[_ E] | [[_ E] | [_ E]]]; lia.
  - intros x Hx; rewrite Hsb in *; cbn [sb_size demo_sb] in Hx; split.
    + rewrite demo_bitmap_block by exact Hx; right; right.
      unfold block_used; rewrite Hsb, Hd, Hdev; vm_compute; reflexivity.
    + intros p Hp Hnz.
      apply Hused; [| exact Hx].
      destruct (Hcases p Hp Hnz) as [[_ E] | [[_ E] | [_ E]]]; lia.
  - right; right; unfold block_used; rewrite Hsb, Hd, Hdev; vm_compute; reflexivity.
  - intros p Hp Hnz; rewrite Hsb; cbn [sb_size demo_sb].
    destruct (Hcases p Hp Hnz) as [[_ E] | [[_ E] | [_ E]]]; lia.
Qed.

(** Truncating the file of the second example frees its blocks 8, 9 and
    10. *)
Lemma itrunc_frees_blocks_witness :
  exists s',
    itrunc 11 0 demo_fs2 = Ret (tt, s') /\
    block_used s' 1 8 = false /\ block_used s' 1 9 = false /\
    block_used s' 1 10 = false /\ i_size (icache s' 0) = 0.
Proof.
  destruct (demo2_file_wf demo_fs2 eq_refl eq_refl eq_refl eq_refl) as [W Hrng].
  destruct (itrunc_frees_blocks 11 demo_fs2 0 ltac:(lia) W Hrng)
    as (s' & H & Ha & _ & _ & Hs & _).
  exists s'; split; [exact H |].
  split; [apply (Ha (PDirect 0)); [cbn; lia | discriminate] |].
  split; [apply (Ha (PDirect 1)); [cbn; lia | discriminate] |].
  split; [apply (Ha PDbl); [exact I | discriminate] | exact Hs].
Defined.

(** Dropping the only reference to the file of the fifth example, which
    has no link: the inode is freed on disk. *)
Lemma iput_frees_unlinked_witness :
  exists s',
    iput 11 0 demo_fs5 = Ret (tt, s') /\
    block_used s' 1 8 = false /\ d_type (dinodes s' 1 2) = 0 /\
    i_ref (icache s' 0) = 0.
Proof.
  destruct (demo2_file_wf demo_fs5 eq_refl eq_refl eq_refl eq_refl) as [W Hrng].
  destruct (iput_frees_unlinked 11 demo_fs5 0 ltac:(lia) W Hrng eq_refl
              ltac:(discriminate) eq_refl eq_refl)
    as (s' & H & Ha & _ & _ & Hr & _ & _ & Hd & _).
  exists s'; split; [exact H |].
  split; [apply (Ha (PDirect 0)); [cbn; lia | discriminate] |].
  split; [apply Hd | exact Hr].
Defined.

(** unlink("a") in the root directory of the fourth example: the file is
    inode 2 and loses its only link, the link count of the directory
    stays. *)
Lemma sys_unlink_links_witness :
  exists s',
    sys_unlink 11 3 1 1 100 300 400 (Some [97]) demo_fs4 = Ret (0, s') /\
    d_nlink (dinodes demo_fs4 1 2) = 1 /\ d_nlink (dinodes s' 1 2) = 0 /\
    d_nlink (dinodes s' 1 1) = d_nlink (dinodes demo_fs4 1 1).
Proof.
  pose proof (after_ret (nameiparent 11 3 1 1 100 [97] (repeat 0 14)) demo_fs4
                (Some 1%nat, 97 :: repeat 0 13) ltac:(vm_compute; reflexivity)) as Hn.
  set (s1 := after (nameiparent 11 3 1 1 100 [97] (repeat 0 14)) demo_fs4) in *.
  pose proof (after_ret (ilock 1) s1 tt ltac:(vm_compute; reflexivity)) as Hl.
  set (s2 := after (ilock 1) s1) in *.
  pose proof (after_ret (dirlookup 11 3 1 100 1 (97 :: repeat 0 13)) s2
                (Some (0%nat, 32)) ltac:(vm_compute; reflexivity)) as Hd.
  set (s3 := after (dirlookup 11 3 1 100 1 (97 :: repeat 0 13)) s2) in *.
  pose proof (after_ret (ilock 0) s3 tt ltac:(vm_compute; reflexivity)) as Hl4.
  set (s4 := after (ilock 0) s3) in *.
  pose proof (after_ret (sys_unlink 11 3 1 1 100 300 400 (Some [97])) demo_fs4 0
                ltac:(vm_compute; reflexivity)) as H.
  set (s' := after (sys_unlink 11 3 1 1 100 300 400 (Some [97])) demo_fs4) in *.
  pose proof (sys_unlink_links 11 3 1 1 100 300 400 demo_fs4 s1 s2 s3 s4 s' [97]
                (97 :: repeat 0 13) 1%nat 0%nat 32 demo4_cache_ok ltac:(cbn; lia)
                Hn Hl Hd Hl4 H) as R.
  cbv zeta in R; destruct R as (_ & _ & _ & _ & _ & R1 & R2 & _).
  change (i_dev (icache s4 0)) with 1 in R1.
  change (i_inum (icache s4 0)) with 2 in R1.
  change (i_dev (icache s4 1)) with 1 in R2.
  change (i_inum (icache s4 1)) with 1 in R2.
  change (i_type (icache s4 0) =? 1) with false in R2.
  exists s'; split; [exact H |]; split; [reflexivity |]; split; [| exact R2].
  rewrite R1; reflexivity.
Defined.


(** mkdir("a") in the fourth example, where "a" is a file. *)
Lemma sys_mkdir_existing_witness :
  exists s',
    sys_mkdir 11 3 1 1 2 3 100 200 (Some [97]) demo_fs4 = Ret (-1, s') /\
    cache_ok 3 s'.
Proof.
  pose proof (after_ret (nameiparent 11 3 1 1 100 [97] (repeat 0 14)) demo_fs4
                (Some 1%nat, 97 :: repeat 0 13) ltac:(vm_compute; reflexivity)) as Hn.
  set (s1 := after (nameiparent 11 3 1 1 100 [97] (repeat 0 14)) demo_fs4) in *.
  pose proof (after_ret (ilock 1) s1 tt ltac:(vm_compute; reflexivity)) as Hl.
  set (s2 := after (ilock 1) s1) in *.
  pose proof (after_ret (dirlookup 11 3 1 100 1 (97 :: repeat 0 13)) s2
                (Some (0%nat, 32)) ltac:(vm_compute; reflexivity)) as Hd.
  set (s3 := after (dirlookup 11 3 1 100 1 (97 :: repeat 0 13)) s2) in *.
  pose proof (after_ret (sys_mkdir 11 3 1 1 2 3 100 200 (Some [97])) demo_fs4 (-1)
                ltac:(vm_compute; reflexivity)) as H.
  set (s' := after (sys_mkdir 11 3 1 1 2 3 100 200 (Some [97])) demo_fs4) in *.
  destruct (sys_mkdir_existing 11 3 1 1 2 3 100 200 demo_fs4 s1 s2 s3 s' [97]
              (97 :: repeat 0 13) 1%nat 0%nat 32 (-1) ltac:(lia)
              demo4_cache_ok ltac:(cbn; lia) Hn Hl Hd H)
    as (_ & C' & _).
  exists s'; split; [exact H | exact C'].
Defined.

(** link("a", "b") in the fourth example: the file, inode 2, has two links
    afterwards. *)
Lemma sys_link_success_witness :
  exists s',
    sys_link 11 3 1 1 100 200 (Some [97]) (Some [98]) demo_fs4 = Ret (0, s') /\
    d_nlink (dinodes demo_fs4 1 2) = 1 /\ d_nlink (dinodes s' 1 2) = 2 /\
    cache_ok 3 s'.
Proof.
  pose proof (after_ret (namei 11 3 1 1 100 [97]) demo_fs4 (Some 0%nat)
                ltac:(vm_compute; reflexivity)) as Hn.
  set (s1 := after (namei 11 3 1 1 100 [97]) demo_fs4) in *.
  pose proof (after_ret (ilock 0) s1 tt ltac:(vm_compute; reflexivity)) as Hl.
  set (s2 := after (ilock 0) s1) in *.
  pose proof (after_ret (sys_link 11 3 1 1 100 200 (Some [97]) (Some [98])) demo_fs4 0
                ltac:(vm_compute; reflexivity)) as H.
  set (s' := after (sys_link 11 3 1 1 100 200 (Some [97]) (Some [98])) demo_fs4) in *.
  pose proof (sys_link_success 11 3 1 1 100 200 demo_fs4 s1 s2 s' [97] [98] 0%nat
                demo4_cache_ok ltac:(cbn; lia) Hn Hl H) as R.
  cbv zeta in R; destruct R as (C' & _ & R1 & _).
  change (i_dev (icache s1 0)) with 1 in R1.
  change (i_inum (icache s1 0)) with 2 in R1.
  exists s'; split; [exact H |]; split; [reflexivity |]; split; [| exact C'].
  rewrite R1; reflexivity.
Defined.


Lemma demo4_root_wf (s : fs) :
  sb s = demo_sb -> disk s = demo_disk4 ->
  i_dev (icache s 1) = 1 -> i_addrs (icache s 1) = demo_addrs3 ->
  inode_wf 11 s 1.
Proof.
  intros Hsb Hd Hdev Ha.
  assert (Hr : forall p, ref_at 11 s 1 p = if pos_eqb p (PDirect 0) then 8 else 0).
  { intros p; destruct p as [k | | j | | j | j k]; cbn [ref_at];
      rewrite ?Hdev, ?Ha; reflexivity. }
  assert (Hu : forall b, b = 0 \/ b = 3 \/ b = 8 -> reserved s 1 b).
  { intros b Hb; right; right; unfold block_used; rewrite Hsb, Hd.
    destruct Hb as [-> | [-> | ->]]; vm_compute; reflexivity. }
  constructor.
  - rewrite Hsb; cbn; lia.
  - intros p q _ _; rewrite !Hr.
    destruct (pos_eqb p (PDirect 0)) eqn:E1; [| intros H; contradiction].
    destruct (pos_eqb q (PDirect 0)) eqn:E2; [| intros _ H; discriminate].
    apply pos_eqb_eq in E1; apply pos_eqb_eq in E2; congruence.
  - intros p _; rewrite Hr, Hdev.
    destruct (pos_eqb p (PDirect 0)); [| intros H; contradiction].
    intros _; apply Hu; tauto.
  - intros x Hx; rewrite Hsb in *; cbn [sb_size demo_sb] in Hx.
    rewrite demo_bitmap_block by exact Hx; rewrite Hdev; split.
    + apply Hu; tauto.
    + intros p _; rewrite Hr.
      destruct (pos_eqb p (PDirect 0)); [discriminate | intros H; contradiction].
  - rewrite Hdev; apply Hu; tauto.
Qed.

(** unlink("a") in the root directory of the fourth example: the third
    entry of the directory, at offset 32, is empty afterwards and the
    directory still has its three entries. *)
Lemma sys_unlink_clears_entry_witness :
  exists s',
    sys_unlink 11 3 1 1 100 300 400 (Some [97]) demo_fs4 = Ret (0, s') /\
    entry_inum 11 demo_fs4 1 32 = 2 /\ entry_inum 11 s' 1 32 = 0 /\
    i_size (icache s' 1) = 48.
Proof.
  pose proof (after_ret (nameiparent 11 3 1 1 100 [97] (repeat 0 14)) demo_fs4
                (Some 1%nat, 97 :: repeat 0 13) ltac:(vm_compute; reflexivity)) as Hn.
  set (s1 := after (nameiparent 11 3 1 1 100 [97] (repeat 0 14)) demo_fs4) in *.
  pose proof (after_ret (ilock 1) s1 tt ltac:(vm_compute; reflexivity)) as Hl.
  set (s2 := after (ilock 1) s1) in *.
  pose proof (after_ret (dirlookup 11 3 1 100 1 (97 :: repeat 0 13)) s2
                (Some (0%nat, 32)) ltac:(vm_compute; reflexivity)) as Hd.
  set (s3 := after (dirlookup 11 3 1 100 1 (97 :: repeat 0 13)) s2) in *.
  pose proof (after_ret (ilock 0) s3 tt ltac:(vm_compute; reflexivity)) as Hl4.
  set (s4 := after (ilock 0) s3) in *.
  pose proof (after_ret (sys_unlink 11 3 1 1 100 300 400 (Some [97])) demo_fs4 0
                ltac:(vm_compute; reflexivity)) as H.
  set (s' := after (sys_unlink 11 3 1 1 100 300 400 (Some [97])) demo_fs4) in *.
  assert (Wd : inode_wf 11 s2 1)
    by (apply demo4_root_wf; vm_compute; reflexivity).
  assert (Hmap : mapped 11 s2 1 0 (i_size (icache s2 1))).
  { intros o Ho; change (i_size (icache s2 1)) with 48 in Ho.
    assert (E : o / BSIZE = 0) by (rewrite BSIZE_val; apply Z.div_small; lia).
    rewrite E; vm_compute; discriminate. }
  assert (He : forall p, ref_at 11 s4 0 p = 0)
    by (intros p; apply ref_at_empty; intros k; reflexivity).
  assert (Wi : inode_wf 11 s4 0).
  { apply inode_wf_empty.
    - intros k; reflexivity.
    - change (sb_size (sb s4)) with 64; lia.
    - intros x Hx; change (sb s4) with demo_sb in *; cbn [sb_size demo_sb] in Hx.
      rewrite demo_bitmap_block by exact Hx.
      right; right; vm_compute; reflexivity.
    - right; right; vm_compute; reflexivity. }
  destruct (sys_unlink_clears_entry 11 3 1 1 100 300 400 demo_fs4 s1 s2 s3 s4 s' [97]
              (97 :: repeat 0 13) 1%nat 0%nat 32 ltac:(lia) demo_maxfile
              ltac:(lia) ltac:(vm_compute; discriminate)
              ltac:(lia) ltac:(vm_compute; discriminate)
              Hn Hl Wd ltac:(vm_compute; discriminate) Hmap
              ltac:(vm_compute; discriminate) Hd Hl4
              ltac:(vm_compute; discriminate) Wi
              ltac:(intros p _ Hp; rewrite He in Hp; contradiction)
              ltac:(intros p _ Hp; rewrite He in Hp; contradiction) H)
    as (_ & _ & _ & _ & _ & _ & Z' & E' & _).
  exists s'; split; [exact H |]; split; [vm_compute; reflexivity |].
  split; [exact E' | exact Z'].
Defined.

(** dirlink of "a" in the root directory of the fourth example, which has
    the entry "a": the call returns -1 and leaves the disk as it is. *)
Lemma dirlink_no_duplicate_witness :
  exists s',
    dirlink 11 3 1 100 200 1 [97] 5 demo_fs4 = Ret (-1, s') /\
    disk s' = disk demo_fs4 /\ icache s' 0 = icache demo_fs4 0.
Proof.
  pose proof (after_ret (dirlink 11 3 1 100 200 1 [97] 5) demo_fs4 (-1)
                ltac:(vm_compute; reflexivity)) as H.
  set (s' := after (dirlink 11 3 1 100 200 1 [97] 5) demo_fs4) in *.
  destruct (dirlink_no_duplicate 11 3 1 100 200 demo_fs4 s' 1 [97] 5 (-1)
              ltac:(lia) demo_maxfile ltac:(vm_compute; discriminate)
              ltac:(lia) ltac:(vm_compute; discriminate) demo4_mapped H)
    as [(_ & _ & _ & D & _ & _ & I) | [E _]]; [| discriminate].
  exists s'; split; [exact H |]; split; [exact D |].
  apply I; cbn; lia.
Defined.

(** unlink("d") in the sixth example, where the directory "d" holds the
    file "a": the call is refused. *)
Lemma sys_unlink_dir_empty_witness :
  exists s',
    sys_unlink 11 3 1 1 100 300 400 (Some [100]) demo_fs6 = Ret (-1, s') /\
    exists o, entry_inum 11 (after (ilock 2)
                (after (dirlookup 11 3 1 100 1 (100 :: repeat 0 13))
                   (after (ilock 1)
                      (after (nameiparent 11 3 1 1 100 [100] (repeat 0 14)) demo_fs6))))
                2 o <> 0.
Proof.
  pose proof (after_ret (nameiparent 11 3 1 1 100 [100] (repeat 0 14)) demo_fs6
                (Some 1%nat, 100 :: repeat 0 13) ltac:(vm_compute; reflexivity)) as Hn.
  set (s1 := after (nameiparent 11 3 1 1 100 [100] (repeat 0 14)) demo_fs6) in *.
  pose proof (after_ret (ilock 1) s1 tt ltac:(vm_compute; reflexivity)) as Hl.
  set (s2 := after (ilock 1) s1) in *.
  pose proof (after_ret (dirlookup 11 3 1 100 1 (100 :: repeat 0 13)) s2
                (Some (2%nat, 32)) ltac:(vm_compute; reflexivity)) as Hd.
  set (s3 := after (dirlookup 11 3 1 100 1 (100 :: repeat 0 13)) s2) in *.
  pose proof (after_ret (ilock 2) s3 tt ltac:(vm_compute; reflexivity)) as Hl4.
  set (s4 := after (ilock 2) s3) in *.
  pose proof (after_ret (sys_unlink 11 3 1 1 100 300 400 (Some [100])) demo_fs6 (-1)
                ltac:(vm_compute; reflexivity)) as H.
  set (s' := after (sys_unlink 11 3 1 1 100 300 400 (Some [100])) demo_fs6) in *.
  assert (Hmap : mapped 11 s4 2 0 (i_size (icache s4 2))).
  { intros o Ho; change (i_size (icache s4 2)) with 48 in Ho.
    assert (E : o / BSIZE = 0) by (rewrite BSIZE_val; apply Z.div_small; lia).
    rewrite E; vm_compute; discriminate. }
  destruct (sys_unlink_dir_empty 11 3 1 1 100 300 400 demo_fs6 s1 s2 s3 s4 s' [100]
              (100 :: repeat 0 13) 1%nat 2%nat 32 (-1) ltac:(lia) demo_maxfile
              ltac:(lia) ltac:(vm_compute; discriminate) Hn
              ltac:(vm_compute; discriminate) ltac:(vm_compute; discriminate)
              Hl Hd Hl4 ltac:(vm_compute; reflexivity)
              ltac:(vm_compute; discriminate) Hmap H)
    as [[E _] | (_ & o & _ & _ & _ & Ho)]; [discriminate |].
  exists s'; split; [exact H |]; exists o; exact Ho.
Defined.
